(* ===== verification/_CoqProject ===== *)
-Q . S2P
Prelude.v
Mem.v
Filters.v
Info.v
SafeInt.v
Radiotap.v
Ieee80211.v
SafeChecker.v
Crc.v
LlcFrame.v
LlcCrc.v
Llc.v
PdcpSegment.v
PdcpUl.v
PdcpTx.v
PdcpDl.v
PdcpOrder.v
PdcpRx.v
Pdcp.v
PdcpRxOrder.v
PdcpLink.v
EndPoint.v
UdpEndPoint.v
TcpServer.v
TcpClient.v
PdcpRxLimits.v
LlcTx.v
LlcRx.v
LlcConf.v
LlcArq.v
LlcLink.v
LlcLimits.v
LlcUl.v
FecFrame.v
Ticker.v
TxScheduler.v
TxStack.v
RxFrame.v
FrameLink.v
RrcMsg.v
Timer.v
LcRrc.v
AppRrc.v
AppWifi.v
AppSetup.v
Logger.v
Config.v
Console.v
Reactor.v
RrcEvents.v
Store.v
Function.v
Buffer.v
Metric.v
