(* ===== verification/Prelude.v ===== *)
(** * WInject

    A verification of WInject, a radio link over injected 802.11 frames
    ([src/winject]) and of the support code it is built on
    ([src/cpp_dependencies/bfc], [src/cpp_dependencies/cum]).

    ** The program

    A station carries up to sixteen logical channels. In the direction of
    transmission a channel is an endpoint that hands frames to a PDCP, the PDCP
    that cuts them into segments, and an LLC that numbers and protects the
    PDUs, and sends again those that are not acknowledged. Every slot the
    scheduler ([TxScheduler]) collects the PDUs of all LLCs into one FEC frame,
    which [AppRRC] sends as the payload of an 802.11 data frame behind a
    radiotap header. In the direction of reception the socket filter picks the
    frames of the peer, and [AppRRC] takes the FEC frame apart and gives each
    PDU to the LLC of its channel; acknowledgements go to the transmit side of
    that LLC, the payload to the PDCP, which puts the frames together again and,
    if so configured, in order. Channel 0 carries RRC messages: the two ends of
    a channel exchange their configurations with them ([LCRRC]) and switch the
    channel on.

    What the application runs are the classes [LLC] and [PDCP], with both
    directions in one object. Beside them the repository has newer layers of
    one direction each ([llc_ul], [pdcp_ul], [pdcp_dl]), which have their own
    unit tests and are not yet used by [AppRRC]; both are modelled.

    ** The files

    Ground:
    - [Prelude]: the outcomes of C++ code ([res]: a value, undefined behaviour,
      an exception), machine integers ([u8] .. [u64] are the reductions to a
      width), record updates, tactics and hints.
    - [Mem]: byte buffers with checked access. Everything below that touches a
      buffer goes through [rd], [wr], [rd_n], [wr_n], so an access outside the
      buffer is a visible outcome and memory safety a theorem.
    - [Info] ([info_defs.hpp], [pdu.hpp], [ILLC.hpp], [IPDCP.hpp], [IRRC.hpp]):
      what the layers pass to each other, and the class [Ipdcp] of what an LLC
      asks of its PDCP.

    Views of a buffer (a pointer member is an offset, or an optional one if it
    may be null):
    - [SafeInt] ([safeint.hpp]), [SafeChecker] ([frames/safe_checker]):
      integers of fixed byte order and the bounds-checked cursor.
    - [Crc] ([crc.hpp]): the table-driven CRC against the bit-serial register.
    - [LlcFrame] ([frames/basic_llc]), [LlcCrc] (a PDU as bytes, and its CRC),
      [PdcpSegment] ([frames/basic_pdcp_segment], [frames/pdcp]), [FecFrame]
      ([frames/basic_fec]), [Ieee80211] ([frames/802_11]), [Radiotap]
      ([radiotap.hpp]).
    - [Filters] ([802_11_filters.hpp]): the socket filters, as programs of the
      classic Berkeley packet filter.

    The layers the application runs:
    - [Llc] ([LLC.hpp], [LLC.cpp]): state and operations. [LlcTx], [LlcRx]: what
      a call does on every branch. [LlcConf]: configuration and the reachable
      states. [LlcArq]: the histories of a channel in acknowledged mode.
      [LlcLink]: two LLCs, one receiving what the other sends. [LlcLimits]: the
      inputs and configurations for which this fails.
    - [Pdcp] ([PDCP.hpp], [PDCP.cpp]) from [PdcpTx] and [PdcpRx]: queue and
      segmentation, reassembly and hand-out. [PdcpRxOrder]: delivery in order.
      [PdcpLink]: the two sides joined, from queue to read. [PdcpRxLimits]:
      where it fails.
    - [TxScheduler] ([TxScheduler.hpp]): the work of one slot, against an
      interface to the LLCs (class [Illc] with laws [IllcLaws]) and to
      [std::sort] (class [StdSort]); what it promises is deficit round-robin
      over the calls it makes ([drr]), without its state. [Ticker]: its thread, its lock and [stop]
      as the steps of two threads. [TxStack]: the interface discharged by the
      LLC and PDCP objects.
    - [RxFrame] ([AppRRC::process_rx_frame]): the demultiplexer, against an
      interface to the LLCs (class [IllcRx] with laws [IllcRxLaws]).
      [FrameLink]: the interface discharged, and the frame of a scheduler
      received by the layers of the peer.
    - [AppWifi] ([AppRRC], [WIFI.hpp], [WIFIUDP.hpp]): the base frame, sending
      and receiving. [AppSetup] ([AppRRC]): the constructor. [Config]
      ([main.cpp]): the reading of its configuration, against an interface to
      the JSON library (class [Json]). [Logger] ([Logger.hpp]): the bits that
      it and the console set. [Console] ([AppRRC],
      [bfc/command_manager.hpp]): the commands that arrive on its socket.
    - [Function] ([bfc/function.hpp]), [Buffer] ([bfc/buffer.hpp],
      [bfc/sized_buffer.hpp]): callables with the objects behind them and the
      places these were made at, for which bytes may be moved or not, and owned
      memory; [Store] has the accounts of what variables own. [Metric]
      ([bfc/metric.hpp], [TxScheduler::tick_wait]): the metrics, and the wait
      between slots. The other files take a callable for the function it runs.
    - [Reactor] ([bfc/epoll_reactor.hpp]): the event loop the application runs
      in, against what [epoll] answers, what callbacks do and what other threads
      do meanwhile, the two halves of [wake_up] apart. [RrcEvents]: the
      queue of events other threads fill for it, as the steps of threads.

    The end points:
    - [EndPoint] ([bfc/socket.hpp] and what the end points share): addresses,
      the owner of a descriptor, the answers of the operating system.
    - [UdpEndPoint] ([UDPEndPoint.hpp]): its threads, and the tunnel from one
      end point through two PDCPs to the other. [TcpServer], [TcpClient]
      ([TCPServerEndPoint.hpp], [TCPClientEndPoint.hpp]): the threads and
      the calls of the RRC as steps on one object; an event is queued under the
      lock in one step and the descriptor written in a later one.

    The newer layers:
    - [PdcpUl], [PdcpDl] ([pdcp/pdcp_ul], [pdcp/pdcp_dl]); [PdcpOrder] has the
      contract of the downlink, in-order delivery.
    - [LlcUl] ([llc/llc_ul]): PDUs are views of shared buffers; the buffers live
      in a heap and a view names one.

    Control:
    - [RrcMsg] ([interface/rrc.hpp], [cum.hpp]): the RRC messages, their codec
      and their printer.
    - [Timer] ([bfc/timer.hpp]), [LcRrc] ([LCRRC.hpp]), [AppRrc] ([AppRRC]):
      timers, the set-up of one channel, and the events of the application.

    Each operation is a function with the name of its C++ counterpart. It
    takes the state of the object and returns the new one with its result;
    where the code writes into a buffer, the buffer is passed and returned too.
    Method names that occur in several classes carry a prefix or are told apart
    by their file. C++ [uint8_t] .. [uint64_t] are integers in [Z], and each
    operation that can wrap is followed by the reduction to its width.

    ** The theorems

    - From end to end: over a link in order, the frames read at one side of a
      PDCP, those waiting there and those left at the other are the frames
      accepted ([pdcp_link]), and enough slots leave none behind
      ([pdcp_link_drains]), and with UDP end points the datagrams read from one
      socket are those sent on the other and those on the way ([udp_tunnel]);
      a slot of the scheduler over the LLC and PDCP objects
      ends with a gapless row of PDUs in the frame ([stack_slot]); such a row,
      in a frame that arrives, is found again and heard by the layers of the
      peer ([frame_received]); in between, what is sent after the
      set-up of the base frame passes the filter of exactly the peers configured
      for it and is received with the payload that was written ([wifi_link]); and the constructor makes a state that
      the slots start from ([app_set_up]), from what [main] reads
      ([config_read_ok]).
    - PDCP: writing refines an abstract plan of segments, is memory safe for
      views of any size, conserves the bytes queued and makes progress;
      segments are parsed as encoded; both receivers deliver whole frames in the
      order sent for every history inside the window; malformed input is
      refused, but for the inputs of [PdcpRxLimits].
    - LLC: a call takes one step of an abstract machine and writes the bytes of
      its PDUs; in acknowledged mode no PDU is lost between the slots and the
      queue, and an acknowledgement in time frees the slot of its PDU; for
      [llc_ul], slots, queue, sequence numbers and counters agree in every
      reachable state, and an acknowledgement is accepted once. The header
      accessors are exact.
    - CRC: the table computes the register; bursts of four bytes are detected.
    - FEC and scheduler: the layout of a scanned frame; filling a slot ends,
      packs the frame, and makes the calls of a deficit round-robin, with its
      shares, its order, its end and its deficits ([slot_filled]); [stop] returns from a ticker that
      has started.
    - RRC: the codec round trip on hosts of either byte order, safety on any
      input, the printed text; the state machine of a channel and the set-up of
      a channel between two stations through the codec.
    - TCP end points: the receive thread of the client sends every frame once
      and in order; the thread that takes an event finds one, whoever is between
      queueing and writing ([server_events]); a client that
      has connected is never let go, and a new connection of the client end
      point can deafen it.
    - Event loop and console: no pointer to a context that is gone is followed
      ([reactor_safe]), a pass calls each callback that is ready or handed over
      once and in order ([reactor_pass]); every event pushed to the application
      is handled, once and in order ([rrc_events_delivered]); a line runs the
      command it names with its arguments ([console_executes]), each
      datagram gets its reply or ends the program, and only one that fills the
      buffer is undefined ([console_safe]).
    - Ownership: callables refine variables that have a value or none, and each
      object behind them is destroyed once, if the bytes of the callables may be
      moved or nobody moves them ([function_refines]); each block of
      memory is freed once, by the callable it came with ([buffer_balance]).
    - Slots start at least the interval apart ([ticks_paced]).
    - Reception: a frame that fits is taken apart exactly, although the LLCs
      write into the buffer meanwhile; the headers of a packet that the filter
      accepts are read in bounds.
    - 802.11, radiotap, filters: the layout of the views and of the fields, and
      the packets the filters accept.
    - Where the code goes wrong: a fresh frame without FEC is read through a
      null pointer, so that the application as it is set up never sends
      ([app_never_sends]); frames that are malformed, packets that are too short
      or too long, PDUs and segments that are too small; windows that do not
      divide 256; acknowledgements in transparent mode; a [stop] that comes too
      early, a second configuration of the frame; configurations with gaps, and the
      example of the repository ([sample_no_reordering]); the expiry of a
      request; an addition to a metric that another thread changes meanwhile
      ([fetch_add_contended]); the conversion of a buffer that is not full
      ([sb_to_buffer_loses]); callables whose bytes may not be moved, which a
      swap or the assignment of a copy moves ([swap_moves_bytes]); the alarm for a
      repeated acknowledgement, which is documented and never raised
      ([llc_ul_consistent]); a descriptor that is registered again in the pass that removes it
      ([reactor_readd_dangles]).

    ** Fuel and bounds

    Loops whose measure is not structural take fuel, and running out of it is
    the outcome [NoFuel], apart from every outcome of the code. The callers
    supply enough, and the theorems show it: [write_pdcp], [on_pdcp_data] and
    the loops of [PDCP] use the size of the view (each round consumes at least a
    byte, or the loop is shown not to end), the loop of the scheduler any number
    above the space left in the frame, the receive loop the size of the frame.
    Theorems about counters of 64 bits state the bound they need (fewer than
    2^64 operations or bytes).

    ** Not modelled

    Threads, other than the ticker, those of the end points and those around the
    event queue and the event loop, and locks (each operation runs alone, as the mutexes of the code
    make it); the system calls, whose answers are arguments; the text of the log,
    the file of the metrics and the averages in floating point, and the text
    output of the 802.11 and radiotap views; the part of [main] that starts the
    application and watches the file; the utilities of [bfc] that the program
    does not use (pools, event queue, second event loop); the stand-alone tools.
    They are input and output, or glue to libraries outside the repository's own
    code. *)

From stdpp Require Export base tactics numbers list option.
From Stdlib Require Export ZArith Lia.

#[global] Open Scope Z_scope.

(** ** Outcomes of C++ code

    A C++ function returns, reaches undefined behaviour, throws, or (in the
    model only) runs out of the fuel its loop was given. *)

Inductive ub : Set :=
  | NullDeref          (* [*p] with [p == nullptr] *)
  | OutOfBounds        (* access outside the object a pointer points into *)
  | DivByZero          (* [x % 0], [x / 0] *)
  | UseAfterErase      (* use of an erased element *)
  | UseElsewhere       (* use of an object at an address where it was not made *)
  | EmptyFront.        (* [front()], [pop_front()], [pop_back()] of an empty container *)

Inductive exn : Set :=
  | StdOutOfRange      (* std::out_of_range *)
  | StdInvalidArgument (* std::invalid_argument *)
  | StdRuntimeError    (* std::runtime_error *)
  | StdBadOptional     (* std::bad_optional_access *)
  | StdBadFunction.    (* std::bad_function_call *)

Inductive res (A : Type) : Type :=
  | Ok (a : A)
  | Ub (u : ub)
  | Throw (e : exn)
  | NoFuel.
Arguments Ok {A} a.
Arguments Ub {A} u.
Arguments Throw {A} e.
Arguments NoFuel {A}.

#[global] Instance ub_eq_dec : EqDecision ub.
Proof. solve_decision. Defined.
#[global] Instance exn_eq_dec : EqDecision exn.
Proof. solve_decision. Defined.
#[global] Instance res_eq_dec `{EqDecision A} : EqDecision (res A).
Proof. solve_decision. Defined.

#[global] Instance res_ret : MRet res := fun _ a => Ok a.
#[global] Instance res_bind : MBind res := fun A B f m =>
  match m with
  | Ok a => f a
  | Ub u => Ub u
  | Throw e => Throw e
  | NoFuel => NoFuel
  end.

Definition is_Ok {A} (r : res A) : Prop := exists a, r = Ok a.

Lemma bind_Ok {A B} (m : res A) (f : A -> res B) b :
  (m ≫= f) = Ok b <-> exists a, m = Ok a /\ f a = Ok b.
Proof.
  split.
  - destruct m; simpl; intros; try discriminate. eauto.
  - intros (a & -> & H). exact H.
Qed.

Lemma bind_ret_l {A B} (a : A) (f : A -> res B) : (Ok a ≫= f) = f a.
Proof. reflexivity. Qed.

Lemma bind_assoc {A B C} (m : res A) (f : A -> res B) (g : B -> res C) :
  ((m ≫= f) ≫= g) = (m ≫= fun a => f a ≫= g).
Proof. by destruct m. Qed.

(** Take apart the successful computations of the context. *)
Ltac inv_res :=
  repeat match goal with
  | H : Ok _ = Ok _ |- _ => injection H as H; try subst
  | H : Ub _ = Ok _ |- _ => discriminate H
  | H : Throw _ = Ok _ |- _ => discriminate H
  | H : NoFuel = Ok _ |- _ => discriminate H
  | H : mret _ = Ok _ |- _ => injection H as H; try subst
  | H : (_ ≫= _) = Ok _ |- _ =>
      let a := fresh "a" in let E := fresh "E" in
      apply bind_Ok in H; destruct H as (a & E & H)
  end.

(** ** Record update: [r <| f := v |>]

    [Eta R] is the eta-expansion of the record type [R], from which the
    setter of each projection is derived. *)

Class Eta (R : Type) := eta : R -> R.
Class Updater {R E : Type} (proj : R -> E) := upd : (E -> E) -> R -> R.
Arguments upd {R E} proj {_} f r.

Ltac derive_updater :=
  match goal with
  | |- @Updater ?R ?E ?proj =>
      let i := constr:(_ : Eta R) in
      let t := match i with ?h => eval red in (h : R -> R) | _ => i end in
      match eval pattern proj in t with
      | ?F _ =>
          let r := eval cbv beta in (fun (f : E -> E) => F (fun x => f (proj x))) in
          exact r
      end
  end.
#[export] Hint Extern 1 (Updater _) => derive_updater : typeclass_instances.

Notation "r <| p := v |>" := (upd p (fun _ => v) r)
  (at level 1, left associativity, p at level 99, format "r  <| p  :=  v |>").

(** ** Machine integers

    Unsigned C++ integers are integers reduced modulo [2^w]; [size_t] and
    [uint64_t] are 64 bits wide on the platforms the program targets. *)

Definition u8 (x : Z) : Z := x mod 256.
Definition u16 (x : Z) : Z := x mod 65536.
Definition u32 (x : Z) : Z := x mod 4294967296.
Definition u64 (x : Z) : Z := x mod 18446744073709551616.

Definition is_u8 (x : Z) : Prop := 0 <= x < 256.
Definition is_u16 (x : Z) : Prop := 0 <= x < 65536.
Definition is_u32 (x : Z) : Prop := 0 <= x < 4294967296.
Definition is_u64 (x : Z) : Prop := 0 <= x < 18446744073709551616.

(** [bool] as the integer C++ promotes it to, and the conversion back. *)
Definition Z_of_bool (b : bool) : Z := if b then 1 else 0.
Definition bool_of_Z (x : Z) : bool := negb (x =? 0).

Ltac Zify.zify_post_hook ::= Z.to_euclidean_division_equations.
Ltac unfold_u := unfold is_u8, is_u16, is_u32, is_u64, u8, u16, u32, u64 in *.
(** Linear arithmetic over machine integers. *)
Ltac ulia := unfold_u; lia.

Lemma u8_range x : is_u8 (u8 x). Proof. ulia. Qed.
Lemma u16_range x : is_u16 (u16 x). Proof. ulia. Qed.
Lemma u32_range x : is_u32 (u32 x). Proof. ulia. Qed.
Lemma u64_range x : is_u64 (u64 x). Proof. ulia. Qed.
Lemma u8_id x : is_u8 x -> u8 x = x. Proof. ulia. Qed.
Lemma u16_id x : is_u16 x -> u16 x = x. Proof. ulia. Qed.
Lemma u32_id x : is_u32 x -> u32 x = x. Proof. ulia. Qed.
Lemma u64_id x : is_u64 x -> u64 x = x. Proof. ulia. Qed.

Create HintDb words discriminated.
Create Rewrite HintDb words_rw.
#[export] Hint Resolve u8_range u16_range u32_range u64_range : words.
#[export] Hint Rewrite u8_id u16_id u32_id u64_id using ulia : words_rw.

(** Split the integer comparisons of the goal and of the context. *)
Ltac case_Z :=
  repeat match goal with
  | |- context [?a <? ?b] => destruct (Z.ltb_spec a b)
  | |- context [?a <=? ?b] => destruct (Z.leb_spec a b)
  | |- context [?a =? ?b] => destruct (Z.eqb_spec a b)
  | H : context [?a <? ?b] |- _ => destruct (Z.ltb_spec a b)
  | H : context [?a <=? ?b] |- _ => destruct (Z.leb_spec a b)
  | H : context [?a =? ?b] |- _ => destruct (Z.eqb_spec a b)
  end.

(** ** Facts about all bytes, by computation *)

Lemma byte_forall (P : Z -> bool) :
  forallb P (seqZ 0 256) = true -> forall x, is_u8 x -> P x = true.
Proof.
  intros H x Hx. rewrite forallb_forall in H. apply H.
  apply list_elem_of_In, elem_of_seqZ. ulia.
Qed.

Lemma byte_forall2 (P : Z -> Z -> bool) :
  forallb (fun x => forallb (P x) (seqZ 0 256)) (seqZ 0 256) = true ->
  forall x y, is_u8 x -> is_u8 y -> P x y = true.
Proof.
  intros H x y Hx Hy. apply byte_forall; [|done].
  by apply (byte_forall (fun x => forallb (P x) (seqZ 0 256))).
Qed.

(** ** Bit fields as arithmetic *)

Lemma land_shift a b k : 0 <= k -> 0 <= b < 2 ^ k -> Z.land (a * 2 ^ k) b = 0.
Proof.
  intros Hk Hb. rewrite <- Z.shiftl_mul_pow2 by done. apply Z.bits_inj'. intros i Hi.
  rewrite Z.land_spec, Z.bits_0. destruct (Z.ltb_spec i k); [by rewrite Z.shiftl_spec_low|].
  replace (Z.testbit b i) with false; [by rewrite andb_false_r|].
  symmetry. rewrite <- (Z.mod_small b (2 ^ k)) by done. by apply Z.mod_pow2_bits_high.
Qed.

Lemma lor_shift a b k : 0 <= k -> 0 <= b < 2 ^ k -> Z.lor (a * 2 ^ k) b = a * 2 ^ k + b.
Proof.
  intros Hk Hb. pose proof (land_shift a b k Hk Hb) as H0.
  by rewrite <- Z.lxor_lor, <- Z.add_nocarry_lxor.
Qed.

(** ** Lists *)

Lemma list_alter_insert {A} (f : A -> A) (l : list A) i x :
  alter f i (<[i := x]> l) = <[i := f x]> l.
Proof. revert i. induction l as [|y l IH]; intros [|i]; try done. cbn. f_equal. apply IH. Qed.
