(* ===== verification/Mem.v ===== *)
(** * Byte memory

    A C++ byte buffer is a list of bytes (integers in [0, 256)); a pointer
    into it is an offset, and a pointer that may be null an optional offset.
    Every access is checked: outside the buffer it is undefined behaviour. *)

From S2P Require Import Prelude.

Definition zlen {A} (l : list A) : Z := Z.of_nat (length l).

Definition bytes_ok (l : list Z) : Prop := Forall is_u8 l.

(** [slice m i n]: the [n] bytes at offset [i]; [splice m i bs]: [m] with
    the bytes at [i] overwritten by [bs]. *)
Definition slice {A} (m : list A) (i n : Z) : list A :=
  take (Z.to_nat n) (drop (Z.to_nat i) m).

Definition splice {A} (m : list A) (i : Z) (bs : list A) : list A :=
  take (Z.to_nat i) m ++ bs ++ drop (Z.to_nat i + length bs) m.

(** A read of one byte, a [memcpy] from the buffer, a [memcpy] into it. *)
Definition rd (m : list Z) (i : Z) : res Z :=
  if i <? 0 then Ub OutOfBounds
  else match m !! Z.to_nat i with Some b => Ok b | None => Ub OutOfBounds end.

Definition rd_n (m : list Z) (i n : Z) : res (list Z) :=
  if (0 <=? i) && (0 <=? n) && (i + n <=? zlen m) then Ok (slice m i n)
  else Ub OutOfBounds.

Definition wr_n (m : list Z) (i : Z) (bs : list Z) : res (list Z) :=
  if (0 <=? i) && (i + zlen bs <=? zlen m) then Ok (splice m i bs)
  else Ub OutOfBounds.

Definition wr (m : list Z) (i v : Z) : res (list Z) := wr_n m i [v].

(** A view of [n] bytes at [b] in the buffer [m], which fits the address space. *)
Definition view_ok (m : list Z) (b n : Z) : Prop :=
  bytes_ok m /\ is_u64 (zlen m) /\ 0 <= b /\ 0 <= n /\ b + n <= zlen m.

(** Pointers that may be null. *)
Abbreviation ptr := (option Z).
Definition deref (p : ptr) : res Z :=
  match p with Some a => Ok a | None => Ub NullDeref end.

(** [v[i]] of a vector. *)
Definition vec_at {A} (l : list A) (i : nat) : res A :=
  match l !! i with Some x => mret x | None => Ub OutOfBounds end.

(** ** Lemmas *)

Lemma vec_at_Some {A} (l : list A) i x : l !! i = Some x -> vec_at l i = Ok x.
Proof. unfold vec_at. by intros ->. Qed.

Lemma zlen_nonneg {A} (l : list A) : 0 <= zlen l.
Proof. unfold zlen. lia. Qed.
Lemma zlen_nil {A} : zlen (@nil A) = 0.
Proof. reflexivity. Qed.
Lemma zlen_cons {A} (x : A) l : zlen (x :: l) = 1 + zlen l.
Proof. unfold zlen. simpl length. lia. Qed.
Lemma zlen_app {A} (l k : list A) : zlen (l ++ k) = zlen l + zlen k.
Proof. unfold zlen. rewrite length_app. lia. Qed.
Lemma zlen_replicate {A} n (x : A) : zlen (replicate n x) = Z.of_nat n.
Proof. unfold zlen. by rewrite length_replicate. Qed.

#[export] Hint Rewrite @zlen_nil @zlen_cons @zlen_app @zlen_replicate : words_rw.

Lemma zlen_delete {A} (l : list A) i x : l !! i = Some x -> zlen (delete i l) = zlen l - 1.
Proof.
  intros H. pose proof (lookup_lt_Some _ _ _ H). unfold zlen. rewrite length_delete by eauto. lia.
Qed.

(** Linear arithmetic with buffer lengths. *)
Ltac zlen_norm :=
  rewrite ?zlen_cons, ?zlen_app, ?zlen_nil, ?zlen_replicate in *.
Ltac zlia := zlen_norm; unfold zlen in *; lia.

Lemma lookup_slice {A} (m : list A) i n (k : nat) :
  slice m i n !! k = if decide (k < Z.to_nat n)%nat then m !! (Z.to_nat i + k)%nat else None.
Proof.
  unfold slice. rewrite lookup_take. case_decide; [|done]. by rewrite lookup_drop.
Qed.

Lemma lookup_splice {A} (m : list A) i bs (k : nat) :
  0 <= i -> i + zlen bs <= zlen m ->
  splice m i bs !! k =
    if decide (Z.to_nat i <= k < Z.to_nat i + length bs)%nat
    then bs !! (k - Z.to_nat i)%nat else m !! k.
Proof.
  intros Hi Hl. unfold splice, zlen in *.
  assert (length (take (Z.to_nat i) m) = Z.to_nat i) as Ht by (rewrite length_take; lia).
  rewrite lookup_app. destruct (decide (k < Z.to_nat i)%nat) as [Hk|Hk].
  - rewrite lookup_take, decide_True by lia. rewrite decide_False by lia.
    destruct (m !! k) eqn:E; [done|]. apply lookup_ge_None in E. lia.
  - rewrite (proj2 (lookup_ge_None _ _)) by lia.
    rewrite lookup_app, Ht. case_decide as Hd.
    + destruct (lookup_lt_is_Some_2 bs (k - Z.to_nat i)) as [x Hx]; [lia|]. by rewrite Hx.
    + rewrite (proj2 (lookup_ge_None _ _)) by lia.
      rewrite lookup_drop. f_equal. lia.
Qed.

Lemma zlen_slice {A} (m : list A) i n :
  0 <= i -> 0 <= n -> i + n <= zlen m -> zlen (slice m i n) = n.
Proof. unfold zlen, slice. rewrite length_take, length_drop. lia. Qed.

Lemma zlen_slice_le {A} (m : list A) i n : 0 <= n -> zlen (slice m i n) <= n.
Proof. unfold zlen, slice. rewrite length_take, length_drop. lia. Qed.

Lemma zlen_splice {A} (m : list A) i bs :
  0 <= i -> i + zlen bs <= zlen m -> zlen (splice m i bs) = zlen m.
Proof.
  intros. unfold zlen, splice in *. rewrite !length_app, length_take, length_drop. lia.
Qed.

Lemma slice_splice_same {A} (m : list A) i bs :
  0 <= i -> i + zlen bs <= zlen m -> slice (splice m i bs) i (zlen bs) = bs.
Proof.
  intros. apply list_eq. intros k. rewrite lookup_slice, lookup_splice by done.
  unfold zlen. repeat case_decide; try lia.
  - f_equal. lia.
  - symmetry. apply lookup_ge_None. lia.
Qed.

Lemma slice_splice_before {A} (m : list A) i bs j n :
  0 <= i -> i + zlen bs <= zlen m -> 0 <= j -> j + n <= i ->
  slice (splice m i bs) j n = slice m j n.
Proof.
  intros. apply list_eq. intros k. rewrite !lookup_slice, lookup_splice by done.
  repeat case_decide; try lia; done.
Qed.

Lemma slice_splice_after {A} (m : list A) i bs j n :
  0 <= i -> i + zlen bs <= zlen m -> i + zlen bs <= j ->
  slice (splice m i bs) j n = slice m j n.
Proof.
  intros. apply list_eq. intros k. rewrite !lookup_slice, lookup_splice by done.
  unfold zlen in *. repeat case_decide; try lia; done.
Qed.

Lemma slice_app {A} (m : list A) i a b :
  0 <= i -> 0 <= a -> 0 <= b -> slice m i (a + b) = slice m i a ++ slice m (i + a) b.
Proof.
  intros. unfold slice.
  rewrite !Z2Nat.inj_add by lia. rewrite <- drop_drop.
  generalize (drop (Z.to_nat i) m). intros l.
  rewrite <- (take_drop (Z.to_nat a) l) at 1.
  destruct (decide (Z.to_nat a <= length l)%nat).
  - rewrite take_app_ge by (rewrite length_take; lia). f_equal. f_equal. rewrite length_take. lia.
  - rewrite (take_ge l) by lia. rewrite drop_ge by lia. rewrite take_nil, !app_nil_r.
    apply take_ge. lia.
Qed.

Lemma slice_nil {A} (m : list A) i : slice m i 0 = [].
Proof. reflexivity. Qed.

Lemma slice_all {A} (m : list A) : slice m 0 (zlen m) = m.
Proof. unfold slice, zlen. rewrite Nat2Z.id. simpl. rewrite drop_0. by rewrite firstn_all. Qed.

Lemma slice_slice {A} (m : list A) i n j k :
  0 <= i -> 0 <= j -> 0 <= k -> j + k <= n -> slice (slice m i n) j k = slice m (i + j) k.
Proof.
  intros. apply list_eq. intros q. rewrite !lookup_slice.
  repeat case_decide; try lia; try done. f_equal. lia.
Qed.

Lemma splice_splice_same {A} (m : list A) i bs cs :
  0 <= i -> i + zlen bs <= zlen m -> zlen cs = zlen bs ->
  splice (splice m i bs) i cs = splice m i cs.
Proof.
  intros Hi Hb Hc. apply list_eq. intros k.
  rewrite !lookup_splice; rewrite ?zlen_splice; try lia.
  unfold zlen in *. repeat case_decide; try lia; done.
Qed.

Lemma splice_app {A} (m : list A) i bs cs :
  0 <= i -> i + zlen bs + zlen cs <= zlen m ->
  splice (splice m i bs) (i + zlen bs) cs = splice m i (bs ++ cs).
Proof.
  intros Hi Hb. apply list_eq. intros k.
  pose proof (zlen_nonneg bs). pose proof (zlen_nonneg cs).
  rewrite !lookup_splice; rewrite ?zlen_splice, ?zlen_app; try lia.
  unfold zlen in *. rewrite length_app. repeat case_decide; try lia; try done.
  - rewrite lookup_app_r by lia. f_equal. lia.
  - rewrite lookup_app_l by lia. done.
Qed.

Lemma splice_prepend {A} (m : list A) i bs cs :
  0 <= i -> i + zlen bs + zlen cs <= zlen m ->
  splice (splice m (i + zlen bs) cs) i bs = splice m i (bs ++ cs).
Proof.
  intros Hi Hb. apply list_eq. intros k.
  pose proof (zlen_nonneg bs). pose proof (zlen_nonneg cs).
  rewrite !lookup_splice; rewrite ?zlen_splice, ?zlen_app; try lia.
  unfold zlen in *. rewrite length_app. repeat case_decide; try lia; try done.
  - rewrite lookup_app_l by lia. done.
  - rewrite lookup_app_r by lia. f_equal. lia.
Qed.

Lemma splice_comm {A} (m : list A) i bs j cs :
  0 <= i -> i + zlen bs <= j -> j + zlen cs <= zlen m ->
  splice (splice m i bs) j cs = splice (splice m j cs) i bs.
Proof.
  intros Hi Hb Hc. apply list_eq. intros k.
  pose proof (zlen_nonneg bs). pose proof (zlen_nonneg cs).
  rewrite !lookup_splice; rewrite ?zlen_splice; try lia.
  unfold zlen in *. repeat case_decide; try lia; done.
Qed.

Lemma splice_nil {A} (m : list A) i : splice m i [] = m.
Proof. unfold splice. simpl. rewrite Nat.add_0_r. apply take_drop. Qed.

Lemma rd_Ok m i b : rd m i = Ok b <-> 0 <= i /\ m !! Z.to_nat i = Some b.
Proof.
  unfold rd. destruct (Z.ltb_spec i 0); [split; [done|lia]|].
  destruct (m !! Z.to_nat i); split.
  all: first [intros [= ->]; done | intros [_ [= ->]]; done | intros [_ ?]; done | done].
Qed.

Lemma rd_n_Ok m i n bs :
  rd_n m i n = Ok bs <-> (0 <= i /\ 0 <= n /\ i + n <= zlen m) /\ bs = slice m i n.
Proof.
  unfold rd_n. destruct (_ && _ && _) eqn:E.
  - apply andb_prop in E as [[??]%andb_prop ?]. split; [intros [= <-]; split; [lia|done]|].
    by intros [_ ->].
  - split; [done|]. intros [? ->]. rewrite !andb_false_iff in E. lia.
Qed.

Lemma wr_n_Ok m i bs m' :
  wr_n m i bs = Ok m' <-> (0 <= i /\ i + zlen bs <= zlen m) /\ m' = splice m i bs.
Proof.
  unfold wr_n. destruct (_ && _) eqn:E.
  - apply andb_prop in E as [??]. split; [intros [= <-]; split; [lia|done]|].
    by intros [_ ->].
  - split; [done|]. intros [? ->]. rewrite !andb_false_iff in E. lia.
Qed.

Lemma rd_n_in m i n :
  0 <= i -> 0 <= n -> i + n <= zlen m -> rd_n m i n = Ok (slice m i n).
Proof. intros. by apply rd_n_Ok. Qed.

Lemma wr_n_in m i bs :
  0 <= i -> i + zlen bs <= zlen m -> wr_n m i bs = Ok (splice m i bs).
Proof. intros. by apply wr_n_Ok. Qed.

Lemma rd_in m i : 0 <= i < zlen m -> exists b, rd m i = Ok b /\ m !! Z.to_nat i = Some b.
Proof.
  intros. destruct (lookup_lt_is_Some_2 m (Z.to_nat i)) as [b Hb]; [zlia|].
  exists b. split; [apply rd_Ok; split; [lia|done]|done].
Qed.

Lemma rd_splice_same m i bs k b :
  0 <= i -> i + zlen bs <= zlen m -> bs !! k = Some b ->
  rd (splice m i bs) (i + Z.of_nat k) = Ok b.
Proof.
  intros Hi Hl Hk. apply rd_Ok. split; [lia|].
  rewrite lookup_splice by done. pose proof (lookup_lt_Some _ _ _ Hk).
  rewrite decide_True by lia. rewrite <- Hk. f_equal. lia.
Qed.

Lemma rd_splice_other m i bs j :
  0 <= i -> i + zlen bs <= zlen m -> (j < i \/ i + zlen bs <= j) ->
  rd (splice m i bs) j = rd m j.
Proof.
  intros Hi Hl Hj. unfold rd. case_Z; [done|].
  rewrite lookup_splice by done. unfold zlen in *. rewrite decide_False by lia. done.
Qed.

Lemma rd_slice m i n k : 0 <= i -> 0 <= k < n -> rd (slice m i n) k = rd m (i + k).
Proof.
  intros. unfold rd. case_Z; try lia.
  rewrite lookup_slice. rewrite decide_True by lia. by rewrite Z2Nat.inj_add by lia.
Qed.

Lemma slice_ext m m' p n :
  0 <= p -> (forall j, p <= j < p + n -> rd m j = rd m' j) -> slice m p n = slice m' p n.
Proof.
  intros Hp H. apply list_eq. intros k. rewrite !lookup_slice. case_decide; [|done].
  specialize (H (p + Z.of_nat k) ltac:(lia)). unfold rd in H.
  rewrite (proj2 (Z.ltb_ge _ _)) in H by lia.
  replace (Z.to_nat (p + Z.of_nat k)) with (Z.to_nat p + k)%nat in H by lia.
  destruct (m !! _), (m' !! _); congruence.
Qed.

Lemma bytes_ok_slice m i n : bytes_ok m -> bytes_ok (slice m i n).
Proof. intros. unfold slice. by apply Forall_take, Forall_drop. Qed.

Lemma bytes_ok_splice m i bs : bytes_ok m -> bytes_ok bs -> bytes_ok (splice m i bs).
Proof.
  intros. unfold splice. apply Forall_app_2; [by apply Forall_take|].
  apply Forall_app_2; [done|by apply Forall_drop].
Qed.

Lemma bytes_ok_rd m i b : bytes_ok m -> rd m i = Ok b -> is_u8 b.
Proof. intros Hm [_ H]%rd_Ok. by eapply Forall_lookup_1. Qed.

#[export] Hint Resolve bytes_ok_slice bytes_ok_splice : words.

(** One byte written, and what is read after. *)
Lemma wr_in m i v : 0 <= i < zlen m -> wr m i v = Ok (splice m i [v]).
Proof.
  intros Hi. unfold wr, wr_n. by rewrite (proj2 (andb_true_iff _ _)) by (split; apply Z.leb_le; zlia).
Qed.

Lemma rd_wr m i v j :
  0 <= i < zlen m -> 0 <= j -> rd (splice m i [v]) j = if decide (j = i) then Ok v else rd m j.
Proof.
  intros Hi Hj. unfold rd. destruct (Z.ltb_spec j 0); [lia|]. rewrite lookup_splice by zlia.
  destruct (decide (j = i)) as [->|].
  - rewrite decide_True by (simpl; lia). by rewrite Nat.sub_diag.
  - by rewrite decide_False by (simpl; lia).
Qed.

Lemma view_replicate k b n :
  0 <= b -> 0 <= n -> b + n <= Z.of_nat k -> is_u64 (Z.of_nat k) -> view_ok (replicate k 0) b n.
Proof.
  intros. unfold view_ok, bytes_ok. rewrite zlen_replicate. split_and!; try done.
  apply Forall_replicate. ulia.
Qed.
