(* ===== verification/Filters.v ===== *)
(** * The socket filters ([winject/src/802_11_filters.hpp])

    Programs for the classic packet filter of the kernel, with immediates that
    the setters fill in. The filter machine is not part of the program: it is
    the parameter [BpfMachine] with the documented effect of the instructions
    that the programs use as its law; [Bpf.exec] is a machine that keeps it. *)

From S2P Require Import Prelude Mem.

(** ** The machine *)

Record sock_filter := SockFilter { code : Z; jt : nat; jf : nat; k : Z }.
#[export] Instance eta_sock_filter : Eta sock_filter := fun f => SockFilter (code f) (jt f) (jf f) (k f).

(** The big-endian value of [n] bytes of the packet at [i], if it has them. *)
Definition be_value (bs : list Z) : Z := fold_left (fun v b => v * 256 + b) bs 0.
Definition bpf_load (n : Z) (pkt : list Z) (i : Z) : option Z :=
  if (0 <=? i) && (i + n <=? zlen pkt) then Some (be_value (slice pkt i n)) else None.

(** What an instruction does with the accumulator [a] and the index [x]. A load
    behind the end of the packet ends the program with 0. *)
Inductive bpf_next := Next (a x : Z) (skip : nat) | Ret (v : Z).
Definition load_or_ret (v : option Z) (x : Z) : bpf_next := match v with Some a => Next a x 0 | None => Ret 0 end.

Definition bpf_step (i : sock_filter) (a x : Z) (pkt : list Z) : option bpf_next :=
  match code i with
  | 0x30 => Some (load_or_ret (bpf_load 1 pkt (k i)) x)              (* ldb [k] *)
  | 0x50 => Some (load_or_ret (bpf_load 1 pkt (u32 (x + k i))) x)    (* ldb [x + k] *)
  | 0x48 => Some (load_or_ret (bpf_load 2 pkt (u32 (x + k i))) x)    (* ldh [x + k] *)
  | 0x40 => Some (load_or_ret (bpf_load 4 pkt (u32 (x + k i))) x)    (* ld [x + k] *)
  | 0x64 => Some (Next (u32 (Z.shiftl a (k i))) x 0)                 (* lsh #k *)
  | 0x54 => Some (Next (Z.land a (k i)) x 0)                         (* and #k *)
  | 0x4c => Some (Next (Z.lor a x) x 0)                              (* or x *)
  | 0x07 => Some (Next a a 0)                                        (* tax *)
  | 0x15 => Some (Next a x (if a =? k i then jt i else jf i))        (* jeq #k, jt, jf *)
  | 0x06 => Some (Ret (k i))                                         (* ret #k *)
  | _ => None
  end.

(** [bpf_from prog pc a x pkt] is the verdict of the program from [pc] on. *)
Class BpfMachine := bpf_from : list sock_filter -> nat -> Z -> Z -> list Z -> Z.
Class BpfLaws `{BpfMachine} : Prop :=
  bpf_law prog pc a x pkt i r : prog !! pc = Some i -> bpf_step i a x pkt = Some r ->
    bpf_from prog pc a x pkt =
      match r with Next a x skip => bpf_from prog (S (pc + skip)) a x pkt | Ret v => v end.

(** A filter accepts a packet if its verdict is not 0. *)
Definition bpf_accepts `{BpfMachine} (prog : list sock_filter) (pkt : list Z) : bool :=
  negb (bpf_from prog 0 0 0 pkt =? 0).

(** ** The filters *)

Definition set_k (i : nat) (v : Z) (prog : list sock_filter) : list sock_filter := alter (fun f => f <| k := v |>) i prog.

Definition data_addr3_code : list sock_filter := [
  SockFilter 0x30 0 0 0x00000003;
  SockFilter 0x64 0 0 0x00000008;
  SockFilter 0x07 0 0 0x00000000;
  SockFilter 0x30 0 0 0x00000002;
  SockFilter 0x4c 0 0 0x00000000;
  SockFilter 0x07 0 0 0x00000000;
  SockFilter 0x50 0 0 0x00000000;
  SockFilter 0x54 0 0 0x0000000f;
  SockFilter 0x15 0 13 0x00000008;
  SockFilter 0x50 0 0 0x00000010;
  SockFilter 0x15 0 11 0x000000ef;
  SockFilter 0x50 0 0 0x00000011;
  SockFilter 0x15 0 9 0x000000be;
  SockFilter 0x50 0 0 0x00000012;
  SockFilter 0x15 0 7 0x000000ad;
  SockFilter 0x50 0 0 0x00000013;
  SockFilter 0x15 0 5 0x000000de;
  SockFilter 0x50 0 0 0x00000014;
  SockFilter 0x15 0 3 0x000000af;
  SockFilter 0x50 0 0 0x00000015;
  SockFilter 0x15 0 1 0x000000fa;
  SockFilter 0x06 0 0 0xffffffff;
  SockFilter 0x06 0 0 0x00000000].
Definition set_addr3 (addr3 : Z) (prog : list sock_filter) : list sock_filter :=
  let base := 10%nat in
  let byte i := Z.land (Z.shiftr addr3 (8 * i)) 0xFF in
  let prog := set_k (base + 10) (byte 0) prog in
  let prog := set_k (base + 8) (byte 1) prog in
  let prog := set_k (base + 6) (byte 2) prog in
  let prog := set_k (base + 4) (byte 3) prog in
  let prog := set_k (base + 2) (byte 4) prog in
  set_k (base + 0) (byte 5) prog.
Definition data_addr3 (addr3 : Z) : list sock_filter := set_addr3 addr3 data_addr3_code.

Definition winject_rts_src_code : list sock_filter := [
  SockFilter 0x30 0 0 0x00000003;
  SockFilter 0x64 0 0 0x00000008;
  SockFilter 0x07 0 0 0x00000000;
  SockFilter 0x30 0 0 0x00000002;
  SockFilter 0x4c 0 0 0x00000000;
  SockFilter 0x07 0 0 0x00000000;
  SockFilter 0x50 0 0 0x00000000;
  SockFilter 0x54 0 0 0x000000ff;
  SockFilter 0x15 0 9 0x000000b4;
  SockFilter 0x40 0 0 0x0000000a;
  SockFilter 0x15 0 7 0xdeadbeef;
  SockFilter 0x48 0 0 0x00000014;
  SockFilter 0x15 0 5 0x0000cafe;
  SockFilter 0x48 0 0 0x00000004;
  SockFilter 0x15 0 3 0x0000ffff;
  SockFilter 0x50 0 0 0x00000006;
  SockFilter 0x15 0 1 0x000000ff;
  SockFilter 0x06 0 0 0xffffffff;
  SockFilter 0x06 0 0 0x00000000].
Definition set_rts_src (src : Z) (prog : list sock_filter) : list sock_filter :=
  let src_ := u16 (Z.land (Z.shiftr src 8) 0xFFFF) in
  let prog := set_k 14 src_ prog in
  set_k 16 (Z.land src 0xFF) prog.
Definition winject_rts_src (src : Z) : list sock_filter := set_rts_src src winject_rts_src_code.

Definition LONGEST : nat := 13.
Definition winject_src_code : list sock_filter := [
  SockFilter 0x30 0 0 0x00000003;
  SockFilter 0x64 0 0 0x00000008;
  SockFilter 0x07 0 0 0x00000000;
  SockFilter 0x30 0 0 0x00000002;
  SockFilter 0x4c 0 0 0x00000000;
  SockFilter 0x07 0 0 0x00000000;
  SockFilter 0x50 0 0 0x00000000;
  SockFilter 0x54 0 0 0x0000000f;
  SockFilter 0x15 0 LONGEST 0x00000008;
  SockFilter 0x40 0 0 0x00000010;
  SockFilter 0x15 0 (LONGEST - 2) 0xdeadbeef;
  SockFilter 0x48 0 0 0x00000014;
  SockFilter 0x15 0 (LONGEST - 4) 0x0000cafe;
  SockFilter 0x40 0 0 0x00000004;
  SockFilter 0x15 0 (LONGEST - 6) 0xffffffff;
  SockFilter 0x48 0 0 0x00000004;
  SockFilter 0x15 0 (LONGEST - 8) 0x0000ffff;
  SockFilter 0x48 0 0 0x0000000a;
  SockFilter 0x15 0 (LONGEST - 10) 0x0000ffaa;
  SockFilter 0x50 0 0 0x0000000c;
  SockFilter 0x15 0 (LONGEST - 12) 0x00000000;
  SockFilter 0x06 0 0 0xffffffff;
  SockFilter 0x06 0 0 0x00000000].
Definition set_src (src : Z) (prog : list sock_filter) : list sock_filter :=
  let src_ := u16 (Z.land (Z.shiftr src 8) 0xFFFF) in
  let prog := set_k 18 src_ prog in
  set_k 20 (Z.land src 0xFF) prog.
Definition winject_src (src : Z) : list sock_filter := set_src src winject_src_code.

(** ** What the instructions test *)

Lemma be_value_app l k : be_value (l ++ k) = be_value l * 256 ^ zlen k + be_value k.
Proof.
  unfold be_value. rewrite fold_left_app. generalize (fold_left (fun v b => v * 256 + b) l 0). intros x.
  revert x. induction k as [|b k IH] using rev_ind; intros x; [rewrite zlen_nil, Z.pow_0_r; cbn [fold_left]; lia|].
  rewrite !fold_left_app. cbn [fold_left]. rewrite IH, zlen_app. change (zlen [b]) with 1.
  rewrite Z.pow_add_r by (try apply zlen_nonneg; lia). lia.
Qed.

Lemma be_value_range l : bytes_ok l -> 0 <= be_value l < 256 ^ zlen l.
Proof.
  induction l as [|b l IH] using rev_ind; [done|]. intros [Hl Hb]%Forall_app. inversion Hb as [|? ? Hb1 _]; subst.
  specialize (IH Hl). rewrite be_value_app, zlen_app. change (zlen [b]) with 1. change (be_value [b]) with (0 * 256 + b).
  rewrite Z.pow_add_r by (try apply zlen_nonneg; lia). unfold is_u8 in Hb1. nia.
Qed.

Lemma bpf_load_range n pkt i v : bytes_ok pkt -> 0 <= n -> bpf_load n pkt i = Some v -> 0 <= v < 256 ^ n.
Proof.
  intros Hp Hn. unfold bpf_load. destruct (_ && _) eqn:E; [|done]. intros [= <-]. apply andb_prop in E as [??].
  pose proof (be_value_range (slice pkt i n) (bytes_ok_slice _ _ _ Hp)) as Hr. by rewrite zlen_slice in Hr by lia.
Qed.

Lemma bpf_load_byte pkt i v : bytes_ok pkt -> bpf_load 1 pkt i = Some v -> is_u8 v.
Proof. intros Hp E. pose proof (bpf_load_range 1 pkt i v Hp ltac:(lia) E) as Hr. by rewrite Z.pow_1_r in Hr. Qed.

(** A longer load is two shorter ones. *)
Lemma bpf_load_split n1 n2 pkt i v : bytes_ok pkt -> 0 <= n1 -> 0 <= n2 -> 0 <= i -> 0 <= v < 256 ^ (n1 + n2) ->
  bpf_load (n1 + n2) pkt i = Some v <->
  bpf_load n1 pkt i = Some (v / 256 ^ n2) /\ bpf_load n2 pkt (i + n1) = Some (v mod 256 ^ n2).
Proof.
  intros Hp H1 H2 Hi Hv. assert (0 < 256 ^ n2) as Hpos by (apply Z.pow_pos_nonneg; lia). unfold bpf_load at 1.
  destruct ((0 <=? i) && (i + (n1 + n2) <=? zlen pkt)) eqn:E.
  - apply andb_prop in E as [_ Hl]. apply Z.leb_le in Hl.
    assert (bpf_load n1 pkt i = Some (be_value (slice pkt i n1))) as -> by (unfold bpf_load; by rewrite !(proj2 (Z.leb_le _ _)) by lia).
    assert (bpf_load n2 pkt (i + n1) = Some (be_value (slice pkt (i + n1) n2))) as -> by (unfold bpf_load; by rewrite !(proj2 (Z.leb_le _ _)) by lia).
    rewrite slice_app, be_value_app, zlen_slice by lia.
    pose proof (be_value_range (slice pkt (i + n1) n2) (bytes_ok_slice _ _ _ Hp)) as Hr. rewrite zlen_slice in Hr by lia.
    generalize dependent (be_value (slice pkt (i + n1) n2)). intros y Hr. generalize (be_value (slice pkt i n1)). intros x. split.
    + intros [= <-]. by rewrite Z.div_add_l, Z.div_small, Z.add_0_r, Z.add_comm, Z.mod_add, Z.mod_small by lia.
    + intros [[= ->] [= ->]]. f_equal. pose proof (Z.div_mod v (256 ^ n2)). lia.
  - split; [done|]. intros [E1 E2]. exfalso. unfold bpf_load in E2. destruct ((0 <=? i + n1) && (i + n1 + n2 <=? zlen pkt)) eqn:E3; [|done].
    apply andb_prop in E3 as [_ H3]. apply Z.leb_le in H3. rewrite !(proj2 (Z.leb_le _ _)) in E by lia. done.
Qed.

Lemma bpf_load_app_l n a b i : 0 <= n -> 0 <= i -> i + n <= zlen a -> bpf_load n (a ++ b) i = bpf_load n a i.
Proof.
  intros Hn Hi Hl. unfold bpf_load. rewrite zlen_app. pose proof (zlen_nonneg b). rewrite !(proj2 (Z.leb_le _ _)) by lia. cbn [andb].
  do 2 f_equal. unfold slice, zlen in *. rewrite drop_app_le, take_app_le; [done|..]; rewrite ?length_drop; lia.
Qed.
Lemma bpf_load_app_r n a b i : 0 <= n -> 0 <= i -> bpf_load n (a ++ b) (zlen a + i) = bpf_load n b i.
Proof.
  intros Hn Hi. unfold bpf_load. rewrite zlen_app. pose proof (zlen_nonneg a).
  replace (zlen a + i + n <=? zlen a + zlen b) with (i + n <=? zlen b)
    by (destruct (Z.leb_spec (i + n) (zlen b)), (Z.leb_spec (zlen a + i + n) (zlen a + zlen b)); lia || done).
  rewrite !(proj2 (Z.leb_le 0 _)) by lia. cbn [andb]. case_match; [|done]. do 2 f_equal. unfold slice, zlen in *.
  rewrite drop_app_ge by lia. do 2 f_equal. lia.
Qed.

(** The length of the radiotap header, and a field behind it. *)
Definition rt_len (pkt : list Z) : option Z :=
  l ← bpf_load 1 pkt 2; h ← bpf_load 1 pkt 3; Some (h * 256 + l).
Definition field (pkt : list Z) (off n : Z) : option Z := rt ← rt_len pkt; bpf_load n pkt (rt + off).

Lemma rt_len_range pkt n : bytes_ok pkt -> rt_len pkt = Some n -> is_u16 n.
Proof.
  intros Hp. unfold rt_len. destruct (bpf_load 1 pkt 2) as [l|] eqn:El; [|done]. destruct (bpf_load 1 pkt 3) as [h|] eqn:Eh; [|done].
  intros [= <-]. pose proof (bpf_load_byte _ _ _ Hp El). pose proof (bpf_load_byte _ _ _ Hp Eh). ulia.
Qed.

Lemma rt_len_fits pkt n : rt_len pkt = Some n -> 4 <= zlen pkt.
Proof.
  unfold rt_len, bpf_load. destruct (Z.leb_spec (3 + 1) (zlen pkt)); [lia|]. by destruct (2 + 1 <=? zlen pkt).
Qed.

Section run.
Context `{BpfLaws}.

Ltac bpf_go := erewrite bpf_law; [|reflexivity..]; unfold k; cbn [load_or_ret Nat.add].

(** All filters begin alike: they put the length of the radiotap header in [x]. *)
Definition prelude : list sock_filter := take 6 data_addr3_code.

Lemma prelude_run rest pkt : bytes_ok pkt ->
  bpf_from (prelude ++ rest) 0 0 0 pkt =
  match rt_len pkt with Some n => bpf_from (prelude ++ rest) 6 n n pkt | None => 0 end.
Proof.
  intros Hp. unfold rt_len. bpf_go. destruct (bpf_load 1 pkt 3) as [h|] eqn:Eh; [|by destruct (bpf_load 1 pkt 2)].
  cbn [load_or_ret Nat.add]. do 3 bpf_go. destruct (bpf_load 1 pkt 2) as [l|] eqn:El; [|done].
  cbn [load_or_ret Nat.add]. do 2 bpf_go. cbn [mbind option_bind].
  pose proof (bpf_load_byte _ _ _ Hp El). pose proof (bpf_load_byte _ _ _ Hp Eh).
  assert (Z.lor l (u32 (Z.shiftl h 8)) = h * 256 + l) as ->; [|done].
  rewrite Z.shiftl_mul_pow2 by lia. change (2 ^ 8) with 256. rewrite u32_id, Z.lor_comm by ulia. apply (lor_shift h l 8); ulia.
Qed.

(** A byte behind the header, masked and compared. *)
Lemma masked_run prog pc mask v die x pkt : is_u16 x ->
  prog !! pc = Some (SockFilter 0x50 0 0 0) -> prog !! S pc = Some (SockFilter 0x54 0 0 mask) ->
  prog !! S (S pc) = Some (SockFilter 0x15 0 (die - (pc + 3)) v) -> prog !! die = Some (SockFilter 0x06 0 0 0) ->
  (pc + 3 <= die)%nat -> forall a,
  bpf_from prog pc a x pkt =
    match bpf_load 1 pkt x with
    | Some b => if Z.land b mask =? v then bpf_from prog (pc + 3) (Z.land b mask) x pkt else 0
    | None => 0
    end.
Proof.
  intros Hx H1 H2 H3 Hd Hle a. rewrite (bpf_law _ _ _ _ _ _ _ H1 eq_refl). unfold k. rewrite Z.add_0_r, u32_id by ulia.
  destruct (bpf_load 1 pkt x) as [b|]; [|done]. cbn [load_or_ret]. rewrite Nat.add_0_r, (bpf_law _ _ _ _ _ _ _ H2 eq_refl).
  rewrite Nat.add_0_r, (bpf_law _ _ _ _ _ _ _ H3 eq_refl). unfold k, jt, jf. destruct (Z.land b mask =? v).
  - f_equal. lia.
  - replace (S (S (S pc) + (die - (pc + 3))))%nat with die by lia. by rewrite (bpf_law _ _ _ _ _ _ _ Hd eq_refl).
Qed.

(** Fields behind the header, one compared after the other. *)
Definition load_op (n : Z) : Z := if n =? 4 then 0x40 else if n =? 2 then 0x48 else 0x50.
Fixpoint chain (prog : list sock_filter) (die pc : nat) (l : list (Z * Z * Z)) : Prop :=
  match l with
  | [] => prog !! pc = Some (SockFilter 0x06 0 0 0xffffffff)
  | (off, n, v) :: l =>
    (n = 1 \/ n = 2 \/ n = 4) /\ 0 <= off < 65536 /\ (pc + 2 <= die)%nat /\
    prog !! pc = Some (SockFilter (load_op n) 0 0 off) /\
    prog !! S pc = Some (SockFilter 0x15 0 (die - (pc + 2)) v) /\ chain prog die (pc + 2) l
  end.
Definition tests_hold (pkt : list Z) (x : Z) (l : list (Z * Z * Z)) : bool :=
  forallb (fun '(off, n, v) => bool_decide (bpf_load n pkt (x + off) = Some v)) l.

Lemma chain_run prog die l x pkt : is_u16 x -> prog !! die = Some (SockFilter 0x06 0 0 0) -> forall pc a,
  chain prog die pc l -> bpf_from prog pc a x pkt = if tests_hold pkt x l then 0xffffffff else 0.
Proof.
  intros Hx Hd. induction l as [|[[off n] v] l IH]; intros pc a; cbn [chain].
  - intros H1. by rewrite (bpf_law _ _ _ _ _ _ _ H1 eq_refl).
  - intros (Hn & Hoff & Hle & H1 & H2 & Hc).
    assert (bpf_step (SockFilter (load_op n) 0 0 off) a x pkt = Some (load_or_ret (bpf_load n pkt (x + off)) x)) as Hs.
    { destruct Hn as [->|[->| ->]]; cbn; by rewrite u32_id by ulia. }
    rewrite (bpf_law _ _ _ _ _ _ _ H1 Hs). cbn [tests_hold forallb]. fold (tests_hold pkt x l).
    destruct (bpf_load n pkt (x + off)) as [b|]; [|done]. cbn [load_or_ret].
    rewrite Nat.add_0_r, (bpf_law _ _ _ _ _ _ _ H2 eq_refl). unfold k, jt, jf.
    destruct (Z.eqb_spec b v) as [->|Hne].
    + rewrite bool_decide_eq_true_2 by done. cbn [andb].
      replace (S (S pc + 0))%nat with (pc + 2)%nat by lia. by apply IH.
    + rewrite bool_decide_eq_false_2 by congruence. cbn [andb].
      replace (S (S pc + (die - (pc + 2))))%nat with die by lia. by rewrite (bpf_law _ _ _ _ _ _ _ Hd eq_refl).
Qed.

(** The shape of all three filters. *)
Lemma filter_run rest mask v die l pkt : bytes_ok pkt ->
  let prog := prelude ++ rest in
  prog !! 6%nat = Some (SockFilter 0x50 0 0 0) -> prog !! 7%nat = Some (SockFilter 0x54 0 0 mask) ->
  prog !! 8%nat = Some (SockFilter 0x15 0 (die - 9) v) -> prog !! die = Some (SockFilter 0x06 0 0 0) -> (9 <= die)%nat ->
  chain prog die 9 l ->
  bpf_accepts prog pkt =
    match rt_len pkt with
    | Some n => bool_decide ((fun b => Z.land b mask) <$> bpf_load 1 pkt n = Some v) && tests_hold pkt n l
    | None => false
    end.
Proof.
  intros Hp prog H6 H7 H8 Hd Hle Hc. unfold bpf_accepts, prog. rewrite prelude_run by done.
  destruct (rt_len pkt) as [n|] eqn:En; [|done]. pose proof (rt_len_range _ _ Hp En) as Hn.
  rewrite (masked_run _ 6 mask v die n pkt Hn H6 H7 H8 Hd Hle). destruct (bpf_load 1 pkt n) as [b|]; [|done].
  cbn [fmap option_fmap option_map]. destruct (Z.eqb_spec (Z.land b mask) v) as [E|E].
  - rewrite bool_decide_eq_true_2 by congruence. cbn [andb]. rewrite (chain_run _ die l n pkt Hn Hd 9 _ Hc).
    by destruct (tests_hold pkt n l).
  - by rewrite bool_decide_eq_false_2 by congruence.
Qed.
End run.

(** ** What the filters accept *)

Lemma tests_hold_true pkt x l : tests_hold pkt x l = true <-> Forall (fun '(off, n, v) => bpf_load n pkt (x + off) = Some v) l.
Proof.
  unfold tests_hold. rewrite forallb_forall, List.Forall_forall. split; intros Hl [[off n] v] Hin.
  - specialize (Hl _ Hin). by apply bool_decide_eq_true in Hl.
  - apply bool_decide_eq_true, (Hl _ Hin).
Qed.

(** A data frame: protocol 0, type 2, whatever the subtype. *)
Definition is_data_frame (pkt : list Z) : Prop := exists b, field pkt 0 1 = Some b /\ b mod 16 = 8.

Lemma land_15 b : is_u8 b -> Z.land b 0xf = b mod 16.
Proof. intros _. change 0xf with (Z.ones 4). by rewrite Z.land_ones. Qed.

Lemma masked_data pkt n : bytes_ok pkt -> rt_len pkt = Some n ->
  (fun b => Z.land b 0xf) <$> bpf_load 1 pkt n = Some 8 <-> is_data_frame pkt.
Proof.
  intros Hp En. unfold is_data_frame, field. rewrite En. cbn [mbind option_bind]. rewrite Z.add_0_r.
  destruct (bpf_load 1 pkt n) as [b|] eqn:Eb; cbn [fmap option_fmap option_map].
  - rewrite land_15 by by eapply bpf_load_byte. split; [intros [= ?]; by exists b|]. by intros (? & [= <-] & ->).
  - split; [done|]. by intros (? & ? & _).
Qed.

Lemma field_at pkt n off w : rt_len pkt = Some n -> field pkt off w = bpf_load w pkt (n + off).
Proof. unfold field. by intros ->. Qed.
Lemma field_rt pkt off w v : field pkt off w = Some v -> exists n, rt_len pkt = Some n.
Proof. unfold field. destruct (rt_len pkt) as [n|]; [by exists n|done]. Qed.

Lemma byte_of x i : 0 <= i -> Z.land (Z.shiftr x (8 * i)) 0xff = x / 256 ^ i mod 256.
Proof.
  intros Hi. change 0xff with (Z.ones 8). rewrite Z.land_ones, Z.shiftr_div_pow2, Z.pow_mul_r by lia. done.
Qed.

Lemma field_split pkt off n1 n2 v : bytes_ok pkt -> 0 <= n1 -> 0 <= n2 -> 0 <= off -> 0 <= v < 256 ^ (n1 + n2) ->
  field pkt off (n1 + n2) = Some v <->
  field pkt off n1 = Some (v / 256 ^ n2) /\ field pkt (off + n1) n2 = Some (v mod 256 ^ n2).
Proof.
  intros Hp H1 H2 Ho Hv. unfold field. destruct (rt_len pkt) as [n|] eqn:En; [|by split; [|intros [? _]]].
  pose proof (rt_len_range _ _ Hp En) as Hn. unfold is_u16 in Hn. cbn [mbind option_bind]. rewrite bpf_load_split by (done || lia).
  by rewrite Z.add_assoc.
Qed.

Lemma digit_mod v a i : 0 <= a -> 0 <= i -> v mod 256 ^ (a + (i + 1)) / 256 ^ a mod 256 = v / 256 ^ a mod 256.
Proof.
  intros Ha Hi. assert (0 < 256 ^ a) by (apply Z.pow_pos_nonneg; lia). assert (0 < 256 ^ i) by (apply Z.pow_pos_nonneg; lia).
  rewrite Z.pow_add_r, Z.rem_mul_r, (Z.mul_comm (256 ^ a)), Z.div_add by lia.
  rewrite (Z.div_small (v mod 256 ^ a)) by (apply Z.mod_pos_bound; lia). rewrite Z.add_0_l.
  apply Z.mod_mod_divide. exists (256 ^ i). rewrite Z.pow_add_r by lia. lia.
Qed.

(** A field byte by byte. *)
Lemma field_bytes pkt (n : nat) : bytes_ok pkt -> forall off v, 0 <= off -> 0 <= v < 256 ^ (Z.of_nat n + 1) ->
  field pkt off (Z.of_nat n + 1) = Some v <->
  forall i, 0 <= i <= Z.of_nat n -> field pkt (off + i) 1 = Some (v / 256 ^ (Z.of_nat n - i) mod 256).
Proof.
  intros Hp. induction n as [|n IH]; intros off v Ho Hv.
  - change (256 ^ (Z.of_nat 0 + 1)) with 256 in Hv. change (Z.of_nat 0 + 1) with 1. change (Z.of_nat 0) with 0.
    assert (v / 256 ^ (0 - 0) mod 256 = v) as E by (change (256 ^ (0 - 0)) with 1; lia). split.
    + intros Hf i Hi. assert (i = 0) as -> by lia. by rewrite E, Z.add_0_r.
    + intros Hf. specialize (Hf 0 ltac:(lia)). by rewrite E, Z.add_0_r in Hf.
  - rewrite Nat2Z.inj_succ in *. set (N := Z.of_nat n) in *. replace (Z.succ N + 1) with (1 + (N + 1)) in * by lia.
    assert (0 < 256 ^ (N + 1)) as Hpos by (apply Z.pow_pos_nonneg; lia).
    rewrite field_split, IH by (try done; try lia; apply Z.mod_pos_bound; lia).
    rewrite Z.pow_add_r, Z.pow_1_r in Hv by lia.
    assert (v / 256 ^ (N + 1) mod 256 = v / 256 ^ (N + 1)) as E
      by (apply Z.mod_small; split; [apply Z.div_pos; lia|apply Z.div_lt_upper_bound; lia]).
    assert (forall i, 0 <= i <= N -> v mod 256 ^ (N + 1) / 256 ^ (N - i) mod 256 = v / 256 ^ (Z.succ N - (i + 1)) mod 256) as Ed.
    { intros i Hi. replace (N + 1) with (N - i + (i + 1)) by lia. rewrite digit_mod by lia. do 3 f_equal. lia. }
    split.
    + intros [Hf Hr] i Hi. destruct (decide (i = 0)) as [->|Hne].
      * replace (Z.succ N - 0) with (N + 1) by lia. by rewrite E, Z.add_0_r.
      * replace i with (i - 1 + 1) by lia. rewrite <- Ed, <- Hr by lia. f_equal. lia.
    + intros Hf. split.
      * specialize (Hf 0 ltac:(lia)). replace (Z.succ N - 0) with (N + 1) in Hf by lia. by rewrite E, Z.add_0_r in Hf.
      * intros i Hi. rewrite Ed by done. rewrite <- Hf by lia. f_equal. lia.
Qed.

Section accept.
Context `{BpfLaws}.

(** The common form of the three proofs: the type and the fields. *)
Lemma accepts_fields (prog : list sock_filter) pkt (m : option Z -> Prop) (l : list (Z * Z * Z)) (D : Prop) :
  (forall n, rt_len pkt = Some n -> m (bpf_load 1 pkt n) <-> D) -> (D -> exists n, rt_len pkt = Some n) ->
  (bpf_accepts prog pkt = true <-> exists n, rt_len pkt = Some n /\ m (bpf_load 1 pkt n) /\ tests_hold pkt n l = true) ->
  bpf_accepts prog pkt = true <-> D /\ Forall (fun '(off, n, v) => field pkt off n = Some v) l.
Proof.
  intros Hm HD ->. split.
  - intros (n & En & Hd & Hall). split; [by apply (Hm n)|]. apply tests_hold_true in Hall.
    eapply list.Forall_impl; [exact Hall|]. intros [[off w] v] E. by rewrite (field_at _ n).
  - intros [Hd Hall]. destruct (HD Hd) as [n En]. exists n. split; [done|]. split; [by apply (Hm n)|]. apply tests_hold_true.
    eapply list.Forall_impl; [exact Hall|]. intros [[off w] v] E. by rewrite <- (field_at _ n).
Qed.

Lemma accepts_run rest mask v die l pkt : bytes_ok pkt ->
  let prog := prelude ++ rest in
  prog !! 6%nat = Some (SockFilter 0x50 0 0 0) -> prog !! 7%nat = Some (SockFilter 0x54 0 0 mask) ->
  prog !! 8%nat = Some (SockFilter 0x15 0 (die - 9) v) -> prog !! die = Some (SockFilter 0x06 0 0 0) -> (9 <= die)%nat ->
  chain prog die 9 l ->
  bpf_accepts prog pkt = true <-> exists n, rt_len pkt = Some n /\
    (fun b => Z.land b mask) <$> bpf_load 1 pkt n = Some v /\ tests_hold pkt n l = true.
Proof.
  intros. rewrite (filter_run rest mask v die l) by done. destruct (rt_len pkt) as [n|].
  - rewrite andb_true_iff, bool_decide_eq_true. split; [intros [? ?]; by exists n|]. by intros (? & [= <-] & ? & ?).
  - split; [done|]. by intros (? & ? & _).
Qed.

Lemma is_data_rt pkt : is_data_frame pkt -> exists n, rt_len pkt = Some n.
Proof. intros (b & E & _). by eapply field_rt. Qed.

(** [data_addr3] accepts exactly the data frames whose third address is the
    one it was set to (of which the setter uses 48 bits), on any packet,
    truncated ones included. *)
Theorem data_addr3_accepts addr3 pkt : bytes_ok pkt ->
  bpf_accepts (data_addr3 addr3) pkt = true <->
  is_data_frame pkt /\ field pkt 16 6 = Some (addr3 mod 2 ^ 48).
Proof.
  intros Hp. set (b := fun i => Z.land (Z.shiftr addr3 (8 * i)) 0xff).
  set (l := [(16, 1, b 5); (17, 1, b 4); (18, 1, b 3); (19, 1, b 2); (20, 1, b 1); (21, 1, b 0)]).
  etransitivity; [apply (accepts_fields _ pkt (fun o => (fun b => Z.land b 0xf) <$> o = Some 8) l (is_data_frame pkt))|].
  - intros n En. by apply masked_data.
  - apply is_data_rt.
  - apply (accepts_run (drop 6 (data_addr3 addr3)) 0xf 8 22 l); try done; [lia|]. cbn. unfold b. split_and!; try done; lia.
  - apply and_iff_compat_l. pose proof (field_bytes pkt 5 Hp 16 (addr3 mod 2 ^ 48) ltac:(lia)) as HB.
    change (Z.of_nat 5 + 1) with 6 in HB. change (Z.of_nat 5) with 5 in HB. rewrite HB by (apply Z.mod_pos_bound; lia). clear HB.
    assert (forall i, 0 <= i <= 5 -> addr3 mod 2 ^ 48 / 256 ^ (5 - i) mod 256 = b (5 - i)) as Hb.
    { intros i Hi. unfold b. rewrite byte_of by lia. change (2 ^ 48) with (256 ^ 6).
      replace 6 with (5 - i + (i + 1)) by lia. apply digit_mod; lia. }
    clearbody b. unfold l. rewrite !list.Forall_cons, list.Forall_nil. split.
    + intros (H0' & H1' & H2' & H3' & H4' & H5' & _) i Hi. rewrite Hb by lia.
      assert (i = 0 \/ i = 1 \/ i = 2 \/ i = 3 \/ i = 4 \/ i = 5) as Hc by lia.
      by destruct Hc as [->|[->|[->|[->|[->| ->]]]]].
    + intros Hf. pose proof (fun i Hi => eq_trans (Hf i Hi) (f_equal Some (Hb i Hi))) as Hg. clear Hf.
      split_and!; [apply (Hg 0)|apply (Hg 1)|apply (Hg 2)|apply (Hg 3)|apply (Hg 4)|apply (Hg 5)|done]; lia.
Qed.
Lemma src_high src : u16 (Z.land (Z.shiftr src 8) 0xffff) = src mod 2 ^ 24 / 256 ^ 1.
Proof.
  change 0xffff with (Z.ones 16). rewrite Z.land_ones, Z.shiftr_div_pow2 by lia. change (2 ^ 16) with 65536. change (2 ^ 8) with 256.
  change (2 ^ 24) with 16777216. change (256 ^ 1) with 256. ulia.
Qed.
Lemma src_low src : Z.land src 0xff = src mod 2 ^ 24 mod 256 ^ 1.
Proof. change 0xff with (Z.ones 8). rewrite Z.land_ones by lia. change (2 ^ 8) with 256. change (2 ^ 24) with 16777216. change (256 ^ 1) with 256. lia. Qed.

(** [winject_src] accepts exactly the data frames with BSSID DE:AD:BE:EF:CA:FE
    the first 24 bits of whose source address are the number it was set to, and
    whose destination begins with FF:FF:FF:FF. (The comment in the code means
    five bytes of the destination; the fifth is not looked at.) *)
Lemma winject_src_accepts src pkt : bytes_ok pkt ->
  bpf_accepts (winject_src src) pkt = true <->
  is_data_frame pkt /\ field pkt 16 6 = Some 0xDEADBEEFCAFE /\ field pkt 4 4 = Some 0xFFFFFFFF /\
  field pkt 10 3 = Some (src mod 2 ^ 24).
Proof.
  intros Hp. set (hi := u16 (Z.land (Z.shiftr src 8) 0xffff)). set (lo := Z.land src 0xff).
  set (l := [(16, 4, 0xdeadbeef); (20, 2, 0xcafe); (4, 4, 0xffffffff); (4, 2, 0xffff); (10, 2, hi); (12, 1, lo)]).
  etransitivity; [apply (accepts_fields _ pkt (fun o => (fun b => Z.land b 0xf) <$> o = Some 8) l (is_data_frame pkt))|].
  - intros n En. by apply masked_data.
  - apply is_data_rt.
  - apply (accepts_run (drop 6 (winject_src src)) 0xf 8 22 l); try done; [lia|]. cbn. split_and!; try done; lia.
  - apply and_iff_compat_l. unfold l, hi, lo. rewrite src_high, src_low, !list.Forall_cons, list.Forall_nil.
    rewrite (field_split pkt 16 4 2 0xDEADBEEFCAFE Hp), (field_split pkt 10 2 1 (src mod 2 ^ 24) Hp)
      by (try lia; apply Z.mod_pos_bound; lia).
    assert (field pkt 4 4 = Some 0xffffffff -> field pkt 4 2 = Some 0xffff)
      by (intros Hf; apply (field_split pkt 4 2 2 0xffffffff Hp) in Hf; [apply Hf|lia..]).
    change (16 + 4) with 20. change (10 + 2) with 12. tauto.
Qed.

(** [winject_rts_src] rejects the frames it is for. It compares the last two
    bytes of the transmitter address 20 bytes behind the start of the frame,
    where a data frame has them; a request to send is 16 bytes long, 20 with
    its check sequence, and so has no such field. *)
Theorem winject_rts_rejects src pkt n : bytes_ok pkt -> rt_len pkt = Some n -> zlen pkt < n + 22 ->
  bpf_accepts (winject_rts_src src) pkt = false.
Proof.
  intros Hp En Hz. apply not_true_is_false. intros Ht.
  set (l := [(10, 4, 0xdeadbeef); (20, 2, 0xcafe); (4, 2, u16 (Z.land (Z.shiftr src 8) 0xffff)); (6, 1, Z.land src 0xff)]).
  apply (accepts_run (drop 6 (winject_rts_src src)) 0xff 0xb4 18 l) in Ht; try done; [|lia|].
  - destruct Ht as (m & Em & _ & Hall). rewrite En in Em. injection Em as <-. apply tests_hold_true in Hall.
    unfold l in Hall. rewrite !list.Forall_cons in Hall. destruct Hall as (_ & E & _). unfold bpf_load in E.
    destruct (Z.leb_spec (n + 20 + 2) (zlen pkt)); [lia|]. by rewrite andb_false_r in E.
  - cbn. split_and!; try done; lia.
Qed.
End accept.

(** ** A machine *)

Module Bpf.
(** Jumps only go forward: what follows is all that is left to run. *)
Fixpoint exec (prog : list sock_filter) (skip : nat) (a x : Z) (pkt : list Z) : Z :=
  match prog with
  | [] => 0
  | i :: rest =>
    match skip with
    | S skip => exec rest skip a x pkt
    | O =>
      match bpf_step i a x pkt with
      | Some (Next a x skip) => exec rest skip a x pkt
      | Some (Ret v) => v
      | None => 0
      end
    end
  end.

Lemma exec_drop prog : forall pc a x pkt skip, exec (drop pc prog) skip a x pkt = exec prog (pc + skip) a x pkt.
Proof. induction prog as [|i prog IH]; intros [|pc] a x pkt skip; try done. cbn. apply IH. Qed.

#[export] Instance machine : BpfMachine := exec.
#[export] Instance laws : BpfLaws.
Proof.
  intros prog pc a x pkt i r Hi Hr. unfold bpf_from, machine. rewrite <- (Nat.add_0_r pc) at 1.
  rewrite <- exec_drop, (drop_S _ _ _ Hi). cbn [exec]. rewrite Hr. destruct r as [a' x' skip|v]; [|done].
  by rewrite exec_drop.
Qed.
End Bpf.
Import Bpf.

(** A data frame behind a radiotap header of 8 bytes. *)
Definition packet_example : list Z :=
  [0; 0; 8; 0; 0; 0; 0; 0] ++ [8; 0; 0; 0] ++ replicate 4 255 ++ [1; 2] ++ [0xAA; 0xBB; 0xCC; 4; 5; 6] ++
  [0xDE; 0xAD; 0xBE; 0xEF; 0xCA; 0xFE] ++ [0; 0] ++ [42].

Lemma packet_example_ok : bytes_ok packet_example.
Proof. apply (bool_decide_unpack _). vm_compute. exact I. Qed.

Lemma data_addr3_accepts_witness : bpf_accepts (data_addr3 0xDEADBEEFCAFE) packet_example = true.
Proof.
  apply (data_addr3_accepts 0xDEADBEEFCAFE packet_example packet_example_ok). split; [|vm_compute; reflexivity].
  exists 8. split; vm_compute; reflexivity.
Defined.

Example winject_src_example : bpf_accepts (winject_src 0xAABBCC) packet_example = true.
Proof. vm_compute. reflexivity. Qed.

Definition rts_example : list Z :=
  [0; 0; 8; 0; 0; 0; 0; 0] ++ [0xB4; 0; 0; 0] ++ [0xAA; 0xBB; 0xCC; 4; 5; 6] ++ [0xDE; 0xAD; 0xBE; 0xEF; 0xCA; 0xFE] ++ [1; 2; 3; 4].

Lemma winject_rts_rejects_witness : bpf_accepts (winject_rts_src 0xAABBCC) rts_example = false.
Proof.
  apply (winject_rts_rejects 0xAABBCC rts_example 8).
  - apply (bool_decide_unpack _). vm_compute. exact I.
  - reflexivity.
  - reflexivity.
Defined.
