(* ===== verification/Info.v ===== *)
(** * What the layers exchange ([winject/src/info_defs.hpp], [pdu.hpp], [ILLC.hpp], [IRRC.hpp])

    A [pdu_t] is a view of a frame buffer: a pointer and a size. The slot
    number is the one field of [frame_info_t] the layers read. *)

From S2P Require Import Prelude Mem.

Record pdu_t := Pdu { pdu_base : Z; pdu_size : Z }.
#[export] Instance eta_pdu : Eta pdu_t := fun p => Pdu (pdu_base p) (pdu_size p).

Record tx_info_t := TxInfo {
  in_slot_number : Z; in_allow_data : bool;
  out_tx_available : bool; out_has_data_loaded : bool;
  out_pdu : pdu_t; out_allocated : Z }.
#[export] Instance eta_tx_info : Eta tx_info_t := fun i =>
  TxInfo (in_slot_number i) (in_allow_data i) (out_tx_available i) (out_has_data_loaded i)
    (out_pdu i) (out_allocated i).

(** [info.out_pdu.base = ...], [info.out_pdu.size = ...] *)
Definition set_out_base (b : Z) (i : tx_info_t) : tx_info_t :=
  i <| out_pdu := (out_pdu i) <| pdu_base := b |> |>.
Definition set_out_size (n : Z) (i : tx_info_t) : tx_info_t :=
  i <| out_pdu := (out_pdu i) <| pdu_size := n |> |>.

(** What the layers ask of the RRC. *)
Inductive rrc_call := OnRlf (lcid : Z) | OnInit (lcid : Z).
#[export] Instance rrc_call_eq_dec : EqDecision rrc_call.
Proof. solve_decision. Defined.

(** [ILLC::tx_config_t] and [ILLC::rx_config_t] *)
Inductive tx_mode_e : Set := E_TX_MODE_TM | E_TX_MODE_AM.
Inductive crc_type_e : Set := E_CRC_TYPE_NONE | E_CRC_TYPE_CRC32_04C11DB7.
#[export] Instance tx_mode_dec : EqDecision tx_mode_e. Proof. solve_decision. Defined.
#[export] Instance crc_type_dec : EqDecision crc_type_e. Proof. solve_decision. Defined.

Record illc_tx_config := IllcTx {
  it_allow_rlf : bool; it_mode : tx_mode_e; it_arq_window_size : Z; it_max_retx_count : Z;
  it_crc_type : crc_type_e }.
Record illc_rx_config := IllcRx { ir_mode : tx_mode_e; ir_crc_type : crc_type_e; ir_auto_init_on_rx : bool }.
#[export] Instance eta_illc_rx : Eta illc_rx_config := fun c =>
  IllcRx (ir_mode c) (ir_crc_type c) (ir_auto_init_on_rx c).
Definition illc_rx_default : illc_rx_config := IllcRx E_TX_MODE_TM E_CRC_TYPE_NONE false.

(** [m'] is [m] but for the [n] bytes at [b]. *)
Definition same_outside (b n : Z) (m m' : list Z) : Prop :=
  zlen m' = zlen m /\ forall k, k < b \/ b + n <= k -> rd m' k = rd m k.

Lemma same_outside_refl b n m : same_outside b n m m.
Proof. done. Qed.

Lemma same_outside_trans b n m1 m2 m3 :
  same_outside b n m1 m2 -> same_outside b n m2 m3 -> same_outside b n m1 m3.
Proof. intros [L1 H1] [L2 H2]. split; [lia|]. intros k Hk. rewrite H2 by done. by apply H1. Qed.

Lemma same_outside_sub b n b' n' m m' :
  b' <= b -> b + n <= b' + n' -> same_outside b n m m' -> same_outside b' n' m m'.
Proof. intros ?? [L H]. split; [done|]. intros k Hk. apply H. lia. Qed.

Lemma same_outside_splice b n m bs i :
  b <= i -> i + zlen bs <= b + n -> 0 <= i -> i + zlen bs <= zlen m ->
  same_outside b n m (splice m i bs).
Proof.
  intros. split; [by apply zlen_splice|]. intros k Hk. apply rd_splice_other; try done; lia.
Qed.

Lemma same_outside_slice b n m m' i k :
  same_outside b n m m' -> 0 <= i -> i + k <= b \/ b + n <= i -> slice m' i k = slice m i k.
Proof. intros [_ H] Hi Hk. apply slice_ext; [done|]. intros j Hj. apply H. lia. Qed.

(** Two writers of a view, one after the other. *)
Lemma same_outside_append p n m bs1 m' n2 :
  0 <= p -> 0 <= n2 -> zlen bs1 + n2 <= n -> p + n <= zlen m ->
  same_outside (p + zlen bs1) (n - zlen bs1) (splice m p bs1) m' ->
  slice m' p (zlen bs1 + n2) = bs1 ++ slice m' (p + zlen bs1) n2 /\ same_outside p n m m'.
Proof.
  intros Hp Hn2 Hn Hl HO. pose proof (zlen_nonneg bs1). split.
  - rewrite slice_app by lia. f_equal. transitivity (slice (splice m p bs1) p (zlen bs1)).
    + apply slice_ext; [done|]. intros j Hj. apply HO. lia.
    + apply slice_splice_same; lia.
  - eapply same_outside_trans.
    + apply (same_outside_splice p n m bs1 p); lia.
    + eapply same_outside_sub; [| |exact HO]; lia.
Qed.

(** ** The PDCP as the LLC sees it: [IPDCP::on_tx], [IPDCP::on_rx]

    [pdcp_on_tx] writes into the view [out_pdu] of the memory; [pdcp_on_rx]
    reads the view at an address of a size. *)

Class Ipdcp (P : Type) := {
  pdcp_on_tx : list Z -> tx_info_t -> P -> res (list Z * tx_info_t * P);
  pdcp_on_rx : list Z -> Z -> Z -> P -> res P }.

(** The view a caller may offer. *)
Definition tx_view_ok (m : list Z) (info : tx_info_t) : Prop :=
  view_ok m (pdu_base (out_pdu info)) (pdu_size (out_pdu info)) /\ pdu_size (out_pdu info) < 32768 /\
  0 <= out_allocated info /\ is_u64 (out_allocated info + pdu_size (out_pdu info)).

(** What the LLC relies on: in a state [pdcp_ok] the PDCP writes only inside
    the view, adds no more to [out_allocated] than the size of the view, and
    reports whether it has data; it changes nothing else of [tx_info_t]. *)
Class IpdcpLaws (P : Type) `{Ipdcp P} := {
  pdcp_ok : P -> Prop;
  pdcp_on_tx_ok m info p : pdcp_ok p -> tx_view_ok m info ->
    exists m' k av p', pdcp_on_tx m info p =
        Ok (m', info <| out_allocated := out_allocated info + k |> <| out_tx_available := av |>, p') /\
      pdcp_ok p' /\ bytes_ok m' /\ 0 <= k <= pdu_size (out_pdu info) /\
      same_outside (pdu_base (out_pdu info)) (pdu_size (out_pdu info)) m m' }.

(** ** How the LLC may be called

    The slots of the calls of one LLC: the next slot, or the same slot again,
    without data once data was sent in it. *)
Definition slot_rule (now : Z) (sent_now : bool) (info : tx_info_t) : Prop :=
  in_slot_number info = now + 1 \/
  in_slot_number info = now /\ (sent_now = true -> in_allow_data info = false).

Record call_ok (now : Z) (sent_now : bool) (m : list Z) (info : tx_info_t) : Prop := CallOk {
  co_view : tx_view_ok m info;
  co_size : pdu_size (out_pdu info) <= 1500;
  co_slot : slot_rule now sent_now info;
  co_flag : out_has_data_loaded info = false }.

(** Whether data was sent in the slot after the call. *)
Definition sent_after (now : Z) (sent_now : bool) (info info' : tx_info_t) : bool :=
  out_has_data_loaded info' || (if decide (in_slot_number info = now) then sent_now else false).
