(* ===== verification/SafeInt.v ===== *)
(** * Fixed-endian integers ([winject/src/safeint.hpp])

    [safeint<T,htole,letoh>] and its packed variant [safeint_ua] keep an
    integer in a chosen byte order whatever the byte order of the host. The
    host's byte order is an argument of the definitions here; the rest of the
    development runs on the little-endian host the program targets. *)

From S2P Require Import Prelude Mem.

Inductive byte_order : Set := Little | Big.
#[global] Instance byte_order_eq_dec : EqDecision byte_order.
Proof. solve_decision. Defined.

(** ** Integers and their bytes *)

Fixpoint le_split (n : nat) (v : Z) : list Z :=
  match n with
  | O => []
  | S n => v mod 256 :: le_split n (v / 256)
  end.

Fixpoint le_combine (l : list Z) : Z :=
  match l with
  | [] => 0
  | b :: l => b + 256 * le_combine l
  end.

(** Bytes of an [n]-byte integer in the memory of a host, and back. *)
Definition to_bytes (o : byte_order) (n : nat) (v : Z) : list Z :=
  match o with Little => le_split n v | Big => rev (le_split n v) end.
Definition of_bytes (o : byte_order) (bs : list Z) : Z :=
  match o with Little => le_combine bs | Big => le_combine (rev bs) end.

(** [__bswap_16], [__bswap_32], [__bswap_64]. *)
Definition bswap (n : nat) (v : Z) : Z := le_combine (rev (le_split n v)).

(** Conversion of an integer to an [n]-byte unsigned, or signed, type. *)
Definition to_uint (n : nat) (v : Z) : Z := v mod 256 ^ Z.of_nat n.
Definition to_sint (n : nat) (v : Z) : Z :=
  let u := to_uint n v in
  if u <? 256 ^ Z.of_nat n / 2 then u else u - 256 ^ Z.of_nat n.

(** ** The classes *)

(** The template arguments: byte order, size of [T] and its signedness. *)
Record sf_type := SfType { sf_order : byte_order; sf_bytes : nat; sf_signed : bool }.

Definition sf_trunc (t : sf_type) (v : Z) : Z :=
  if sf_signed t then to_sint (sf_bytes t) v else to_uint (sf_bytes t) v.

(** [sf_htole16] ... [sf_be64tohi]: the conversion functions, which are the
    same in both directions. The signed ones go through the unsigned type. *)
Definition sf_convert (host : byte_order) (t : sf_type) (x : Z) : Z :=
  let u := to_uint (sf_bytes t) x in
  sf_trunc t (if decide (host = sf_order t) then u else bswap (sf_bytes t) u).

(** [safeint(T)] and [operator=(T)]; [operator T]; [operator&=]; [operator|=]. *)
Definition sf_make (host : byte_order) (t : sf_type) (val : Z) : Z := sf_convert host t val.
Definition sf_get (host : byte_order) (t : sf_type) (value : Z) : Z := sf_convert host t value.
Definition sf_and_assign (host : byte_order) (t : sf_type) (value u : Z) : Z :=
  sf_make host t (sf_trunc t (Z.land (sf_get host t value) u)).
Definition sf_or_assign (host : byte_order) (t : sf_type) (value u : Z) : Z :=
  sf_make host t (sf_trunc t (Z.lor (sf_get host t value) u)).

(** [alignof]: [safeint] is aligned as [T], the packed [safeint_ua] is not. *)
Definition sf_align (packed : bool) (t : sf_type) : Z :=
  if packed then 1 else Z.of_nat (sf_bytes t).

Definition LEU16 := SfType Little 2 false.
Definition LEU32 := SfType Little 4 false.
Definition LEU64 := SfType Little 8 false.
Definition LEI16 := SfType Little 2 true.
Definition LEI32 := SfType Little 4 true.
Definition LEI64 := SfType Little 8 true.
Definition BEU16 := SfType Big 2 false.
Definition BEU32 := SfType Big 4 false.
Definition BEU64 := SfType Big 8 false.
Definition BEI16 := SfType Big 2 true.
Definition BEI32 := SfType Big 4 true.
Definition BEI64 := SfType Big 8 true.

(** The object representation of a [safeint] in the host's memory. *)
Definition sf_image (host : byte_order) (t : sf_type) (value : Z) : list Z :=
  to_bytes host (sf_bytes t) (to_uint (sf_bytes t) value).
Definition sf_of_image (host : byte_order) (t : sf_type) (bs : list Z) : Z :=
  sf_trunc t (of_bytes host bs).

(** Assignment through, and value of, [*p] for [p] a pointer to a [safeint_ua] in a buffer. *)
Definition sf_store (host : byte_order) (t : sf_type) (m : list Z) (p v : Z) : res (list Z) :=
  wr_n m p (sf_image host t (sf_make host t v)).
Definition sf_load (host : byte_order) (t : sf_type) (m : list Z) (p : Z) : res Z :=
  bs ← rd_n m p (Z.of_nat (sf_bytes t));
  mret (sf_get host t (sf_of_image host t bs)).

(** ** Lemmas *)

Lemma pow256_pos n : 0 < 256 ^ Z.of_nat n.
Proof. apply Z.pow_pos_nonneg; lia. Qed.

Lemma pow256_S n : 256 ^ Z.of_nat (S n) = 256 * 256 ^ Z.of_nat n.
Proof. rewrite Nat2Z.inj_succ, Z.pow_succ_r; lia. Qed.

Lemma length_le_split n v : length (le_split n v) = n.
Proof. revert v. induction n; intros; simpl; auto. Qed.

Lemma le_split_bytes_ok n v : bytes_ok (le_split n v).
Proof.
  revert v. induction n; intros; simpl; constructor; [ulia|apply IHn].
Qed.

Lemma le_combine_split n v : le_combine (le_split n v) = v mod 256 ^ Z.of_nat n.
Proof.
  revert v. induction n as [|n IH]; intros v.
  - simpl. by rewrite Z.mod_1_r.
  - cbn [le_split le_combine]. rewrite IH, pow256_S.
    symmetry. apply Z.rem_mul_r; [done|apply pow256_pos].
Qed.

Lemma le_combine_range l : bytes_ok l -> 0 <= le_combine l < 256 ^ zlen l.
Proof.
  unfold zlen. induction 1 as [|b l Hb Hl IH]; simpl length; [simpl; lia|].
  cbn [le_combine]. rewrite pow256_S. unfold is_u8 in Hb. nia.
Qed.

Lemma le_split_combine l : bytes_ok l -> le_split (length l) (le_combine l) = l.
Proof.
  induction 1 as [|b l Hb Hl IH]; simpl; [done|].
  f_equal; [ulia|].
  replace ((b + 256 * le_combine l) / 256) with (le_combine l) by ulia. exact IH.
Qed.

Lemma le_split_mod n v : le_split n (v mod 256 ^ Z.of_nat n) = le_split n v.
Proof.
  rewrite <- le_combine_split.
  rewrite <- (length_le_split n v) at 1. apply le_split_combine, le_split_bytes_ok.
Qed.

Lemma to_uint_range n v : 0 <= to_uint n v < 256 ^ Z.of_nat n.
Proof. apply Z.mod_pos_bound, pow256_pos. Qed.

Lemma to_uint_id n v : 0 <= v < 256 ^ Z.of_nat n -> to_uint n v = v.
Proof. apply Z.mod_small. Qed.

Lemma bytes_ok_rev l : bytes_ok l -> bytes_ok (rev l).
Proof. unfold bytes_ok. rewrite !Forall_forall. intros H x Hx. apply H. by apply in_rev. Qed.

Lemma le_split_bswap n v : le_split n (bswap n v) = rev (le_split n v).
Proof.
  unfold bswap. rewrite <- (length_le_split n v) at 1. rewrite <- length_rev.
  apply le_split_combine, bytes_ok_rev, le_split_bytes_ok.
Qed.

Lemma bswap_range n v : 0 <= bswap n v < 256 ^ Z.of_nat n.
Proof.
  unfold bswap. pose proof (le_combine_range (rev (le_split n v))) as H.
  unfold zlen in H. rewrite length_rev, length_le_split in H.
  apply H, bytes_ok_rev, le_split_bytes_ok.
Qed.

Lemma bswap_involutive n v : 0 <= v < 256 ^ Z.of_nat n -> bswap n (bswap n v) = v.
Proof.
  intros. unfold bswap at 1. rewrite le_split_bswap, rev_involutive, le_combine_split.
  by apply Z.mod_small.
Qed.

Lemma to_uint_sint n v : to_uint n (to_sint n v) = to_uint n v.
Proof.
  unfold to_sint. case_Z; unfold to_uint at 1.
  - apply Z.mod_small, to_uint_range.
  - rewrite <- (Z_mod_plus_full _ 1). replace (_ + _) with (to_uint n v) by lia.
    apply Z.mod_small, to_uint_range.
Qed.

Lemma to_uint_trunc t v : to_uint (sf_bytes t) (sf_trunc t v) = to_uint (sf_bytes t) v.
Proof.
  unfold sf_trunc. destruct (sf_signed t); [apply to_uint_sint|].
  unfold to_uint. apply Z.mod_mod. pose proof (pow256_pos (sf_bytes t)). lia.
Qed.

Lemma sf_trunc_mod t v w :
  to_uint (sf_bytes t) v = to_uint (sf_bytes t) w -> sf_trunc t v = sf_trunc t w.
Proof. unfold sf_trunc, to_sint. by intros ->. Qed.

Lemma sf_trunc_uint t v : sf_trunc t (to_uint (sf_bytes t) v) = sf_trunc t v.
Proof.
  apply sf_trunc_mod. unfold to_uint. apply Z.mod_mod.
  pose proof (pow256_pos (sf_bytes t)). lia.
Qed.

Lemma sf_convert_convert host t v : sf_convert host t (sf_convert host t v) = sf_trunc t v.
Proof.
  unfold sf_convert. rewrite to_uint_trunc.
  destruct (decide (host = sf_order t)).
  - rewrite !(to_uint_id _ (to_uint _ _)) by apply to_uint_range. apply sf_trunc_uint.
  - rewrite (to_uint_id _ (bswap _ _)) by apply bswap_range.
    rewrite bswap_involutive by apply to_uint_range. apply sf_trunc_uint.
Qed.

Lemma of_to_bytes o n v : of_bytes o (to_bytes o n v) = v mod 256 ^ Z.of_nat n.
Proof. destruct o; simpl; rewrite ?rev_involutive; apply le_combine_split. Qed.

Lemma length_to_bytes o n v : length (to_bytes o n v) = n.
Proof. destruct o; simpl; rewrite ?length_rev; apply length_le_split. Qed.

Lemma to_bytes_ok o n v : bytes_ok (to_bytes o n v).
Proof. destruct o; simpl; [|apply bytes_ok_rev]; apply le_split_bytes_ok. Qed.

Lemma zlen_sf_image host t v : zlen (sf_image host t v) = Z.of_nat (sf_bytes t).
Proof. unfold zlen, sf_image. by rewrite length_to_bytes. Qed.

Lemma sf_of_image_image host t v : sf_of_image host t (sf_image host t v) = sf_trunc t v.
Proof.
  unfold sf_of_image, sf_image. rewrite of_to_bytes.
  change (_ mod _) with (to_uint (sf_bytes t) (to_uint (sf_bytes t) v)).
  by rewrite to_uint_id, sf_trunc_uint by apply to_uint_range.
Qed.

Lemma sf_image_make host t v :
  sf_image host t (sf_make host t v) = to_bytes (sf_order t) (sf_bytes t) (to_uint (sf_bytes t) v).
Proof.
  unfold sf_image, sf_make, sf_convert. rewrite to_uint_trunc.
  destruct (decide (host = sf_order t)) as [->|Hne].
  - by rewrite (to_uint_id _ (to_uint _ _)) by apply to_uint_range.
  - rewrite (to_uint_id _ (bswap _ _)) by apply bswap_range.
    destruct host, (sf_order t); try done; simpl; rewrite le_split_bswap; [done|].
    by rewrite rev_involutive.
Qed.

Lemma sf_trunc_trunc t v : sf_trunc t (sf_trunc t v) = sf_trunc t v.
Proof. apply sf_trunc_mod, to_uint_trunc. Qed.

(** A value of type [T] is its own truncation. *)
Definition sf_fits (t : sf_type) (v : Z) : Prop := sf_trunc t v = v.

Lemma sf_get_trunc_make host t v :
  sf_fits t v -> sf_get host t (sf_trunc t (sf_make host t v)) = v.
Proof.
  intros Hv. unfold sf_get, sf_make. rewrite <- Hv at 2. rewrite <- (sf_convert_convert host t v).
  unfold sf_convert at 1 3. by rewrite to_uint_trunc.
Qed.

(** ** Properties *)

(** Reading a fixed-endian integer gives back the value it was made
    from, on a host of either byte order. *)
Theorem sf_get_make host t v : sf_fits t v -> sf_get host t (sf_make host t v) = v.
Proof. intros H. unfold sf_get, sf_make. by rewrite sf_convert_convert. Qed.

Lemma sf_get_make_witness :
  sf_fits BEU32 0xDEADBEEF /\ sf_get Little BEU32 (sf_make Little BEU32 0xDEADBEEF) = 0xDEADBEEF.
Proof. split; [vm_compute; reflexivity|]. apply sf_get_make. vm_compute. reflexivity. Defined.

(** The bytes of a fixed-endian integer in memory are the bytes of its
    value in the order its type names, so they do not depend on the host. *)
Theorem sf_image_portable host1 host2 t v :
  sf_image host1 t (sf_make host1 t v) = sf_image host2 t (sf_make host2 t v).
Proof. by rewrite !sf_image_make. Qed.

(** A store of a value followed by a load of the same object returns the
    value, and the store changes no other byte of the buffer. *)
Theorem sf_load_store host t m p v m' :
  sf_fits t v -> sf_store host t m p v = Ok m' ->
  sf_load host t m' p = Ok v /\
  (forall j, j < p \/ p + Z.of_nat (sf_bytes t) <= j -> rd m' j = rd m j) /\
  zlen m' = zlen m.
Proof.
  intros Hv [Hb ->]%wr_n_Ok. rewrite zlen_sf_image in Hb. split; [|split].
  - unfold sf_load. rewrite rd_n_in; rewrite ?zlen_splice; rewrite ?zlen_sf_image; try lia.
    simpl. rewrite <- (zlen_sf_image host t (sf_make host t v)).
    rewrite slice_splice_same by (rewrite ?zlen_sf_image; lia).
    rewrite sf_of_image_image. unfold mret, res_ret. f_equal. by apply sf_get_trunc_make.
  - intros j Hj. apply rd_splice_other; rewrite ?zlen_sf_image; lia.
  - apply zlen_splice; rewrite ?zlen_sf_image; lia.
Qed.

Lemma sf_load_store_witness :
  sf_fits BEU16 0x1234 /\
  sf_store Little BEU16 [0; 0; 0; 0] 1 0x1234 = Ok [0; 0x12; 0x34; 0] /\
  sf_load Little BEU16 [0; 0x12; 0x34; 0] 1 = Ok 0x1234.
Proof.
  split; [vm_compute; reflexivity|]. split; [vm_compute; reflexivity|].
  apply (sf_load_store Little BEU16 [0; 0; 0; 0] 1 0x1234); vm_compute; reflexivity.
Defined.

(** ** Big-endian 16-bit fields, as the frame definitions use them *)

Definition ld_be16 (m : list Z) (p : Z) : res Z := sf_load Little BEU16 m p.
Definition st_be16 (m : list Z) (p v : Z) : res (list Z) := sf_store Little BEU16 m p v.

Definition be16 (v : Z) : list Z := [v / 256; v mod 256].

Lemma to_uint_u16 v : is_u16 v -> to_uint 2 v = v.
Proof. intros. unfold to_uint. change (256 ^ Z.of_nat 2) with 65536. ulia. Qed.

Lemma be16_image v : is_u16 v -> sf_image Little BEU16 (sf_make Little BEU16 v) = be16 v.
Proof.
  intros. rewrite sf_image_make. cbn [sf_bytes sf_order BEU16]. rewrite to_uint_u16 by done.
  unfold be16. cbn. f_equal. ulia.
Qed.

Lemma st_be16_in m p v :
  is_u16 v -> 0 <= p -> p + 2 <= zlen m -> st_be16 m p v = Ok (splice m p (be16 v)).
Proof.
  intros. unfold st_be16, sf_store. rewrite be16_image by done. by apply wr_n_in.
Qed.

Lemma sf_fits_u16 v : is_u16 v -> sf_fits BEU16 v.
Proof. apply to_uint_u16. Qed.

Lemma ld_be16_slice m p v :
  is_u16 v -> 0 <= p -> p + 2 <= zlen m -> slice m p 2 = be16 v -> ld_be16 m p = Ok v.
Proof.
  intros Hv Hp Hl Hs. unfold ld_be16, sf_load. change (Z.of_nat (sf_bytes BEU16)) with 2.
  rewrite rd_n_in by lia. rewrite bind_ret_l, Hs, <- be16_image, sf_of_image_image by done. unfold mret, res_ret. f_equal.
  apply sf_get_trunc_make, sf_fits_u16, Hv.
Qed.

Lemma zlen_be16 v : zlen (be16 v) = 2.
Proof. reflexivity. Qed.

Lemma be16_bytes_ok v : is_u16 v -> bytes_ok (be16 v).
Proof. intros. repeat constructor; ulia. Qed.

Lemma slice_2_rd m p x y :
  0 <= p -> p + 2 <= zlen m -> rd m p = Ok x -> rd m (p + 1) = Ok y -> slice m p 2 = [x; y].
Proof.
  intros Hp Hl [_ Hx]%rd_Ok [_ Hy]%rd_Ok. apply list_eq. intros k. rewrite lookup_slice.
  case_decide; [|by rewrite (proj2 (lookup_ge_None [x; y] k)) by (simpl; lia)].
  destruct k as [|[|k]]; [by rewrite Nat.add_0_r| |lia]. simpl. rewrite <- Hy. f_equal. lia.
Qed.

Lemma ld_be16_in m p :
  bytes_ok m -> 0 <= p -> p + 2 <= zlen m ->
  exists v, ld_be16 m p = Ok v /\ is_u16 v /\ slice m p 2 = be16 v.
Proof.
  intros Hm Hp Hl.
  destruct (rd_in m p) as (x & Hx & _); [lia|]. destruct (rd_in m (p + 1)) as (y & Hy & _); [lia|].
  pose proof (bytes_ok_rd _ _ _ Hm Hx). pose proof (bytes_ok_rd _ _ _ Hm Hy).
  assert (slice m p 2 = be16 (x * 256 + y)) as Hs.
  { rewrite (slice_2_rd _ _ x y) by done. unfold be16. repeat f_equal; ulia. }
  assert (is_u16 (x * 256 + y)) by ulia.
  exists (x * 256 + y). split; [|done]. by apply ld_be16_slice.
Qed.
