(* ===== verification/Radiotap.v ===== *)
(** * Radiotap header ([winject/src/radiotap.hpp])

    A [radiotap_t] is a view of the header in front of a frame: a word of
    presence bits says which fields follow, each at its own alignment. The
    alignment is that of the address, so the place of the buffer in memory,
    [org], is an argument. The members that point to the fields are assigned by
    [process_sequence] alone, with the presence bit of each; they are one map
    here, from presence bits to pointers. *)

From stdpp Require Import gmap.
From S2P Require Import Prelude Mem SafeInt.

(** ** Fields *)

Definition E_FIELD_PRESENCE_TSFT : Z := 0x1.
Definition E_FIELD_PRESENCE_FLAGS : Z := 0x2.
Definition E_FIELD_PRESENCE_RATE : Z := 0x4.
Definition E_FIELD_PRESENCE_CHANNEL : Z := 0x8.
Definition E_FIELD_PRESENCE_FHSS : Z := 0x10.
Definition E_FIELD_PRESENCE_DBM_ANTSIGNAL : Z := 0x20.
Definition E_FIELD_PRESENCE_DBM_ANTNOISE : Z := 0x40.
Definition E_FIELD_PRESENCE_LOCK_QUALITY : Z := 0x80.
Definition E_FIELD_PRESENCE_TX_ATTENUATION : Z := 0x100.
Definition E_FIELD_PRESENCE_DB_TX_ATTENUATION : Z := 0x200.
Definition E_FIELD_PRESENCE_DBM_TX_POWER : Z := 0x400.
Definition E_FIELD_PRESENCE_ANTENNA : Z := 0x800.
Definition E_FIELD_PRESENCE_DB_ANTSIGNAL : Z := 0x1000.
Definition E_FIELD_PRESENCE_DB_ANTNOISE : Z := 0x2000.
Definition E_FIELD_PRESENCE_RX_FLAGS : Z := 0x4000.
Definition E_FIELD_PRESENCE_TX_FLAGS : Z := 0x8000.
Definition E_FIELD_PRESENCE_RTS_RETRIES : Z := 0x10000.
Definition E_FIELD_PRESENCE_DATA_RETRIES : Z := 0x20000.
Definition E_FIELD_PRESENCE_MCS : Z := 0x80000.
Definition E_FIELD_PRESENCE_AMPDU_STATUS : Z := 0x100000.
Definition E_FIELD_PRESENCE_VHT : Z := 0x200000.
Definition E_FIELD_PRESENCE_TIMESTAMP : Z := 0x400000.

(** Presence bit, [alignof] and [sizeof] of a field. *)
Record field_t := Field { fd_bit : Z; fd_align : Z; fd_size : Z }.

Definition tsft_t : field_t := Field E_FIELD_PRESENCE_TSFT 8 8.
Definition flags_t : field_t := Field E_FIELD_PRESENCE_FLAGS 1 1.
Definition rate_t : field_t := Field E_FIELD_PRESENCE_RATE 1 1.
Definition channel_t : field_t := Field E_FIELD_PRESENCE_CHANNEL 2 4.
Definition fhss_t : field_t := Field E_FIELD_PRESENCE_FHSS 2 2.
Definition antenna_signal_t : field_t := Field E_FIELD_PRESENCE_DBM_ANTSIGNAL 1 1.
Definition antenna_noise_t : field_t := Field E_FIELD_PRESENCE_DBM_ANTNOISE 1 1.
Definition lock_quality_t : field_t := Field E_FIELD_PRESENCE_LOCK_QUALITY 2 2.
Definition tx_attenuation_t : field_t := Field E_FIELD_PRESENCE_TX_ATTENUATION 2 2.
Definition db_tx_attenuation_t : field_t := Field E_FIELD_PRESENCE_DB_TX_ATTENUATION 2 2.
Definition dbm_tx_power_t : field_t := Field E_FIELD_PRESENCE_DBM_TX_POWER 1 1.
Definition antenna_t : field_t := Field E_FIELD_PRESENCE_ANTENNA 1 1.
Definition db_antenna_signal_t : field_t := Field E_FIELD_PRESENCE_DB_ANTSIGNAL 1 1.
Definition db_antenna_noise_t : field_t := Field E_FIELD_PRESENCE_DB_ANTNOISE 1 1.
Definition rx_flags_t : field_t := Field E_FIELD_PRESENCE_RX_FLAGS 2 2.
Definition tx_flags_t : field_t := Field E_FIELD_PRESENCE_TX_FLAGS 2 2.
Definition rts_retries_t : field_t := Field E_FIELD_PRESENCE_RTS_RETRIES 1 1.
Definition data_retries_t : field_t := Field E_FIELD_PRESENCE_DATA_RETRIES 1 1.
Definition mcs_t : field_t := Field E_FIELD_PRESENCE_MCS 1 3.
Definition ampdu_status_t : field_t := Field E_FIELD_PRESENCE_AMPDU_STATUS 4 8.
Definition vht_t : field_t := Field E_FIELD_PRESENCE_VHT 2 12.
(** 12 bytes, padded to the alignment of the first member. *)
Definition timestamp_t : field_t := Field E_FIELD_PRESENCE_TIMESTAMP 8 16.

(** The calls of [process_sequence] before and after bit 18. *)
Definition fields_0_17 : list field_t := [
  tsft_t; flags_t; rate_t; channel_t; fhss_t; antenna_signal_t; antenna_noise_t; lock_quality_t; tx_attenuation_t;
  db_tx_attenuation_t; dbm_tx_power_t; antenna_t; db_antenna_signal_t; db_antenna_noise_t; rx_flags_t; tx_flags_t;
  rts_retries_t; data_retries_t].
Definition fields_19_22 : list field_t := [mcs_t; ampdu_status_t; vht_t; timestamp_t].

(** ** The view *)

Inductive rt_status := E_STATUS_OK | E_STATUS_PARTIAL | E_STATUS_FAILED.
#[export] Instance rt_status_dec : EqDecision rt_status. Proof. solve_decision. Defined.

Record radiotap_t := Radiotap {
  header : ptr; presence_ext : ptr; fields : gmap Z Z; scan_status : rt_status; scan_length : Z }.
#[export] Instance eta_radiotap : Eta radiotap_t := fun r =>
  Radiotap (header r) (presence_ext r) (fields r) (scan_status r) (scan_length r).

Definition radiotap_make (buffer : ptr) : radiotap_t := Radiotap buffer None ∅ E_STATUS_FAILED 0.

Definition rt_size (m : list Z) (rt : radiotap_t) : res Z :=
  header ← deref (header rt); sf_load Little LEU16 m (header + 2).
Definition rt_end (m : list Z) (rt : radiotap_t) : res Z :=
  size ← rt_size m rt; header ← deref (header rt); mret (header + size).

Definition rt_reset (rt : radiotap_t) : radiotap_t := (rt <| presence_ext := None |>) <| fields := ∅ |>.

Section scan.
Variable org : Z.

Definition process_sequence (presence : Z) (st : gmap Z Z * Z) (f : field_t) : gmap Z Z * Z :=
  let '(fs, cp) := st in
  if Z.land (fd_bit f) presence =? 0 then st else
  let field := cp + (fd_align f - (org + cp) mod fd_align f) mod fd_align f in
  (<[fd_bit f := field]> fs, field + fd_size f).

(** The fields of one word of presence bits, and whether the scan ends there:
    bit 18, and bits 23 to 30, stand for fields whose size is not known. *)
Definition scan_word (presence : Z) (st : gmap Z Z * Z) : gmap Z Z * Z * bool :=
  let st := foldl (process_sequence presence) st fields_0_17 in
  if Z.testbit presence 18 then (st, true) else
  let st := foldl (process_sequence presence) st fields_19_22 in
  (st, existsb (Z.testbit presence) [23; 24; 25; 26; 27; 28; 29; 30]).

(** [sizeof(header)], the size of a pointer, is that of the header on the
    platforms the program targets. The word [*presence_ext] is read in the byte
    order of the host. *)
Definition rt_rescan (m : list Z) (calculate_len : bool) (rt : radiotap_t) : res (list Z * radiotap_t) :=
  let rt := (rt_reset rt) <| scan_status := E_STATUS_PARTIAL |> in
  h ← deref (header rt);
  let cp := h + 8 in
  presence ← sf_load Little LEU32 m (h + 4);
  let ext := Z.testbit presence 31 in
  let rt := if ext then rt <| presence_ext := Some cp |> else rt in
  let cp := if ext then cp + 4 else cp in
  let '(fs, cp, stop) := scan_word presence (fields rt, cp) in
  let rt := rt <| fields := fs |> in
  if stop then mret (m, rt) else
  '(rt, cp, stop) ←
    (match presence_ext rt with
     | Some p =>
       bs ← rd_n m p 4;
       let '(fs, cp, stop) := scan_word (le_combine bs) (fields rt, cp) in
       mret (rt <| fields := fs |>, cp, stop)
     | None => mret (rt, cp, false)
     end);
  if stop : bool then mret (m, rt) else
  let rt := rt <| scan_length := u16 (cp - h) |> in
  if calculate_len then
    m ← sf_store Little LEU16 m (h + 2) (scan_length rt);
    mret (m, rt <| scan_status := E_STATUS_OK |>)
  else
    len ← sf_load Little LEU16 m (h + 2);
    if len <? scan_length rt then mret (m, rt <| scan_status := E_STATUS_FAILED |>)
    else mret (m, rt <| scan_status := E_STATUS_OK |>).
End scan.

(** ** What a scan finds *)

Definition rt_fields : list field_t := fields_0_17 ++ fields_19_22.
Definition present (presence : Z) (f : field_t) : bool := negb (Z.land (fd_bit f) presence =? 0).
Definition field_ok (f : field_t) : Prop := 0 < fd_align f /\ 0 < fd_size f.
Definition room (l : list field_t) : Z := foldr (fun f n => fd_align f - 1 + fd_size f + n) 0 l.

Lemma rt_fields_ok : Forall field_ok rt_fields.
Proof. repeat constructor. Qed.
Lemma rt_fields_nodup : NoDup (map fd_bit rt_fields).
Proof. apply (bool_decide_unpack _). vm_compute. exact I. Qed.

Section found.
Variable org : Z.

(** The field [f] is at [p], between [a] and [b]. *)
Record at_place (f : field_t) (p a b : Z) : Prop := AtPlace {
  ap_aligned : (org + p) mod fd_align f = 0;
  ap_start : a <= p;
  ap_end : p + fd_size f <= b }.

(** The fields of [l] found by the bits [presence] from [cp] to [cp'], each
    behind those in front of it in the list. *)
Record found (presence : Z) (l : list field_t) (fs : gmap Z Z) (cp : Z) (fs' : gmap Z Z) (cp' : Z) : Prop := Found {
  fo_range : cp <= cp' <= cp + room l;
  fo_other b : b ∉ map fd_bit l -> fs' !! b = fs !! b;
  fo_absent f : f ∈ l -> present presence f = false -> fs' !! fd_bit f = fs !! fd_bit f;
  fo_present f : f ∈ l -> present presence f = true -> exists p, fs' !! fd_bit f = Some p /\ at_place f p cp cp';
  fo_order i j f g p q : (i < j)%nat -> l !! i = Some f -> l !! j = Some g ->
    present presence f = true -> present presence g = true ->
    fs' !! fd_bit f = Some p -> fs' !! fd_bit g = Some q -> p + fd_size f <= q }.

Lemma align_up cp al : 0 < al ->
  let p := cp + (al - (org + cp) mod al) mod al in (org + p) mod al = 0 /\ cp <= p < cp + al.
Proof.
  intros Ha p. unfold p. pose proof (Z.mod_pos_bound (org + cp) al Ha) as Hr.
  pose proof (Z.mod_pos_bound (al - (org + cp) mod al) al Ha). split; [|lia].
  rewrite Z.add_assoc, Z.add_mod_idemp_r by lia.
  replace (org + cp + (al - (org + cp) mod al)) with ((org + cp) - (org + cp) mod al + 1 * al) by lia.
  rewrite Z.mod_add, Zminus_mod_idemp_r, Z.sub_diag by lia. apply Z.mod_0_l. lia.
Qed.

Lemma scan_found presence l : Forall field_ok l -> NoDup (map fd_bit l) -> forall fs cp,
  let st := foldl (process_sequence org presence) (fs, cp) l in found presence l fs cp st.1 st.2.
Proof.
  induction 1 as [|f l [Ha Hs] _ IH]; intros Hnd fs cp; cbn [foldl map] in *.
  - constructor; cbn; try done; [lia|..]; by intros ? ?%elem_of_nil.
  - apply list.NoDup_cons in Hnd as [Hf Hnd]. cbn [process_sequence].
    assert (forall fs1 cp1, cp <= cp1 <= cp + (fd_align f - 1 + fd_size f) ->
      (forall b, b <> fd_bit f -> fs1 !! b = fs !! b) ->
      (present presence f = false -> fs1 !! fd_bit f = fs !! fd_bit f) ->
      (present presence f = true -> exists p, fs1 !! fd_bit f = Some p /\ at_place f p cp cp1) ->
      let st := foldl (process_sequence org presence) (fs1, cp1) l in found presence (f :: l) fs cp st.1 st.2) as Hstep.
    { intros fs1 cp1 Hc Ho Hab Hpr. destruct (IH Hnd fs1 cp1) as [H1 H2 H3 H4 H5].
      set (st := foldl _ _ l) in *. cbn zeta. clearbody st. constructor.
      - cbn [room foldr]. fold (room l). lia.
      - intros b Hb. cbn [map] in Hb. apply not_elem_of_cons in Hb as [Hb1 Hb2]. by rewrite H2, Ho.
      - intros g [-> |Hg]%elem_of_cons Hp; [by rewrite H2, Hab|]. rewrite H3 by done. apply Ho. intros E. apply Hf. rewrite <- E.
        by apply list_elem_of_fmap_2.
      - intros g [-> |Hg]%elem_of_cons Hp.
        + destruct (Hpr Hp) as (p & Ep & [? ? ?]). exists p. rewrite H2 by done. split; [done|]. constructor; try done. lia.
        + destruct (H4 g Hg Hp) as (p & Ep & [? ? ?]). exists p. split; [done|]. constructor; try done. lia.
      - intros [|i] [|j] g k p q Hij Hg Hk Hpg Hpk Eg Ek; try lia.
        + injection Hg as <-. destruct (Hpr Hpg) as (p' & Ep & [? ? ?]). rewrite H2 in Eg by done.
          assert (p' = p) as -> by congruence. cbn in Hk. apply list_elem_of_lookup_2 in Hk.
          destruct (H4 k Hk Hpk) as (q' & Eq & [? ? ?]). assert (q' = q) as -> by congruence. lia.
        + eapply (H5 i j); try done. lia. }
    unfold present in *. destruct (Z.eqb_spec (Z.land (fd_bit f) presence) 0) as [Hz|Hz]; cbn [negb] in Hstep.
    + apply Hstep; done || lia.
    + destruct (align_up cp (fd_align f) Ha) as [Hal Hr]. apply Hstep; try done.
      * lia.
      * intros b Hb. by rewrite lookup_insert_ne.
      * intros _. eexists. rewrite lookup_insert_eq. split; [done|]. constructor; [done|lia|lia].
Qed.
End found.

(** No word of presence bits follows, and no field of unknown size is present. *)
Definition plain_bits (presence : Z) : bool :=
  negb (existsb (Z.testbit presence) [18; 23; 24; 25; 26; 27; 28; 29; 30; 31]).

Lemma scan_word_foldl org presence st :
  Z.testbit presence 18 = false ->
  scan_word org presence st =
    (foldl (process_sequence org presence) st rt_fields, existsb (Z.testbit presence) [23; 24; 25; 26; 27; 28; 29; 30]).
Proof. intros E. unfold scan_word, rt_fields. by rewrite E, foldl_app. Qed.

(** C25: the scan of a radiotap header without extensions. Whatever the place of
    the buffer in memory, each field that the presence bits announce is found
    at an aligned address, each in front of the next in the standard order, all
    inside the length the scan computes, and no other field is; the scan
    succeeds if that length is within the one the header declares, and changes
    nothing. *)
Theorem rt_scan_exact org m h presence len :
  sf_load Little LEU32 m (h + 4) = Ok presence -> sf_load Little LEU16 m (h + 2) = Ok len -> plain_bits presence = true ->
  exists fs n, rt_rescan org m false (radiotap_make (Some h)) =
      Ok (m, Radiotap (Some h) None fs (if len <? n then E_STATUS_FAILED else E_STATUS_OK) n) /\
    found org presence rt_fields ∅ (h + 8) fs (h + n).
Proof.
  intros Ep El Hpl. unfold plain_bits in Hpl. cbn [existsb] in Hpl. rewrite !negb_orb, !andb_true_iff, !negb_true_iff in Hpl.
  destruct Hpl as (H18 & H23 & H24 & H25 & H26 & H27 & H28 & H29 & H30 & H31 & _).
  pose proof (scan_found org presence rt_fields rt_fields_ok rt_fields_nodup ∅ (h + 8)) as Hf. cbn zeta in Hf.
  unfold rt_rescan. cbn [radiotap_make rt_reset header deref upd].
  set (rt0 := _ <| scan_status := _ |>). change (deref (header rt0)) with (Ok h). rewrite bind_ret_l, Ep, bind_ret_l, H31. cbv iota.
  change (fields rt0) with (∅ : gmap Z Z). rewrite scan_word_foldl by done.
  destruct (foldl (process_sequence org presence) (∅, h + 8) rt_fields) as [fs cp]. cbn [fst snd] in Hf.
  cbn [existsb]. rewrite H23, H24, H25, H26, H27, H28, H29, H30. cbn [orb].
  change (presence_ext (rt0 <| fields := fs |>)) with (None : ptr). unfold mret, res_ret. rewrite bind_ret_l.
  rewrite El, bind_ret_l. pose proof (fo_range _ _ _ _ _ _ _ Hf) as Hr. change (room rt_fields) with 98 in Hr.
  exists fs, (cp - h). rewrite (u16_id (cp - h)) by ulia. split; [|by replace (h + (cp - h)) with cp by lia].
  change (scan_length (upd scan_length (fun _ => cp - h) (rt0 <| fields := fs |>))) with (cp - h).
  by destruct (len <? cp - h).
Qed.

(** A header with a rate, the transmit flags and an MCS. *)
Definition radiotap_example : list Z := [0; 0; 15; 0; 6; 128; 8; 0; 0; 130; 24; 0; 3; 0; 7].
Lemma rt_scan_exact_witness :
  exists fs, rt_rescan 0 radiotap_example false (radiotap_make (Some 0)) =
      Ok (radiotap_example, Radiotap (Some 0) None fs E_STATUS_OK 15) /\
    found 0 0x88006 rt_fields ∅ 8 fs 15.
Proof.
  destruct (rt_scan_exact 0 radiotap_example 0 0x88006 15) as (fs & n & E & Hf); [vm_compute; reflexivity..|].
  assert (match rt_rescan 0 radiotap_example false (radiotap_make (Some 0)) with
    | Ok (_, rt) => scan_length rt | _ => 0 end = 15) as En by (vm_compute; reflexivity).
  rewrite E in En. cbn [scan_length] in En. subst n. exists fs. split; [exact E|exact Hf].
Defined.

(** *** Any header *)

(** The pointers that a scan sets are behind the header and in front of the
    cursor. *)
Definition near (h : Z) (fs : gmap Z Z) (cp : Z) : Prop :=
  forall b p, fs !! b = Some p -> h + 8 <= p < cp.

Lemma scan_near org presence l h fs cp : Forall field_ok l -> near h fs cp -> h + 8 <= cp ->
  let st := foldl (process_sequence org presence) (fs, cp) l in near h st.1 st.2 /\ cp <= st.2 <= cp + room l.
Proof.
  intros Hl. revert fs cp. induction Hl as [|f l [Ha Hs] _ IH]; intros fs cp Hn Hc; cbn [foldl].
  - split; [done|]. cbn. lia.
  - cbn [process_sequence]. cbn [room foldr]. fold (room l). destruct (Z.land _ _ =? 0).
    + destruct (IH fs cp Hn Hc) as [? ?]. split; [done|]. lia.
    + destruct (align_up org cp (fd_align f) Ha) as [_ Hp]. set (p := cp + _) in *.
      destruct (IH (<[fd_bit f := p]> fs) (p + fd_size f)) as [? ?]; [|lia|split; [done|lia]].
      intros b q. destruct (decide (b = fd_bit f)) as [->|]; [rewrite lookup_insert_eq; intros [= <-]; lia|].
      rewrite lookup_insert_ne by done. intros Hq. specialize (Hn b q Hq). lia.
Qed.

Lemma scan_word_near org presence h fs cp : near h fs cp -> h + 8 <= cp ->
  let '(fs', cp', _) := scan_word org presence (fs, cp) in near h fs' cp' /\ cp <= cp' <= cp + 98.
Proof.
  intros Hn Hc. assert (Forall field_ok fields_0_17 /\ Forall field_ok fields_19_22) as [H1 H2] by (split; repeat constructor).
  pose proof (scan_near org presence fields_0_17 h fs cp H1 Hn Hc) as Ha. cbn zeta in Ha. unfold scan_word.
  destruct (foldl (process_sequence org presence) (fs, cp) fields_0_17) as [fs1 cp1]. cbn [fst snd] in Ha.
  change (room fields_0_17) with 48 in Ha. destruct Ha as [Hn1 Hr1]. destruct (Z.testbit presence 18); [split; [done|lia]|].
  pose proof (scan_near org presence fields_19_22 h fs1 cp1 H2 Hn1 ltac:(lia)) as Hb. cbn zeta in Hb.
  destruct (foldl (process_sequence org presence) (fs1, cp1) fields_19_22) as [fs2 cp2]. cbn [fst snd] in Hb.
  change (room fields_19_22) with 50 in Hb. split; [apply Hb|lia].
Qed.

(** A scan of a received packet ends, whatever the packet, and sets no pointer
    to behind the 208 bytes it can reach. *)
Lemma rt_rescan_any org m : 256 <= zlen m ->
  exists rt, rt_rescan org m false (radiotap_make (Some 0)) = Ok (m, rt) /\ header rt = Some 0 /\
    forall b p, fields rt !! b = Some p -> 0 <= p < 208.
Proof.
  intros Hz. assert (forall t p, 0 <= p -> p + Z.of_nat (sf_bytes t) <= zlen m -> exists v, sf_load Little t m p = Ok v) as Hld.
  { intros t p Hp Hl. unfold sf_load. rewrite rd_n_in, bind_ret_l by lia. by eexists. }
  unfold rt_rescan. cbn [radiotap_make rt_reset header deref upd].
  set (rt0 := _ <| scan_status := _ |>). change (deref (header rt0)) with (Ok 0). rewrite bind_ret_l.
  destruct (Hld LEU32 (0 + 4)) as (presence & ->); [lia|cbn; lia|]. rewrite bind_ret_l.
  destruct (Hld LEU16 (0 + 2)) as (len & Hlen); [lia|cbn; lia|]. clear Hld.
  set (rt1 := if Z.testbit presence 31 then _ else rt0). set (cp1 := if Z.testbit presence 31 then _ else _).
  assert (fields rt1 = ∅ /\ header rt1 = Some 0 /\ 8 <= cp1 <= 12 /\ (forall p, presence_ext rt1 = Some p -> p = 8)) as (Hf & Hh & Hc & Hx).
  { unfold rt1, cp1. destruct (Z.testbit presence 31); repeat split; try done; try lia. by intros p [= <-]. }
  clearbody rt1 cp1. rewrite Hf.
  assert (near 0 ∅ cp1) as Hn by (intros b p Hb; by rewrite lookup_empty in Hb).
  pose proof (scan_word_near org presence 0 ∅ cp1 Hn ltac:(lia)) as Hw.
  destruct (scan_word org presence (∅, cp1)) as [[fs cp] stop]. destruct Hw as [Hn1 Hc1].
  assert (forall b p, fs !! b = Some p -> 0 <= p < 208) as Hfs by (intros b p Hb; specialize (Hn1 b p Hb); lia).
  destruct stop; [eexists; split; [reflexivity|by split]|]. change (presence_ext (rt1 <| fields := fs |>)) with (presence_ext rt1).
  destruct (presence_ext rt1) as [q|] eqn:Eq.
  - rewrite (Hx q eq_refl), (rd_n_in m 8 4), !bind_ret_l by lia. change (fields (rt1 <| fields := fs |>)) with fs.
    pose proof (scan_word_near org (le_combine (slice m 8 4)) 0 fs cp Hn1 ltac:(lia)) as Hw.
    destruct (scan_word _ _ (fs, cp)) as [[fs2 cp2] stop2]. destruct Hw as [Hn2 Hc2].
    assert (forall b p, fs2 !! b = Some p -> 0 <= p < 208) as Hfs2 by (intros b p Hb; specialize (Hn2 b p Hb); lia).
    unfold mret at 1, res_ret. rewrite bind_ret_l. destruct stop2; [|rewrite Hlen, bind_ret_l; case_match]; eexists; (split; [reflexivity|by split]).
  - unfold mret at 1, res_ret. rewrite bind_ret_l, Hlen, bind_ret_l. case_match; eexists; (split; [reflexivity|by split]).
Qed.

(** The place of an aligned buffer does not matter. *)
Lemma rt_fields_align : Forall (fun f => 8 mod fd_align f = 0 /\ fd_align f <> 0) rt_fields.
Proof. apply (bool_decide_unpack _). vm_compute. exact I. Qed.

Lemma foldl_org org presence l : (8 | org) -> Forall (fun f => 8 mod fd_align f = 0 /\ fd_align f <> 0) l -> forall st,
  foldl (process_sequence org presence) st l = foldl (process_sequence 0 presence) st l.
Proof.
  intros Ho. induction 1 as [|f l [Hf H0] _ IH]; intros [fs cp]; [done|]. cbn [foldl]. rewrite IH. f_equal.
  unfold process_sequence. case_match; [done|].
  assert ((org + cp) mod fd_align f = (0 + cp) mod fd_align f) as ->; [|done].
  apply Z.mod_divide in Hf; [|done]. destruct (Z.divide_trans _ _ _ Hf Ho) as [q ->].
  by rewrite Z.add_comm, Z_mod_plus_full.
Qed.

Lemma scan_word_org org presence st : (8 | org) -> scan_word org presence st = scan_word 0 presence st.
Proof.
  intros Ho. pose proof rt_fields_align as Hf. unfold rt_fields in Hf. apply Forall_app in Hf as [H1 H2].
  unfold scan_word. by rewrite !(foldl_org org).
Qed.

Lemma rt_rescan_org org m calculate_len rt : (8 | org) -> rt_rescan org m calculate_len rt = rt_rescan 0 m calculate_len rt.
Proof.
  intros Ho. unfold rt_rescan. destruct (deref _); [|done..]. rewrite !bind_ret_l.
  destruct (sf_load Little LEU32 m (_ + 4)); [|done..].
  rewrite !bind_ret_l, scan_word_org by done. destruct (scan_word 0 _ _) as [[fs cp] stop]. destruct stop; [done|].
  destruct (presence_ext _); [|done]. destruct (rd_n _ _ _); [|done..]. by rewrite !bind_ret_l, scan_word_org.
Qed.
