(* ===== verification/Ieee80211.v ===== *)
(** * 802.11 frame ([winject/src/frames/802_11.hpp], [.cpp])

    A [frame_t] is a view of a frame: the type byte decides which of the
    addresses it has and where its body begins. The text output is left out. *)

From S2P Require Import Prelude Mem SafeInt.

(** ** Types and flags *)

Definition E_PROTO_MASK : Z := 0x03.
Definition E_MTYPE_MASK : Z := 0x0c.
Definition E_MTYPE_DATA : Z := 0x08.
Definition E_TYPE_MASK : Z := 0xfc.
Definition E_TYPE_RTS : Z := 0xb4.
Definition E_TYPE_DATA : Z := 0x08.
Definition E_FLAGS_TO_DS : Z := 0x01.
Definition E_FLAGS_FROM_DS : Z := 0x02.

(** ** [address_t], at an address of the memory *)

Definition address_get (m : list Z) (p : Z) : res Z :=
  a ← rd_n m p 6;
  match a with
  | [a0; a1; a2; a3; a4; a5] =>
    let rv := Z.lor 0 (Z.shiftl a0 40) in
    let rv := Z.lor rv (Z.shiftl a1 32) in
    let rv := Z.lor rv (Z.shiftl a2 24) in
    let rv := Z.lor rv (Z.shiftl a3 16) in
    let rv := Z.lor rv (Z.shiftl a4 8) in
    mret (Z.lor rv (Z.shiftl a5 0))
  | _ => Ub OutOfBounds
  end.

Definition address_bytes (value : Z) : list Z :=
  map (fun s => Z.land (Z.shiftr value s) 0xff) [40; 32; 24; 16; 8; 0].
Definition address_set (m : list Z) (p value : Z) : res (list Z) := wr_n m p (address_bytes value).

(** ** [seq_ctl_t] *)

Section seq_ctl.
Variable host : byte_order.

Definition le16toh (x : Z) : Z := if decide (host = Little) then x else bswap 2 x.
Definition ld_frag_sec (m : list Z) (p : Z) : res Z := bs ← rd_n m p 2; mret (of_bytes host bs).
Definition st_frag_sec (m : list Z) (p v : Z) : res (list Z) := wr_n m p (to_bytes host 2 (u16 v)).

Definition get_fragment_num (m : list Z) (p : Z) : res Z :=
  frag_sec ← ld_frag_sec m p; mret (u8 (Z.land (le16toh frag_sec) 0xf)).
Definition set_fragment_num (m : list Z) (p value : Z) : res (list Z) :=
  frag_sec ← ld_frag_sec m p;
  m ← st_frag_sec m p (Z.land (le16toh frag_sec) 0xfff0);
  frag_sec ← ld_frag_sec m p;
  st_frag_sec m p (Z.lor (le16toh frag_sec) (u8 value)).
Definition get_seq_num (m : list Z) (p : Z) : res Z :=
  frag_sec ← ld_frag_sec m p; mret (Z.shiftr (le16toh frag_sec) 4).
Definition set_seq_num (m : list Z) (p value : Z) : res (list Z) :=
  frag_sec ← ld_frag_sec m p;
  m ← st_frag_sec m p (Z.land (le16toh frag_sec) 0xf);
  frag_sec ← ld_frag_sec m p;
  st_frag_sec m p (Z.lor (le16toh frag_sec) (Z.shiftl (u16 value) 4)).
End seq_ctl.

(** ** [frame_t] *)

Record frame_t := Frame {
  frame_control : ptr; duration : ptr; address1 : ptr; address2 : ptr; address3 : ptr; seq_ctl : ptr;
  address4 : ptr; frame_body : ptr; fcs : ptr; last : ptr; is_enabled_fcs : bool }.
#[export] Instance eta_frame : Eta frame_t := fun f =>
  Frame (frame_control f) (duration f) (address1 f) (address2 f) (address3 f) (seq_ctl f) (address4 f) (frame_body f)
    (fcs f) (last f) (is_enabled_fcs f).

Definition frame_make (buffer : ptr) (last : Z) : frame_t :=
  match buffer with
  | None => Frame None None None None None None None None None (Some last) true
  | Some b => Frame (Some b) (Some (b + 2)) None None None None None None None (Some last) true
  end.

Definition frame_reset (f : frame_t) : frame_t :=
  Frame (frame_control f) (duration f) None None None None None None ((fun p => p - 4) <$> last f) (last f) (is_enabled_fcs f).

Definition frame_rescan (m : list Z) (f : frame_t) : res frame_t :=
  let f := frame_reset f in
  fc ← deref (frame_control f);
  protocol_type ← rd m fc;
  let type := Z.land protocol_type E_TYPE_MASK in
  let mtype := Z.land type E_MTYPE_MASK in
  let stype := Z.land type E_TYPE_MASK in
  dur ← deref (duration f);
  if mtype =? E_MTYPE_DATA then
    let a1 := dur + 2 in
    let a2 := a1 + 6 in
    let a3 := a2 + 6 in
    let sc := a3 + 6 in
    let f := (((f <| address1 := Some a1 |>) <| address2 := Some a2 |>) <| address3 := Some a3 |>) <| seq_ctl := Some sc |> in
    flags ← rd m (fc + 1);
    if negb (Z.land flags E_FLAGS_TO_DS =? 0) && negb (Z.land flags E_FLAGS_FROM_DS =? 0) then
      mret ((f <| address4 := Some (sc + 2) |>) <| frame_body := Some (sc + 2 + 6) |>)
    else mret ((f <| address4 := None |>) <| frame_body := Some (sc + 2) |>)
  else if stype =? E_TYPE_RTS then
    let a1 := dur + 2 in
    let a2 := a1 + 6 in
    mret (((f <| address1 := Some a1 |>) <| address2 := Some a2 |>) <| fcs := Some (a2 + 6) |>)
  else mret f.

Definition frame_end (f : frame_t) : ptr := if is_enabled_fcs f then Z.add 4 <$> fcs f else fcs f.
Definition frame_size (f : frame_t) : res Z :=
  e ← deref (frame_end f); fc ← deref (frame_control f); mret (u64 (e - fc)).
Definition frame_body_size (f : frame_t) : res Z :=
  e ← deref (frame_end f); b ← deref (frame_body f); mret (u64 (e - b)).
Definition set_enable_fcs (val : bool) (f : frame_t) : frame_t := f <| is_enabled_fcs := val |>.
Definition set_body_size (size : Z) (f : frame_t) : res frame_t :=
  b ← deref (frame_body f); mret (f <| fcs := Some (b + u16 size) |>).

(** ** Addresses *)

Lemma byte_shift v s : 0 <= s -> Z.land (Z.shiftr v s) 0xff = v / 2 ^ s mod 256.
Proof. intros Hs. change 0xff with (Z.ones 8). by rewrite Z.land_ones, Z.shiftr_div_pow2. Qed.

Lemma address_bytes_spec v : address_bytes v =
  [v / 2 ^ 40 mod 256; v / 2 ^ 32 mod 256; v / 2 ^ 24 mod 256; v / 2 ^ 16 mod 256; v / 2 ^ 8 mod 256; v mod 256].
Proof.
  unfold address_bytes. cbn [map]. rewrite !byte_shift by lia. change (2 ^ 0) with 1. by rewrite Z.div_1_r.
Qed.
Lemma address_bytes_ok v : bytes_ok (address_bytes v).
Proof. rewrite address_bytes_spec. repeat constructor; ulia. Qed.
Lemma zlen_address_bytes v : zlen (address_bytes v) = 6.
Proof. reflexivity. Qed.

Lemma lor_digit x y k j : 0 <= k -> j = k + 8 -> is_u8 y -> Z.lor (x * 2 ^ j) (y * 2 ^ k) = (x * 256 + y) * 2 ^ k.
Proof.
  intros Hk -> Hy. assert (0 < 2 ^ k) by (apply Z.pow_pos_nonneg; lia).
  rewrite lor_shift; [|lia|]; rewrite Z.pow_add_r by lia; change (2 ^ 8) with 256; unfold is_u8 in Hy; nia.
Qed.

Lemma address_get_slice m p v : 0 <= p -> p + 6 <= zlen m -> slice m p 6 = address_bytes v -> address_get m p = Ok (v mod 2 ^ 48).
Proof.
  intros Hp Hl Hs. unfold address_get. rewrite rd_n_in, bind_ret_l, Hs, address_bytes_spec by lia.
  set (a0 := v / 2 ^ 40 mod 256). set (a1 := v / 2 ^ 32 mod 256). set (a2 := v / 2 ^ 24 mod 256).
  set (a3 := v / 2 ^ 16 mod 256). set (a4 := v / 2 ^ 8 mod 256). set (a5 := v mod 256).
  assert (v mod 2 ^ 48 = ((((a0 * 256 + a1) * 256 + a2) * 256 + a3) * 256 + a4) * 256 + a5) as ->.
  { unfold a0, a1, a2, a3, a4, a5. change (2 ^ 48) with 281474976710656. change (2 ^ 40) with 1099511627776.
    change (2 ^ 32) with 4294967296. change (2 ^ 24) with 16777216. change (2 ^ 16) with 65536. change (2 ^ 8) with 256. lia. }
  assert (is_u8 a0 /\ is_u8 a1 /\ is_u8 a2 /\ is_u8 a3 /\ is_u8 a4 /\ is_u8 a5) as (H0 & H1 & H2 & H3 & H4 & H5)
    by (unfold a0, a1, a2, a3, a4, a5; split_and!; apply Z.mod_pos_bound; lia).
  clearbody a0 a1 a2 a3 a4 a5. rewrite !Z.shiftl_mul_pow2, Z.lor_0_l by lia. unfold mret, res_ret. f_equal.
  rewrite (lor_digit a0 a1 32 40), (lor_digit _ a2 24 32), (lor_digit _ a3 16 24), (lor_digit _ a4 8 16), (lor_digit _ a5 0 8)
    by (done || lia).
  change (2 ^ 0) with 1. lia.
Qed.

(** An address reads back as it was set, reduced to 48 bits, and setting it
    changes its six bytes only. *)
Theorem address_get_set m p v : 0 <= p -> p + 6 <= zlen m ->
  exists m', address_set m p v = Ok m' /\ address_get m' p = Ok (v mod 2 ^ 48) /\ zlen m' = zlen m /\
    forall j, j < p \/ p + 6 <= j -> rd m' j = rd m j.
Proof.
  intros Hp Hl. unfold address_set. rewrite wr_n_in by (rewrite ?zlen_address_bytes; lia). eexists. split; [reflexivity|].
  assert (zlen (splice m p (address_bytes v)) = zlen m) as Hz by (apply zlen_splice; rewrite ?zlen_address_bytes; lia).
  split; [|split; [done|]].
  - apply address_get_slice; [done|lia|]. apply (slice_splice_same m p (address_bytes v)); rewrite ?zlen_address_bytes; lia.
  - intros j Hj. apply rd_splice_other; rewrite ?zlen_address_bytes; lia.
Qed.
Lemma address_get_set_witness :
  exists m', address_set (replicate 8 0) 1 0xDEADBEEFCAFE = Ok m' /\ address_get m' 1 = Ok 0xDEADBEEFCAFE.
Proof.
  destruct (address_get_set (replicate 8 0) 1 0xDEADBEEFCAFE) as (m' & E & G & _); [lia|vm_compute; discriminate|].
  exists m'. split; [exact E|exact G].
Defined.

(** ** Sequence control *)

(** The two fields in the memory of a little-endian host. *)
Definition seq_ctl_bytes (seq frag : Z) : list Z := le_split 2 (seq * 16 + frag).

Lemma zlen_le2 x : zlen (le_split 2 x) = 2.
Proof. reflexivity. Qed.

Lemma ld_frag_sec_slice m p v : is_u16 v -> 0 <= p -> p + 2 <= zlen m -> slice m p 2 = le_split 2 v -> ld_frag_sec Little m p = Ok v.
Proof.
  intros Hv Hp Hl Hs. unfold ld_frag_sec. rewrite rd_n_in, bind_ret_l, Hs by lia. unfold of_bytes. rewrite le_combine_split.
  change (256 ^ Z.of_nat 2) with 65536. unfold mret, res_ret. f_equal. ulia.
Qed.
Lemma st_frag_sec_in m p v : 0 <= p -> p + 2 <= zlen m -> st_frag_sec Little m p v = Ok (splice m p (le_split 2 (u16 v))).
Proof. intros. unfold st_frag_sec, to_bytes. by apply wr_n_in; rewrite ?zlen_le2. Qed.

(** A change of the field by way of its lower and its upper bits. *)
Lemma frag_sec_twice m p v w x :
  0 <= p -> p + 2 <= zlen m -> is_u16 v -> is_u16 (Z.land v w) -> slice m p 2 = le_split 2 v ->
  (frag_sec ← ld_frag_sec Little m p;
   m ← st_frag_sec Little m p (Z.land (le16toh Little frag_sec) w);
   frag_sec ← ld_frag_sec Little m p;
   st_frag_sec Little m p (Z.lor (le16toh Little frag_sec) x)) =
  Ok (splice m p (le_split 2 (u16 (Z.lor (Z.land v w) x)))).
Proof.
  intros Hp Hl Hv Hy Hs. rewrite (ld_frag_sec_slice m p v), bind_ret_l by done. unfold le16toh. rewrite decide_True by done.
  rewrite st_frag_sec_in, bind_ret_l by done. set (y := Z.land v w) in *.
  rewrite (u16_id y) by done.
  assert (zlen (splice m p (le_split 2 y)) = zlen m) as Hz by (by apply zlen_splice; rewrite ?zlen_le2).
  rewrite (ld_frag_sec_slice _ p y), bind_ret_l; [|done|done|lia|].
  2:{ apply (slice_splice_same m p (le_split 2 y)); rewrite ?zlen_le2; lia. }
  rewrite decide_True by done. rewrite st_frag_sec_in by lia. by rewrite splice_splice_same by (rewrite ?zlen_le2; lia).
Qed.

Lemma lor_lt a b k : 0 <= k -> 0 <= a < 2 ^ k -> 0 <= b < 2 ^ k -> 0 <= Z.lor a b < 2 ^ k.
Proof.
  intros Hk Ha Hb. rewrite <- (Z.mod_small a (2 ^ k)), <- (Z.mod_small b (2 ^ k)) by done.
  rewrite <- !Z.land_ones, <- Z.land_lor_distr_l, Z.land_ones by done. apply Z.mod_pos_bound. lia.
Qed.
Lemma lor_low a x k : 0 <= k -> Z.lor (a * 2 ^ k) x = Z.lor a (x / 2 ^ k) * 2 ^ k + x mod 2 ^ k.
Proof.
  intros Hk. assert (0 < 2 ^ k) by (apply Z.pow_pos_nonneg; lia). rewrite (Z.div_mod x (2 ^ k)) at 1 by lia.
  rewrite (Z.mul_comm (2 ^ k)), <- (lor_shift (x / 2 ^ k)) by (done || (apply Z.mod_pos_bound; lia)).
  rewrite Z.lor_assoc, <- !Z.shiftl_mul_pow2, <- Z.shiftl_lor, !Z.shiftl_mul_pow2 by done.
  apply lor_shift; [done|]. apply Z.mod_pos_bound. lia.
Qed.

Lemma land_f v : Z.land v 0xf = v mod 16.
Proof. change 0xf with (Z.ones 4). by rewrite Z.land_ones. Qed.
Lemma land_fff0 v : is_u16 v -> Z.land v 0xfff0 = v / 16 * 16.
Proof.
  intros Hv. replace (v / 16 * 16) with (Z.shiftl (Z.shiftr v 4) 4) by (by rewrite Z.shiftl_mul_pow2, Z.shiftr_div_pow2).
  apply Z.bits_inj'. intros i Hi. rewrite Z.land_spec. change 0xfff0 with (Z.shiftl (Z.ones 12) 4).
  rewrite !Z.shiftl_spec by done. destruct (Z.ltb_spec i 4).
  - rewrite !(Z.testbit_neg_r _ (i - 4)) by lia. apply andb_false_r.
  - rewrite Z.shiftr_spec by lia. replace (i - 4 + 4) with i by lia. destruct (Z.ltb_spec i 16).
    + rewrite Z.ones_spec_low by lia. apply andb_true_r.
    + replace (Z.testbit v i) with false; [done|]. symmetry. rewrite <- (Z.mod_small v (2 ^ 16)) by (change (2 ^ 16) with 65536; ulia).
      by apply Z.mod_pow2_bits_high.
Qed.

(** Sequence number and fragment number at [p]. *)
Record seq_ctl_at (m : list Z) (p seq frag : Z) : Prop := SeqCtlAt {
  sc_pos : 0 <= p;
  sc_fit : p + 2 <= zlen m;
  sc_seq : 0 <= seq < 4096;
  sc_frag : 0 <= frag < 16;
  sc_bytes : slice m p 2 = seq_ctl_bytes seq frag }.

Lemma seq_ctl_splice m p seq frag seq' frag' : seq_ctl_at m p seq frag -> 0 <= seq' < 4096 -> 0 <= frag' < 16 ->
  seq_ctl_at (splice m p (seq_ctl_bytes seq' frag')) p seq' frag'.
Proof.
  intros [Hp Hl _ _ _] Hs Hf. assert (zlen (seq_ctl_bytes seq' frag') = 2) as Hz by done.
  constructor; try done; [by rewrite zlen_splice by (rewrite ?Hz; lia)|].
  apply (slice_splice_same m p (seq_ctl_bytes seq' frag')); rewrite ?Hz; lia.
Qed.

(** The sequence control field on a little-endian host. The getters read the
    two numbers. [set_seq_num] stores 12 bits of its argument and keeps the
    fragment number. [set_fragment_num] keeps the sequence number for the 16
    fragment numbers there are; it does not mask its argument, and the upper
    bits of a larger one are merged into the sequence number. *)
Theorem seq_ctl_access m p seq frag v : seq_ctl_at m p seq frag ->
  get_seq_num Little m p = Ok seq /\ get_fragment_num Little m p = Ok frag /\
  (exists m', set_seq_num Little m p v = Ok m' /\ seq_ctl_at m' p (v mod 4096) frag) /\
  (exists m', set_fragment_num Little m p v = Ok m' /\
     seq_ctl_at m' p (Z.lor seq (u8 v / 16)) (u8 v mod 16) /\ (0 <= v < 16 -> seq_ctl_at m' p seq v)).
Proof.
  intros H. pose proof H as [Hp Hl Hs Hf Hb]. assert (is_u16 (seq * 16 + frag)) as Hu by ulia.
  assert (is_u16 (seq * 16)) as Hu' by (clear - Hs; ulia). assert ((seq * 16 + frag) / 16 = seq) as E4 by lia.
  unfold get_seq_num, get_fragment_num. rewrite (ld_frag_sec_slice m p _ Hu Hp Hl Hb), !bind_ret_l.
  unfold le16toh. rewrite decide_True by done. unfold mret, res_ret. split; [|split; [|split]].
  - f_equal. rewrite Z.shiftr_div_pow2 by lia. change (2 ^ 4) with 16. lia.
  - f_equal. rewrite land_f. ulia.
  - unfold set_seq_num. rewrite (frag_sec_twice m p (seq * 16 + frag)); try done; [|rewrite land_f; ulia].
    eexists. split; [reflexivity|].
    assert (u16 (Z.lor (Z.land (seq * 16 + frag) 0xf) (Z.shiftl (u16 v) 4)) = v mod 4096 * 16 + frag) as ->.
    { rewrite land_f, Z.shiftl_mul_pow2, Z.lor_comm by lia. replace ((seq * 16 + frag) mod 16) with frag by lia.
      rewrite lor_shift by (cbn; lia). change (2 ^ 4) with 16. ulia. }
    apply (seq_ctl_splice m p seq frag); [done|lia|done].
  - unfold set_fragment_num. rewrite (frag_sec_twice m p (seq * 16 + frag)); try done; [|by rewrite land_fff0, E4].
    assert (u16 (Z.lor (Z.land (seq * 16 + frag) 0xfff0) (u8 v)) = Z.lor seq (u8 v / 16) * 16 + u8 v mod 16 /\
      0 <= Z.lor seq (u8 v / 16) < 4096) as [-> Hr].
    { rewrite land_fff0, E4 by done. pose proof (u8_range v) as Hv. unfold is_u8 in Hv. set (x := u8 v) in *. clearbody x.
      assert (0 <= Z.lor seq (x / 16) < 2 ^ 12) as Hlor by (apply lor_lt; change (2 ^ 12) with 4096; lia).
      split; [|done]. change 16 with (2 ^ 4) at 1. rewrite lor_low by lia. change (2 ^ 4) with 16. change (2 ^ 12) with 4096 in Hlor. ulia. }
    eexists. split; [reflexivity|]. pose proof (seq_ctl_splice m p seq frag _ (u8 v mod 16) H Hr ltac:(lia)) as Hx.
    split; [exact Hx|]. intros Hlt. revert Hx. rewrite u8_id by ulia.
    by rewrite (Z.div_small v 16), Z.lor_0_r, (Z.mod_small v 16) by lia.
Qed.
Lemma seq_ctl_access_witness :
  get_seq_num Little [0x34; 0x12] 0 = Ok 0x123 /\
  exists m', set_fragment_num Little [0x34; 0x12] 0 0x1f = Ok m' /\ seq_ctl_at m' 0 0x123 15.
Proof.
  destruct (seq_ctl_access [0x34; 0x12] 0 0x123 4 0x1f) as (G & _ & _ & m' & E & L & _).
  { constructor; try (vm_compute; reflexivity); try lia. vm_compute. discriminate. }
  split; [exact G|]. exists m'. split; [exact E|exact L].
Defined.

(** ** The layout of a received frame *)

(** What the first two bytes make of a frame. *)
Variant frame_kind := DataFrame (four_addresses : bool) | RtsFrame | OtherFrame.
Definition kind_of (protocol_type flags : Z) : frame_kind :=
  if Z.land protocol_type 0x0c =? 0x08 then DataFrame (Z.land flags 3 =? 3)
  else if Z.land protocol_type 0xfc =? 0xb4 then RtsFrame else OtherFrame.

Definition header_size (four_addresses : bool) : Z := if four_addresses then 30 else 24.

(** The view of a frame of that kind from [b] to [last]. *)
Definition frame_layout (k : frame_kind) (b last : Z) (fcs_on : bool) : frame_t :=
  match k with
  | DataFrame four =>
    Frame (Some b) (Some (b + 2)) (Some (b + 4)) (Some (b + 10)) (Some (b + 16)) (Some (b + 22))
      (if four then Some (b + 24) else None) (Some (b + header_size four)) (Some (last - 4)) (Some last) fcs_on
  | RtsFrame =>
    Frame (Some b) (Some (b + 2)) (Some (b + 4)) (Some (b + 10)) None None None None (Some (b + 16)) (Some last) fcs_on
  | OtherFrame => Frame (Some b) (Some (b + 2)) None None None None None None (Some (last - 4)) (Some last) fcs_on
  end.

(** A frame object whose buffer begins at [b] and ends at [l], with whatever a
    former scan left in it. *)
Record frame_over (f : frame_t) (b l : Z) : Prop := FrameOver {
  fo_control : frame_control f = Some b;
  fo_duration : duration f = Some (b + 2);
  fo_last : last f = Some l }.

Lemma frame_make_over b l : frame_over (frame_make (Some b) l) b l.
Proof. done. Qed.

Lemma both_ds flags : negb (Z.land flags E_FLAGS_TO_DS =? 0) && negb (Z.land flags E_FLAGS_FROM_DS =? 0) = (Z.land flags 3 =? 3).
Proof.
  change E_FLAGS_TO_DS with (Z.land 3 1). change E_FLAGS_FROM_DS with (Z.land 3 2). rewrite !Z.land_assoc.
  change 3 with (Z.ones 2) at 1 2 3. rewrite !Z.land_ones by lia. change (2 ^ 2) with 4.
  assert (flags mod 4 = 0 \/ flags mod 4 = 1 \/ flags mod 4 = 2 \/ flags mod 4 = 3) as [-> | [-> | [-> | ->]]] by lia; reflexivity.
Qed.

Lemma frame_rescan_spec m f b l ty fl : frame_over f b l -> rd m b = Ok ty -> rd m (b + 1) = Ok fl ->
  frame_rescan m f = Ok (frame_layout (kind_of ty fl) b l (is_enabled_fcs f)).
Proof.
  intros [Hc Hd Hl] Ht Hf. unfold frame_rescan, frame_reset, kind_of. cbn [frame_control duration last].
  rewrite Hc, Hd, Hl. cbn [deref fmap option_fmap option_map]. rewrite !bind_ret_l, Ht, bind_ret_l. cbv zeta.
  rewrite <- !Z.land_assoc. change (Z.land E_TYPE_MASK E_MTYPE_MASK) with 0x0c.
  change (Z.land E_TYPE_MASK E_TYPE_MASK) with 0xfc. change E_MTYPE_DATA with 8. change E_TYPE_RTS with 0xb4.
  rewrite bind_ret_l. case_match.
  - rewrite Hf, bind_ret_l, both_ds. case_match; by rewrite <- !Z.add_assoc.
  - case_match; by rewrite <- ?Z.add_assoc.
Qed.

Lemma frame_layout_size k b l e :
  frame_size (frame_layout k b l e) = Ok (u64 (match k with RtsFrame => 20 | _ => l - b end - if e then 0 else 4)).
Proof. unfold frame_size. destruct k, e; cbn; do 2 f_equal; lia. Qed.
Lemma frame_layout_body four b l e :
  frame_body_size (frame_layout (DataFrame four) b l e) = Ok (u64 (l - b - header_size four - if e then 0 else 4)).
Proof. unfold frame_body_size. destruct e; cbn; do 2 f_equal; lia. Qed.

(** C26: a scan of a frame finds the fields at the offsets of its kind, and
    nothing that an earlier scan of another frame left stays; the frame extends
    to the end of the buffer, a request to send over its 20 bytes, less the
    check sequence where that is not counted, and so does the body of a data
    frame. *)
Theorem frame_rescan_layout m f b l ty fl : frame_over f b l -> rd m b = Ok ty -> rd m (b + 1) = Ok fl ->
  exists f', frame_rescan m f = Ok f' /\ f' = frame_layout (kind_of ty fl) b l (is_enabled_fcs f) /\
    frame_size f' = Ok (u64 (match kind_of ty fl with RtsFrame => 20 | _ => l - b end - if is_enabled_fcs f then 0 else 4)) /\
    forall four, kind_of ty fl = DataFrame four ->
      frame_body_size f' = Ok (u64 (l - b - header_size four - if is_enabled_fcs f then 0 else 4)).
Proof.
  intros Hf Ht Hfl. exists (frame_layout (kind_of ty fl) b l (is_enabled_fcs f)). rewrite (frame_rescan_spec m f b l ty fl) by done.
  split; [done|]. split; [done|]. split; [apply frame_layout_size|]. intros four ->. apply frame_layout_body.
Qed.
Lemma frame_rescan_layout_witness :
  exists f', frame_rescan ([0xb4; 0; 0; 0] ++ replicate 20 7) (frame_make (Some 0) 24) = Ok f' /\ frame_size f' = Ok 20.
Proof.
  destruct (frame_rescan_layout ([0xb4; 0; 0; 0] ++ replicate 20 7) (frame_make (Some 0) 24) 0 24 0xb4 0) as (f' & E & _ & Es & _);
    [apply frame_make_over|reflexivity|reflexivity|]. exists f'. split; [exact E|exact Es].
Defined.
