(* ===== verification/SafeChecker.v ===== *)
(** * Bounds-checked cursor ([winject/src/frames/safe_checker.hpp], [.cpp])

    A [safe_checker] walks a buffer from [start] to [end] and hands out
    pointers to objects that lie inside it. Its [validity] is a reference to
    a flag of its owner, so it is passed in and returned. *)

From S2P Require Import Prelude Mem.

Record checker := Checker { sc_start : Z; sc_current : Z; sc_end : Z }.
#[export] Instance eta_checker : Eta checker := fun c => Checker (sc_start c) (sc_current c) (sc_end c).

(** [safe_checker(start, end, validity)] *)
Definition safe_checker (start end_ : Z) : checker := Checker start start end_.

(** [get<T>()] for [sizeof(T) = n], and [get_n(n)]. *)
Definition sc_get (n : Z) (c : checker) (validity : bool) : ptr * checker * bool :=
  if sc_end c <? sc_current c + n then (None, c, false)
  else (Some (sc_current c), c <| sc_current := sc_current c + n |>, validity).

Definition sc_get_n (n : Z) (c : checker) (validity : bool) : ptr * checker * bool :=
  if sc_end c <? sc_current c + n then (None, c, false)
  else (Some (sc_current c), c <| sc_current := sc_current c + n |>, validity).

(** [remaining()] *)
Definition sc_remaining (c : checker) : Z := u64 (sc_end c - sc_current c).

(** The cursor stays inside its range, and so does every pointer it hands
    out; a request that does not fit leaves the cursor where it was. *)
Definition sc_inv (c : checker) : Prop := sc_start c <= sc_current c <= sc_end c.

Lemma sc_get_spec n c v p c' v' :
  sc_inv c -> 0 <= n -> sc_get n c v = (p, c', v') ->
  sc_inv c' /\ sc_end c' = sc_end c /\ sc_start c' = sc_start c /\
  match p with
  | Some a => a = sc_current c /\ a + n <= sc_end c /\ sc_current c' = a + n /\ v' = v
  | None => sc_end c < sc_current c + n /\ c' = c /\ v' = false
  end.
Proof.
    unfold sc_get, sc_inv. intros Hi Hn. destruct (Z.ltb_spec (sc_end c) (sc_current c + n));
    intros [= <- <- <-]; simpl; repeat split; lia.
Qed.

Lemma sc_get_fits n s c e v :
  c + n <= e -> sc_get n (Checker s c e) v = (Some c, Checker s (c + n) e, v).
Proof. unfold sc_get, upd. simpl. intros. by rewrite (proj2 (Z.ltb_ge _ _)) by lia. Qed.

Lemma sc_get_short n s c e v :
  e < c + n -> sc_get n (Checker s c e) v = (None, Checker s c e, false).
Proof. unfold sc_get. simpl. intros. by rewrite (proj2 (Z.ltb_lt _ _)) by lia. Qed.

(** [get_n(remaining())] takes everything that is left. *)
Lemma sc_get_remaining s c e v :
  0 <= c <= e -> is_u64 e ->
  sc_get_n (sc_remaining (Checker s c e)) (Checker s c e) v = (Some c, Checker s e e, v).
Proof.
  intros. unfold sc_get_n, sc_remaining, upd. simpl.
  rewrite u64_id by ulia. rewrite (proj2 (Z.ltb_ge _ _)) by lia.
  by replace (c + (e - c)) with e by lia.
Qed.
