(* ===== verification/Crc.v ===== *)
(** * Cyclic redundancy check ([winject/src/crc.hpp])

    The table-driven CRC the LLC frames carry, and the bit-serial shift
    register it implements. *)

From S2P Require Import Prelude Mem.

(** ** The class template *)

(** The template arguments; [crc_bits] is the width of [crc_t]. *)
Record crc_params := CrcParams {
  POLYNOMIAL : Z; CRCWIDTH : Z; crc_bits : Z; ref_in : bool; ref_out : bool;
  INITIAL : Z; FINAL : Z }.

Definition crc_t (P : crc_params) (x : Z) : Z := x mod 2 ^ crc_bits P.

(** One turn of the inner loop of the table setup. *)
Definition crc_bit (P : crc_params) (crc_rem : Z) : Z :=
  if bool_of_Z (Z.land crc_rem (crc_t P (Z.shiftl 1 (CRCWIDTH P - 1))))
  then crc_t P (Z.lxor (crc_t P (Z.shiftl crc_rem 1)) (POLYNOMIAL P))
  else crc_t P (Z.shiftl crc_rem 1).

(** [crc_rem_lut] *)
Definition crc_rem (P : crc_params) (div : Z) : Z :=
  Nat.iter 8 (crc_bit P) (crc_t P (Z.shiftl div (CRCWIDTH P - 8))).
Definition crc_rem_lut (P : crc_params) : list Z := map (crc_rem P) (seqZ 0 256).

(** [reflector] *)
Fixpoint reflector_loop (n : nat) (data N bit reflection : Z) : Z :=
  match n with
  | O => reflection
  | S n =>
    let reflection := if bool_of_Z (Z.land data 1)
      then Z.lor reflection (Z.shiftl 1 (N - 1 - bit)) else reflection in
    reflector_loop n (Z.shiftr data 1) N (bit + 1) reflection
  end.
Definition reflector (data N : Z) : Z := reflector_loop (Z.to_nat N) data N 0 0.

(** The body of the loop over the buffer. *)
Definition crc_step (P : crc_params) (lut : list Z) (crcv byte_ : Z) : Z :=
  let c := if ref_in P then u8 (reflector byte_ 8) else byte_ in
  let div := u8 (Z.lxor c (Z.shiftr crcv (CRCWIDTH P - 8))) in
  crc_t P (Z.lxor (Z.shiftl crcv 8) (nth (Z.to_nat div) lut 0)).

(** [operator()] on the bytes of the buffer. *)
Definition crc (P : crc_params) (data : list Z) : Z :=
  let crcv := foldl (crc_step P (crc_rem_lut P)) (INITIAL P) data in
  crc_t P (Z.lxor (if ref_out P then reflector crcv (CRCWIDTH P) else crcv) (FINAL P)).

Definition crc32_04C11DB7 : crc_params := CrcParams 0x04C11DB7 32 32 false false 0 0.

(** The value the unit test of the program expects. *)
Example crc_test :
  crc (CrcParams 0x04C11DB7 32 32 true true 0xFAFAFAFA 0xFCFCFCFC)
    [104; 101; 108; 108; 111; 32; 119; 111; 114; 108; 100; 33] = 0xC4C04703.
Proof. vm_compute. reflexivity. Qed.

(** ** The shift register *)

(** One bit, and one byte, of the register of [crc32_04C11DB7]. *)
Definition lfsr (s : Z) : Z :=
  Z.lxor (u32 (2 * s)) (if s <? 2147483648 then 0 else 0x04C11DB7).
Definition lfsr8 (s : Z) : Z := Nat.iter 8 lfsr s.
Definition crc_ref (data : list Z) : Z :=
  foldl (fun s c => lfsr8 (Z.lxor s (c * 16777216))) 0 data.

Lemma u32_land x : u32 x = Z.land x (Z.ones 32).
Proof. rewrite Z.land_ones by lia. done. Qed.

Lemma u32_lxor a b : u32 (Z.lxor a b) = Z.lxor (u32 a) (u32 b).
Proof. rewrite !u32_land. apply Z.bits_inj'. intros i Hi. rewrite !Z.lxor_spec, !Z.land_spec, Z.lxor_spec.
  by destruct (Z.testbit a i), (Z.testbit b i), (Z.testbit (Z.ones 32) i). Qed.

Lemma is_u32_lxor a b : is_u32 a -> is_u32 b -> is_u32 (Z.lxor a b).
Proof.
  intros Ha Hb. rewrite <- (u32_id a), <- (u32_id b), <- u32_lxor by done. apply u32_range.
Qed.

Lemma msb_testbit s : is_u32 s -> Z.testbit s 31 = negb (s <? 2147483648).
Proof.
  intros Hs. rewrite Z.testbit_eqb by lia. change (2 ^ 31) with 2147483648.
  destruct (Z.ltb_spec s 2147483648); apply Z.eqb_eq || apply Z.eqb_neq; simpl; ulia.
Qed.

Lemma is_u32_lfsr s : is_u32 (lfsr s).
Proof. unfold lfsr. apply is_u32_lxor; [apply u32_range|]. destruct (_ <? _); ulia. Qed.

(** The register is linear. *)
Lemma lfsr_lxor a b : is_u32 a -> is_u32 b -> lfsr (Z.lxor a b) = Z.lxor (lfsr a) (lfsr b).
Proof.
  intros Ha Hb. unfold lfsr.
  assert (2 * Z.lxor a b = Z.lxor (2 * a) (2 * b)) as ->.
  { rewrite !(Z.mul_comm 2). change 2 with (2 ^ 1). rewrite <- !Z.shiftl_mul_pow2 by lia.
    apply Z.shiftl_lxor. }
  rewrite u32_lxor.
  pose proof (msb_testbit _ (is_u32_lxor a b Ha Hb)) as H. rewrite Z.lxor_spec, !msb_testbit in H by done.
  destruct (a <? _), (b <? _), (_ <? _); try discriminate; rewrite ?Z.lxor_0_r.
  - done.
  - by rewrite Z.lxor_assoc.
  - rewrite !Z.lxor_assoc. f_equal. apply Z.lxor_comm.
  - rewrite !Z.lxor_assoc. f_equal. rewrite (Z.lxor_comm (u32 (2 * b))), <- Z.lxor_assoc.
    by rewrite Z.lxor_nilpotent, Z.lxor_0_l.
Qed.

Lemma lfsr_iter_u32 n s : is_u32 s -> is_u32 (Nat.iter n lfsr s).
Proof. destruct n; [done|]. intros. apply is_u32_lfsr. Qed.

Lemma lfsr_iter_lxor n a b : is_u32 a -> is_u32 b ->
  Nat.iter n lfsr (Z.lxor a b) = Z.lxor (Nat.iter n lfsr a) (Nat.iter n lfsr b).
Proof.
  intros Ha Hb. induction n as [|n IH]; [done|]. simpl. rewrite IH.
  apply lfsr_lxor; by apply lfsr_iter_u32.
Qed.

Lemma lfsr8_lxor a b : is_u32 a -> is_u32 b -> lfsr8 (Z.lxor a b) = Z.lxor (lfsr8 a) (lfsr8 b).
Proof. apply lfsr_iter_lxor. Qed.

(** Nothing is lost: the register can be run backwards. *)
Lemma lfsr_inj a b : is_u32 a -> is_u32 b -> lfsr a = lfsr b -> a = b.
Proof.
  intros Ha Hb E.
  assert (lfsr (Z.lxor a b) = 0) as E0 by (rewrite lfsr_lxor, E, Z.lxor_nilpotent by done; done).
  assert (forall d, is_u32 d -> lfsr d = 0 -> d = 0) as HZ.
  { intros d Hd H. unfold lfsr in H. apply Z.lxor_eq in H.
    destruct (Z.ltb_spec d 2147483648); ulia. }
  apply Z.lxor_eq, HZ; [by apply is_u32_lxor|done].
Qed.

Lemma lfsr8_inj a b : is_u32 a -> is_u32 b -> lfsr8 a = lfsr8 b -> a = b.
Proof.
  unfold lfsr8. generalize 8%nat. intros n Ha Hb. induction n as [|n IH]; [done|]. simpl.
  intros E. apply lfsr_inj in E; [auto| |]; by apply lfsr_iter_u32.
Qed.

(** ** The table *)

Lemma crc_bit_lfsr s : is_u32 s -> crc_bit crc32_04C11DB7 s = lfsr s.
Proof.
  intros Hs. unfold crc_bit, crc_t, lfsr. cbn [crc_bits CRCWIDTH POLYNOMIAL crc32_04C11DB7].
  change (2 ^ 32) with 4294967296. change (Z.shiftl 1 (32 - 1) mod 4294967296) with (2 ^ 31).
  rewrite Z.shiftl_mul_pow2 by lia. change (2 ^ 1) with 2. rewrite (Z.mul_comm s).
  change (?x mod 4294967296) with (u32 x).
  assert (bool_of_Z (Z.land s (2 ^ 31)) = Z.testbit s 31) as ->.
  { unfold bool_of_Z. destruct (Z.testbit s 31) eqn:E.
    - destruct (Z.eqb_spec (Z.land s (2 ^ 31)) 0) as [H|]; [|done]. exfalso.
      apply (f_equal (fun x => Z.testbit x 31)) in H. by rewrite Z.land_spec, E in H.
    - assert (Z.land s (2 ^ 31) = 0) as ->; [|done]. apply Z.bits_inj'. intros i Hi.
      rewrite Z.land_spec, Z.bits_0. destruct (decide (i = 31)) as [->|]; [by rewrite E|].
      rewrite Z.pow2_bits_false by lia. by rewrite andb_false_r. }
  rewrite msb_testbit by done. destruct (_ <? _); simpl; [by rewrite Z.lxor_0_r|].
  apply u32_id, is_u32_lxor; [apply u32_range|ulia].
Qed.

Lemma crc_rem_lfsr8 div : is_u8 div -> crc_rem crc32_04C11DB7 div = lfsr8 (div * 16777216).
Proof.
  intros Hd. unfold crc_rem, lfsr8. cbn [CRCWIDTH crc32_04C11DB7].
  rewrite Z.shiftl_mul_pow2 by lia. change (2 ^ (32 - 8)) with 16777216.
  assert (crc_t crc32_04C11DB7 (div * 16777216) = div * 16777216) as ->
    by (apply (u32_id (div * 16777216)); ulia).
  assert (is_u32 (div * 16777216)) as Hu by ulia. revert Hu. generalize (div * 16777216). intros x Hx.
  generalize 8%nat. intros n. induction n as [|n IH]; [done|]. simpl. rewrite IH. by apply crc_bit_lfsr, lfsr_iter_u32.
Qed.

Lemma lut_lookup div : is_u8 div ->
  nth (Z.to_nat div) (crc_rem_lut crc32_04C11DB7) 0 = lfsr8 (div * 16777216).
Proof.
  intros Hd. rewrite <- crc_rem_lfsr8 by done. apply nth_lookup_Some.
  unfold crc_rem_lut. rewrite list_lookup_fmap, lookup_seqZ_lt by ulia. simpl. f_equal. f_equal. ulia.
Qed.

Lemma lfsr_iter_low n s : 0 <= s -> s * 2 ^ Z.of_nat n < 4294967296 ->
  Nat.iter n lfsr s = s * 2 ^ Z.of_nat n.
Proof.
  revert s. induction n as [|n IH]; intros s Hs Hl; [simpl; lia|].
  assert (0 < 2 ^ Z.of_nat n) by (apply Z.pow_pos_nonneg; lia).
  rewrite Nat2Z.inj_succ, Z.pow_succ_r in * by lia.
  simpl. rewrite IH by lia. unfold lfsr. rewrite (proj2 (Z.ltb_lt _ _)) by lia.
  rewrite Z.lxor_0_r. rewrite u32_id by ulia. lia.
Qed.

Lemma lfsr8_low s : 0 <= s < 16777216 -> lfsr8 s = s * 256.
Proof. intros. apply (lfsr_iter_low 8); change (2 ^ Z.of_nat 8) with 256; lia. Qed.

(** A register is its top byte and the rest. *)
Lemma split_top s : s = Z.lxor (s / 16777216 * 16777216) (s mod 16777216).
Proof.
  change 16777216 with (2 ^ 24). rewrite Z.lxor_lor by (apply land_shift; lia).
  rewrite lor_shift by lia. lia.
Qed.

Lemma is_u8_lxor a b : is_u8 a -> is_u8 b -> is_u8 (Z.lxor a b).
Proof.
  intros Ha Hb. assert (((0 <=? Z.lxor a b) && (Z.lxor a b <? 256)) = true) as H.
  { revert a b Ha Hb. refine (byte_forall2 _ _). vm_compute. reflexivity. }
  apply andb_prop in H as [H1 H2]. ulia.
Qed.

(** One turn of the loop is eight turns of the register. *)
Lemma crc_step_ref s c : is_u32 s -> is_u8 c ->
  crc_step crc32_04C11DB7 (crc_rem_lut crc32_04C11DB7) s c = lfsr8 (Z.lxor s (c * 16777216)).
Proof.
  intros Hs Hc. unfold crc_step, crc_t. cbn [ref_in CRCWIDTH crc_bits crc32_04C11DB7].
  rewrite Z.shiftr_div_pow2, Z.shiftl_mul_pow2 by lia. change (2 ^ (32 - 8)) with 16777216.
  change (2 ^ 8) with 256. change (?x mod 2 ^ 32) with (u32 x).
  set (t := s / 16777216). assert (is_u8 t) as Ht by (unfold t; ulia).
  pose proof (is_u8_lxor c t Hc Ht) as Hd. rewrite (u8_id _ Hd), lut_lookup by done.
  rewrite u32_lxor. rewrite (u32_id (lfsr8 _)) by (apply lfsr_iter_u32; ulia).
  assert (Z.lxor s (c * 16777216) = Z.lxor (Z.lxor c t * 16777216) (s mod 16777216)) as ->.
  { rewrite (split_top s) at 1. fold t. rewrite Z.lxor_assoc, (Z.lxor_comm (s mod _)), <- Z.lxor_assoc.
    f_equal. change 16777216 with (2 ^ 24). rewrite <- !Z.shiftl_mul_pow2 by lia.
    rewrite <- Z.shiftl_lxor. f_equal. apply Z.lxor_comm. }
  rewrite lfsr8_lxor by ulia. rewrite Z.lxor_comm. f_equal.
  rewrite lfsr8_low by ulia. unfold u32. ulia.
Qed.

Lemma crc_fold_ref data s : is_u32 s -> bytes_ok data ->
  foldl (crc_step crc32_04C11DB7 (crc_rem_lut crc32_04C11DB7)) s data =
  foldl (fun s c => lfsr8 (Z.lxor s (c * 16777216))) s data /\
  is_u32 (foldl (fun s c => lfsr8 (Z.lxor s (c * 16777216))) s data).
Proof.
  intros Hs Hd. revert s Hs. induction Hd as [|c data Hc Hd IH]; intros s Hs; [done|]. simpl.
  rewrite crc_step_ref by done. apply IH. apply lfsr_iter_u32, is_u32_lxor; [done|]. ulia.
Qed.

Lemma crc_crc_ref data : bytes_ok data -> crc crc32_04C11DB7 data = crc_ref data /\ is_u32 (crc_ref data).
Proof.
  intros Hd. destruct (crc_fold_ref data 0) as [E Hu]; [ulia|done|]. unfold crc, crc_ref.
  cbn [INITIAL ref_out FINAL crc32_04C11DB7]. rewrite E, Z.lxor_0_r. split; [|done]. by apply (u32_id _).
Qed.

(** ** Properties *)

(** C30: the table-driven CRC-32 of the program computes the bit-serial
    shift register with the polynomial 0x04C11DB7, for every input. *)
Theorem crc32_table_correct data : bytes_ok data -> crc crc32_04C11DB7 data = crc_ref data.
Proof. apply crc_crc_ref. Qed.

Lemma crc32_table_correct_witness :
  bytes_ok [1; 2; 3] /\ crc crc32_04C11DB7 [1; 2; 3] = crc_ref [1; 2; 3].
Proof.
  assert (bytes_ok [1; 2; 3]) as H by (repeat constructor; ulia). split; [exact H|].
  apply (crc32_table_correct [1; 2; 3] H).
Defined.

(** Up to four bytes as the top of a word. *)
Definition be_word (w : list Z) : Z := foldr (fun c x => c * 16777216 + x / 256) 0 w.

Lemma be_word_facts w : bytes_ok w -> (length w <= 4)%nat ->
  is_u32 (be_word w) /\ ((length w <= 3)%nat -> be_word w mod 256 = 0).
Proof.
  intros Hw Hl.
  destruct w as [|a [|b [|c [|d [|e w]]]]]; [| | | | |simpl in Hl; lia];
    unfold bytes_ok in Hw; rewrite ?Forall_cons_iff in Hw; unfold be_word; simpl foldr;
    (split; [ulia|intros H3]); try (simpl in H3; lia); ulia.
Qed.

Lemma be_word_inj w1 : forall w2, bytes_ok w1 -> bytes_ok w2 -> length w1 = length w2 ->
  (length w1 <= 4)%nat -> be_word w1 = be_word w2 -> w1 = w2.
Proof.
  induction w1 as [|a1 w1 IH]; intros [|a2 w2] H1 H2 Hl Hl4 E; try done. cbn [length] in Hl, Hl4.
  inversion H1 as [|? ? Ha1 H1']; inversion H2 as [|? ? Ha2 H2']; subst.
  destruct (be_word_facts w1 H1' ltac:(lia)) as [U1 M1]. destruct (be_word_facts w2 H2' ltac:(lia)) as [U2 M2].
  specialize (M1 ltac:(lia)). specialize (M2 ltac:(lia)).
  change (a1 * 16777216 + be_word w1 / 256 = a2 * 16777216 + be_word w2 / 256) in E.
  revert E U1 U2 M1 M2. generalize (IH w2 H1' H2' ltac:(lia) ltac:(lia)). generalize (be_word w1), (be_word w2).
  intros x y IHw E U1 U2 M1 M2. assert (a1 = a2) as -> by ulia. f_equal. apply IHw. ulia.
Qed.

Abbreviation crc_fold s0 data := (foldl (fun s c => lfsr8 (Z.lxor s (c * 16777216))) s0 data).

Lemma lfsr_iter_8 n x : Nat.iter (n + 8) lfsr x = Nat.iter n lfsr (lfsr8 x).
Proof. apply Nat.iter_add. Qed.

(** Up to four bytes are clocked in together. *)
Lemma crc_fold_word s w : is_u32 s -> bytes_ok w -> (length w <= 4)%nat ->
  crc_fold s w = Nat.iter (8 * length w) lfsr (Z.lxor s (be_word w)).
Proof.
  intros Hs Hw. revert s Hs. induction Hw as [|c w Hc Hw IH]; intros s Hs Hl.
  { simpl. by rewrite Z.lxor_0_r. }
  simpl in Hl. destruct (be_word_facts w Hw ltac:(lia)) as [Hu Hm]. specialize (Hm ltac:(lia)).
  simpl foldl. rewrite IH; [|apply lfsr_iter_u32, is_u32_lxor; [done|ulia]|lia].
  replace (8 * length (c :: w))%nat with (8 * length w + 8)%nat by (simpl; lia).
  rewrite lfsr_iter_8. f_equal.
  assert (be_word w = lfsr8 (be_word w / 256)) as -> by (rewrite lfsr8_low; ulia).
  rewrite <- lfsr8_lxor; [|apply is_u32_lxor; [done|ulia]|ulia]. f_equal.
  rewrite Z.lxor_assoc. f_equal. unfold be_word. simpl foldr. fold (be_word w).
  change 16777216 with (2 ^ 24). rewrite Z.lxor_lor by (apply land_shift; [lia|]; change (2 ^ 24) with 16777216; ulia).
  rewrite lor_shift by (try (change (2 ^ 24) with 16777216); ulia).
  f_equal; rewrite lfsr8_low by ulia; ulia.
Qed.

Lemma lfsr_iter_inj n a b : is_u32 a -> is_u32 b -> Nat.iter n lfsr a = Nat.iter n lfsr b -> a = b.
Proof.
  intros Ha Hb. induction n as [|n IH]; [done|]. simpl. intros E. apply lfsr_inj in E; [auto| |];
    by apply lfsr_iter_u32.
Qed.

Lemma crc_fold_inj a b data : is_u32 a -> is_u32 b -> bytes_ok data ->
  crc_fold a data = crc_fold b data -> a = b.
Proof.
  intros Ha Hb Hd. revert a b Ha Hb. induction Hd as [|c data Hc Hd IH]; intros a b Ha Hb E; [done|].
  simpl in E. apply IH in E; [|apply lfsr_iter_u32, is_u32_lxor; [done|ulia]..].
  apply lfsr8_inj in E; [|apply is_u32_lxor; [done|ulia]..].
  apply (f_equal (fun x => Z.lxor x (c * 16777216))) in E.
  by rewrite !Z.lxor_assoc, !Z.lxor_nilpotent, !Z.lxor_0_r in E.
Qed.

(** C31: the CRC-32 detects every burst error of up to four bytes: messages
    that differ only inside a window of at most four bytes never have the
    same CRC. *)
Theorem crc32_detects_burst pre w1 w2 post :
  bytes_ok (pre ++ w1 ++ post) -> bytes_ok w2 -> length w1 = length w2 -> (length w1 <= 4)%nat ->
  crc crc32_04C11DB7 (pre ++ w1 ++ post) = crc crc32_04C11DB7 (pre ++ w2 ++ post) -> w1 = w2.
Proof.
  intros H H2 Hl Hl4. pose proof H as [Hp [H1 Hq]%Forall_app]%Forall_app.
  assert (bytes_ok (pre ++ w2 ++ post)) as H' by (apply Forall_app_2; [|apply Forall_app_2]; done).
  rewrite (proj1 (crc_crc_ref _ H)), (proj1 (crc_crc_ref _ H')). unfold crc_ref. rewrite !foldl_app.
  pose proof (proj2 (crc_fold_ref pre 0 ltac:(ulia) Hp)) as Hs.
  intros E. set (s := crc_fold 0 pre) in *.
  apply crc_fold_inj in E; [|by apply crc_fold_ref..|done].
  rewrite !crc_fold_word in E by (done || lia). rewrite <- Hl in E.
  pose proof (proj1 (be_word_facts w1 H1 Hl4)) as U1.
  pose proof (proj1 (be_word_facts w2 H2 ltac:(lia))) as U2.
  apply lfsr_iter_inj in E; [|by apply is_u32_lxor..].
  apply (be_word_inj w1 w2 H1 H2 Hl Hl4).
  apply (f_equal (Z.lxor s)) in E. by rewrite <- !Z.lxor_assoc, !Z.lxor_nilpotent, !Z.lxor_0_l in E.
Qed.

Lemma crc32_detects_burst_witness :
  crc crc32_04C11DB7 ([1; 2] ++ [3; 4; 5] ++ [6]) = crc crc32_04C11DB7 ([1; 2] ++ [3; 4; 5] ++ [6]) /\
  [3; 4; 5] = [3; 4; 5].
Proof.
  split; [reflexivity|].
  apply (crc32_detects_burst [1; 2] [3; 4; 5] [3; 4; 5] [6]); try (repeat constructor; ulia).
Defined.
