(* ===== verification/LlcFrame.v ===== *)
(** * LLC frame header ([winject/src/frames/basic_llc.hpp], [.cpp])

    A [basic_llc_t] is a view of a byte buffer: three header bytes, [crc_size]
    bytes of CRC and the payload. The field accessors read and write the
    buffer, which is passed to them and returned by the writers. *)

From S2P Require Import Prelude Mem SafeInt.

(** ** The view and its accessors *)

Record llc_t := Llc { llc_base : ptr; llc_max_size : Z; llc_crc_size : Z }.
#[export] Instance eta_llc : Eta llc_t := fun l => Llc (llc_base l) (llc_max_size l) (llc_crc_size l).

Definition llc_sn_mask : Z := 255.
Definition mask_SN : Z := 255.
Definition mask_LCID : Z := 240.
Definition mask_A : Z := 8.
Definition mask_SIZEH : Z := 7.
Definition mask_SIZEL : Z := 255.
Definition shift_SN : Z := 0.
Definition shift_LCID : Z := 4.
Definition shift_A : Z := 3.
Definition shift_SIZEH : Z := 0.
Definition shift_SIZEL : Z := 0.

(** The constructors: [max_size] is an [llc_sz_t], so the [size_t] given to
    the constructor is truncated to 16 bits. *)
Definition llc_null (crc_size : Z) : llc_t := Llc None 0 crc_size.
Definition llc_make (base : ptr) (size crc_size : Z) : llc_t := Llc base (u16 size) crc_size.

(** [operator=] leaves the constant [crc_size] alone. *)
Definition llc_assign (self other : llc_t) : llc_t :=
  Llc (llc_base other) (llc_max_size other) (llc_crc_size self).

Definition llc_rebase (l : llc_t) (new_base : ptr) (new_max_size : Z) : llc_t :=
  Llc new_base (u16 new_max_size) (llc_crc_size l).

(** [get] and [set]: one masked and shifted field of one header byte. *)
Definition llc_get (m : list Z) (l : llc_t) (index mask shift : Z) : res Z :=
  base ← deref (llc_base l);
  x ← rd m (base + index);
  mret (u8 (Z.shiftr (Z.land x mask) shift)).

Definition llc_set (m : list Z) (l : llc_t) (index mask shift val : Z) : res (list Z) :=
  base ← deref (llc_base l);
  x ← rd m (base + index);
  let mv := u8 (Z.land x (Z.lnot mask)) in
  let mv := u8 (Z.lor mv (Z.land (Z.shiftl val shift) mask)) in
  wr m (base + index) mv.

Definition set_SN (m : list Z) (l : llc_t) (sn : Z) : res (list Z) :=
  llc_set m l 0 mask_SN shift_SN (u8 sn).
Definition get_SN (m : list Z) (l : llc_t) : res Z := llc_get m l 0 mask_SN shift_SN.

Definition set_LCID (m : list Z) (l : llc_t) (lcid : Z) : res (list Z) :=
  llc_set m l 1 mask_LCID shift_LCID (u8 lcid).
Definition get_LCID (m : list Z) (l : llc_t) : res Z := llc_get m l 1 mask_LCID shift_LCID.

Definition set_A (m : list Z) (l : llc_t) (val : bool) : res (list Z) :=
  llc_set m l 1 mask_A shift_A (Z_of_bool val).
Definition get_A (m : list Z) (l : llc_t) : res bool :=
  x ← llc_get m l 1 mask_A shift_A; mret (bool_of_Z x).

Definition set_SIZE (m : list Z) (l : llc_t) (size : Z) : res (list Z) :=
  m ← llc_set m l 1 mask_SIZEH shift_SIZEH (u8 (Z.shiftr size 8));
  llc_set m l 2 mask_SIZEL shift_SIZEL (u8 size).
Definition get_SIZE (m : list Z) (l : llc_t) : res Z :=
  h ← llc_get m l 1 mask_SIZEH shift_SIZEH;
  lo ← llc_get m l 2 mask_SIZEL shift_SIZEL;
  mret (u16 (Z.lor (Z.shiftl h 8) lo)).

Definition get_header_size (l : llc_t) : Z := u16 (3 + llc_crc_size l).

(** [set_CRC] copies [crc_size] bytes of [crc]; [get_CRC] is where they are. *)
Definition get_CRC (l : llc_t) : res Z := base ← deref (llc_base l); mret (base + 3).
Definition set_CRC (m : list Z) (l : llc_t) (crc : list Z) : res (list Z) :=
  base ← deref (llc_base l);
  bs ← rd_n crc 0 (llc_crc_size l);
  wr_n m (base + 3) bs.

Definition get_payload (l : llc_t) : res Z :=
  base ← deref (llc_base l); mret (base + get_header_size l).

Definition get_max_payload_size (l : llc_t) : Z := u16 (llc_max_size l - get_header_size l).

Definition get_payload_size (m : list Z) (l : llc_t) : res Z :=
  size ← get_SIZE m l; mret (u16 (size - get_header_size l)).

Definition set_payload_size (m : list Z) (l : llc_t) (size : Z) : res (list Z) :=
  set_SIZE m l (u16 (size + get_header_size l)).

Definition llc_is_valid (m : list Z) (l : llc_t) : res bool :=
  size ← get_SIZE m l; mret (size <=? llc_max_size l).

Definition llc_is_header_valid (l : llc_t) : bool := get_header_size l <=? llc_max_size l.

(** ** What the header bytes mean *)

(** The header as a value, and the three bytes that stand for it. *)
Record llc_hdr := LlcHdr { h_sn : Z; h_lcid : Z; h_a : bool; h_size : Z }.
#[export] Instance eta_llc_hdr : Eta llc_hdr :=
  fun h => LlcHdr (h_sn h) (h_lcid h) (h_a h) (h_size h).

Definition hdr_ok (h : llc_hdr) : Prop :=
  is_u8 (h_sn h) /\ 0 <= h_lcid h < 16 /\ 0 <= h_size h < 2048.

Definition hdr_bytes (h : llc_hdr) : list Z :=
  [h_sn h; h_lcid h * 16 + Z_of_bool (h_a h) * 8 + h_size h / 256; h_size h mod 256].

Definition hdr_of_bytes (b0 b1 b2 : Z) : llc_hdr :=
  LlcHdr b0 (b1 / 16) (bool_of_Z (b1 / 8 mod 2)) (b1 mod 8 * 256 + b2).

(** [holds m l h]: the view [l] lies in [m] and its header bytes are [h]. *)
Definition holds (m : list Z) (l : llc_t) (h : llc_hdr) : Prop :=
  exists b, llc_base l = Some b /\ 0 <= b /\ b + 3 <= zlen m /\ hdr_ok h /\
    slice m b 3 = hdr_bytes h.

Lemma hdr_bytes_ok h : hdr_ok h -> bytes_ok (hdr_bytes h).
Proof.
  unfold hdr_ok, hdr_bytes, bytes_ok, Z_of_bool. intros. destruct (h_a h); repeat constructor; ulia.
Qed.

(** Bit fields of a byte as arithmetic. *)
Lemma field_get x : is_u8 x ->
  u8 (Z.shiftr (Z.land x 255) 0) = x /\ u8 (Z.shiftr (Z.land x 240) 4) = x / 16 /\
  u8 (Z.shiftr (Z.land x 8) 3) = x / 8 mod 2 /\ u8 (Z.shiftr (Z.land x 7) 0) = x mod 8.
Proof.
  intros Hx. rewrite <- !Z.eqb_eq.
  repeat split; revert x Hx; refine (byte_forall _ _); vm_compute; reflexivity.
Qed.

Definition put (mask shift x v : Z) : Z :=
  u8 (Z.lor (u8 (Z.land x (Z.lnot mask))) (Z.land (Z.shiftl v shift) mask)).

Lemma field_put x v : is_u8 x -> is_u8 v ->
  put 255 0 x v = v /\ put 240 4 x v = v mod 16 * 16 + x mod 16 /\
  put 8 3 x v = x / 16 * 16 + v mod 2 * 8 + x mod 8 /\ put 7 0 x v = x / 8 * 8 + v mod 8.
Proof.
  intros Hx Hv. rewrite <- !Z.eqb_eq.
  repeat split; revert x v Hx Hv; refine (byte_forall2 _ _); vm_compute; reflexivity.
Qed.

Lemma or_size h lo : 0 <= h < 8 -> is_u8 lo -> u16 (Z.lor (Z.shiftl h 8) lo) = h * 256 + lo.
Proof.
  intros Hh Hlo. apply Z.eqb_eq.
  assert (is_u8 h) as Hu by ulia.
  assert (implb (h <? 8) (u16 (Z.lor (Z.shiftl h 8) lo) =? h * 256 + lo) = true) as Hi.
  { clear Hh. revert h lo Hu Hlo. refine (byte_forall2 (fun h lo => _) _). vm_compute. reflexivity. }
  destruct (Z.ltb_spec h 8); [exact Hi|lia].
Qed.

(** The three bytes of a header, one by one. *)
Lemma holds_rd m l h :
  holds m l h ->
  exists b, llc_base l = Some b /\ 0 <= b /\ b + 3 <= zlen m /\ hdr_ok h /\
    rd m (b + 0) = Ok (h_sn h) /\
    rd m (b + 1) = Ok (h_lcid h * 16 + Z_of_bool (h_a h) * 8 + h_size h / 256) /\
    rd m (b + 2) = Ok (h_size h mod 256).
Proof.
  intros (b & Hb & H0 & H3 & Hok & Hs). exists b. do 4 (split; [done|]).
  rewrite <- !(rd_slice m b 3) by lia. rewrite Hs. done.
Qed.

(** The getters of a view that holds [h]. *)
Lemma holds_get m l h :
  holds m l h ->
  get_SN m l = Ok (h_sn h) /\ get_LCID m l = Ok (h_lcid h) /\
  get_A m l = Ok (h_a h) /\ get_SIZE m l = Ok (h_size h).
Proof.
  intros (b & Hb & _ & _ & (H0 & H1 & H2) & R0 & R1 & R2)%holds_rd.
  unfold get_SN, get_LCID, get_A, get_SIZE, llc_get. rewrite Hb. simpl.
  rewrite R0, R1, R2. simpl.
  set (x := _ + _ + _) in *. assert (is_u8 x) as Hx.
  { unfold x, Z_of_bool. destruct (h_a h); ulia. }
  unfold mask_SN, mask_LCID, mask_A, mask_SIZEH, mask_SIZEL,
    shift_SN, shift_LCID, shift_A, shift_SIZEH, shift_SIZEL, mret, res_ret.
  destruct (field_get _ H0) as (-> & _).
  destruct (field_get _ Hx) as (_ & -> & -> & ->).
  assert (is_u8 (h_size h mod 256)) as Hlo by ulia.
  destruct (field_get _ Hlo) as (-> & _).
  rewrite or_size by ulia. unfold x, bool_of_Z, Z_of_bool.
  repeat split; f_equal; destruct (h_a h); try case_Z; ulia.
Qed.

(** A one-byte write through the view replaces that byte of the header. *)
Lemma llc_set_Ok m l b idx mask shift v x :
  llc_base l = Some b -> 0 <= b + idx < zlen m -> rd m (b + idx) = Ok x ->
  llc_set m l idx mask shift v = Ok (splice m (b + idx) [put mask shift x v]).
Proof.
  intros Hb Hr Hx. unfold llc_set. rewrite Hb. simpl. rewrite Hx. simpl.
  unfold wr. apply wr_n_in; zlia.
Qed.

(** The three header bytes after a write to one of them. *)
Lemma slice_set_byte m b (x0 x1 x2 v idx : Z) :
  0 <= b -> b + 3 <= zlen m -> slice m b 3 = [x0; x1; x2] -> 0 <= idx < 3 ->
  slice (splice m (b + idx) [v]) b 3 = <[Z.to_nat idx := v]> [x0; x1; x2].
Proof.
  intros Hb Hl Hs Hi. apply list_eq. intros k.
  rewrite lookup_slice, lookup_splice by zlia. change (length [v]) with 1%nat.
  case_decide as Hk.
  - assert (m !! (Z.to_nat b + k)%nat = [x0; x1; x2] !! k) as Hm.
    { rewrite <- Hs, lookup_slice. by rewrite decide_True. }
    case_decide.
    + replace k with (Z.to_nat idx) by lia. rewrite list_lookup_insert_eq by (simpl; lia).
      by replace (Z.to_nat b + Z.to_nat idx - Z.to_nat (b + idx))%nat with 0%nat by lia.
    + rewrite list_lookup_insert_ne by lia. exact Hm.
  - symmetry. apply lookup_ge_None. rewrite length_insert. simpl. lia.
Qed.

(** One setter: it replaces byte [idx], which turns the header into [h']. *)
Lemma holds_set m l h idx mask shift v h' :
  holds m l h -> 0 <= idx < 3 -> hdr_ok h' ->
  (forall x, hdr_bytes h !! Z.to_nat idx = Some x ->
     <[Z.to_nat idx := put mask shift x v]> (hdr_bytes h) = hdr_bytes h') ->
  exists m', llc_set m l idx mask shift v = Ok m' /\ holds m' l h' /\ zlen m' = zlen m /\
    forall j n b, llc_base l = Some b -> 0 <= j -> (j + n <= b \/ b + 3 <= j) ->
      slice m' j n = slice m j n.
Proof.
  intros (b & Hb & H0 & H3 & Hok & Hs) Hi Hok' Hx.
  destruct (lookup_lt_is_Some_2 (hdr_bytes h) (Z.to_nat idx)) as [x Hlx]; [simpl; lia|].
  assert (rd m (b + idx) = Ok x) as Hrd.
  { rewrite <- (rd_slice m b 3), Hs by lia. apply rd_Ok. split; [lia|done]. }
  exists (splice m (b + idx) [put mask shift x v]).
  split; [eapply llc_set_Ok; eauto; zlia|]. split; [|split].
  - exists b. rewrite zlen_splice by zlia. do 4 (split; [done|]).
    rewrite <- (Hx x Hlx). by apply slice_set_byte.
  - apply zlen_splice; zlia.
  - intros j n b' Hb' Hj Hd. rewrite Hb in Hb'. injection Hb' as <-.
    destruct Hd; [apply slice_splice_before|apply slice_splice_after]; zlia.
Qed.

Ltac masks := unfold mask_SN, mask_LCID, mask_A, mask_SIZEH, mask_SIZEL,
    shift_SN, shift_LCID, shift_A, shift_SIZEH, shift_SIZEL in *.
Ltac llc_setter k h :=
  eapply (holds_set _ _ h k); [eassumption|lia| |].

(** Specification of the header setters: each succeeds on a view that lies
    in the buffer, updates its own field (reduced to the field's width),
    keeps the other three, and changes no byte outside the header. *)
Definition updates (m : list Z) (l : llc_t) (h' : llc_hdr) (r : res (list Z)) : Prop :=
  exists m', r = Ok m' /\ holds m' l h' /\ zlen m' = zlen m /\
    forall j n b, llc_base l = Some b -> 0 <= j -> (j + n <= b \/ b + 3 <= j) ->
      slice m' j n = slice m j n.

Lemma set_SN_updates m l h v :
  holds m l h -> updates m l (h <| h_sn := u8 v |>) (set_SN m l v).
Proof.
  intros H. assert (hdr_ok h) as Hok by (destruct H as (? & ? & ? & ? & ? & ?); done).
  destruct Hok as (Hsn & Hl & Hsz). llc_setter 0 h.
  - unfold hdr_ok; simpl. split; [apply u8_range|done].
  - intros x [= <-]. unfold hdr_bytes; masks; simpl. f_equal.
    by destruct (field_put (h_sn h) (u8 v) Hsn (u8_range v)) as (-> & _).
Qed.

Lemma set_LCID_updates m l h v :
  holds m l h -> updates m l (h <| h_lcid := v mod 16 |>) (set_LCID m l v).
Proof.
  intros H. assert (hdr_ok h) as Hok by (destruct H as (? & ? & ? & ? & ? & ?); done).
  destruct Hok as (Hsn & Hl & Hsz). llc_setter 1 h.
  - unfold hdr_ok; simpl. split; [done|]. split; [lia|done].
  - intros x [= <-]. unfold hdr_bytes; masks; simpl. f_equal. f_equal.
    set (x := _ + _ + _). assert (is_u8 x) as Hx.
    { unfold x, Z_of_bool. destruct (h_a h); ulia. }
    destruct (field_put x (u8 v) Hx (u8_range v)) as (_ & -> & _).
    unfold x, Z_of_bool. destruct (h_a h); ulia.
Qed.

Lemma set_A_updates m l h v :
  holds m l h -> updates m l (h <| h_a := v |>) (set_A m l v).
Proof.
  intros H. assert (hdr_ok h) as Hok by (destruct H as (? & ? & ? & ? & ? & ?); done).
  destruct Hok as (Hsn & Hl & Hsz). llc_setter 1 h; [done|].
  intros x [= <-]. unfold hdr_bytes; masks; simpl. f_equal. f_equal.
  set (x := _ + _ + _). assert (is_u8 x) as Hx.
  { unfold x, Z_of_bool. destruct (h_a h); ulia. }
  assert (is_u8 (Z_of_bool v)) as Hv by (unfold Z_of_bool; destruct v; ulia).
  destruct (field_put x (Z_of_bool v) Hx Hv) as (_ & _ & -> & _).
  unfold x, Z_of_bool. destruct v, (h_a h); ulia.
Qed.

Lemma set_SIZE_updates m l h v :
  is_u16 v -> holds m l h -> updates m l (h <| h_size := v mod 2048 |>) (set_SIZE m l v).
Proof.
  intros Hv H. assert (hdr_ok h) as Hok by (destruct H as (? & ? & ? & ? & ? & ?); done).
  destruct Hok as (Hsn & Hl & Hsz).
  set (h1 := h <| h_size := v / 256 mod 8 * 256 + h_size h mod 256 |>).
  assert (hdr_ok h1) as Hok1 by (unfold hdr_ok, h1; simpl; ulia).
  destruct (holds_set m l h 1 mask_SIZEH shift_SIZEH (u8 (Z.shiftr v 8)) h1)
    as (m1 & E1 & Hm1 & Hlen1 & Hfr1); [done|lia|done| |].
  { intros x [= <-]. unfold h1, hdr_bytes; masks; simpl. f_equal. f_equal; [|f_equal; lia].
    set (x := _ + _ + _). assert (is_u8 x) as Hx.
    { unfold x, Z_of_bool. destruct (h_a h); ulia. }
    destruct (field_put x (u8 (Z.shiftr v 8)) Hx (u8_range _)) as (_ & _ & _ & ->).
    rewrite Z.shiftr_div_pow2 by lia. change (2 ^ 8) with 256.
    unfold x, Z_of_bool. destruct (h_a h); ulia. }
  destruct (holds_set m1 l h1 2 mask_SIZEL shift_SIZEL (u8 v) (h <| h_size := v mod 2048 |>))
    as (m2 & E2 & Hm2 & Hlen2 & Hfr2); [done|lia|unfold hdr_ok; simpl; ulia| |].
  { intros x [= <-]. unfold h1, hdr_bytes; masks; simpl.
    assert (is_u8 ((v / 256 mod 8 * 256 + h_size h mod 256) mod 256)) as Hx by ulia.
    destruct (field_put _ (u8 v) Hx (u8_range v)) as (-> & _).
    f_equal. f_equal; [|f_equal; ulia]. unfold Z_of_bool. destruct (h_a h); ulia. }
  exists m2. unfold set_SIZE. rewrite E1. simpl. split; [exact E2|].
  split; [done|]. split; [lia|]. intros j n b Hb Hj Hd.
  rewrite (Hfr2 j n b Hb Hj Hd). by apply (Hfr1 j n b).
Qed.

(** An update replaces the three bytes of the header. *)
Lemma updates_splice m l h h' b r :
  llc_base l = Some b -> holds m l h -> bytes_ok m -> updates m l h' r ->
  r = Ok (splice m b (hdr_bytes h')) /\ holds (splice m b (hdr_bytes h')) l h' /\
  bytes_ok (splice m b (hdr_bytes h')).
Proof.
  intros Hb (b0 & Hb0 & H0 & H3 & _) Hm (m' & -> & Hh & Hz & Hfr).
  assert (b0 = b) as -> by congruence. pose proof Hh as (b1 & Hb1 & _ & _ & Hok & Hs).
  assert (b1 = b) as -> by congruence. assert (zlen (hdr_bytes h') = 3) as H3' by done.
  assert (m' = splice m b (hdr_bytes h')) as Hm'.
  { rewrite <- (slice_all m'), <- (slice_all (splice m b _)), zlen_splice, Hz by lia.
    replace (zlen m) with (b + (3 + (zlen m - b - 3))) by lia.
    rewrite !(slice_app _ 0) by lia. rewrite !(slice_app _ (0 + b) 3) by lia. f_equal; [|f_equal].
    - rewrite (Hfr 0 b b) by (done || lia). by rewrite slice_splice_before by lia.
    - rewrite Z.add_0_l, Hs. rewrite <- H3' at 1. by rewrite slice_splice_same by lia.
    - rewrite (Hfr _ _ b) by (done || lia). by rewrite slice_splice_after by lia. }
  rewrite <- Hm'. split; [done|]. split; [done|]. rewrite Hm'. apply bytes_ok_splice; [done|].
  by apply hdr_bytes_ok.
Qed.

(** Any three bytes are a header. *)
Lemma holds_any m l b :
  bytes_ok m -> llc_base l = Some b -> 0 <= b -> b + 3 <= zlen m -> exists h, holds m l h.
Proof.
  intros Hm Hb H0 H3.
  destruct (rd_in m b) as (x & Hx & _); [lia|]. destruct (rd_in m (b + 1)) as (y & Hy & _); [lia|].
  destruct (rd_in m (b + 1 + 1)) as (z & Hz & _); [lia|].
  pose proof (bytes_ok_rd _ _ _ Hm Hx). pose proof (bytes_ok_rd _ _ _ Hm Hy).
  pose proof (bytes_ok_rd _ _ _ Hm Hz).
  exists (hdr_of_bytes x y z), b. do 3 (split; [done|]). unfold hdr_ok, hdr_bytes, hdr_of_bytes. cbn.
  split; [split_and!; ulia|]. change 3 with (1 + 2). rewrite slice_app by lia.
  rewrite (slice_2_rd m (b + 1) y z) by (done || lia).
  assert (slice m b 1 = [x]) as ->.
  { apply list_eq. intros [|k]; rewrite lookup_slice; [|done]. rewrite decide_True by (simpl; lia).
    rewrite Nat.add_0_r. by apply rd_Ok in Hx as [_ ->]. }
  unfold Z_of_bool, bool_of_Z. cbn [app]. f_equal.
  destruct (Z.eqb_spec (y / 8 mod 2) 0); cbn [negb]; f_equal; [ulia|f_equal; ulia|ulia|f_equal; ulia].
Qed.

(** Writes behind the header do not change it. *)
Lemma holds_splice m l h b i bs :
  holds m l h -> llc_base l = Some b -> b + 3 <= i -> i + zlen bs <= zlen m -> holds (splice m i bs) l h.
Proof.
  intros (b' & Hb & H0 & H3 & Hok & Hs) Hb' Hi Hl. rewrite Hb in Hb'. injection Hb' as ->.
  exists b. pose proof (zlen_nonneg bs). rewrite zlen_splice by lia. do 4 (split; [done|]).
  by rewrite slice_splice_before by lia.
Qed.

Lemma hdr_size_0 crc : get_header_size (Llc None 0 crc) = u16 (3 + crc).
Proof. reflexivity. Qed.

(** ** Properties *)

(** The four header getters read back exactly the header the three bytes
    encode, and each setter updates its own field (reduced to the field's
    width), leaves the other three as they were and touches no byte outside
    the header. *)
Theorem llc_header_access m l h sn lcid a size :
  holds m l h -> is_u16 size ->
  (get_SN m l = Ok (h_sn h) /\ get_LCID m l = Ok (h_lcid h) /\
   get_A m l = Ok (h_a h) /\ get_SIZE m l = Ok (h_size h)) /\
  updates m l (h <| h_sn := u8 sn |>) (set_SN m l sn) /\
  updates m l (h <| h_lcid := lcid mod 16 |>) (set_LCID m l lcid) /\
  updates m l (h <| h_a := a |>) (set_A m l a) /\
  updates m l (h <| h_size := size mod 2048 |>) (set_SIZE m l size).
Proof.
  intros H Hs. split; [by apply holds_get|].
  auto using set_SN_updates, set_LCID_updates, set_A_updates, set_SIZE_updates.
Qed.

Lemma llc_header_access_witness :
  let m := [0xAB; 0xF9; 0x23; 7] in
  let l := llc_make (Some 0) 4 0 in
  holds m l (LlcHdr 0xAB 15 true 0x123) /\ get_SIZE m l = Ok 0x123.
Proof.
  intros m l. assert (holds m l (LlcHdr 0xAB 15 true 0x123)) as H.
  { exists 0. unfold hdr_ok. vm_compute. repeat split; congruence. }
  split; [exact H|].
  apply (llc_header_access m l (LlcHdr 0xAB 15 true 0x123) 1 2 false 3 H).
  vm_compute. split; congruence.
Defined.

(** A payload size whose sum with the header fits the 11-bit SIZE field
    is read back unchanged; the whole PDU size is then that sum. *)
Lemma llc_payload_size_roundtrip m l h n :
  holds m l h -> 0 <= n -> 0 <= llc_crc_size l -> n + 3 + llc_crc_size l < 2048 ->
  exists m', set_payload_size m l n = Ok m' /\
    get_payload_size m' l = Ok n /\ get_SIZE m' l = Ok (n + 3 + llc_crc_size l) /\
    get_SN m' l = Ok (h_sn h) /\ get_LCID m' l = Ok (h_lcid h) /\ get_A m' l = Ok (h_a h).
Proof.
  intros H Hn Hc Hf. unfold set_payload_size, get_payload_size, get_header_size.
  destruct (set_SIZE_updates m l h (u16 (n + u16 (3 + llc_crc_size l)))) as (m' & -> & Hm' & _);
    [apply u16_range|done|].
  exists m'. split; [done|]. destruct (holds_get _ _ _ Hm') as (-> & -> & -> & ->). simpl.
  unfold mret, res_ret. repeat split; f_equal; ulia.
Qed.
