(* ===== verification/LlcCrc.v ===== *)
(** * The CRC field of an LLC PDU ([winject/src/LLC.cpp], [llc/llc_ul.cpp])

    Both LLCs fill in the CRC in the same way: it is computed over the whole
    PDU with the CRC field set to zero, and stored most significant byte first. *)

From S2P Require Import Prelude Mem SafeInt LlcFrame Crc Info.

Definition put_crc (m : list Z) (llc : llc_t) : res (list Z) :=
  p ← get_CRC llc;
  m ← wr_n m p (replicate 4 0);
  base ← deref (llc_base llc);
  sz ← get_SIZE m llc;
  data ← rd_n m base sz;
  wr_n m p (sf_image Little BEU32 (sf_make Little BEU32 (crc crc32_04C11DB7 data))).

(** ** What it computes *)

(** The CRC of the PDU of [size] bytes at [off] of [m]. *)
Definition crc_bytes (m : list Z) (off size : Z) : list Z :=
  sf_image Little BEU32 (sf_make Little BEU32
    (crc crc32_04C11DB7 (slice (splice m (off + 3) (replicate 4 0)) off size))).
Definition crc_ok (m : list Z) (off size : Z) : Prop := slice m (off + 3) 4 = crc_bytes m off size.

Lemma zlen_crc_bytes m off size : zlen (crc_bytes m off size) = 4.
Proof. apply (zlen_sf_image Little BEU32). Qed.
Lemma crc_bytes_ok m off size : bytes_ok (crc_bytes m off size).
Proof. apply to_bytes_ok. Qed.

Lemma put_crc_spec m l off h :
  holds m l h -> llc_base l = Some off -> off + 7 <= zlen m -> off + h_size h <= zlen m ->
  put_crc m l = Ok (splice m (off + 3) (crc_bytes m off (h_size h))).
Proof.
  intros Hh Hb H7 Hsz. pose proof Hh as (b & Hb' & H0 & _ & (_ & _ & Hs0) & _).
  assert (b = off) as -> by congruence.
  set (z := replicate 4 0). assert (zlen z = 4) as Hz by reflexivity.
  assert (holds (splice m (off + 3) z) l h) as Hh1 by (apply (holds_splice _ _ _ off); try done; lia).
  unfold put_crc, get_CRC. rewrite Hb. cbn [deref]. unfold mret, res_ret. rewrite !bind_ret_l.
  fold z. rewrite wr_n_in, bind_ret_l by lia. destruct (holds_get _ _ _ Hh1) as (_ & _ & _ & ->).
  rewrite !bind_ret_l. pose proof (zlen_splice m (off + 3) z ltac:(lia) ltac:(lia)) as Hz1.
  rewrite rd_n_in, bind_ret_l by lia. change (sf_image _ _ _) with (crc_bytes m off (h_size h)).
  pose proof (zlen_crc_bytes m off (h_size h)). rewrite wr_n_in by lia. by rewrite splice_splice_same by lia.
Qed.

Lemma put_crc_facts m l off h :
  bytes_ok m -> holds m l h -> llc_base l = Some off -> off + 7 <= zlen m ->
  let m' := splice m (off + 3) (crc_bytes m off (h_size h)) in
  bytes_ok m' /\ zlen m' = zlen m /\ holds m' l h /\ crc_ok m' off (h_size h).
Proof.
  intros Hm Hh Hb H7 m'. pose proof Hh as (b & Hb' & H0 & _). assert (b = off) as -> by congruence.
  pose proof (zlen_crc_bytes m off (h_size h)) as Hc. unfold m'. set (cb := crc_bytes _ _ _) in *.
  split; [apply bytes_ok_splice; [done|apply crc_bytes_ok]|]. split; [apply zlen_splice; lia|].
  split; [apply (holds_splice _ _ _ off); try done; lia|].
  unfold crc_ok. rewrite <- Hc at 1. rewrite slice_splice_same by lia. unfold crc_bytes.
  rewrite splice_splice_same; [done|lia|lia|]. rewrite zlen_replicate. lia.
Qed.

(** A header outside the bytes that changed. *)
Lemma holds_outside m m' l h b i n :
  holds m l h -> llc_base l = Some b -> same_outside i n m m' -> b + 3 <= i \/ i + n <= b -> holds m' l h.
Proof.
  intros (b0 & Hb0 & H0 & H3 & Hok & Hs) Hb HO Hi. assert (b0 = b) as -> by congruence.
  exists b. pose proof HO as [Hz _]. rewrite Hz. do 4 (split; [done|]).
  by rewrite (same_outside_slice i n m m' b 3 HO) by lia.
Qed.

(** ** The bytes of a whole PDU *)

Definition crc_len (c : bool) : Z := if c then 4 else 0.
Definition pdu_len (c : bool) (payload : list Z) : Z := 3 + crc_len c + zlen payload.

(** With a CRC ([c]) or without. *)
Definition llc_pdu (c : bool) (sn lcid : Z) (a : bool) (payload : list Z) : list Z :=
  let hdr := hdr_bytes (LlcHdr sn lcid a (pdu_len c payload)) in
  let crc := sf_image Little BEU32 (sf_make Little BEU32
               (crc crc32_04C11DB7 (hdr ++ replicate 4 0 ++ payload))) in
  hdr ++ (if c then crc else []) ++ payload.

Lemma zlen_llc_pdu c sn lcid a payload : zlen (llc_pdu c sn lcid a payload) = pdu_len c payload.
Proof.
  unfold llc_pdu, pdu_len. set (x := crc _ _). pose proof (zlen_sf_image Little BEU32 (sf_make Little BEU32 x)) as Hx.
  change (Z.of_nat (sf_bytes BEU32)) with 4 in *.
  destruct c; rewrite ?zlen_app; unfold hdr_bytes; zlen_norm; cbn [crc_len]; lia.
Qed.

Lemma slice_middle (m : list Z) b x n :
  0 <= b -> 0 <= n -> zlen x = 4 -> b + 7 + n <= zlen m ->
  slice (splice m (b + 3) x) b (7 + n) = slice m b 3 ++ x ++ slice m (b + 7) n.
Proof.
  intros Hb Hn Hx Hl. replace (7 + n) with (3 + (4 + n)) by lia. rewrite !slice_app by lia.
  rewrite slice_splice_before by lia. rewrite <- Hx at 1. rewrite slice_splice_same by lia.
  rewrite slice_splice_after by lia. do 3 f_equal. lia.
Qed.

(** Header and payload are in place; the CRC completes the PDU. *)
Lemma seal_pdu m l h b c n :
  bytes_ok m -> llc_base l = Some b -> holds m l h -> 0 <= n -> b + 3 + crc_len c + n <= zlen m ->
  h_size h = 3 + crc_len c + n ->
  exists m', (if c then put_crc m l else mret m) = Ok m' /\ bytes_ok m' /\ holds m' l h /\
    same_outside b (3 + crc_len c) m m' /\
    slice m' b (h_size h) = llc_pdu c (h_sn h) (h_lcid h) (h_a h) (slice m (b + 3 + crc_len c) n).
Proof.
  intros Hm Hb Hh Hn Hl Hs. pose proof Hh as (b0 & Hb0 & H0 & H3 & _ & Hhb). assert (b0 = b) as -> by congruence.
  set (d := slice m (b + 3 + crc_len c) n).
  assert (zlen d = n) as Hd by (apply zlen_slice; destruct c; cbn [crc_len] in *; lia).
  assert (hdr_bytes (LlcHdr (h_sn h) (h_lcid h) (h_a h) (pdu_len c d)) = slice m b 3) as Hhdr
    by (rewrite Hhb; unfold pdu_len; rewrite Hd, <- Hs; by destruct h).
  unfold llc_pdu. rewrite Hhdr. destruct c; cbn [crc_len] in *.
  - rewrite (put_crc_spec m l b h) by (done || lia).
    destruct (put_crc_facts m l b h) as (F1 & F2 & F3 & _); try done; [lia|].
    eexists. split; [done|]. split; [done|]. split; [done|].
    pose proof (zlen_crc_bytes m b (h_size h)). split; [apply same_outside_splice; lia|].
    rewrite Hs at 2. replace (3 + 4 + n) with (7 + n) by lia. rewrite slice_middle by lia.
    unfold d. replace (b + 3 + 4) with (b + 7) by lia. do 2 f_equal. unfold crc_bytes. do 3 f_equal.
    rewrite Hs. replace (3 + 4 + n) with (7 + n) by lia. by rewrite slice_middle by (done || lia).
  - exists m. split; [done|]. split; [done|]. split; [done|]. split; [done|].
    rewrite Hs. replace (3 + 0 + n) with (3 + n) by lia. rewrite slice_app by lia. unfold d. by rewrite (Z.add_0_r (b + 3)).
Qed.
