(* ===== verification/Llc.v ===== *)
(** * LLC ([winject/src/LLC.hpp], [LLC.cpp])

    The class [LLC] has both directions of a channel. Towards the scheduler it
    writes, into the space it is given, first the acknowledgements it owes and
    then one data PDU: one that has to be sent again, or a new one that the
    PDCP fills. In acknowledged mode every data PDU is kept in the slot of a
    ring until it is acknowledged; if it is not by the time the slot
    [arq_window_size] slots later comes, it is queued to be sent again. *)

From S2P Require Import Prelude Mem SafeInt LlcFrame Crc LlcCrc Info.

(** ** State *)

Record tx_ring_elem_t := TxRingElem {
  sent_index : Z; te_llc_tx_id : Z; te_retry_count : Z; te_pdcp_pdu_size : Z; te_pdcp_pdu : list Z;
  te_acknowledged : bool }.
#[export] Instance eta_tx_ring_elem : Eta tx_ring_elem_t := fun e =>
  TxRingElem (sent_index e) (te_llc_tx_id e) (te_retry_count e) (te_pdcp_pdu_size e) (te_pdcp_pdu e)
    (te_acknowledged e).
(** [size_t sent_index = -1] *)
Definition no_index : Z := 18446744073709551615.
Definition tx_ring_elem_init : tx_ring_elem_t := TxRingElem no_index 0 0 0 [] true.

Record sn_ring_elem_t := SnRingElem { ring_idx : Z; is_acked : bool }.
#[export] Instance eta_sn_ring_elem : Eta sn_ring_elem_t := fun e => SnRingElem (ring_idx e) (is_acked e).

Record retx_elem_t := RetxElem {
  rt_llc_tx_id : Z; rt_retry_count : Z; rt_pdcp_pdu_size : Z; rt_pdcp_pdu : list Z }.

(** The pool is kept with its back first. *)
Record llc := LLC {
  ll_lcid : Z; ll_tx_id : Z;
  ll_tx_enabled : bool; ll_tx_config : illc_tx_config; tx_crc_size : Z;
  tx_buffer_pool : list (list Z);
  sn_counter : Z;
  to_retx_list : list retx_elem_t;
  tx_ring : list tx_ring_elem_t; sn_ring : list sn_ring_elem_t;
  to_ack_list : list (Z * Z);
  ll_rx_enabled : bool; ll_rx_config : illc_rx_config; rx_crc_size : Z;
  ll_rrc : list rrc_call }.
#[export] Instance eta_llc_obj : Eta llc := fun s =>
  LLC (ll_lcid s) (ll_tx_id s) (ll_tx_enabled s) (ll_tx_config s) (tx_crc_size s) (tx_buffer_pool s)
    (sn_counter s) (to_retx_list s) (tx_ring s) (sn_ring s) (to_ack_list s) (ll_rx_enabled s) (ll_rx_config s)
    (rx_crc_size s) (ll_rrc s).

Definition am_mode (s : llc) : bool := bool_decide (it_mode (ll_tx_config s) = E_TX_MODE_AM).

(** ** Buffers of the ring *)

Definition LLC_max_size : Z := 1500.

Definition allocate_tx_buffer (s : llc) : llc * list Z :=
  match tx_buffer_pool s with
  | rv :: pool => (s <| tx_buffer_pool := pool |>, rv)
  | [] => (s, replicate (Z.to_nat LLC_max_size) 0)
  end.
Definition free_tx_buffer (buffer : list Z) (s : llc) : llc :=
  s <| tx_buffer_pool := buffer :: tx_buffer_pool s |>.

(** ** Configuration *)

Definition configure_crc_size (s : llc) : llc :=
  let s := if decide (it_crc_type (ll_tx_config s) = E_CRC_TYPE_CRC32_04C11DB7) then s <| tx_crc_size := 4 |> else s in
  if decide (ir_crc_type (ll_rx_config s) = E_CRC_TYPE_CRC32_04C11DB7) then s <| rx_crc_size := 4 |> else s.

(** The elements of the ring as [set_tx_enabled] leaves them. *)
Fixpoint renew_ring (ring : list tx_ring_elem_t) (s : llc) : list tx_ring_elem_t * llc :=
  match ring with
  | [] => ([], s)
  | e :: ring =>
    let '(s, b) := match te_pdcp_pdu e with [] => allocate_tx_buffer s | b => (s, b) end in
    let e := e <| te_pdcp_pdu := b |> <| te_acknowledged := true |> <| sent_index := no_index |> in
    let '(ring, s) := renew_ring ring s in
    (e :: ring, s)
  end.

Fixpoint free_retx (retx : list retx_elem_t) (s : llc) : llc :=
  match retx with
  | [] => s
  | i :: retx => free_retx retx (if zlen (rt_pdcp_pdu i) =? 0 then s else free_tx_buffer (rt_pdcp_pdu i) s)
  end.

Definition set_tx_enabled (value : bool) (s : llc) : llc :=
  let s := s <| ll_tx_enabled := value |> in
  let s := if am_mode s
    then let '(ring, s) := renew_ring (tx_ring s) s in s <| tx_ring := ring |> else s in
  let s := free_retx (to_retx_list s) s in
  (s <| to_retx_list := [] |>) <| to_ack_list := [] |>.

Definition set_rx_enabled (value : bool) (s : llc) : llc := s <| ll_rx_enabled := value |>.

Definition llc_reconfigure_tx (config : illc_tx_config) (s : llc) : llc :=
  let s := configure_crc_size (s <| ll_tx_config := config |>) in
  set_tx_enabled (ll_tx_enabled s) s.

(** [auto_init_on_rx] is kept. *)
Definition llc_reconfigure_rx (config : illc_rx_config) (s : llc) : llc :=
  let config := config <| ir_auto_init_on_rx := ir_auto_init_on_rx (ll_rx_config s) |> in
  let s := configure_crc_size (s <| ll_rx_config := config |>) in
  set_rx_enabled (ll_rx_enabled s) s.

(** The constructor. The members [tx_config] and [rx_config] have their default
    values when the two [reconfigure] are called; [arq_window_size] of the
    argument is the size of [sn_ring] for good. *)
Definition llc_new (lcid : Z) (tx_config : illc_tx_config) (rx_config : illc_rx_config) : llc :=
  let s := LLC lcid 0 false (IllcTx false E_TX_MODE_TM 0 0 E_CRC_TYPE_NONE) 0 [] 0 []
    (replicate (Z.to_nat 1024) tx_ring_elem_init)
    (replicate (Z.to_nat (it_arq_window_size tx_config)) (SnRingElem 0 false)) [] false illc_rx_default 0 [] in
  llc_reconfigure_rx rx_config (llc_reconfigure_tx tx_config s).

(** ** Rings and queues *)

Definition tx_ring_index (slot : Z) (s : llc) : nat := Z.to_nat (slot mod zlen (tx_ring s)).
Definition sn_ring_index (sn : Z) (s : llc) : res nat :=
  let w := it_arq_window_size (ll_tx_config s) in
  if w =? 0 then Ub DivByZero else mret (Z.to_nat (u8 (sn mod w))).

Definition increment_sn (s : llc) : llc := s <| sn_counter := Z.land (sn_counter s + 1) llc_sn_mask |>.

(** The PDU sent in the slot that is checked in this one is queued if it has
    not been acknowledged. *)
Definition check_retransmit (slot_number : Z) (s : llc) : res llc :=
  if negb (am_mode s) then mret s else
  this_slot ← vec_at (tx_ring s) (tx_ring_index slot_number s);
  let i := tx_ring_index (sent_index this_slot) s in
  sent_slot ← vec_at (tx_ring s) i;
  if te_acknowledged sent_slot then mret s else
  let sent_slot := sent_slot <| te_acknowledged := true |> in
  let '(s, buffer) := allocate_tx_buffer s in
  let to_retx := RetxElem (te_llc_tx_id sent_slot) (te_retry_count sent_slot) (te_pdcp_pdu_size sent_slot)
                   (te_pdcp_pdu sent_slot) in
  let s := s <| tx_ring := <[i := sent_slot <| te_pdcp_pdu := buffer |>]> (tx_ring s) |> in
  mret (s <| to_retx_list := to_retx_list s ++ [to_retx] |>).

(** The entries of [to_ack_list] are a sequence number and how many follow. *)
Definition to_acknowledge (sn : Z) (s : llc) : llc :=
  match to_ack_list s with
  | [] => s <| to_ack_list := [(sn, 1)] |>
  | (first, second) :: acks =>
    if first + second =? sn then s <| to_ack_list := (first, u64 (second + 1)) :: acks |>
    else s <| to_ack_list := to_ack_list s ++ [(sn, 1)] |>
  end.

(** Nothing in the class calls it. *)
Definition sn_distance (high low : Z) : Z :=
  if low <=? high then high - low else u8 (high + llc_sn_mask - low).

(** ** Transmission *)

Section tx.
Context {P : Type} `{Ipdcp P}.

(** The PDCP is called without space, to learn whether it has data. *)
Definition inform_pdcp (m : list Z) (info : tx_info_t) (s : llc) (p : P)
    : res (list Z * tx_info_t * llc * P) :=
  let info := set_out_size 0 info in
  '(m, info, p) ← pdcp_on_tx m info p;
  mret (m, info <| out_tx_available := out_tx_available info || negb (zlen (to_retx_list s) =? 0) |>, s, p).

(** The loop that writes acknowledgements: [size] is what is left of [out_pdu]. *)
Fixpoint ack_loop (acks : list (Z * Z)) (m : list Z) (p n_acks size : Z)
    : res (list Z * list (Z * Z) * Z * Z) :=
  if size <? 2 then mret (m, acks, n_acks, size) else
  match acks with
  | [] => mret (m, [], n_acks, size)
  | (first, second) :: acks =>
    m ← wr m (p + 2 * n_acks) (u8 first);
    m ← wr m (p + 2 * n_acks + 1) (u8 second);
    ack_loop acks m p (n_acks + 1) (u64 (size - 2))
  end.

(** The PDU of acknowledgements, and the view behind it. *)
Definition write_ack_pdu (m : list Z) (info : tx_info_t) (l : llc_t) (s : llc)
    : res (list Z * tx_info_t * llc_t * llc) :=
  p ← get_payload l;
  '(m, acks, n_acks, size) ← ack_loop (to_ack_list s) m p 0 (pdu_size (out_pdu info));
  let s := s <| to_ack_list := acks |> in
  let info := set_out_size size info in
  m ← set_payload_size m l (u16 (n_acks * 2));
  m ← set_SN m l 0;
  m ← set_A m l true;
  m ← set_LCID m l (ll_lcid s);
  m ← (if decide (it_crc_type (ll_tx_config s) = E_CRC_TYPE_CRC32_04C11DB7) then put_crc m l else mret m);
  size ← get_SIZE m l;
  let info := info <| out_allocated := u64 (out_allocated info + size) |> in
  base ← deref (llc_base l);
  mret (m, info, llc_rebase l (Some (base + size)) (u64 (llc_max_size l - size)), s).

(** A new PDU from the PDCP. *)
Definition load_pdcp (m : list Z) (info : tx_info_t) (l : llc_t) (p : P) : res (list Z * tx_info_t * P) :=
  let init_alloc := out_allocated info in
  '(m, info, p) ← pdcp_on_tx m info p;
  let pdcp_allocation_size := u64 (out_allocated info - init_alloc) in
  m ← set_payload_size m l (u16 pdcp_allocation_size);
  mret (m, info <| out_has_data_loaded := true |>, p).

(** The PDU at the front of [to_retx_list]. *)
Definition load_retx (m : list Z) (info : tx_info_t) (l : llc_t) (retx_pdu : retx_elem_t)
    (retx : list retx_elem_t) (s : llc) (p : P) : res (list Z * tx_info_t * llc * P) :=
  q ← get_payload l;
  bs ← rd_n (rt_pdcp_pdu retx_pdu) 0 (rt_pdcp_pdu_size retx_pdu);
  m ← wr_n m q bs;
  let s := free_tx_buffer (rt_pdcp_pdu retx_pdu) s in
  m ← set_payload_size m l (u16 (rt_pdcp_pdu_size retx_pdu));
  let info := info <| out_allocated := u64 (out_allocated info + rt_pdcp_pdu_size retx_pdu) |> in
  let s := s <| to_retx_list := retx |> in
  '(m, info, p) ← pdcp_on_tx m (set_out_size 0 info) p;
  mret (m, info <| out_has_data_loaded := true |>, s, p).

(** The PDU is remembered in the slot, and the slot that checks it told so. *)
Definition keep_pdu (m : list Z) (slot_number : Z) (l : llc_t) (retx : option Z) (retx_count : Z) (s : llc)
    : res llc :=
  let ack_ck_idx := tx_ring_index (u64 (slot_number + it_arq_window_size (ll_tx_config s))) s in
  let tx_idx := tx_ring_index slot_number s in
  _ ← vec_at (tx_ring s) ack_ck_idx;
  tx_elem ← vec_at (tx_ring s) tx_idx;
  payload_size ← get_payload_size m l;
  if am_mode s then
    let '(id, s) := match retx with
      | Some id => (id, s)
      | None => (ll_tx_id s, s <| ll_tx_id := u64 (ll_tx_id s + 1) |>)
      end in
    let tx_elem := tx_elem <| te_llc_tx_id := id |> <| te_retry_count := retx_count |>
                     <| te_acknowledged := false |> in
    let ring := alter (fun e => e <| sent_index := Z.of_nat tx_idx |>) ack_ck_idx
                  (<[tx_idx := tx_elem]> (tx_ring s)) in
    tx_elem ← vec_at ring tx_idx;
    q ← get_payload l;
    bs ← rd_n m q payload_size;
    pdu ← wr_n (te_pdcp_pdu tx_elem) 0 bs;
    let tx_elem := tx_elem <| te_pdcp_pdu := pdu |> <| te_pdcp_pdu_size := payload_size |> in
    let s := s <| tx_ring := <[tx_idx := tx_elem]> ring |> in
    sn ← get_SN m l;
    k ← sn_ring_index sn s;
    sn_elem ← vec_at (sn_ring s) k;
    mret (s <| sn_ring := <[k := sn_elem <| ring_idx := Z.of_nat ack_ck_idx |>]> (sn_ring s) |>)
  else
    mret (s <| tx_ring := <[tx_idx := tx_elem <| te_pdcp_pdu_size := payload_size |>]> (tx_ring s) |>).

(** Header and CRC of the data PDU, when something has been loaded. *)
Definition finish_pdu (m : list Z) (info : tx_info_t) (l : llc_t) (init_alloc : Z) (retx : option Z)
    (retx_count : Z) (s : llc) (p : P) : res (list Z * tx_info_t * llc * P) :=
  if init_alloc =? out_allocated info then mret (m, info, s, p) else
  let info := info <| out_allocated := u64 (out_allocated info + get_header_size l) |> in
  m ← set_SN m l (sn_counter s);
  let s := increment_sn s in
  m ← (if decide (it_crc_type (ll_tx_config s) = E_CRC_TYPE_CRC32_04C11DB7) then put_crc m l else mret m);
  s ← keep_pdu m (in_slot_number info) l retx retx_count s;
  mret (m, info, s, p).

(** The data PDU. *)
Definition write_data_pdu (m : list Z) (info : tx_info_t) (l : llc_t) (s : llc) (p : P)
    : res (list Z * tx_info_t * llc * P) :=
  m ← set_LCID m l (ll_lcid s);
  m ← set_A m l false;
  q ← get_payload l;
  let info := set_out_base q info in
  let info := set_out_size (u64 (pdu_size (out_pdu info) - get_header_size l)) info in
  let init_alloc := out_allocated info in
  match to_retx_list s with
  | [] =>
    '(m, info, p) ← load_pdcp m info l p;
    finish_pdu m info l init_alloc None 0 s p
  | retx_pdu :: retx =>
    if pdu_size (out_pdu info) <? rt_pdcp_pdu_size retx_pdu then
      '(m, info, p) ← pdcp_on_tx m (set_out_size 0 info) p;
      mret (m, info <| out_tx_available := true |>, s, p)
    else
      let retx_count := u64 (rt_retry_count retx_pdu + 1) in
      let id := Some (rt_llc_tx_id retx_pdu) in
      if it_max_retx_count (ll_tx_config s) <? retx_count then
        let s := s <| to_retx_list := retx |> in
        if it_allow_rlf (ll_tx_config s) then
          mret (m, info <| out_allocated := 0 |>, s <| ll_rrc := ll_rrc s ++ [OnRlf (ll_lcid s)] |>, p)
        else
          '(m, info, p) ← load_pdcp m info l p;
          finish_pdu m info l init_alloc id retx_count s p
      else
        '(m, info, s, p) ← load_retx m info l retx_pdu retx s p;
        finish_pdu m info l init_alloc id retx_count s p
  end.

Definition llc_on_tx (m : list Z) (info : tx_info_t) (s : llc) (p : P)
    : res (list Z * tx_info_t * llc * P) :=
  if negb (ll_tx_enabled s) then mret (m, info, s, p) else
  s ← check_retransmit (in_slot_number info) s;
  let l := llc_make (Some (pdu_base (out_pdu info))) (pdu_size (out_pdu info)) (tx_crc_size s) in
  if pdu_size (out_pdu info) <=? get_header_size l then inform_pdcp m info s p else
  q ← get_payload l;
  let info := set_out_base q info in
  let info := set_out_size (u64 (pdu_size (out_pdu info) - get_header_size l)) info in
  '(m, info, l, s) ← (if zlen (to_ack_list s) =? 0 then mret (m, info, l, s) else write_ack_pdu m info l s);
  if (pdu_size (out_pdu info) <? get_header_size l) || negb (in_allow_data info)
  then inform_pdcp m info s p else write_data_pdu m info l s p.
End tx.

(** ** Reception *)

(** An acknowledged sequence number: the slot it was sent in is found through
    the slot that checks it. *)
Definition ack_sn (sn : Z) (s : llc) : res llc :=
  k ← sn_ring_index sn s;
  sn_elem ← vec_at (sn_ring s) k;
  ack_slot ← vec_at (tx_ring s) (tx_ring_index (ring_idx sn_elem) s);
  let sent_idx := tx_ring_index (sent_index ack_slot) s in
  sent_slot ← vec_at (tx_ring s) sent_idx;
  mret (s <| tx_ring := <[sent_idx := sent_slot <| te_acknowledged := true |>]> (tx_ring s) |>).

Fixpoint ack_run (count : nat) (sn : Z) (s : llc) : res llc :=
  match count with
  | O => mret s
  | S count => s ← ack_sn sn s; ack_run count (Z.land llc_sn_mask (sn + 1)) s
  end.

(** The loop over the acknowledgements of a PDU: [n] of them from the [i]-th. *)
Fixpoint ack_entries (n : nat) (i : Z) (m : list Z) (acks llc_header_size llc_size : Z) (s : llc) : res llc :=
  match n with
  | O => mret s
  | S n =>
    if llc_size <? llc_header_size + i * 2 then mret s else
    sn ← rd m (acks + 2 * i);
    count ← rd m (acks + 2 * i + 1);
    s ← ack_run (Z.to_nat count) (Z.land sn llc_sn_mask) s;
    ack_entries n (i + 1) m acks llc_header_size llc_size s
  end.

Section rx.
Context {P : Type} `{Ipdcp P}.

(** [on_rx] on the view [(b, n)] of [m]. The CRC field of the PDU is cleared on
    the way, so the buffer is returned too. *)
Definition llc_on_rx (m : list Z) (b n : Z) (s : llc) (p : P) : res (list Z * llc * P) :=
  if negb (ll_rx_enabled s) && ir_auto_init_on_rx (ll_rx_config s)
  then mret (m, s <| ll_rrc := ll_rrc s ++ [OnInit (ll_lcid s)] |>, p) else
  let l := llc_make (Some b) n (rx_crc_size s) in
  size ← get_SIZE m l;
  if n <? size then mret (m, s, p) else
  '(m, crc_expected, crc_actual) ←
    (if decide (ir_crc_type (ll_rx_config s) = E_CRC_TYPE_CRC32_04C11DB7) then
       q ← get_CRC l;
       crc_expected ← sf_load Little BEU32 m q;
       m ← sf_store Little BEU32 m q 0;
       base ← deref (llc_base l);
       size ← get_SIZE m l;
       data ← rd_n m base size;
       mret (m, crc_expected, crc crc32_04C11DB7 data)
     else mret (m, 0, 0));
  if negb (crc_actual =? crc_expected) then mret (m, s, p) else
  is_ack ← get_A m l;
  if is_ack : bool then
    acks ← get_payload l;
    payload_size ← get_payload_size m l;
    size ← get_SIZE m l;
    s ← ack_entries (Z.to_nat (payload_size / 2)) 0 m acks (get_header_size l) size s;
    mret (m, s, p)
  else
    sn ← get_SN m l;
    let s := if decide (ir_mode (ll_rx_config s) = E_TX_MODE_AM) then to_acknowledge sn s else s in
    p ← pdcp_on_rx m (b + get_header_size l) (u64 (n - get_header_size l)) p;
    mret (m, s, p).
End rx.
