(* ===== verification/PdcpSegment.v ===== *)
(** * PDCP segment frame ([winject/src/frames/basic_pdcp_segment.hpp], [.cpp])
      and the deprecated PDCP frame ([winject/src/frames/pdcp.hpp], [.cpp])

    A [basic_pdcp_segment_t] is a view of a byte buffer: a 16-bit big-endian
    word with the LAST flag and the size of the segment, an optional sequence
    number, an optional offset, and the payload. [rescan] computes the field
    pointers; accessors dereference them. *)

From S2P Require Import Prelude Mem SafeInt SafeChecker.

Record segment_t := Segment {
  base : Z; max_size : Z;
  size : ptr; has_sn : bool; sn : ptr; has_offset : bool; offset : ptr;
  payload : ptr; is_valid_ : bool }.
#[export] Instance eta_segment : Eta segment_t := fun s =>
  Segment (base s) (max_size s) (size s) (has_sn s) (sn s) (has_offset s) (offset s)
    (payload s) (is_valid_ s).

Definition segment_make (base_ size_ : Z) (has_sn_ has_offset_ : bool) : segment_t :=
  Segment base_ size_ None has_sn_ None has_offset_ None None false.

(** [reset] *)
Definition seg_reset (s : segment_t) : segment_t :=
  s <| size := None |> <| sn := None |> <| offset := None |> <| payload := None |>.

(** [rescan]: the pointers are handed out by a [safe_checker] in the order of
    the fields; it stops at the first one that does not fit. *)
Definition rescan (s : segment_t) : segment_t * bool :=
  let c := safe_checker (base s) (base s + max_size s) in
  let '(p, c, v) := sc_get 2 c true in
  let s := s <| size := p |> <| is_valid_ := v |> in
  if negb v then (s, false) else
  let '(p, c, v) := if has_sn s then sc_get 2 c v else (sn s, c, v) in
  let s := s <| sn := p |> <| is_valid_ := v |> in
  if negb v then (s, false) else
  let '(p, c, v) := if has_offset s then sc_get 2 c v else (offset s, c, v) in
  let s := s <| offset := p |> <| is_valid_ := v |> in
  if negb v then (s, false) else
  let '(p, c, v) := sc_get_n (sc_remaining c) c v in
  (s <| payload := p |> <| is_valid_ := v |>, v).

(** [rebase] *)
Definition seg_rebase (s : segment_t) (new_base new_size : Z) : segment_t :=
  (rescan (s <| base := new_base |> <| max_size := new_size |>)).1.

Definition seg_set_SN (m : list Z) (s : segment_t) (value : Z) : res (list Z) :=
  p ← deref (sn s); st_be16 m p value.
Definition seg_get_SN (m : list Z) (s : segment_t) : res Z :=
  p ← deref (sn s); ld_be16 m p.

Definition seg_set_OFFSET (m : list Z) (s : segment_t) (value : Z) : res (list Z) :=
  p ← deref (offset s); st_be16 m p value.
Definition seg_get_OFFSET (m : list Z) (s : segment_t) : res Z :=
  p ← deref (offset s); ld_be16 m p.

Definition seg_get_SIZE (m : list Z) (s : segment_t) : res Z :=
  match size s with
  | Some p => v ← ld_be16 m p; mret (Z.land v 0x7FFF)
  | None => mret 0
  end.

Definition seg_set_SIZE (m : list Z) (s : segment_t) (size_ : Z) : res (list Z) :=
  p ← deref (size s);
  v ← ld_be16 m p;
  st_be16 m p (u16 (Z.lor (Z.land v 0x8000) size_)).

Definition seg_set_LAST (m : list Z) (s : segment_t) (is_last : bool) : res (list Z) :=
  p ← deref (size s);
  sz ← seg_get_SIZE m s;
  st_be16 m p (u16 (Z.lor (Z.shiftl (Z_of_bool is_last) 15) sz)).

Definition seg_is_LAST (m : list Z) (s : segment_t) : res bool :=
  p ← deref (size s);
  v ← ld_be16 m p;
  mret (bool_of_Z (Z.land v 0x8000)).

Definition seg_header_size (s : segment_t) : Z :=
  2 + Z_of_bool (has_sn s) * 2 + Z_of_bool (has_offset s) * 2.

Definition seg_get_payload_size (m : list Z) (s : segment_t) : res Z :=
  sz ← seg_get_SIZE m s; mret (u16 (sz - seg_header_size s)).

Definition seg_set_payload_size (m : list Z) (s : segment_t) (payload_size : Z)
    : res (list Z * segment_t * bool) :=
  let new_size := seg_header_size s + payload_size in
  m ← seg_set_SIZE m s (u16 (seg_header_size s + payload_size));
  let s := if max_size s <? new_size then s <| is_valid_ := false |> else s in
  mret (m, s, is_valid_ s).

Definition seg_is_header_valid (s : segment_t) : bool := seg_header_size s <=? max_size s.

(** ** The deprecated PDCP frame: an optional IV and an optional HMAC in
    front of the payload. *)

Record pdcp_t := Pdcp {
  pdcp_iv_size : Z; pdcp_hmac_size : Z;
  pdcp_iv : ptr; pdcp_hmac : ptr; pdcp_payload : ptr;
  pdcp_base : Z; pdcp_max_size : Z }.
#[export] Instance eta_pdcp : Eta pdcp_t := fun p =>
  Pdcp (pdcp_iv_size p) (pdcp_hmac_size p) (pdcp_iv p) (pdcp_hmac p) (pdcp_payload p)
    (pdcp_base p) (pdcp_max_size p).

Definition pdcp_make (base_ size_ : Z) : pdcp_t := Pdcp 0 0 None None None base_ size_.

Definition pdcp_rescan (p : pdcp_t) : pdcp_t :=
  let ptr_ := pdcp_base p in
  let '(p, ptr_) := if bool_of_Z (pdcp_iv_size p)
    then (p <| pdcp_iv := Some ptr_ |>, ptr_ + pdcp_iv_size p) else (p, ptr_) in
  let '(p, ptr_) := if bool_of_Z (pdcp_hmac_size p)
    then (p <| pdcp_hmac := Some ptr_ |>, ptr_ + pdcp_hmac_size p) else (p, ptr_) in
  p <| pdcp_payload := Some ptr_ |>.

Definition pdcp_header_size (p : pdcp_t) : Z := u64 (pdcp_hmac_size p + pdcp_iv_size p).
Definition pdcp_is_header_valid (p : pdcp_t) : bool := pdcp_header_size p <? pdcp_max_size p.


(** ** Segments as values *)

(** What a segment carries: the LAST flag, the sequence number and the offset
    (present or not by configuration) and the payload; and its encoding. *)
Record seg_val := SegVal { v_last : bool; v_sn : Z; v_off : Z; v_data : list Z }.
#[export] Instance eta_seg_val : Eta seg_val := fun v =>
  SegVal (v_last v) (v_sn v) (v_off v) (v_data v).

Definition hdr_len (has_sn_ has_offset_ : bool) : Z :=
  2 + Z_of_bool has_sn_ * 2 + Z_of_bool has_offset_ * 2.

Definition opt_field (b : bool) (v : Z) : list Z := if b then be16 v else [].

Definition seg_head (r g : bool) (v : seg_val) : list Z :=
  be16 (Z_of_bool (v_last v) * 32768 + (hdr_len r g + zlen (v_data v))) ++
  opt_field r (v_sn v) ++ opt_field g (v_off v).

Definition seg_enc (r g : bool) (v : seg_val) : list Z := seg_head r g v ++ v_data v.

(** A stream of segments, and the payload bytes it carries. *)
Definition segs_enc (r g : bool) (segs : list seg_val) : list Z := concat (map (seg_enc r g) segs).
Definition segs_data (segs : list seg_val) : list Z := concat (map v_data segs).

Lemma segs_enc_cons r g v l : segs_enc r g (v :: l) = seg_enc r g v ++ segs_enc r g l.
Proof. reflexivity. Qed.
Lemma segs_data_cons v l : segs_data (v :: l) = v_data v ++ segs_data l.
Proof. reflexivity. Qed.

(** The values the 15-bit SIZE and the 16-bit fields can carry. *)
Definition seg_ok (r g : bool) (v : seg_val) : Prop :=
  is_u16 (v_sn v) /\ is_u16 (v_off v) /\ bytes_ok (v_data v) /\
  hdr_len r g + zlen (v_data v) < 32768.

Lemma hdr_len_range r g : 2 <= hdr_len r g <= 6.
Proof. unfold hdr_len, Z_of_bool. destruct r, g; lia. Qed.

Lemma seg_header_size_make b n r g : seg_header_size (segment_make b n r g) = hdr_len r g.
Proof. reflexivity. Qed.

Lemma zlen_opt_field b v : zlen (opt_field b v) = Z_of_bool b * 2.
Proof. by destruct b. Qed.

Lemma zlen_seg_head r g v : zlen (seg_head r g v) = hdr_len r g.
Proof. unfold seg_head. rewrite !zlen_app, !zlen_opt_field, zlen_be16. unfold hdr_len. lia. Qed.

Lemma zlen_seg_enc r g v : zlen (seg_enc r g v) = hdr_len r g + zlen (v_data v).
Proof. unfold seg_enc. by rewrite zlen_app, zlen_seg_head. Qed.

Lemma seg_enc_bytes_ok r g v : seg_ok r g v -> bytes_ok (seg_enc r g v).
Proof.
  intros (Hs & Ho & Hd & Hl). unfold seg_enc, seg_head, bytes_ok.
  pose proof (hdr_len_range r g). pose proof (zlen_nonneg (v_data v)).
  apply Forall_app_2; [apply Forall_app_2; [|apply Forall_app_2]|done].
  - apply be16_bytes_ok. unfold Z_of_bool. destruct (v_last v); ulia.
  - destruct r; [by apply be16_bytes_ok|constructor].
  - destruct g; [by apply be16_bytes_ok|constructor].
Qed.

(** The pointers [rescan] computes on a view that has room for the header. *)
Definition scanned (b n : Z) (r g : bool) : segment_t :=
  Segment b n (Some b) r (if r then Some (b + 2) else None) g
    (if g then Some (b + 2 + Z_of_bool r * 2) else None) (Some (b + hdr_len r g)) true.

Ltac rescan_step := cbv -[Z.add Z.sub sc_get sc_get_n sc_remaining].

Lemma rescan_fits b n r g :
  0 <= b -> hdr_len r g <= n -> is_u64 (b + n) ->
  rescan (segment_make b n r g) = (scanned b n r g, true).
Proof.
  intros Hb Hn Hbn. unfold hdr_len, Z_of_bool in Hn.
  destruct r, g; rescan_step; repeat (rewrite sc_get_fits by lia; rescan_step);
    (rewrite sc_get_remaining; [|lia|exact Hbn]); rescan_step; by rewrite <- ?Z.add_assoc.
Qed.

(** A view too short for its header is never reported valid. *)
Lemma rescan_short b n r g :
  n < hdr_len r g -> (rescan (segment_make b n r g)).2 = false.
Proof.
  intros Hn. unfold hdr_len, Z_of_bool in Hn.
  destruct (Z.ltb_spec (b + n) (b + 2)) as [H0|H0].
  { rescan_step. by rewrite sc_get_short. }
  destruct (Z.ltb_spec (b + n) (b + 2 + 2)) as [H1|H1];
    destruct r, g; try lia; rescan_step; rewrite sc_get_fits by lia; rescan_step;
    try (by rewrite sc_get_short by lia);
    (rewrite sc_get_fits by lia); rescan_step; by rewrite sc_get_short by lia.
Qed.

(** [rescan] keeps the view and which fields it has. *)
Lemma rescan_head s : seg_header_size (rescan s).1 = seg_header_size s.
Proof.
  unfold rescan. destruct (sc_get 2 _ true) as [[p1 c1] v1]. destruct v1; [|done].
  destruct s as [? ? ? [] ? [] ? ? ?]; rescan_step;
    repeat (destruct (sc_get 2 _ _) as [[? ?] []]; rescan_step; try done);
    by destruct (sc_get_n _ _ _) as [[? ?] ?].
Qed.

Lemma rescan_max s : max_size (rescan s).1 = max_size s.
Proof.
  unfold rescan. destruct (sc_get 2 _ true) as [[p1 c1] v1]. destruct v1; [|done].
  destruct s as [? ? ? [] ? [] ? ? ?]; rescan_step;
    repeat (destruct (sc_get 2 _ _) as [[? ?] []]; rescan_step; try done);
    by destruct (sc_get_n _ _ _) as [[? ?] ?].
Qed.

(** ** The SIZE word *)

Lemma land_7FFF x : Z.land x 0x7FFF = x mod 32768.
Proof. change 0x7FFF with (Z.ones 15). by rewrite Z.land_ones. Qed.

Lemma land_8000 x : is_u16 x -> Z.land x 0x8000 = x / 32768 * 32768.
Proof.
  intros Hx. assert (x = x / 32768 * 2 ^ 15 + x mod 32768) as E by (change (2 ^ 15) with 32768; ulia).
  rewrite E at 1. rewrite <- lor_shift by (change (2 ^ 15) with 32768; lia).
  rewrite Z.land_lor_distr_l, (Z.land_comm (x mod 32768)).
  assert (Z.land 0x8000 (x mod 32768) = 0) as ->
    by (apply (land_shift 1 (x mod 32768) 15); change (2 ^ 15) with 32768; lia).
  rewrite Z.lor_0_r. assert (x / 32768 = 0 \/ x / 32768 = 1) as [-> | ->] by ulia; done.
Qed.

Lemma size_word_last b n :
  0 <= n < 32768 -> u16 (Z.lor (Z.shiftl (Z_of_bool b) 15) n) = Z_of_bool b * 32768 + n.
Proof.
  intros. rewrite Z.shiftl_mul_pow2, lor_shift by (change (2 ^ 15) with 32768; lia).
  change (2 ^ 15) with 32768. destruct b; unfold Z_of_bool; ulia.
Qed.

Lemma size_word_size v n :
  is_u16 v -> 0 <= n < 32768 -> u16 (Z.lor (Z.land v 0x8000) n) = v / 32768 * 32768 + n.
Proof.
  intros. rewrite land_8000 by done. change 32768 with (2 ^ 15) at 2.
  rewrite lor_shift by (change (2 ^ 15) with 32768; lia). change (2 ^ 15) with 32768. ulia.
Qed.

Lemma size_word_low v n : is_u16 n -> Z.land (u16 (Z.lor (Z.land v 0x8000) n)) 0x7FFF = n mod 32768.
Proof.
  intros. unfold u16. change 65536 with (2 ^ 16). rewrite <- Z.land_ones, <- Z.land_assoc by lia.
  change (Z.land (Z.ones 16) 0x7FFF) with 0x7FFF.
  rewrite Z.land_lor_distr_l, <- Z.land_assoc. change (Z.land 0x8000 0x7FFF) with 0.
  rewrite Z.land_0_r, Z.lor_0_l. apply land_7FFF.
Qed.

(** A 16-bit field just written. *)
Lemma ld_st_be16 m p v :
  is_u16 v -> 0 <= p -> p + 2 <= zlen m -> ld_be16 (splice m p (be16 v)) p = Ok v.
Proof.
  intros. apply ld_be16_slice; rewrite ?zlen_splice; rewrite ?zlen_be16; try done.
  rewrite <- (zlen_be16 v). by apply slice_splice_same.
Qed.

(** LAST and SIZE, written one after the other as the writers do, give the
    whole word whatever was in the buffer before; a size that needs the 16th
    bit is read back without it. *)
Lemma seg_last_size m s p b n :
  size s = Some p -> bytes_ok m -> 0 <= p -> p + 2 <= zlen m -> is_u16 n ->
  exists m1 w, seg_set_LAST m s b = Ok m1 /\
    seg_set_SIZE m1 s n = Ok (splice m p (be16 w)) /\ is_u16 w /\
    (n < 32768 -> w = Z_of_bool b * 32768 + n) /\
    seg_get_SIZE (splice m p (be16 w)) s = Ok (n mod 32768).
Proof.
  intros Hs Hm Hp Hl Hn.
  destruct (ld_be16_in m p Hm Hp Hl) as (v & Hv & Hr & _).
  unfold seg_set_LAST, seg_set_SIZE, seg_get_SIZE. rewrite Hs. simpl. rewrite Hv. simpl.
  rewrite land_7FFF, size_word_last by lia. set (w1 := Z_of_bool b * 32768 + v mod 32768).
  assert (is_u16 w1 /\ w1 / 32768 = Z_of_bool b) as [Hw1 Hd]
    by (unfold w1; destruct b; unfold Z_of_bool; ulia).
  exists (splice m p (be16 w1)), (u16 (Z.lor (Z.land w1 0x8000) n)).
  split; [by apply st_be16_in|].
  rewrite !ld_st_be16 by (try done; apply u16_range). simpl.
  rewrite st_be16_in; [|apply u16_range|done|rewrite zlen_splice; rewrite ?zlen_be16; done].
  rewrite size_word_low by done.
  split; [f_equal; by apply splice_splice_same|]. split; [apply u16_range|]. split; [|done].
  intros. rewrite size_word_size, Hd by (try done; ulia). done.
Qed.

(** SIZE and then LAST, as the writer of [PDCP] does: the flag is the new one
    whatever the size. *)
Lemma seg_payload_last m p n r g len b :
  bytes_ok m -> 0 <= p -> p + 2 <= zlen m -> 0 <= len -> hdr_len r g + len < 32768 ->
  let m2 := splice m p (be16 (Z_of_bool b * 32768 + (hdr_len r g + len))) in
  exists m1 seg1 v, seg_set_payload_size m (scanned p n r g) len = Ok (m1, seg1, v) /\
    seg_set_LAST m1 seg1 b = Ok m2 /\ seg_get_SIZE m2 seg1 = Ok (hdr_len r g + len) /\
    seg_get_payload_size m2 seg1 = Ok len.
Proof.
  intros Hm Hp Hl Hlen Hsz m2. pose proof (hdr_len_range r g).
  destruct (ld_be16_in m p Hm Hp Hl) as (v0 & Hv0 & Hr & _).
  set (h := hdr_len r g) in *. set (w1 := v0 / 32768 * 32768 + (h + len)).
  assert (is_u16 w1) as Hw1 by (unfold w1; ulia).
  assert (is_u16 (Z_of_bool b * 32768 + (h + len))) as Hw2 by (destruct b; unfold Z_of_bool; ulia).
  set (seg1 := if n <? h + len then (scanned p n r g) <| is_valid_ := false |> else scanned p n r g).
  assert (size seg1 = Some p /\ seg_header_size seg1 = h) as [Hs1 Hh1]
    by (unfold seg1; destruct (n <? h + len); done).
  exists (splice m p (be16 w1)), seg1, (is_valid_ seg1).
  unfold seg_set_payload_size, seg_set_SIZE, seg_set_LAST, seg_get_payload_size, seg_get_SIZE.
  rewrite Hs1, Hh1. change (size (scanned p n r g)) with (Some p).
  change (seg_header_size (scanned p n r g)) with h. change (max_size (scanned p n r g)) with n.
  simpl deref. rewrite !bind_ret_l, Hv0, bind_ret_l, (u16_id (h + len)) by ulia.
  rewrite size_word_size by (done || lia). fold w1. rewrite st_be16_in, bind_ret_l by done. fold seg1.
  split; [done|]. rewrite ld_st_be16, bind_ret_l by done. unfold mret, res_ret. rewrite bind_ret_l.
  rewrite land_7FFF, size_word_last by lia.
  assert (w1 mod 32768 = h + len) as -> by (unfold w1; lia).
  rewrite st_be16_in; [|done|done|rewrite zlen_splice; rewrite ?zlen_be16; done].
  rewrite splice_splice_same by (rewrite ?zlen_be16; done). split; [done|].
  unfold m2. rewrite ld_st_be16 by done. rewrite !bind_ret_l, land_7FFF.
  assert ((Z_of_bool b * 32768 + (h + len)) mod 32768 = h + len) as -> by (destruct b; unfold Z_of_bool; lia).
  split; [done|]. f_equal. ulia.
Qed.

(** ** Reading a segment *)

(** The segment [v] lies at offset [p] of [m]. *)
Definition seg_at (m : list Z) (p : Z) (r g : bool) (v : seg_val) : Prop :=
  0 <= p /\ p + zlen (seg_enc r g v) <= zlen m /\
  slice m p (zlen (seg_enc r g v)) = seg_enc r g v.

Lemma slice_of_app (m : list Z) p n (l1 l2 l3 : list Z) :
  0 <= p -> slice m p n = l1 ++ l2 ++ l3 -> zlen l1 + zlen l2 <= n ->
  slice m (p + zlen l1) (zlen l2) = l2.
Proof.
  intros Hp Hs Hn. pose proof (zlen_nonneg l1). pose proof (zlen_nonneg l2).
  rewrite <- (slice_slice m p n) by lia. rewrite Hs. unfold slice, zlen in *.
  rewrite !Nat2Z.id. rewrite drop_app_length. by rewrite take_app_length.
Qed.

Lemma seg_at_fields m p r g v :
  seg_at m p r g v ->
  slice m p 2 = be16 (Z_of_bool (v_last v) * 32768 + (hdr_len r g + zlen (v_data v))) /\
  (r = true -> slice m (p + 2) 2 = be16 (v_sn v)) /\
  (g = true -> slice m (p + 2 + Z_of_bool r * 2) 2 = be16 (v_off v)) /\
  slice m (p + hdr_len r g) (zlen (v_data v)) = v_data v.
Proof.
  intros (Hp & Hl & Hs). rewrite zlen_seg_enc in Hl. pose proof (zlen_seg_enc r g v) as Hz.
  pose proof (zlen_nonneg (v_data v)). pose proof (hdr_len_range r g).
  set (w := be16 _). split; [|split; [|split]].
  - rewrite <- (Z.add_0_r p). apply (slice_of_app m p (zlen (seg_enc r g v)) []
      w (opt_field r (v_sn v) ++ opt_field g (v_off v) ++ v_data v)); [done| |rewrite Hz, zlen_nil; unfold w; rewrite zlen_be16; lia].
    rewrite Hs. unfold seg_enc, seg_head. by rewrite <- !app_assoc.
  - intros ->. apply (slice_of_app m p (zlen (seg_enc true g v)) w (be16 (v_sn v))
      (opt_field g (v_off v) ++ v_data v)); [done| |rewrite Hz; unfold w, hdr_len, Z_of_bool; rewrite !zlen_be16; destruct g; lia].
    rewrite Hs. unfold seg_enc, seg_head. by rewrite <- !app_assoc.
  - intros ->. replace (p + 2 + Z_of_bool r * 2) with (p + zlen (w ++ opt_field r (v_sn v))).
    2:{ rewrite zlen_app, zlen_opt_field. unfold w. rewrite zlen_be16. lia. }
    apply (slice_of_app m p (zlen (seg_enc r true v)) (w ++ opt_field r (v_sn v)) (be16 (v_off v)) (v_data v));
      [done| |rewrite Hz, zlen_app, zlen_opt_field; unfold w, hdr_len; rewrite !zlen_be16; simpl Z_of_bool; lia].
    rewrite Hs. unfold seg_enc, seg_head. by rewrite <- !app_assoc.
  - rewrite <- (zlen_seg_head r g v).
    apply (slice_of_app m p (zlen (seg_enc r g v)) (seg_head r g v) (v_data v) []);
      [done| |rewrite Hz, zlen_seg_head; lia].
    rewrite Hs. unfold seg_enc. by rewrite app_nil_r.
Qed.

Lemma seg_at_get m p n r g v :
  seg_ok r g v -> seg_at m p r g v ->
  let s := scanned p n r g in
  seg_get_SIZE m s = Ok (hdr_len r g + zlen (v_data v)) /\
  seg_get_payload_size m s = Ok (zlen (v_data v)) /\
  seg_is_LAST m s = Ok (v_last v) /\
  (r = true -> seg_get_SN m s = Ok (v_sn v)) /\
  (g = true -> seg_get_OFFSET m s = Ok (v_off v)).
Proof.
  intros (Hsn & Hoff & Hd & Hlen) Hat s.
  pose proof (seg_at_fields _ _ _ _ _ Hat) as (F1 & F2 & F3 & _).
  destruct Hat as (Hp & Hl & _). rewrite zlen_seg_enc in Hl.
  pose proof (hdr_len_range r g). pose proof (zlen_nonneg (v_data v)).
  assert (ld_be16 m p = Ok (Z_of_bool (v_last v) * 32768 + (hdr_len r g + zlen (v_data v)))) as E.
  { apply ld_be16_slice; try done; try lia. destruct (v_last v); unfold Z_of_bool; ulia. }
  unfold seg_get_payload_size, seg_get_SIZE, seg_is_LAST, seg_get_SN, seg_get_OFFSET.
  change (size s) with (Some p). change (seg_header_size s) with (hdr_len r g).
  simpl. rewrite E. simpl. unfold mret, res_ret. rewrite land_7FFF, land_8000
    by (destruct (v_last v); unfold Z_of_bool; ulia).
  repeat split; try (f_equal; destruct (v_last v); unfold Z_of_bool, bool_of_Z in *; case_Z; ulia).
  - intros ->. apply ld_be16_slice; try done; try lia; [|by apply F2].
    unfold hdr_len in *. simpl Z_of_bool in *. destruct g; simpl Z_of_bool in *; lia.
  - intros ->. apply ld_be16_slice; try done; try lia; [| |by apply F3];
      unfold hdr_len in *; destruct r; simpl Z_of_bool in *; lia.
Qed.

(** ** Streams of segments *)

Definition segs_ok (r g : bool) (segs : list seg_val) : Prop :=
  Forall (fun v => seg_ok r g v /\ v_data v <> []) segs.

Lemma segs_enc_length r g segs : Z.of_nat (length segs) <= zlen (segs_enc r g segs).
Proof.
  induction segs as [|v segs IH]; [done|]. rewrite segs_enc_cons, zlen_app, zlen_seg_enc.
  pose proof (hdr_len_range r g). pose proof (zlen_nonneg (v_data v)). cbn [length]. lia.
Qed.

(** The stream [segs] lies at offset [p] of [m]. *)
Definition segs_at (m : list Z) (p : Z) (r g : bool) (segs : list seg_val) : Prop :=
  0 <= p /\ p + zlen (segs_enc r g segs) <= zlen m /\ is_u64 (zlen m) /\
  slice m p (zlen (segs_enc r g segs)) = segs_enc r g segs.

(** What a reader finds at the head of a stream that is all of its view. *)
Record head_read (m : list Z) (p : Z) (r g : bool) (v : seg_val) (segs : list seg_val) : Prop := HeadRead {
  hr_data : 1 <= zlen (v_data v);
  hr_len : zlen (segs_enc r g (v :: segs)) = hdr_len r g + zlen (v_data v) + zlen (segs_enc r g segs);
  hr_scan : (rescan (segment_make p (zlen (segs_enc r g (v :: segs))) r g)).1 =
    scanned p (zlen (segs_enc r g (v :: segs))) r g;
  hr_size : seg_get_SIZE m (scanned p (zlen (segs_enc r g (v :: segs))) r g) = Ok (hdr_len r g + zlen (v_data v));
  hr_payload_size : seg_get_payload_size m (scanned p (zlen (segs_enc r g (v :: segs))) r g) = Ok (zlen (v_data v));
  hr_last : seg_is_LAST m (scanned p (zlen (segs_enc r g (v :: segs))) r g) = Ok (v_last v);
  hr_sn : (if r then seg_get_SN m (scanned p (zlen (segs_enc r g (v :: segs))) r g) else mret 0) =
    Ok (if r then v_sn v else 0);
  hr_off : (if g then seg_get_OFFSET m (scanned p (zlen (segs_enc r g (v :: segs))) r g) else mret 0) =
    Ok (if g then v_off v else 0);
  hr_payload : (q ← deref (payload (scanned p (zlen (segs_enc r g (v :: segs))) r g));
    rd_n m q (zlen (v_data v))) = Ok (v_data v);
  hr_left : u64 (zlen (segs_enc r g (v :: segs)) - (hdr_len r g + zlen (v_data v))) = zlen (segs_enc r g segs);
  hr_rest : segs_at m (p + (hdr_len r g + zlen (v_data v))) r g segs }.

Lemma segs_head m p r g v segs :
  segs_ok r g (v :: segs) -> segs_at m p r g (v :: segs) -> head_read m p r g v segs.
Proof.
  intros [[Hv Hne] _]%Forall_cons_1 (Hp & Hl & Hu & Hs).
  rewrite segs_enc_cons in Hs, Hl. rewrite zlen_app in Hs, Hl.
  pose proof (hdr_len_range r g). pose proof (zlen_seg_enc r g v) as Hz.
  assert (1 <= zlen (v_data v)) by (destruct (v_data v); [done|zlia]).
  pose proof (zlen_nonneg (segs_enc r g segs)).
  rewrite slice_app in Hs by lia.
  apply app_inj_1 in Hs as [Hs1 Hs2].
  2:{ pose proof (zlen_slice m p (zlen (seg_enc r g v))) as HH. unfold zlen in *. lia. }
  assert (zlen (segs_enc r g (v :: segs)) = hdr_len r g + zlen (v_data v) + zlen (segs_enc r g segs)) as Hn
    by (rewrite segs_enc_cons, zlen_app; lia).
  set (n := zlen (segs_enc r g (v :: segs))) in *.
  destruct (seg_at_get m p n r g v Hv) as (G1 & G2 & G3 & G4 & G5); [by split_and!; [|lia|]|].
  pose proof (seg_at_fields m p r g v) as (_ & _ & _ & F4); [by split_and!; [|lia|]|].
  constructor; try done; fold n.
  - rewrite rescan_fits; [done|done|lia|ulia].
  - destruct r; auto.
  - destruct g; auto.
  - change (deref (payload (scanned p n r g))) with (Ok (p + hdr_len r g)).
    rewrite bind_ret_l, rd_n_in by lia. by rewrite F4.
  - rewrite u64_id by ulia. lia.
  - rewrite <- Hz. split_and!; try done; lia.
Qed.

(** ** Properties *)

(** C32: a segment lying in the input, in a view at least as long as it, is
    scanned as valid, and its size, payload size, LAST flag, sequence number,
    offset and payload bytes are read back as they were encoded, in each of
    the four configurations of the optional fields. *)
Theorem segment_parse m p n r g v :
  seg_ok r g v -> seg_at m p r g v -> zlen (seg_enc r g v) <= n -> is_u64 (p + n) ->
  exists s, rescan (segment_make p n r g) = (s, true) /\
    seg_is_header_valid s = true /\
    seg_get_SIZE m s = Ok (zlen (seg_enc r g v)) /\
    seg_get_payload_size m s = Ok (zlen (v_data v)) /\
    seg_is_LAST m s = Ok (v_last v) /\
    (r = true -> seg_get_SN m s = Ok (v_sn v)) /\
    (g = true -> seg_get_OFFSET m s = Ok (v_off v)) /\
    exists q, payload s = Some q /\ rd_n m q (zlen (v_data v)) = Ok (v_data v).
Proof.
  intros Hok Hat Hn Hu. pose proof (seg_at_get m p n r g v Hok Hat) as (G1 & G2 & G3 & G4 & G5).
  pose proof (seg_at_fields _ _ _ _ _ Hat) as (_ & _ & _ & F4).
  destruct Hat as (Hp & Hl & _). rewrite zlen_seg_enc in *.
  pose proof (zlen_nonneg (v_data v)). pose proof (hdr_len_range r g).
  exists (scanned p n r g). split; [apply rescan_fits; [done|lia|done]|].
  split; [apply Z.leb_le; change (seg_header_size _) with (hdr_len r g); simpl; lia|].
  do 5 (split; [done|]). exists (p + hdr_len r g). split; [done|].
  rewrite rd_n_in by lia. by rewrite F4.
Qed.

Lemma segment_parse_witness :
  let v := SegVal true 0x0102 0 [7; 8; 9] in
  let m := [0xFF; 0x80; 9; 1; 2; 0; 0; 7; 8; 9; 0xFF] in
  seg_enc true true v = [0x80; 9; 1; 2; 0; 0; 7; 8; 9] /\
  exists s, rescan (segment_make 1 10 true true) = (s, true) /\ seg_get_SIZE m s = Ok 9.
Proof.
  intros v m. split; [vm_compute; reflexivity|].
  destruct (segment_parse m 1 10 true true v) as (s & H1 & _ & H2 & _).
  - unfold seg_ok, bytes_ok. simpl. repeat split; try (repeat constructor; ulia); vm_compute; congruence.
  - unfold seg_at. vm_compute. repeat split; congruence.
  - vm_compute. congruence.
  - vm_compute. split; congruence.
  - exists s. split; [exact H1|exact H2].
Defined.
