(* ===== verification/PdcpUl.v ===== *)
(** * PDCP uplink ([winject/src/pdcp/pdcp_ul.hpp], [.cpp])

    Buffers the frames to send and, when the link layer has room, writes them
    as PDCP segments into the buffer it is given. The buffer is a byte memory
    [m]; the view [(b, n)] is the part of it the caller handed over. *)

From S2P Require Import Prelude Mem SafeInt SafeChecker PdcpSegment.

(** ** State *)

Record ul_config := UlConfig {
  uc_allow_segmentation : bool; uc_allow_reordering : bool; uc_min_commit_size : Z }.

Inductive ul_status : Set :=
  | UL_SUCCESS | UL_OUTPUT_EMPTY | UL_OUTPUT_LESS_THAN_MIN_COMMIT_SIZE
  | UL_NO_DATA | UL_NO_SEGMENTS_WRITTEN.
#[export] Instance ul_status_eq_dec : EqDecision ul_status.
Proof. solve_decision. Defined.

Record ul_t := Ul {
  u_config : ul_config; u_status : ul_status;
  outstanding_buffers : list (list Z);
  data_offset : Z; sequence_number : Z;
  total_in_bytes : Z; total_out_bytes : Z }.
#[export] Instance eta_ul : Eta ul_t := fun s =>
  Ul (u_config s) (u_status s) (outstanding_buffers s) (data_offset s) (sequence_number s)
    (total_in_bytes s) (total_out_bytes s).

(** ** Operations *)

Definition pdcp_ul (cfg : ul_config) : ul_t := Ul cfg UL_SUCCESS [] 0 0 0 0.

Definition ul_reset (s : ul_t) : ul_t :=
  s <| outstanding_buffers := [] |> <| data_offset := 0 |> <| u_status := UL_SUCCESS |>
    <| sequence_number := 0 |> <| total_in_bytes := 0 |> <| total_out_bytes := 0 |>.

Definition ul_reconfigure (cfg : ul_config) (s : ul_t) : ul_t := s <| u_config := cfg |>.

Definition ul_on_frame_data (packet : list Z) (s : ul_t) : ul_t * bool :=
  if zlen packet =? 0 then (s, false) else
  (s <| outstanding_buffers := outstanding_buffers s ++ [packet] |>
     <| total_in_bytes := u64 (total_in_bytes s + zlen packet) |>, true).

Definition ul_get_outstanding_bytes (s : ul_t) : Z :=
  if total_in_bytes s <? total_out_bytes s then 0
  else u64 (total_in_bytes s - total_out_bytes s).

Definition ul_get_outstanding_packet (s : ul_t) : Z := zlen (outstanding_buffers s).
Definition ul_get_min_commit_size (s : ul_t) : Z := uc_min_commit_size (u_config s).

(** The part of the loop body that fills in one segment: [copy_size] bytes of
    the front frame at [data_offset]. It returns the buffer, the new state,
    whether the frame is finished, and the size of the segment. *)
Definition ul_write_segment (m : list Z) (segment : segment_t) (front : list Z) (copy_size : Z)
    (s : ul_t) : res (list Z * ul_t * bool * Z) :=
  q ← deref (payload segment);
  bs ← rd_n front (data_offset s) copy_size;
  m ← wr_n m q bs;
  m ← (if uc_allow_reordering (u_config s) then seg_set_SN m segment (sequence_number s) else mret m);
  m ← (if uc_allow_segmentation (u_config s)
       then seg_set_OFFSET m segment (u16 (data_offset s)) else mret m);
  let s := s <| data_offset := u64 (data_offset s + copy_size) |>
             <| total_out_bytes := u64 (total_out_bytes s + copy_size) |> in
  let is_last := zlen front <=? data_offset s in
  m ← seg_set_LAST m segment is_last;
  '(m, segment, _) ← seg_set_payload_size m segment (u16 copy_size);
  seg_size ← seg_get_SIZE m segment;
  mret (m, s, is_last, seg_size).

(** The [while] loop of [write_pdcp]: the cursor, the room left, the bytes and
    the segments written so far. *)
Fixpoint ul_loop (fuel : nat) (m : list Z) (payload_cursor available_for_data : Z)
    (total_pdcp_written segments_allocated : Z) (s : ul_t) : res (list Z * ul_t * Z * Z) :=
  match fuel with
  | O => NoFuel
  | S fuel =>
    let done_ := mret (m, s, total_pdcp_written, segments_allocated) in
    match outstanding_buffers s with
    | [] => done_
    | front :: rest =>
      if available_for_data =? 0 then done_ else
      let cfg := u_config s in
      let segment := (rescan (segment_make payload_cursor available_for_data
                               (uc_allow_reordering cfg) (uc_allow_segmentation cfg))).1 in
      if negb (seg_is_header_valid segment) then done_ else
      let max_segment_payload := u64 (available_for_data - seg_header_size segment) in
      if max_segment_payload =? 0 then done_ else
      let frame_remaining :=
        if data_offset s <? zlen front then zlen front - data_offset s else 0 in
      if frame_remaining =? 0 then
        ul_loop fuel m payload_cursor available_for_data total_pdcp_written segments_allocated
          (s <| outstanding_buffers := rest |> <| data_offset := 0 |>)
      else
      let too_big := max_segment_payload <? frame_remaining in
      if too_big && negb (uc_allow_segmentation cfg) then done_ else
      let copy_size := if too_big then max_segment_payload else frame_remaining in
      '(m, s, is_last, seg_size) ← ul_write_segment m segment front copy_size s;
      let s := if is_last : bool then
          s <| outstanding_buffers := rest |> <| data_offset := 0 |>
            <| sequence_number := u16 (sequence_number s + 1) |>
        else s in
      ul_loop fuel m (payload_cursor + seg_size) (u64 (available_for_data - seg_size))
        (u64 (total_pdcp_written + seg_size)) (segments_allocated + 1) s
    end
  end.

(** Every turn of the loop takes a byte of the front frame, or drops it. *)
Definition ul_fuel (s : ul_t) : nat :=
  S (foldr (fun fr k => S (length fr) + k)%nat O (outstanding_buffers s)).

(** [write_pdcp]: [-1] for an error, whose cause is left in the status. *)
Definition write_pdcp (m : list Z) (b n : Z) (s : ul_t) : res (list Z * ul_t * Z) :=
  if n =? 0 then mret (m, s <| u_status := UL_OUTPUT_EMPTY |>, -1) else
  if n <? uc_min_commit_size (u_config s)
  then mret (m, s <| u_status := UL_OUTPUT_LESS_THAN_MIN_COMMIT_SIZE |>, -1) else
  if bool_decide (outstanding_buffers s = [])
  then mret (m, s <| u_status := UL_NO_DATA |>, -1) else
  '(m, s, total_pdcp_written, segments_allocated) ← ul_loop (ul_fuel s) m b n 0 0 s;
  if segments_allocated =? 0 then mret (m, s <| u_status := UL_NO_SEGMENTS_WRITTEN |>, -1)
  else mret (m, s <| u_status := UL_SUCCESS |>, total_pdcp_written).

(** ** Lemmas *)

Lemma set_SN_in m s p v :
  sn s = Some p -> is_u16 v -> 0 <= p -> p + 2 <= zlen m -> seg_set_SN m s v = Ok (splice m p (be16 v)).
Proof. intros Hs Hv Hp Hl. unfold seg_set_SN. rewrite Hs. by apply st_be16_in. Qed.
Lemma set_OFFSET_in m s p v :
  offset s = Some p -> is_u16 v -> 0 <= p -> p + 2 <= zlen m ->
  seg_set_OFFSET m s v = Ok (splice m p (be16 v)).
Proof. intros Hs Hv Hp Hl. unfold seg_set_OFFSET. rewrite Hs. by apply st_be16_in. Qed.

(** The optional fields in front of bytes already written at [p + header]. *)
Lemma write_fields m p n r g vsn voff data :
  is_u16 vsn -> is_u16 voff -> 0 <= p -> p + hdr_len r g + zlen data <= zlen m ->
  let s := scanned p n r g in
  (m ← (if r then seg_set_SN (splice m (p + hdr_len r g) data) s vsn
        else mret (splice m (p + hdr_len r g) data));
   if g then seg_set_OFFSET m s voff else mret m) =
  Ok (splice m (p + 2) (opt_field r vsn ++ opt_field g voff ++ data)).
Proof.
  intros Hs Ho Hp Hl s. pose proof (zlen_nonneg data). unfold hdr_len in *.
  set (m0 := splice m _ data). assert (zlen m0 = zlen m) as Hz.
  { unfold m0. apply zlen_splice; destruct r, g; simpl Z_of_bool in *; lia. }
  destruct r, g; simpl Z_of_bool in *; simpl opt_field.
  - rewrite (set_SN_in _ _ (p + 2)) by (try done; lia). rewrite bind_ret_l.
    rewrite (set_OFFSET_in _ _ (p + 2 + 2)) by (rewrite ?zlen_splice; rewrite ?zlen_be16; try done; lia).
    rewrite splice_comm by (rewrite ?zlen_be16; lia). unfold m0. rewrite <- splice_prepend;
      rewrite ?zlen_app, ?zlen_be16; try lia.
    rewrite <- (splice_prepend m (p + 2 + 2)); rewrite ?zlen_be16; try lia.
    by replace (p + (2 + 1 * 2 + 1 * 2)) with (p + 2 + 2 + 2) by lia.
  - rewrite (set_SN_in _ _ (p + 2)) by (try done; lia). unfold m0. rewrite bind_ret_l.
    rewrite <- splice_prepend; rewrite ?zlen_be16; try (simpl app; lia).
    by replace (p + (2 + 1 * 2 + 0 * 2)) with (p + 2 + 2) by lia.
  - unfold mret, res_ret. rewrite bind_ret_l.
    rewrite (set_OFFSET_in _ _ (p + 2)); [|simpl; f_equal; lia|done|lia|lia]. unfold m0.
    rewrite app_nil_l, <- (splice_prepend m (p + 2) (be16 voff)); rewrite ?zlen_be16; try lia.
    by replace (p + (2 + 0 * 2 + 1 * 2)) with (p + 2 + 2) by lia.
  - unfold mret, res_ret, m0. rewrite bind_ret_l. by replace (p + (2 + 0 * 2 + 0 * 2)) with (p + 2) by lia.
Qed.

(** The bytes the cursor advances over and the state after one segment. *)
Definition ul_segment_bytes (w : Z) (s : ul_t) (front : list Z) (copy_size : Z) : list Z :=
  be16 w ++ opt_field (uc_allow_reordering (u_config s)) (sequence_number s) ++
  opt_field (uc_allow_segmentation (u_config s)) (u16 (data_offset s)) ++
  slice front (data_offset s) copy_size.

Lemma ul_write_segment_spec m p n front copy s :
  let r := uc_allow_reordering (u_config s) in
  let g := uc_allow_segmentation (u_config s) in
  let last := zlen front <=? data_offset s + copy in
  bytes_ok m -> bytes_ok front -> is_u16 (sequence_number s) ->
  0 <= p -> p + hdr_len r g + copy <= zlen m -> 0 <= copy -> 0 <= data_offset s ->
  data_offset s + copy <= zlen front -> is_u64 (zlen front) ->
  exists w, is_u16 w /\
    (hdr_len r g + copy < 32768 -> w = Z_of_bool last * 32768 + (hdr_len r g + copy)) /\
    ul_write_segment m (scanned p n r g) front copy s =
      Ok (splice m p (ul_segment_bytes w s front copy),
          s <| data_offset := data_offset s + copy |>
            <| total_out_bytes := u64 (total_out_bytes s + copy) |>,
          last, (hdr_len r g + copy) mod 32768).
Proof.
  intros r g last Hm Hf Hsn Hp Hl Hc Hd Hcf Hu.
  pose proof (hdr_len_range r g) as Hh.
  set (data := slice front (data_offset s) copy).
  assert (zlen data = copy) as Hz by (apply zlen_slice; lia).
  unfold ul_write_segment. simpl deref. rewrite bind_ret_l, rd_n_in by lia. rewrite bind_ret_l.
  change (slice front (data_offset s) copy) with data.
  change (payload (scanned p n r g)) with (Some (p + hdr_len r g)).
  rewrite wr_n_in, bind_ret_l by lia.
  pose proof (write_fields m p n r g (sequence_number s) (u16 (data_offset s)) data
    Hsn (u16_range _) Hp ltac:(lia)) as HW.
  cbv zeta in HW. fold r g. rewrite <- bind_assoc. rewrite HW, bind_ret_l. clear HW.
  set (tl := _ ++ _ ++ data).
  assert (zlen tl = hdr_len r g - 2 + copy) as Htl.
  { unfold tl. rewrite !zlen_app, !zlen_opt_field. unfold hdr_len. lia. }
  set (m1 := splice m (p + 2) tl).
  assert (zlen m1 = zlen m) as Hz1 by (apply zlen_splice; lia).
  assert (bytes_ok m1) as Hm1.
  { apply bytes_ok_splice; [done|]. unfold tl.
    apply Forall_app_2; [destruct r; [by apply be16_bytes_ok|constructor]|].
    apply Forall_app_2; [destruct g; [apply be16_bytes_ok, u16_range|constructor]|].
    by apply bytes_ok_slice. }
  destruct (seg_last_size m1 (scanned p n r g) p last (u16 (hdr_len r g + u16 copy)))
    as (m2 & w & E1 & E2 & Hw & Hw' & E3); [done|done|done|lia|apply u16_range|].
  exists w. split; [done|]. split; [intros; rewrite Hw' by ulia; f_equal; ulia|].
  unfold upd. cbn [data_offset]. rewrite (u64_id (data_offset s + copy)) by ulia.
  fold last. rewrite E1, bind_ret_l.
  unfold seg_set_payload_size. change (seg_header_size _) with (hdr_len r g).
  rewrite bind_assoc. rewrite E2, bind_ret_l.
  assert (splice m1 p (be16 w) = splice m p (ul_segment_bytes w s front copy)) as HM.
  { pose proof (splice_prepend m p (be16 w) tl) as HP. rewrite zlen_be16 in HP.
    unfold m1. rewrite HP by lia. done. }
  rewrite HM in *. unfold mret, res_ret at 1. rewrite bind_ret_l.
  assert (forall b : bool, seg_get_SIZE (splice m p (ul_segment_bytes w s front copy))
    (if b then (scanned p n r g) <| is_valid_ := false |> else scanned p n r g) =
     Ok ((hdr_len r g + copy) mod 32768)) as E4.
  { assert (u16 (hdr_len r g + u16 copy) mod 32768 = (hdr_len r g + copy) mod 32768) as <- by ulia.
    intros []; exact E3. }
  rewrite E4. reflexivity.
Qed.

(** ** Abstract specification: which segments fit *)

(** [ul_plan r g n frames off sn]: the segments a view of [n] bytes receives,
    and the frames, the offset and the sequence number left for the next one.
    A frame is cut only if segmentation is allowed, and then fills the view. *)
Fixpoint ul_plan (r g : bool) (n : Z) (frames : list (list Z)) (off sn_ : Z)
    : list seg_val * (list (list Z) * Z * Z) :=
  match frames with
  | [] => ([], ([], off, sn_))
  | fr :: rest =>
    let room := n - hdr_len r g in
    let left := zlen fr - off in
    if room <=? 0 then ([], (frames, off, sn_))
    else if left <=? room then
      let '(segs, k) := ul_plan r g (room - left) rest 0 (u16 (sn_ + 1)) in
      (SegVal true sn_ (u16 off) (slice fr off left) :: segs, k)
    else if g then ([SegVal false sn_ (u16 off) (slice fr off room)], (frames, off + room, sn_))
    else ([], (frames, off, sn_))
  end.

Definition frames_len (frames : list (list Z)) : Z := zlen (concat frames).

(** The bytes still to send, and the invariant of the uplink. *)
Definition ul_left (s : ul_t) : Z := frames_len (outstanding_buffers s) - data_offset s.

Definition frame_ok (fr : list Z) : Prop := bytes_ok fr /\ 1 <= zlen fr /\ is_u64 (zlen fr).

Definition front_ok (frames : list (list Z)) (off : Z) : Prop :=
  match frames with [] => off = 0 | fr :: _ => 0 <= off < zlen fr end.

Record ul_inv (s : ul_t) : Prop := UlInv {
  ui_frames : Forall frame_ok (outstanding_buffers s);
  ui_front : front_ok (outstanding_buffers s) (data_offset s);
  ui_sn : is_u16 (sequence_number s);
  ui_out : 0 <= total_out_bytes s;
  ui_total : total_in_bytes s = total_out_bytes s + ul_left s;
  ui_in : is_u64 (total_in_bytes s) }.

Lemma frames_len_cons fr l : frames_len (fr :: l) = zlen fr + frames_len l.
Proof. unfold frames_len. simpl. apply zlen_app. Qed.
Lemma frames_len_nonneg l : 0 <= frames_len l.
Proof. apply zlen_nonneg. Qed.

Lemma front_ok_0 l : Forall frame_ok l -> front_ok l 0.
Proof. intros [|fr l' (_ & H & _) _]; simpl; lia. Qed.

Lemma ul_left_nonneg s : ul_inv s -> 0 <= ul_left s.
Proof.
  intros []. unfold ul_left. destruct (outstanding_buffers s) as [|fr l]; simpl in *.
  - rewrite ui_front0. done.
  - rewrite frames_len_cons. pose proof (frames_len_nonneg l). lia.
Qed.

(** The turns the loop may take. *)
Definition ul_measure (s : ul_t) : Z := ul_left s + zlen (outstanding_buffers s).

Lemma ul_fuel_measure s : ul_inv s -> ul_measure s < Z.of_nat (ul_fuel s).
Proof.
  intros []. assert (0 <= data_offset s).
  { destruct (outstanding_buffers s); simpl in *; lia. }
  enough (Z.of_nat (ul_fuel s) = 1 + frames_len (outstanding_buffers s) + zlen (outstanding_buffers s))
    by (unfold ul_measure, ul_left; lia).
  unfold ul_fuel. rewrite Nat2Z.inj_succ. clear.
  induction (outstanding_buffers s) as [|fr l IH]; [reflexivity|].
  rewrite frames_len_cons, zlen_cons. cbn [foldr]. rewrite Nat2Z.inj_add.
  change (Z.of_nat (S (length fr))) with (zlen (0 :: fr)). rewrite zlen_cons. lia.
Qed.

(** ** One turn of the loop *)

(** The state after [copy] bytes of the front frame have been sent. *)
Definition ul_advance (s : ul_t) (front : list Z) (rest : list (list Z)) (copy : Z) : ul_t :=
  let s := s <| total_out_bytes := total_out_bytes s + copy |> in
  if zlen front <=? data_offset s + copy
  then s <| outstanding_buffers := rest |> <| data_offset := 0 |>
         <| sequence_number := u16 (sequence_number s + 1) |>
  else s <| data_offset := data_offset s + copy |>.

Lemma ul_advance_inv s front rest copy :
  ul_inv s -> outstanding_buffers s = front :: rest ->
  0 < copy <= zlen front - data_offset s ->
  let s' := ul_advance s front rest copy in
  ul_inv s' /\ ul_left s' = ul_left s - copy /\ ul_measure s' < ul_measure s /\
  u_config s' = u_config s.
Proof.
  intros [Hf Hfr Hsn Ho Ht Hi] Hb Hc s'. unfold ul_measure, ul_left in *.
  rewrite Hb in Hf, Hfr, Ht |- *. simpl in Hfr.
  apply Forall_cons_1 in Hf as [(Hf1 & Hf2 & Hf4) Hf3].
  rewrite frames_len_cons in Ht |- *. rewrite zlen_cons.
  pose proof (frames_len_nonneg rest).
  unfold s', ul_advance, upd. cbn [data_offset total_out_bytes].
  destruct (Z.leb_spec (zlen front) (data_offset s + copy)) as [Hle|Hle].
  - split; [constructor; unfold ul_left; cbn; try done; try ulia; by apply front_ok_0|].
    cbn. split; [lia|]. split; [lia|done].
  - split; [constructor; unfold ul_left; cbn; rewrite ?Hb, ?frames_len_cons; try done; try lia|].
    + constructor; done.
    + simpl. lia.
    + cbn. rewrite Hb, frames_len_cons, zlen_cons. split; [lia|]. split; [lia|done].
Qed.

Section Turn.
Context (fuel : nat) (m : list Z) (p n w k : Z) (s : ul_t).
Let r := uc_allow_reordering (u_config s).
Let g := uc_allow_segmentation (u_config s).
Hypotheses (Hm : bytes_ok m) (Hp : 0 <= p) (Hn : 0 <= n) (Hl : p + n <= zlen m)
  (Hu : is_u64 (zlen m)) (Hs : ul_inv s).

Lemma ul_loop_stop :
  (outstanding_buffers s = [] \/ n <= hdr_len r g \/
   exists fr rest, outstanding_buffers s = fr :: rest /\ g = false /\
     n - hdr_len r g < zlen fr - data_offset s) ->
  ul_loop (S fuel) m p n w k s = Ok (m, s, w, k).
Proof.
  intros Hd. pose proof (hdr_len_range r g). cbn [ul_loop].
  destruct (outstanding_buffers s) as [|fr rest] eqn:Hb; [done|].
  destruct (Z.eqb_spec n 0); [done|]. fold r g.
  destruct (Z.ltb_spec n (hdr_len r g)) as [Hsh|Hsh].
  { replace (seg_is_header_valid _) with false; [done|]. symmetry.
    unfold seg_is_header_valid. rewrite rescan_head, rescan_max. apply Z.leb_gt. exact Hsh. }
  rewrite rescan_fits; [|done|done|ulia]. cbn [fst].
  unfold seg_is_header_valid. change (seg_header_size _) with (hdr_len r g).
  change (max_size _) with n. rewrite (proj2 (Z.leb_le _ _)) by done. cbn [negb].
  rewrite u64_id by ulia. destruct (Z.eqb_spec (n - hdr_len r g) 0); [done|].
  destruct Hs as [_ Hf _ _ _ _]. rewrite Hb in Hf. simpl in Hf.
  rewrite (proj2 (Z.ltb_lt (data_offset s) _)) by lia.
  destruct (Z.eqb_spec (zlen fr - data_offset s) 0); [lia|].
  destruct Hd as [?|[?|(fr' & rest' & [= <- <-] & Hg & Hlt)]]; [done|lia|].
  rewrite (proj2 (Z.ltb_lt _ _)) by done. by rewrite Hg.
Qed.

Lemma ul_loop_turn front rest :
  outstanding_buffers s = front :: rest -> hdr_len r g < n ->
  let room := n - hdr_len r g in
  let left := zlen front - data_offset s in
  let copy := Z.min room left in
  let sz := (hdr_len r g + copy) mod 32768 in
  (left <= room \/ g = true) ->
  exists wd, is_u16 wd /\
    (hdr_len r g + copy < 32768 ->
     wd = Z_of_bool (left <=? room) * 32768 + (hdr_len r g + copy)) /\
    ul_loop (S fuel) m p n w k s =
    ul_loop fuel (splice m p (ul_segment_bytes wd s front copy)) (p + sz) (n - sz)
      (u64 (w + sz)) (k + 1) (ul_advance s front rest copy).
Proof.
  intros Hb Hlt room left copy sz Hd. pose proof (hdr_len_range r g).
  pose proof Hs as [Hfs Hf Hsn Ho Ht Hi]. unfold ul_left in Ht.
  rewrite Hb in Hf, Hfs, Ht. simpl in Hf.
  apply Forall_cons_1 in Hfs as [(Hfb & Hfl & Hfu) _]. rewrite frames_len_cons in Ht.
  pose proof (frames_len_nonneg rest).
  destruct (ul_write_segment_spec m p n front copy s) as (wd & Hwd & Hw & E);
    fold r g; try done; try (unfold copy, room, left; lia); try ulia.
  fold r g in E, Hw. exists wd. split; [done|].
  assert ((zlen front <=? data_offset s + copy) = (left <=? room)) as Hlast.
  { unfold copy, left, room. case_Z; lia. }
  rewrite Hlast in *. split; [done|].
  cbn [ul_loop]. rewrite Hb. fold r g.
  rewrite (proj2 (Z.eqb_neq n 0)) by lia.
  rewrite rescan_fits; [|done|lia|ulia]. cbn [fst].
  unfold seg_is_header_valid. change (seg_header_size _) with (hdr_len r g).
  change (max_size _) with n. rewrite (proj2 (Z.leb_le _ _)) by lia. cbn [negb].
  rewrite u64_id by ulia. rewrite (proj2 (Z.eqb_neq (n - _) 0)) by lia.
  rewrite (proj2 (Z.ltb_lt (data_offset s) _)) by lia.
  rewrite (proj2 (Z.eqb_neq (zlen front - _) 0)) by lia.
  fold room left.
  replace (_ && negb g) with false
    by (symmetry; destruct Hd as [Hd| ->]; [rewrite (proj2 (Z.ltb_ge _ _)) by lia|rewrite andb_false_r]; done).
  replace (if room <? left then room else left) with copy by (unfold copy; case_Z; lia).
  rewrite E, bind_ret_l. fold sz. unfold ul_advance.
  assert (u64 (n - sz) = n - sz) as ->.
  { apply u64_id. unfold sz. pose proof (zlen_nonneg m). unfold copy, room in *. ulia. }
  rewrite (u64_id (total_out_bytes s + copy)) by (unfold copy, left; ulia).
  unfold upd. cbn [data_offset]. rewrite Hlast.
  by destruct (left <=? room).
Qed.
End Turn.

Lemma zlen_ul_segment_bytes wd s front copy :
  0 <= copy -> 0 <= data_offset s -> data_offset s + copy <= zlen front ->
  zlen (ul_segment_bytes wd s front copy) =
    hdr_len (uc_allow_reordering (u_config s)) (uc_allow_segmentation (u_config s)) + copy.
Proof.
  intros. unfold ul_segment_bytes. rewrite !zlen_app, zlen_be16, !zlen_opt_field, zlen_slice by done.
  unfold hdr_len. lia.
Qed.

Lemma ul_segment_bytes_ok wd s front copy :
  is_u16 wd -> is_u16 (sequence_number s) -> bytes_ok front ->
  bytes_ok (ul_segment_bytes wd s front copy).
Proof.
  intros. unfold ul_segment_bytes.
  apply Forall_app_2; [by apply be16_bytes_ok|].
  apply Forall_app_2; [destruct (uc_allow_reordering _); [by apply be16_bytes_ok|constructor]|].
  apply Forall_app_2; [destruct (uc_allow_segmentation _); [apply be16_bytes_ok, u16_range|constructor]|].
  by apply bytes_ok_slice.
Qed.

(** The loop stops, or sends some bytes of the front frame. *)
Lemma ul_turn_cases r g n s :
  (outstanding_buffers s = [] \/ n <= hdr_len r g \/
   exists fr rest, outstanding_buffers s = fr :: rest /\ g = false /\
     n - hdr_len r g < zlen fr - data_offset s) \/
  exists front rest, outstanding_buffers s = front :: rest /\ hdr_len r g < n /\
    (zlen front - data_offset s <= n - hdr_len r g \/ g = true).
Proof.
  destruct (outstanding_buffers s) as [|fr rest]; [by left; left|].
  destruct (Z.leb_spec n (hdr_len r g)); [by left; right; left|].
  destruct (Z.leb_spec (zlen fr - data_offset s) (n - hdr_len r g)).
  - right. exists fr, rest. auto.
  - destruct g; [right|left; right; right]; exists fr, rest; auto.
Qed.

(** For views of any size the loop ends, writes inside its view only, and
    keeps the invariant. *)
Lemma ul_loop_safe fuel m p n w k s :
  bytes_ok m -> 0 <= p -> 0 <= n -> p + n <= zlen m -> is_u64 (zlen m) -> ul_inv s ->
  ul_measure s < Z.of_nat fuel -> 0 <= w -> is_u64 (w + n) ->
  exists m' s' w' k', ul_loop fuel m p n w k s = Ok (m', s', w', k') /\
    w <= w' <= w + n /\ k <= k' /\ ul_inv s' /\ u_config s' = u_config s /\
    total_in_bytes s' = total_in_bytes s /\ zlen m' = zlen m /\ bytes_ok m' /\
    (forall j, j < p \/ p + n <= j -> rd m' j = rd m j).
Proof.
  revert m p n w k s. induction fuel as [|fuel IH]; intros m p n w k s Hm Hp Hn Hl Hu Hs Hf Hw Hwn.
  { pose proof (ul_left_nonneg s Hs). unfold ul_measure in Hf.
    pose proof (zlen_nonneg (outstanding_buffers s)). lia. }
  destruct (ul_turn_cases (uc_allow_reordering (u_config s)) (uc_allow_segmentation (u_config s)) n s)
    as [Hstop|(front & rest & Hb & Hlt & Hd)].
  { rewrite ul_loop_stop by done. exists m, s, w, k. split_and!; try done; lia. }
  destruct (ul_loop_turn fuel m p n w k s Hm Hp Hl Hu Hs front rest Hb Hlt Hd)
    as (wd & Hwd & _ & ->).
  set (h := hdr_len _ _) in *. set (copy := Z.min _ _). set (sz := _ mod 32768).
  pose proof (hdr_len_range (uc_allow_reordering (u_config s)) (uc_allow_segmentation (u_config s))) as Hh.
  fold h in Hh. pose proof Hs as [Hfs Hfr Hsn _ _ _]. rewrite Hb in Hfs, Hfr. simpl in Hfr.
  apply Forall_cons_1 in Hfs as [(Hfb & Hfl & _) _].
  assert (0 < copy <= zlen front - data_offset s) as Hc by (unfold copy; lia).
  assert (h + copy <= n) as Hcn by (unfold copy; lia).
  assert (0 <= sz <= h + copy) as Hsz by (unfold sz; lia).
  destruct (ul_advance_inv s front rest copy Hs Hb Hc) as (Hs' & Hleft & Hmeas & Hcfg).
  set (bs := ul_segment_bytes wd s front copy).
  assert (zlen bs = h + copy) as Hbs by (apply zlen_ul_segment_bytes; lia).
  assert (zlen (splice m p bs) = zlen m) as Hz by (apply zlen_splice; lia).
  rewrite (u64_id (w + sz)) by ulia.
  destruct (IH (splice m p bs) (p + sz) (n - sz) (w + sz) (k + 1) (ul_advance s front rest copy))
    as (m' & s' & w' & k' & E & H1 & H2 & H3 & H4 & H5 & H6 & H7 & H8);
    rewrite ?Hz; try done; try lia; try ulia.
  { apply bytes_ok_splice; [done|]. by apply ul_segment_bytes_ok. }
  exists m', s', w', k'. split; [done|]. split; [lia|]. split; [lia|]. split; [done|].
  split; [by rewrite H4|]. split; [|split; [lia|split; [done|]]].
  { rewrite H5. unfold ul_advance. by destruct (_ <=? _). }
  intros j Hj. rewrite H8 by lia. apply rd_splice_other; lia.
Qed.

(** The state a plan leaves. *)
Definition ul_after (s : ul_t) (k : list (list Z) * Z * Z) (out : Z) : ul_t :=
  Ul (u_config s) (u_status s) k.1.1 k.1.2 k.2 (total_in_bytes s) (total_out_bytes s + out).

Lemma ul_after_advance s front rest copy k out :
  ul_after (ul_advance s front rest copy) k out = ul_after s k (copy + out).
Proof.
  unfold ul_after, ul_advance, upd. cbn [data_offset].
  destruct (_ <=? _); cbn; f_equal; lia.
Qed.

Lemma ul_segment_bytes_enc last s front copy :
  let r := uc_allow_reordering (u_config s) in
  let g := uc_allow_segmentation (u_config s) in
  0 <= copy -> 0 <= data_offset s -> data_offset s + copy <= zlen front ->
  ul_segment_bytes (Z_of_bool last * 32768 + (hdr_len r g + copy)) s front copy =
  seg_enc r g (SegVal last (sequence_number s) (u16 (data_offset s)) (slice front (data_offset s) copy)).
Proof.
  intros r g Hc Hd Hl. unfold ul_segment_bytes, seg_enc, seg_head. simpl.
  rewrite zlen_slice by done. by rewrite <- !app_assoc.
Qed.

(** For views below 32768 bytes the loop does what the plan says. *)
Lemma ul_loop_plan fuel m p n w k s :
  let r := uc_allow_reordering (u_config s) in
  let g := uc_allow_segmentation (u_config s) in
  bytes_ok m -> 0 <= p -> 0 <= n < 32768 -> p + n <= zlen m -> is_u64 (zlen m) -> ul_inv s ->
  ul_measure s < Z.of_nat fuel -> 0 <= w -> is_u64 (w + n) ->
  let pl := ul_plan r g n (outstanding_buffers s) (data_offset s) (sequence_number s) in
  zlen (segs_enc r g pl.1) <= n /\
  ul_loop fuel m p n w k s =
    Ok (splice m p (segs_enc r g pl.1), ul_after s pl.2 (zlen (segs_data pl.1)),
        w + zlen (segs_enc r g pl.1), k + zlen pl.1).
Proof.
  revert m p n w k s. induction fuel as [|fuel IH];
    intros m p n w k s r g Hm Hp Hn Hl Hu Hs Hf Hw Hwn.
  { pose proof (ul_left_nonneg s Hs). unfold ul_measure in Hf.
    pose proof (zlen_nonneg (outstanding_buffers s)). lia. }
  assert (forall pl, pl = ([] : list seg_val, (outstanding_buffers s, data_offset s, sequence_number s)) ->
    ul_loop (S fuel) m p n w k s = Ok (m, s, w, k) ->
    zlen (segs_enc r g pl.1) <= n /\
    ul_loop (S fuel) m p n w k s =
    Ok (splice m p (segs_enc r g pl.1), ul_after s pl.2 (zlen (segs_data pl.1)),
        w + zlen (segs_enc r g pl.1), k + zlen pl.1)) as Hstopped.
  { intros pl -> ->. unfold ul_after. simpl.
    change (zlen (segs_enc r g [])) with 0. change (segs_enc r g []) with (@nil Z).
    change (zlen (segs_data [])) with 0. rewrite splice_nil, !Z.add_0_r.
    destruct s. split; [lia|done]. }
  pose proof (hdr_len_range r g) as Hh.
  destruct (ul_turn_cases r g n s) as [Hstop|(front & rest & Hb & Hlt & Hd)].
  { intros pl. apply Hstopped; [|apply ul_loop_stop; done || lia]. unfold pl. clear Hstopped IH.
    destruct Hstop as [-> |[Hx|(fr & rest & -> & Hg & Hx)]]; [done| |].
    - destruct (outstanding_buffers s); [done|]. simpl. by rewrite (proj2 (Z.leb_le _ _)) by lia.
    - simpl. destruct (_ <=? 0); [done|]. rewrite (proj2 (Z.leb_gt _ _)) by lia. by rewrite Hg. }
  clear Hstopped.
  destruct (ul_loop_turn fuel m p n w k s Hm Hp Hl Hu Hs front rest Hb Hlt Hd)
    as (wd & Hwd & Hwe & ->).
  fold r g in Hwe |- *. set (copy := Z.min _ _) in *.
  pose proof Hs as [Hfs Hfr Hsn _ _ _]. rewrite Hb in Hfs, Hfr. simpl in Hfr.
  apply Forall_cons_1 in Hfs as [(Hfb & Hfl & _) _].
  assert (0 < copy <= zlen front - data_offset s) as Hc by (unfold copy; lia).
  assert (hdr_len r g + copy <= n) as Hcn by (unfold copy; lia).
  rewrite (Z.mod_small (_ + _)) by lia. rewrite Hwe by lia. clear wd Hwd Hwe.
  destruct (ul_advance_inv s front rest copy Hs Hb Hc) as (Hs' & Hleft & Hmeas & Hcfg).
  assert (forall last, ul_segment_bytes (Z_of_bool last * 32768 + (hdr_len r g + copy)) s front copy = _)
    as HE by (intros last; apply ul_segment_bytes_enc; lia).
  rewrite HE. fold r g in HE |- *.
  set (v := SegVal _ _ _ _). set (bs := seg_enc r g v).
  assert (zlen (v_data v) = copy) as Hv by (simpl; apply zlen_slice; lia).
  assert (zlen bs = hdr_len r g + copy) as Hbs by (unfold bs; rewrite zlen_seg_enc; lia).
  assert (zlen (splice m p bs) = zlen m) as Hz by (apply zlen_splice; lia).
  rewrite (u64_id (w + _)) by ulia.
  set (n' := n - (hdr_len r g + copy)).
  destruct (IH (splice m p bs) (p + (hdr_len r g + copy)) n' (w + (hdr_len r g + copy)) (k + 1)
     (ul_advance s front rest copy)) as [IH1 IH2]; unfold n'; rewrite ?Hz; try done; try lia; try ulia.
  { apply bytes_ok_splice; [done|]. unfold bs, v. rewrite <- HE.
    apply ul_segment_bytes_ok; try done. fold r g. destruct (_ <=? _); unfold Z_of_bool; ulia. }
  rewrite Hcfg in IH1, IH2. fold r g n' in IH1, IH2.
  set (pl' := ul_plan _ _ _ _ _ _) in IH1, IH2.
  assert (ul_plan r g n (outstanding_buffers s) (data_offset s) (sequence_number s) =
    (v :: pl'.1, pl'.2)) as ->.
  { rewrite Hb. cbn [ul_plan]. rewrite (proj2 (Z.leb_gt _ _)) by lia.
    unfold v, pl', n', ul_advance, upd, copy. cbn [data_offset].
    destruct (Z.leb_spec (zlen front - data_offset s) (n - hdr_len r g)) as [Hle|Hle].
    - rewrite Z.min_r by lia.
      destruct (Z.leb_spec (zlen front) (data_offset s + (zlen front - data_offset s))); [|lia]. cbn.
      replace (n - (hdr_len r g + (zlen front - data_offset s)))
        with (n - hdr_len r g - (zlen front - data_offset s)) by lia.
      by destruct (ul_plan r g _ rest 0 _).
    - destruct Hd as [?|Hg]; [lia|]. rewrite Z.min_l by lia.
      destruct (Z.leb_spec (zlen front) (data_offset s + (n - hdr_len r g))); [lia|]. rewrite Hg at 1. cbn. rewrite Hb. cbn [ul_plan].
      by rewrite (proj2 (Z.leb_le _ 0)) by lia. }
  cbn [fst snd]. rewrite segs_enc_cons, segs_data_cons, !zlen_app, zlen_cons, Hv. fold bs. rewrite Hbs.
  split; [lia|]. fold n'. rewrite IH2.
  rewrite <- Hbs, splice_app by (rewrite ?Hz; unfold n' in *; lia).
  f_equal. f_equal; [|lia]. f_equal; [|lia]. f_equal.
  apply ul_after_advance.
Qed.

(** ** Facts about plans *)

Lemma ul_plan_nil r g n frames off sn_ :
  (ul_plan r g n frames off sn_).1 = [] -> (ul_plan r g n frames off sn_).2 = (frames, off, sn_).
Proof.
  destruct frames as [|fr rest]; [done|]. cbn [ul_plan].
  repeat case_match; simpl; try done.
Qed.

Lemma ul_plan_room r g n fr rest off sn_ :
  hdr_len r g < n -> zlen fr - off <= n - hdr_len r g \/ g = true ->
  (ul_plan r g n (fr :: rest) off sn_).1 <> [].
Proof.
  intros Hn Hd. cbn [ul_plan]. rewrite (proj2 (Z.leb_gt _ _)) by lia.
  destruct (Z.leb_spec (zlen fr - off) (n - hdr_len r g)).
  - by destruct (ul_plan _ _ _ rest _ _).
  - destruct Hd as [?| ->]; [lia|done].
Qed.

Lemma drop_0Z {A} (l : list A) : drop (Z.to_nat 0) l = l.
Proof. apply drop_0. Qed.

(** Nothing is lost, duplicated or reordered: the payloads sent, followed by
    what is left, are the bytes there were. *)
Lemma ul_plan_data r g n frames off sn_ :
  Forall frame_ok frames -> front_ok frames off ->
  let pl := ul_plan r g n frames off sn_ in
  segs_data pl.1 ++ drop (Z.to_nat pl.2.1.2) (concat pl.2.1.1) = drop (Z.to_nat off) (concat frames)
  /\ front_ok pl.2.1.1 pl.2.1.2 /\ Forall frame_ok pl.2.1.1.
Proof.
  revert n off sn_. induction frames as [|fr rest IH]; intros n off sn_ Hf Hfr; [done|].
  pose proof Hf as Hf0. apply Forall_cons_1 in Hf as [_ Hf]. simpl in Hfr.
  cbn [ul_plan]. destruct (Z.leb_spec (n - hdr_len r g) 0); [done|].
  assert (forall c, 0 <= c <= zlen fr - off ->
    drop (Z.to_nat off) (fr ++ concat rest) =
    slice fr off c ++ drop (Z.to_nat (off + c)) (fr ++ concat rest)) as Hsplit.
  { intros c Hc. unfold slice. rewrite !skipn_app.
    unfold zlen in *. replace (Z.to_nat off - length fr)%nat with 0%nat by lia.
    replace (Z.to_nat (off + c) - length fr)%nat with 0%nat by lia.
    rewrite app_assoc. f_equal. rewrite Z2Nat.inj_add, <- drop_drop by lia.
    by rewrite take_drop. }
  destruct (Z.leb_spec (zlen fr - off) (n - hdr_len r g)).
  - destruct (ul_plan r g _ rest 0 _) as [segs k] eqn:E.
    specialize (IH (n - hdr_len r g - (zlen fr - off)) 0 (u16 (sn_ + 1)) Hf (front_ok_0 _ Hf)).
    rewrite E in IH. destruct IH as (IH1 & IH2 & IH3). split; [|done].
    cbn [fst snd] in *. rewrite segs_data_cons, <- app_assoc, IH1, drop_0Z. cbn [v_data concat].
    rewrite (Hsplit (zlen fr - off)) by lia. f_equal.
    replace (off + (zlen fr - off)) with (zlen fr) by lia. unfold zlen. rewrite Nat2Z.id.
    by rewrite drop_app_length.
  - destruct g; [|done]. cbn [fst snd]. split; [|split; [simpl; lia|done]].
    unfold segs_data. cbn [map concat v_data]. rewrite app_nil_r. symmetry. apply Hsplit. lia.
Qed.

Lemma ul_inv_after s r g n :
  ul_inv s ->
  let pl := ul_plan r g n (outstanding_buffers s) (data_offset s) (sequence_number s) in
  ul_left (ul_after s pl.2 (zlen (segs_data pl.1))) = ul_left s - zlen (segs_data pl.1).
Proof.
  intros [Hf Hfr _ _ _ _] pl.
  pose proof (ul_plan_data r g n _ _ (sequence_number s) Hf Hfr) as (H & Hfr' & _). fold pl in H, Hfr'.
  assert (forall fs o, front_ok fs o -> zlen (drop (Z.to_nat o) (concat fs)) = frames_len fs - o) as HD.
  { intros fs o Ho. unfold frames_len. unfold zlen. rewrite length_drop.
    destruct fs as [|fr l]; simpl in *; [lia|]. rewrite length_app. unfold zlen in *. lia. }
  apply (f_equal zlen) in H. rewrite zlen_app, !HD in H by done.
  unfold ul_left, ul_after. simpl. lia.
Qed.

Lemma ul_outstanding_left s : ul_inv s -> ul_get_outstanding_bytes s = ul_left s.
Proof.
  intros Hs. pose proof (ul_left_nonneg s Hs). destruct Hs as [_ _ _ Ho Ht Hi].
  unfold ul_get_outstanding_bytes. rewrite (proj2 (Z.ltb_ge _ _)) by lia. ulia.
Qed.

(** ** Properties *)

(** What [write_pdcp] needs of its caller: the view lies in a byte memory. *)

(** C12: [write_pdcp] refines the plan. Into a view below 32768 bytes it writes
    the encodings of the segments of the plan, one after the other from the
    start of the view, and returns their total size; each of the four error
    statuses is set in its own case, with the buffer and the queue untouched. *)
Theorem write_pdcp_refines m b n s :
  view_ok m b n -> n < 32768 -> ul_inv s ->
  let r := uc_allow_reordering (u_config s) in
  let g := uc_allow_segmentation (u_config s) in
  let pl := ul_plan r g n (outstanding_buffers s) (data_offset s) (sequence_number s) in
  write_pdcp m b n s =
    if n =? 0 then Ok (m, s <| u_status := UL_OUTPUT_EMPTY |>, -1)
    else if n <? uc_min_commit_size (u_config s)
    then Ok (m, s <| u_status := UL_OUTPUT_LESS_THAN_MIN_COMMIT_SIZE |>, -1)
    else match outstanding_buffers s, pl.1 with
    | [], _ => Ok (m, s <| u_status := UL_NO_DATA |>, -1)
    | _, [] => Ok (m, s <| u_status := UL_NO_SEGMENTS_WRITTEN |>, -1)
    | _, segs => Ok (splice m b (segs_enc r g segs),
                     (ul_after s pl.2 (zlen (segs_data segs))) <| u_status := UL_SUCCESS |>,
                     zlen (segs_enc r g segs))
    end.
Proof.
  intros (Hm & Hu & Hb & Hn & Hl) Hn' Hs r g pl. unfold write_pdcp.
  destruct (n =? 0); [done|]. destruct (n <? _); [done|].
  destruct (outstanding_buffers s) as [|fr rest] eqn:E; [done|].
  rewrite bool_decide_false by done.
  destruct (ul_loop_plan (ul_fuel s) m b n 0 0 s) as [_ EL]; try done; try lia; try ulia.
  { by apply ul_fuel_measure. }
  rewrite EL, bind_ret_l. rewrite E. fold r g. fold pl.
  destruct pl.1 as [|v segs] eqn:Ep; [|by rewrite (proj2 (Z.eqb_neq _ 0)) by zlia].
  unfold pl in Ep. rewrite <- E in Ep. apply ul_plan_nil in Ep. unfold pl. rewrite <- E, Ep.
  change (segs_enc r g []) with (@nil Z). rewrite splice_nil. unfold ul_after, upd.
  destruct s. simpl. by rewrite Z.add_0_r.
Qed.

(** An uplink with one frame of five bytes, for the witnesses. *)
Definition ul_example : ul_t := (ul_on_frame_data [1; 2; 3; 4; 5] (pdcp_ul (UlConfig true true 7))).1.

Lemma ul_example_inv : ul_inv ul_example.
Proof.
  constructor; [|vm_compute; split; congruence|vm_compute; split; congruence|done|reflexivity|
    vm_compute; split; congruence].
  apply Forall_singleton. split; [repeat constructor; ulia|].
  vm_compute. repeat split; congruence.
Qed.

Lemma replicate_view n : is_u64 (Z.of_nat n) -> view_ok (replicate n 0) 0 (Z.of_nat n).
Proof.
  intros Hn. unfold view_ok, bytes_ok. rewrite zlen_replicate.
  split; [apply Forall_replicate; ulia|]. split; [done|]. lia.
Qed.

Lemma write_pdcp_refines_witness :
  view_ok (replicate 10 0) 0 10 /\ ul_inv ul_example /\
  (v ← write_pdcp (replicate 10 0) 0 10 ul_example; mret (v.1.1, v.2)) =
    Ok ([0; 10; 0; 0; 0; 0; 1; 2; 3; 4], 10).
Proof.
  split; [apply (replicate_view 10); vm_compute; split; congruence|]. split; [apply ul_example_inv|].
  rewrite (write_pdcp_refines (replicate 10 0) 0 10 ul_example).
  - vm_compute. reflexivity.
  - apply (replicate_view 10); vm_compute; split; congruence.
  - lia.
  - apply ul_example_inv.
Defined.

(** [write_pdcp] is total and memory safe. For a view of any size it
    returns (the loop ends), never writes a byte outside the view, returns
    [-1] or a size between one and the size of the view, and keeps the
    invariant of the uplink. *)
Theorem write_pdcp_safe m b n s :
  view_ok m b n -> ul_inv s ->
  exists m' s' w, write_pdcp m b n s = Ok (m', s', w) /\
    ((w = -1 /\ u_status s' <> UL_SUCCESS) \/ (0 <= w <= n /\ u_status s' = UL_SUCCESS)) /\
    ul_inv s' /\ u_config s' = u_config s /\ bytes_ok m' /\ zlen m' = zlen m /\
    forall j, j < b \/ b + n <= j -> rd m' j = rd m j.
Proof.
  intros (Hm & Hu & Hb & Hn & Hl) Hs.
  assert (forall st, ul_inv (s <| u_status := st |>)) as Hst by (intros; destruct Hs; by constructor).
  unfold write_pdcp.
  destruct (n =? 0); [eexists _, _, _; split; [done|]; split_and!; auto; by left|].
  destruct (n <? _); [eexists _, _, _; split; [done|]; split_and!; auto; by left|].
  case_bool_decide; [eexists _, _, _; split; [done|]; split_and!; auto; by left|].
  destruct (ul_loop_safe (ul_fuel s) m b n 0 0 s)
    as (m' & s' & w & k & -> & Hw & Hk & Hi & Hc & Ht & Hz & Hbm & Hfr); try done; try lia; try ulia.
  { by apply ul_fuel_measure. }
  rewrite bind_ret_l.
  destruct (k =? 0); eexists _, _, _; (split; [done|]); split_and!; try done.
  - by left.
  - destruct Hi; by constructor.
  - right. split; [lia|done].
  - destruct Hi; by constructor.
Qed.

Lemma write_pdcp_safe_witness :
  view_ok (replicate 20 0) 0 20 /\ ul_inv ul_example /\
  exists m' s' w, write_pdcp (replicate 20 0) 0 20 ul_example = Ok (m', s', w).
Proof.
  assert (view_ok (replicate 20 0) 0 20) as HV
    by (apply (replicate_view 20); vm_compute; split; congruence).
  split; [exact HV|]. split; [apply ul_example_inv|].
  destruct (write_pdcp_safe _ _ _ _ HV ul_example_inv) as (m' & s' & w & E & _).
  exists m', s', w. exact E.
Defined.

(** No byte is lost, duplicated or reordered by [write_pdcp]: the payloads
    of the segments it writes, followed by the bytes still queued, are the
    bytes that were queued. *)
Theorem write_pdcp_conserves m b n s m' s' w :
  view_ok m b n -> n < 32768 -> ul_inv s -> write_pdcp m b n s = Ok (m', s', w) ->
  exists segs,
    (0 <= w -> slice m' b w = segs_enc (uc_allow_reordering (u_config s))
                                (uc_allow_segmentation (u_config s)) segs) /\
    (w < 0 -> segs = [] /\ m' = m) /\
    segs_data segs ++ drop (Z.to_nat (data_offset s')) (concat (outstanding_buffers s')) =
    drop (Z.to_nat (data_offset s)) (concat (outstanding_buffers s)) /\
    ul_get_outstanding_bytes s' = ul_get_outstanding_bytes s - zlen (segs_data segs).
Proof.
  intros Hv Hn Hs E. pose proof Hs as [Hf Hfr _ Ho Ht Hi].
  assert (forall s, ul_inv s -> ul_get_outstanding_bytes s = ul_left s) as HG
    by apply ul_outstanding_left.
  destruct (write_pdcp_safe m b n s Hv Hs) as (m1 & s1 & w1 & E1 & _ & Hi1 & _).
  rewrite E in E1. injection E1 as <- <- <-. rewrite (HG _ Hs), (HG _ Hi1). clear HG.
  rewrite (write_pdcp_refines m b n s Hv Hn Hs) in E. cbv zeta in E.
  set (r := uc_allow_reordering _) in *. set (g := uc_allow_segmentation _) in *.
  assert (forall st, m' = m -> s' = s <| u_status := st |> -> w = -1 ->
    exists segs, (0 <= w -> slice m' b w = segs_enc r g segs) /\ (w < 0 -> segs = [] /\ m' = m) /\
    segs_data segs ++ drop (Z.to_nat (data_offset s')) (concat (outstanding_buffers s')) =
    drop (Z.to_nat (data_offset s)) (concat (outstanding_buffers s)) /\
    ul_left s' = ul_left s - zlen (segs_data segs)) as Herr.
  { intros st -> -> ->. exists []. split; [lia|]. split; [done|]. split; [done|].
    change (zlen (segs_data [])) with 0. change (ul_left s = ul_left s - 0). lia. }
  destruct (n =? 0); [injection E as <- <- <-; eauto|].
  destruct (n <? _); [injection E as <- <- <-; eauto|].
  destruct (outstanding_buffers s) as [|fr rest] eqn:Eb; [injection E as <- <- <-; eauto|].
  set (pl := ul_plan r g n (fr :: rest) (data_offset s) (sequence_number s)) in *.
  destruct pl.1 as [|v0 vs] eqn:Ep; [injection E as <- <- <-; eauto|].
  injection E as <- <- <-. rewrite <- Ep. clear Herr.
  destruct Hv as (Hm & Hu & Hb & Hn0 & Hl).
  destruct (ul_loop_plan (ul_fuel s) m b n 0 0 s) as [Hlen _]; try done; try lia; try ulia.
  { by apply ul_fuel_measure. }
  rewrite Eb in Hlen. fold r g in Hlen. fold pl in Hlen. pose proof (zlen_nonneg (segs_enc r g pl.1)).
  exists pl.1. split; [intros _; apply slice_splice_same; lia|]. split; [lia|].
  pose proof (ul_plan_data r g n (fr :: rest) (data_offset s) (sequence_number s) Hf Hfr) as (HD & _).
  fold pl in HD. split; [exact HD|].
  pose proof (ul_inv_after s r g n Hs) as HA. cbv zeta in HA. rewrite Eb in HA. exact HA.
Qed.

Lemma write_pdcp_conserves_witness :
  exists m' s', write_pdcp (replicate 10 0) 0 10 ul_example = Ok (m', s', 10) /\
    ul_get_outstanding_bytes s' = 1.
Proof.
  eexists _, _. split; [vm_compute; reflexivity|].
  edestruct (write_pdcp_conserves (replicate 10 0) 0 10 ul_example) as (segs & H1 & _ & H2 & H3).
  - apply (replicate_view 10); vm_compute; split; congruence.
  - lia.
  - apply ul_example_inv.
  - vm_compute. reflexivity.
  - vm_compute. reflexivity.
Defined.

(** Progress. With data queued, a view that meets the minimum commit size
    and has room for a header and either one byte of payload (segmentation) or
    all that is left of the front frame, [write_pdcp] succeeds and sends at
    least one segment. *)
Theorem write_pdcp_progress m b n s fr rest :
  view_ok m b n -> n < 32768 -> ul_inv s -> outstanding_buffers s = fr :: rest ->
  uc_min_commit_size (u_config s) <= n ->
  let h := hdr_len (uc_allow_reordering (u_config s)) (uc_allow_segmentation (u_config s)) in
  h < n ->
  uc_allow_segmentation (u_config s) = true \/ h + (zlen fr - data_offset s) <= n ->
  exists m' s' w, write_pdcp m b n s = Ok (m', s', w) /\ u_status s' = UL_SUCCESS /\ h <= w <= n /\
    ul_get_outstanding_bytes s' <= ul_get_outstanding_bytes s.
Proof.
  intros Hv Hn Hs Eb Hmin h Hh Hd.
  destruct (write_pdcp_safe m b n s Hv Hs) as (m' & s' & w & E & Hw & Hi & _).
  exists m', s', w. split; [done|].
  rewrite (write_pdcp_refines m b n s Hv Hn Hs) in E. cbv zeta in E. rewrite Eb in E.
  fold h in E. pose proof (hdr_len_range (uc_allow_reordering (u_config s)) (uc_allow_segmentation (u_config s))).
  fold h in H. rewrite (proj2 (Z.eqb_neq n 0)), (proj2 (Z.ltb_ge n _)) in E by lia.
  pose proof (ul_plan_room (uc_allow_reordering (u_config s)) (uc_allow_segmentation (u_config s))
    n fr rest (data_offset s) (sequence_number s)) as Hne. fold h in Hne.
  set (pl := ul_plan _ _ _ _ _ _) in *.
  destruct pl.1 as [|v vs] eqn:Ep; [destruct Hne; [lia|destruct Hd; [by right|left; lia]|done]|].
  injection E as _ <- <-. split; [done|].
  rewrite !ul_outstanding_left by done. split.
  - rewrite segs_enc_cons, zlen_app, zlen_seg_enc. fold h.
    pose proof (zlen_nonneg (v_data v)). pose proof (zlen_nonneg (segs_enc (uc_allow_reordering (u_config s)) (uc_allow_segmentation (u_config s)) vs)).
    rewrite segs_enc_cons, zlen_app, zlen_seg_enc in Hw. fold h in Hw. lia.
  - pose proof (ul_inv_after s (uc_allow_reordering (u_config s)) (uc_allow_segmentation (u_config s)) n Hs) as HA.
    cbv zeta in HA. rewrite Eb in HA. fold pl in HA. rewrite Ep in HA.
    change (ul_left (ul_after s pl.2 (zlen (segs_data (v :: vs)))) <= ul_left s).
    rewrite HA. pose proof (zlen_nonneg (segs_data (v :: vs))). lia.
Qed.

Lemma write_pdcp_progress_witness :
  exists m' s' w, write_pdcp (replicate 7 0) 0 7 ul_example = Ok (m', s', w) /\ u_status s' = UL_SUCCESS.
Proof.
  destruct (write_pdcp_progress (replicate 7 0) 0 7 ul_example [1; 2; 3; 4; 5] [])
    as (m' & s' & w & E & Hst & _).
  - apply (replicate_view 7); vm_compute; split; congruence.
  - lia.
  - apply ul_example_inv.
  - reflexivity.
  - vm_compute. congruence.
  - vm_compute. reflexivity.
  - left. reflexivity.
  - exists m', s', w. split; [exact E|exact Hst].
Defined.

(** ** The uplink as a system of its operations *)

(** One call of the interface. [write_pdcp] is given any view of any memory. *)
Inductive ul_step : ul_t -> ul_t -> Prop :=
  | StepReset s : ul_step s (ul_reset s)
  | StepReconfigure s cfg : ul_step s (ul_reconfigure cfg s)
  | StepFrame s packet : bytes_ok packet ->
      total_in_bytes s + zlen packet < 2 ^ 64 ->
      ul_step s (ul_on_frame_data packet s).1
  | StepWrite s m b n m' s' w : view_ok m b n -> write_pdcp m b n s = Ok (m', s', w) ->
      ul_step s s'.

Inductive ul_reachable : ul_t -> Prop :=
  | ReachInit cfg : ul_reachable (pdcp_ul cfg)
  | ReachStep s s' : ul_reachable s -> ul_step s s' -> ul_reachable s'.

Lemma frames_len_snoc l fr : frames_len (l ++ [fr]) = frames_len l + zlen fr.
Proof. unfold frames_len. rewrite concat_app, zlen_app. simpl. by rewrite app_nil_r. Qed.

Lemma ul_inv_frame s packet :
  ul_inv s -> bytes_ok packet -> total_in_bytes s + zlen packet < 2 ^ 64 ->
  ul_inv (ul_on_frame_data packet s).1.
Proof.
  intros [Hf Hfr Hsn Ho Ht Hi] Hp Hl. change (2 ^ 64) with 18446744073709551616 in Hl.
  unfold ul_on_frame_data. destruct (Z.eqb_spec (zlen packet) 0); [done|].
  pose proof (zlen_nonneg packet).
  constructor; unfold ul_left in *; cbn -[u64]; try done; rewrite ?u64_id by ulia.
  - apply Forall_app_2; [done|]. apply Forall_singleton. split; [done|ulia].
  - destruct (outstanding_buffers s); simpl in *; [lia|done].
  - rewrite frames_len_snoc. lia.
  - ulia.
Qed.

Lemma ul_inv_step s s' : ul_inv s -> ul_step s s' -> ul_inv s'.
Proof.
  intros Hs Hst. destruct Hst as [s|s cfg|s packet Hp Hl|s m b n m' s' w Hv E].
  - constructor; try done; vm_compute; split; congruence.
  - destruct Hs. by constructor.
  - by apply ul_inv_frame.
  - destruct (write_pdcp_safe m b n s Hv Hs) as (? & ? & ? & E1 & _ & Hi & _).
    rewrite E in E1. by injection E1 as <- <- <-.
Qed.

(** In every state the interface can reach, as long as fewer than 2^64
    bytes are ever queued, [get_outstanding_bytes] is exactly the number of
    bytes queued and not yet sent, and the front frame has bytes left to send. *)
Theorem ul_outstanding_exact s :
  ul_reachable s ->
  ul_get_outstanding_bytes s = zlen (concat (outstanding_buffers s)) - data_offset s /\
  (ul_get_outstanding_bytes s = 0 <-> outstanding_buffers s = []) /\
  front_ok (outstanding_buffers s) (data_offset s).
Proof.
  intros HR. assert (ul_inv s) as Hs.
  { induction HR as [cfg|s s' _ IH Hst]; [|by apply (ul_inv_step s s')].
    constructor; try done; vm_compute; split; congruence. }
  rewrite ul_outstanding_left by done. pose proof Hs as [Hf Hfr _ _ _ _].
  split; [done|]. split; [|done]. unfold ul_left.
  destruct (outstanding_buffers s) as [|fr l]; simpl in *.
  - rewrite Hfr. by split.
  - rewrite frames_len_cons. pose proof (frames_len_nonneg l). split; [lia|done].
Qed.

Lemma ul_outstanding_exact_witness :
  ul_reachable ul_example /\ ul_get_outstanding_bytes ul_example = 5.
Proof.
  assert (ul_reachable ul_example) as HR.
  { eapply ReachStep; [apply ReachInit|]. apply StepFrame; [repeat constructor; ulia|].
    vm_compute. reflexivity. }
  split; [exact HR|]. destruct (ul_outstanding_exact ul_example HR) as [E _]. exact E.
Defined.
