(* ===== verification/PdcpTx.v ===== *)
(** * PDCP, transmit side ([winject/src/PDCP.hpp], [PDCP.cpp])

    The class [PDCP] joins two sides that share no state but the channel
    number: this file has the transmit side, [PdcpRx] the receive side. It
    queues the frames of the endpoint and writes them as segments into the
    space the LLC offers. *)

From S2P Require Import Prelude Mem SafeInt SafeChecker PdcpSegment PdcpUl Info.

(** ** State *)

(** [IPDCP::tx_config_t], without the keys and algorithms nothing reads. *)
Record ptx_config := PtxConfig {
  px_allow_segmentation : bool; px_allow_reordering : bool; px_auto_init_on_tx : bool;
  px_min_commit_size : Z; px_max_tx_queue_size : Z }.

Record ptx_t := Ptx {
  ptx_lcid : Z; ptx_cfg : ptx_config;
  tx_sn : Z; tx_cipher_iv_size : Z; tx_hmac_size : Z;
  current_tx_buffer : list Z; current_tx_offset : Z;
  to_tx_queue : list (list Z);
  is_tx_enabled : bool;
  ptx_rrc : list rrc_call }.
#[export] Instance eta_ptx : Eta ptx_t := fun s =>
  Ptx (ptx_lcid s) (ptx_cfg s) (tx_sn s) (tx_cipher_iv_size s) (tx_hmac_size s) (current_tx_buffer s)
    (current_tx_offset s) (to_tx_queue s) (is_tx_enabled s) (ptx_rrc s).

(** ** Operations *)

Definition ptx_new (lcid : Z) (cfg : ptx_config) : ptx_t := Ptx lcid cfg 0 0 0 [] 0 [] false [].

Definition ptx_set_enabled (value : bool) (s : ptx_t) : ptx_t :=
  let s := s <| to_tx_queue := [] |> in
  let s := s <| is_tx_enabled := value |> in
  s <| current_tx_offset := 0 |> <| current_tx_buffer := [] |>.

Definition ptx_reconfigure (config : ptx_config) (s : ptx_t) : ptx_t :=
  let s := s <| ptx_cfg := config |> in
  ptx_set_enabled (is_tx_enabled s) s.

(** [to_tx]: the wait for the queue to drain takes up to 100 ms, in which the
    other threads run; the queue may have changed when it is over. Hence the
    two parts, before and after the wait, and the condition it waits for. *)
Definition to_tx_enter (s : ptx_t) : ptx_t :=
  if negb (is_tx_enabled s) && px_auto_init_on_tx (ptx_cfg s)
  then s <| ptx_rrc := ptx_rrc s ++ [OnInit (ptx_lcid s)] |> else s.
Definition to_tx_ready (s : ptx_t) : bool := zlen (to_tx_queue s) <=? px_max_tx_queue_size (ptx_cfg s).
Definition to_tx_finish (buffer : list Z) (s : ptx_t) : ptx_t * bool :=
  if px_max_tx_queue_size (ptx_cfg s) <=? zlen (to_tx_queue s) then (s, false)
  else (s <| to_tx_queue := to_tx_queue s ++ [buffer] |>, true).

(** [to_tx_queue.size() || (current_tx_buffer.size() > current_tx_offset)] *)
Definition ptx_available (s : ptx_t) : bool :=
  negb (zlen (to_tx_queue s) =? 0) || (current_tx_offset s <? zlen (current_tx_buffer s)).

(** The two branches of the loop body of [on_tx] that fill in a segment:
    without segmentation a whole frame of the queue, with it what fits of the
    frame in progress. [None]: the loop ends. *)
Definition ptx_whole_frame (m : list Z) (segment : segment_t) (available_for_data : Z) (s : ptx_t)
    : res (option (list Z * segment_t * ptx_t)) :=
  match to_tx_queue s with
  | [] => mret None
  | pdu :: queue =>
    if available_for_data <? zlen pdu then mret None else
    let s := s <| to_tx_queue := queue |> in
    q ← deref (payload segment);
    m ← wr_n m q pdu;
    '(m, segment, _) ← seg_set_payload_size m segment (u16 (zlen pdu));
    m ← seg_set_LAST m segment true;
    mret (Some (m, segment, s <| tx_sn := u16 (tx_sn s + 1) |>))
  end.

(** The next frame of the queue becomes the frame in progress. *)
Definition ptx_next_buffer (s : ptx_t) : option ptx_t :=
  if zlen (current_tx_buffer s) <=? current_tx_offset s then
    match to_tx_queue s with
    | [] => None
    | b :: queue =>
      Some (s <| current_tx_buffer := b |> <| current_tx_offset := 0 |> <| to_tx_queue := queue |>)
    end
  else Some s.

Definition ptx_part_frame (m : list Z) (segment : segment_t) (available_for_data : Z) (s : ptx_t)
    : res (option (list Z * segment_t * ptx_t)) :=
  match ptx_next_buffer s with
  | None => mret None
  | Some s =>
    let remaining_size := u64 (zlen (current_tx_buffer s) - current_tx_offset s) in
    let alloc_size := Z.min remaining_size available_for_data in
    q ← deref (payload segment);
    bs ← rd_n (current_tx_buffer s) (current_tx_offset s) alloc_size;
    m ← wr_n m q bs;
    m ← seg_set_OFFSET m segment (u16 (current_tx_offset s));
    '(m, segment, _) ← seg_set_payload_size m segment (u16 alloc_size);
    let s := s <| current_tx_offset := u64 (current_tx_offset s + alloc_size) |> in
    let is_last := zlen (current_tx_buffer s) <=? current_tx_offset s in
    m ← seg_set_LAST m segment is_last;
    mret (Some (m, segment, if is_last then s <| tx_sn := u16 (tx_sn s + 1) |> else s))
  end.

(** The [while] loop of [on_tx]: the cursor, the room left, the bytes and the
    segments written so far. *)
Fixpoint ptx_loop (fuel : nat) (m : list Z) (payload_ available_for_data out_allocated_ : Z)
    (allocated_segments : Z) (s : ptx_t) : res (list Z * ptx_t * Z * Z) :=
  match fuel with
  | O => NoFuel
  | S fuel =>
    let segment := (rescan (segment_make payload_ available_for_data
                     (px_allow_reordering (ptx_cfg s)) (px_allow_segmentation (ptx_cfg s)))).1 in
    if available_for_data <=? seg_header_size segment
    then mret (m, s, out_allocated_, allocated_segments) else
    let available_for_data := u64 (available_for_data - seg_header_size segment) in
    m ← seg_set_SN m segment (tx_sn s);
    r ← (if px_allow_segmentation (ptx_cfg s) then ptx_part_frame m segment available_for_data s
         else ptx_whole_frame m segment available_for_data s);
    match r with
    | None => mret (m, s, out_allocated_, allocated_segments)
    | Some (m, segment, s) =>
      size ← seg_get_SIZE m segment;
      payload_size ← seg_get_payload_size m segment;
      ptx_loop fuel m (payload_ + size) (u64 (available_for_data - payload_size))
        (u64 (out_allocated_ + size)) (allocated_segments + 1) s
    end
  end.

(** [on_tx]. Every turn of the loop uses up the header of a segment, so the
    size of the view is enough fuel. *)
Definition ptx_on_tx (m : list Z) (info : tx_info_t) (s : ptx_t) : res (list Z * tx_info_t * ptx_t) :=
  if negb (is_tx_enabled s) then mret (m, info, s) else
  let info := info <| out_tx_available := ptx_available s |> in
  if (pdu_size (out_pdu info) =? 0) || negb (out_tx_available info) then mret (m, info, s) else
  let pdcp := pdcp_make (pdu_base (out_pdu info)) (pdu_size (out_pdu info)) in
  let pdcp := pdcp <| pdcp_iv_size := tx_cipher_iv_size s |> in
  let pdcp := pdcp <| pdcp_hmac_size := tx_hmac_size s |> in
  let pdcp := pdcp_rescan pdcp in
  if (pdu_size (out_pdu info) <? px_min_commit_size (ptx_cfg s)) ||
     (pdu_size (out_pdu info) <=? pdcp_header_size pdcp) then mret (m, info, s) else
  payload_ ← deref (pdcp_payload pdcp);
  '(m, s, allocated, allocated_segments) ←
    ptx_loop (S (Z.to_nat (pdu_size (out_pdu info)))) m payload_
      (u64 (pdcp_max_size pdcp - pdcp_header_size pdcp)) (out_allocated info) 0 s;
  let info := info <| out_allocated :=
    if allocated_segments =? 0 then allocated else u64 (allocated + pdcp_header_size pdcp) |> in
  mret (m, info <| out_tx_available := ptx_available s |>, s).

(** ** The frames still to send, and the invariant *)

Definition in_progress (s : ptx_t) : bool := current_tx_offset s <? zlen (current_tx_buffer s).
Definition ptx_frames (s : ptx_t) : list (list Z) :=
  (if in_progress s then [current_tx_buffer s] else []) ++ to_tx_queue s.
Definition ptx_off (s : ptx_t) : Z := if in_progress s then current_tx_offset s else 0.

Definition buffer_ok (b : list Z) : Prop := bytes_ok b /\ is_u64 (zlen b).

Record ptx_inv (s : ptx_t) : Prop := PtxInv {
  xi_cur : buffer_ok (current_tx_buffer s);
  xi_queue : Forall buffer_ok (to_tx_queue s);
  xi_off : 0 <= current_tx_offset s <= zlen (current_tx_buffer s);
  xi_whole : px_allow_segmentation (ptx_cfg s) = false -> in_progress s = false;
  xi_sn : is_u16 (tx_sn s);
  xi_plain : tx_cipher_iv_size s = 0 /\ tx_hmac_size s = 0 }.

Lemma ptx_frames_ok s : ptx_inv s -> Forall buffer_ok (ptx_frames s).
Proof. intros []. unfold ptx_frames. destruct (in_progress s); simpl; auto. Qed.

Lemma ptx_off_range s fr rest : ptx_inv s -> ptx_frames s = fr :: rest -> 0 <= ptx_off s <= zlen fr.
Proof.
  intros [_ _ Ho _ _ _]. unfold ptx_frames, ptx_off.
  destruct (in_progress s); cbn; [by intros [= <- _]|]. pose proof (zlen_nonneg fr). lia.
Qed.

(** Everything after the header of a segment is in the buffer: the cursor's
    bytes are those of the segment. *)
Lemma seg_splice m p last sn_ off data (g : bool) :
  0 <= p -> p + hdr_len true g + zlen data <= zlen m ->
  let v := SegVal last sn_ off data in
  let w := be16 (Z_of_bool last * 32768 + (hdr_len true g + zlen data)) in
  splice (if g then splice (splice (splice m (p + 2) (be16 sn_)) (p + hdr_len true g) data) (p + 4) (be16 off)
          else splice (splice m (p + 2) (be16 sn_)) (p + hdr_len true g) data) p w
  = splice m p (seg_enc true g v).
Proof.
  intros Hp Hl v w. unfold v, seg_enc, seg_head. cbn [v_last v_sn v_off v_data opt_field].
  fold w. pose proof (zlen_nonneg data). unfold hdr_len in *. simpl Z_of_bool in *.
  assert (zlen w = 2) as Hw by apply zlen_be16.
  rewrite <- !app_assoc. destruct g; simpl Z_of_bool in *; simpl opt_field.
  - pose proof (zlen_be16 sn_) as H1. pose proof (zlen_be16 off) as H2.
    replace (p + (2 + 1 * 2 + 1 * 2)) with (p + 4 + zlen (be16 off)) by lia.
    assert (zlen (splice m (p + 2) (be16 sn_)) = zlen m) as Hz by (apply zlen_splice; lia).
    rewrite splice_prepend by (rewrite ?Hz; lia).
    replace (p + 4) with (p + 2 + zlen (be16 sn_)) by lia.
    rewrite splice_app by (rewrite ?zlen_app; lia).
    replace (p + 2) with (p + zlen w) by lia. by rewrite splice_prepend by (rewrite ?zlen_app; lia).
  - pose proof (zlen_be16 sn_) as H1.
    replace (p + (2 + 1 * 2 + 0 * 2)) with (p + 2 + zlen (be16 sn_)) by lia.
    rewrite splice_app by lia.
    replace (p + 2) with (p + zlen w) by lia. by rewrite splice_prepend by (rewrite ?zlen_app; lia).
Qed.

Lemma hdr_len_true g : 4 <= hdr_len true g <= 6.
Proof. unfold hdr_len. destruct g; simpl Z_of_bool; lia. Qed.

(** What one turn makes of a frame [fr] at the head of those to send. *)
Record turn_ok (s s' : ptx_t) (rest : list (list Z)) (fr : list Z) (copy : Z) (last : bool) : Prop := TurnOk {
  to_inv : ptx_inv s';
  to_cfg : ptx_cfg s' = ptx_cfg s;
  to_on : is_tx_enabled s' = is_tx_enabled s /\ ptx_rrc s' = ptx_rrc s /\ ptx_lcid s' = ptx_lcid s;
  to_frames : ptx_frames s' = if last then rest else fr :: rest;
  to_off : ptx_off s' = if last then 0 else ptx_off s + copy;
  to_sn : tx_sn s' = if last then u16 (tx_sn s + 1) else tx_sn s }.

Section Turn.
Context (m : list Z) (p n : Z) (s : ptx_t).
Let g := px_allow_segmentation (ptx_cfg s).
Let h := hdr_len true g.
Let room := n - h.
Hypotheses (Hi : ptx_inv s) (Hm : bytes_ok m) (Hp : 0 <= p) (Hn : h < n < 32768) (Hl : p + n <= zlen m).
Let m1 := splice m (p + 2) (be16 (tx_sn s)).

Lemma turn_m1 : bytes_ok m1 /\ zlen m1 = zlen m.
Proof.
  pose proof (hdr_len_true g : 4 <= h <= 6). unfold m1.
  split; [apply bytes_ok_splice; [done|apply be16_bytes_ok, Hi]|].
  apply zlen_splice; rewrite ?zlen_be16; lia.
Qed.

(** Without segmentation: a whole frame, if it fits. *)
Lemma ptx_whole_spec fr rest :
  g = false -> to_tx_queue s = fr :: rest ->
  if zlen fr <=? room then
    exists seg1 s', ptx_whole_frame m1 (scanned p n true g) room s =
      Ok (Some (splice m p (seg_enc true g (SegVal true (tx_sn s) 0 fr)), seg1, s')) /\
      turn_ok s s' rest fr (zlen fr) true /\
      let m2 := splice m p (seg_enc true g (SegVal true (tx_sn s) 0 fr)) in
      seg_get_SIZE m2 seg1 = Ok (h + zlen fr) /\ seg_get_payload_size m2 seg1 = Ok (zlen fr)
  else ptx_whole_frame m1 (scanned p n true g) room s = Ok None.
Proof.
  intros Hg Hq. pose proof Hi as [Hc Hqs Ho Hw Hsn Hpl]. destruct turn_m1 as [Hb1 Hz1].
  rewrite Hq in Hqs. apply Forall_cons_1 in Hqs as [[Hf Hfu] Hqs]. pose proof (zlen_nonneg fr).
  unfold ptx_whole_frame. rewrite Hq. destruct (Z.leb_spec (zlen fr) room) as [Hle|Hgt].
  2:{ by rewrite (proj2 (Z.ltb_lt _ _)) by lia. }
  rewrite (proj2 (Z.ltb_ge _ _)) by lia. unfold room in Hle. pose proof (hdr_len_true g : 4 <= h <= 6).
  change (payload (scanned p n true g)) with (Some (p + h)). simpl deref.
  rewrite bind_ret_l, wr_n_in, bind_ret_l by lia. rewrite (u16_id (zlen fr)) by ulia.
  set (m2 := splice m1 (p + h) fr).
  assert (bytes_ok m2 /\ zlen m2 = zlen m) as [Hb2 Hz2].
  { unfold m2. split; [by apply bytes_ok_splice|]. rewrite zlen_splice; [done|lia|lia]. }
  destruct (seg_payload_last m2 p n true g (zlen fr) true) as (m3 & seg1 & v & E1 & E2 & E3 & E4);
    [done|done|lia|lia|lia|].
  assert (splice m2 p (be16 (Z_of_bool true * 32768 + (hdr_len true g + zlen fr))) =
    splice m p (seg_enc true g (SegVal true (tx_sn s) 0 fr))) as HM.
  { unfold m2, h, m1 in *. rewrite Hg in *. by rewrite <- (seg_splice m p true (tx_sn s) 0 fr false) by lia. }
  rewrite HM in E2, E3, E4. rewrite E1, bind_ret_l, E2, bind_ret_l.
  eexists seg1, _. split; [done|]. split; [|done].
  assert (in_progress s = false) as Hip by by apply Hw.
  constructor; try done.
  - constructor; cbn; try done. apply u16_range.
  - unfold ptx_frames. change (in_progress _) with (in_progress s). by rewrite Hip.
  - unfold ptx_off. change (in_progress _) with (in_progress s). by rewrite Hip.
Qed.

(** With segmentation: what fits of the frame in progress, or of the next. *)
Lemma ptx_next_spec fr rest :
  ptx_frames s = fr :: rest ->
  exists s1, ptx_next_buffer s = Some s1 /\ current_tx_buffer s1 = fr /\ current_tx_offset s1 = ptx_off s /\
    to_tx_queue s1 = rest /\ ptx_cfg s1 = ptx_cfg s /\ tx_sn s1 = tx_sn s /\
    is_tx_enabled s1 = is_tx_enabled s /\ ptx_rrc s1 = ptx_rrc s /\ ptx_lcid s1 = ptx_lcid s /\
    tx_cipher_iv_size s1 = tx_cipher_iv_size s /\ tx_hmac_size s1 = tx_hmac_size s.
Proof.
  unfold ptx_frames, ptx_off, ptx_next_buffer, in_progress. rewrite Z.ltb_antisym.
  destruct (_ <=? _); cbn.
  - intros ->. by eexists.
  - intros [= <- <-]. by eexists.
Qed.

Lemma ptx_part_spec fr rest :
  g = true -> ptx_frames s = fr :: rest ->
  let left := zlen fr - ptx_off s in
  let copy := Z.min left room in
  let last := left <=? room in
  let v := SegVal last (tx_sn s) (u16 (ptx_off s)) (slice fr (ptx_off s) copy) in
  exists seg1 s', ptx_part_frame m1 (scanned p n true g) room s =
    Ok (Some (splice m p (seg_enc true g v), seg1, s')) /\
    turn_ok s s' rest fr copy last /\
    let m2 := splice m p (seg_enc true g v) in
    seg_get_SIZE m2 seg1 = Ok (h + copy) /\ seg_get_payload_size m2 seg1 = Ok copy.
Proof.
  intros Hg Hfr left copy last v. pose proof Hi as [Hc Hqs Ho Hw Hsn Hpl]. destruct turn_m1 as [Hb1 Hz1].
  pose proof (ptx_off_range s fr rest Hi Hfr) as Hor.
  pose proof (ptx_frames_ok s Hi) as Hfs. rewrite Hfr in Hfs.
  apply Forall_cons_1 in Hfs as [[Hf Hfu] Hfs].
  destruct (ptx_next_spec fr rest Hfr) as (s1 & E1 & Hcur & Hoff & Hq & Hcfg & Hsn1 & Hon & Hrrc & Hlc & Hiv & Hhm).
  unfold ptx_part_frame. rewrite E1, Hcur, Hoff. fold left.
  rewrite (u64_id left) by (unfold left; ulia). fold copy.
  assert (0 <= copy <= room /\ copy <= left) as Hcp by (unfold copy, left, room; lia).
  set (data := slice fr (ptx_off s) copy). assert (zlen data = copy) as Hzd.
  { apply zlen_slice; unfold left in Hcp; lia. }
  pose proof (hdr_len_true g : 4 <= h <= 6).
  change (payload (scanned p n true g)) with (Some (p + h)). simpl deref.
  rewrite bind_ret_l, rd_n_in, bind_ret_l by (unfold left in *; lia). fold data.
  rewrite wr_n_in, bind_ret_l by (unfold room in *; lia).
  assert (h = 6) as Hh by (unfold h, hdr_len; by rewrite Hg).
  rewrite (set_OFFSET_in _ _ (p + 4)); [|unfold scanned; cbn [offset]; rewrite Hg; f_equal; simpl; lia|apply u16_range|lia|
    rewrite zlen_splice; unfold room in *; lia]. rewrite bind_ret_l, (u16_id copy) by (unfold room in *; ulia).
  set (m2 := splice (splice m1 (p + h) data) (p + 4) _).
  assert (bytes_ok m2 /\ zlen m2 = zlen m) as [Hb2 Hz2].
  { unfold m2. split.
    - apply bytes_ok_splice; [|apply be16_bytes_ok, u16_range].
      apply bytes_ok_splice; [done|]. by apply bytes_ok_slice.
    - rewrite !zlen_splice; rewrite ?zlen_splice, ?zlen_be16; unfold room in *; lia. }
  destruct (seg_payload_last m2 p n true g copy last) as (m3 & seg1 & vv & E2 & E3 & E4 & E5);
    [done|done|unfold room in *; lia|lia|unfold room, h in *; lia|].
  rewrite E2, bind_ret_l. unfold upd. cbn [current_tx_buffer current_tx_offset].
  rewrite ?Hcur, ?Hoff, (u64_id (ptx_off s + copy)) by (unfold left in *; ulia).
  assert ((zlen fr <=? ptx_off s + copy) = last) as ->.
  { unfold last, copy, left. case_Z; lia. }
  assert (splice m2 p (be16 (Z_of_bool last * 32768 + (hdr_len true g + copy))) =
    splice m p (seg_enc true g v)) as HM.
  { assert (p + 6 + zlen data <= zlen m) as Hfit by (unfold room in *; lia).
    unfold m2, h, m1, v in *. fold data. rewrite <- Hzd at 1. rewrite Hg in *.
    by rewrite <- (seg_splice m p last (tx_sn s) (u16 (ptx_off s)) data true) by (done || exact Hfit). }
  rewrite HM in E3, E4, E5. rewrite E3, bind_ret_l.
  eexists seg1, _. split; [done|]. split; [|done].
  assert (in_progress s1 = (ptx_off s <? zlen fr)) as Hip by (unfold in_progress; by rewrite Hcur, Hoff).
  assert (last = false -> copy = room /\ ptx_off s + copy < zlen fr) as Hlf.
  { intros HF%Z.leb_gt. unfold copy, left in *. lia. }
  assert (last = true -> copy = left) as Hlt by (intros HT%Z.leb_le; unfold copy; lia).
  constructor.
  - destruct last; constructor; cbn; rewrite ?Hcur, ?Hsn1, ?Hq, ?Hcfg, ?Hiv, ?Hhm; try done;
      try (unfold left in *; lia); try (intros; unfold g in Hg; congruence). apply u16_range.
  - by destruct last.
  - by destruct last.
  - unfold ptx_frames, in_progress. destruct last; cbn; rewrite ?Hcur, ?Hq.
    + rewrite Hlt by done. unfold left. by rewrite (proj2 (Z.ltb_ge _ _)) by lia.
    + by rewrite (proj2 (Z.ltb_lt _ _)) by (apply Hlf; done).
  - unfold ptx_off at 1, in_progress. destruct last; cbn; rewrite ?Hcur.
    + rewrite Hlt by done. unfold left. by rewrite (proj2 (Z.ltb_ge _ _)) by lia.
    + by rewrite (proj2 (Z.ltb_lt _ _)) by (apply Hlf; done).
  - destruct last; cbn; by rewrite ?Hsn1.
Qed.
End Turn.

(** The loop follows the plan [ul_plan] that the other uplink follows too. *)
Record sent_plan (s s' : ptx_t) (k : list (list Z) * Z * Z) : Prop := SentPlan {
  sp_inv : ptx_inv s';
  sp_cfg : ptx_cfg s' = ptx_cfg s;
  sp_on : is_tx_enabled s' = is_tx_enabled s /\ ptx_rrc s' = ptx_rrc s /\ ptx_lcid s' = ptx_lcid s;
  sp_rest : (ptx_frames s', ptx_off s', tx_sn s') = k }.

Lemma sent_plan_refl s : ptx_inv s -> sent_plan s s (ptx_frames s, ptx_off s, tx_sn s).
Proof. done. Qed.

Lemma ptx_off_nil s : ptx_frames s = [] -> ptx_off s = 0.
Proof. unfold ptx_frames, ptx_off. by destruct (in_progress s). Qed.

Section Loop.
Context (cfg : ptx_config).
Let g := px_allow_segmentation cfg.
Let h := hdr_len true g.
Hypothesis Hr : px_allow_reordering cfg = true.

(** The sequence number is written before the loop finds there is nothing to
    send; that touches only the view. *)
Lemma loop_stop fuel m p n alloc k s :
  ptx_cfg s = cfg -> ptx_inv s -> bytes_ok m -> 0 <= p -> 0 <= n < 32768 -> p + n <= zlen m -> is_u64 (zlen m) ->
  (n <= h \/ ptx_frames s = [] \/
   exists fr rest, g = false /\ ptx_frames s = fr :: rest /\ n - h < zlen fr) ->
  exists m', ptx_loop (S fuel) m p n alloc k s = Ok (m', s, alloc, k) /\ same_outside p n m m' /\ bytes_ok m'.
Proof.
  intros Hc Hi Hm Hp Hn Hl Hu Hd. pose proof (hdr_len_true g : 4 <= h <= 6).
  cbn [ptx_loop]. rewrite Hc, Hr. fold g.
  destruct (Z.leb_spec n h) as [Hle|Hlt].
  { rewrite rescan_head, seg_header_size_make. fold h. rewrite (proj2 (Z.leb_le _ _)) by done. by exists m. }
  rewrite rescan_fits by (unfold h in *; ulia || lia). cbn [fst]. change (seg_header_size _) with h.
  rewrite (proj2 (Z.leb_gt _ _)) by done. rewrite u64_id by ulia.
  pose proof (xi_sn _ Hi) as Hsn.
  rewrite (set_SN_in _ _ (p + 2)) by (done || lia). rewrite bind_ret_l.
  set (m1 := splice m (p + 2) _).
  assert (same_outside p n m m1 /\ bytes_ok m1) as Hm1.
  { split; [apply same_outside_splice; rewrite ?zlen_be16; lia|].
    apply bytes_ok_splice; [done|by apply be16_bytes_ok]. }
  exists m1. split; [|done].
  assert ((if g then ptx_part_frame m1 (scanned p n true g) (n - h) s
           else ptx_whole_frame m1 (scanned p n true g) (n - h) s) = Ok None) as ->; [|done].
  destruct Hd as [?|[Hfr|(fr & rest & Hg & Hfr & Hz)]]; [lia| |].
  - unfold ptx_frames, in_progress in Hfr. destruct (Z.ltb_spec (current_tx_offset s) (zlen (current_tx_buffer s)));
      [done|]. simpl in Hfr. unfold ptx_part_frame, ptx_whole_frame, ptx_next_buffer. rewrite Hfr.
    rewrite (proj2 (Z.leb_le _ _)) by done. by destruct g.
  - pose proof (xi_whole _ Hi) as Hw. rewrite Hc in Hw. specialize (Hw Hg).
    unfold ptx_frames in Hfr. rewrite Hw in Hfr. simpl in Hfr.
    rewrite Hg in *. unfold ptx_whole_frame. rewrite Hfr. by rewrite (proj2 (Z.ltb_lt _ _)) by lia.
Qed.

Lemma loop_turn fuel m p n alloc k s fr rest :
  ptx_cfg s = cfg -> ptx_inv s -> bytes_ok m -> 0 <= p -> h < n < 32768 -> p + n <= zlen m -> is_u64 (zlen m) ->
  0 <= alloc -> is_u64 (alloc + n) -> ptx_frames s = fr :: rest ->
  let left := zlen fr - ptx_off s in
  let room := n - h in
  let copy := Z.min left room in
  let last := left <=? room in
  let v := SegVal last (tx_sn s) (u16 (ptx_off s)) (slice fr (ptx_off s) copy) in
  (last = true \/ g = true) ->
  exists s', turn_ok s s' rest fr copy last /\ zlen (seg_enc true g v) = h + copy /\ 0 <= copy <= room /\
    bytes_ok (splice m p (seg_enc true g v)) /\ zlen (splice m p (seg_enc true g v)) = zlen m /\
    ptx_loop (S fuel) m p n alloc k s =
    ptx_loop fuel (splice m p (seg_enc true g v)) (p + (h + copy)) (n - (h + copy)) (alloc + (h + copy)) (k + 1) s'.
Proof.
  intros Hc Hi Hm Hp Hn Hl Hu Ha Hau Hfr left room copy last v Hd.
  pose proof (hdr_len_true g : 4 <= h <= 6).
  pose proof (ptx_off_range s fr rest Hi Hfr) as Hor.
  assert (0 <= copy <= room) as Hcp by (unfold copy, left, room; lia).
  assert (zlen (slice fr (ptx_off s) copy) = copy) as Hzd
    by (apply zlen_slice; unfold copy, left; lia).
  cbn [ptx_loop]. rewrite Hc, Hr. fold g.
  rewrite rescan_fits by (unfold h in *; ulia || lia). cbn [fst]. change (seg_header_size _) with h.
  rewrite (proj2 (Z.leb_gt _ _)) by lia. rewrite (u64_id (n - h)) by ulia. fold room.
  pose proof (xi_sn _ Hi) as Hsn.
  rewrite (set_SN_in _ _ (p + 2)) by (done || lia). rewrite bind_ret_l.
  assert (exists seg1 s', (if g then ptx_part_frame (splice m (p + 2) (be16 (tx_sn s))) (scanned p n true g) room s
      else ptx_whole_frame (splice m (p + 2) (be16 (tx_sn s))) (scanned p n true g) room s) =
    Ok (Some (splice m p (seg_enc true g v), seg1, s')) /\ turn_ok s s' rest fr copy last /\
      seg_get_SIZE (splice m p (seg_enc true g v)) seg1 = Ok (h + copy) /\
      seg_get_payload_size (splice m p (seg_enc true g v)) seg1 = Ok copy) as (seg1 & s' & E1 & HT & E2 & E3).
  { destruct (Bool.bool_dec g true) as [Hg|Hg%not_true_is_false].
    - pose proof (ptx_part_spec m p n s Hi Hm Hp) as HS. rewrite Hc in HS. fold g h in HS.
      specialize (HS Hn Hl fr rest Hg Hfr). destruct HS as (seg1 & s' & E1 & HT & E2 & E3).
      exists seg1, s'. fold room in E1, HT, E2, E3. fold left copy last v in E1, HT, E2, E3.
      rewrite Hg in *. done.
    - pose proof (xi_whole _ Hi) as Hw. rewrite Hc in Hw. specialize (Hw Hg).
      assert (ptx_off s = 0) as Ho by (unfold ptx_off; by rewrite Hw).
      assert (to_tx_queue s = fr :: rest) as Hq by (unfold ptx_frames in Hfr; by rewrite Hw in Hfr).
      pose proof (ptx_whole_spec m p n s Hi Hm Hp) as HS. rewrite Hc in HS. fold g h in HS.
      specialize (HS Hn Hl fr rest Hg Hq). fold room in HS.
      assert (last = true) as Hlast by (destruct Hd; congruence).
      assert (copy = zlen fr) as Hcz by (unfold last in Hlast; apply Z.leb_le in Hlast; unfold copy, left in *; lia).
      replace (zlen fr <=? room) with true in HS
        by (symmetry; unfold last, left in Hlast; rewrite Ho, Z.sub_0_r in Hlast; exact Hlast).
      destruct HS as (seg1 & s' & E1 & HT & E2 & E3). exists seg1, s'.
      assert (v = SegVal true (tx_sn s) 0 fr) as ->.
      { unfold v. rewrite Hlast, Ho, Hcz. change (u16 0) with 0. by rewrite slice_all. }
      rewrite Hcz, Hlast. rewrite Hg in *. done. }
  rewrite E1, bind_ret_l, E2, bind_ret_l, E3, bind_ret_l. exists s'. split; [done|].
  assert (zlen (seg_enc true g v) = h + copy) as Hz by (rewrite zlen_seg_enc; cbn [v v_data]; by rewrite Hzd).
  assert (bytes_ok (seg_enc true g v)) as Hve.
  { pose proof (ptx_frames_ok s Hi) as Hfs. rewrite Hfr in Hfs. apply Forall_cons_1 in Hfs as [[Hf1 _] _].
    apply seg_enc_bytes_ok. unfold seg_ok, v. cbn. rewrite Hzd. split; [done|]. split; [apply u16_range|].
    split; [by apply bytes_ok_slice|]. unfold room, h in *. lia. }
  split; [done|]. split; [done|]. split; [by apply bytes_ok_splice|].
  split; [apply zlen_splice; unfold room in *; lia|].
  rewrite !u64_id by (unfold room in *; ulia). f_equal. unfold room. lia.
Qed.

Lemma loop_plan fuel m p n alloc k s :
  ptx_cfg s = cfg -> ptx_inv s -> bytes_ok m -> 0 <= p -> 0 <= n < 32768 -> p + n <= zlen m -> is_u64 (zlen m) ->
  0 <= alloc -> is_u64 (alloc + n) -> n < Z.of_nat fuel ->
  let pl := ul_plan true g n (ptx_frames s) (ptx_off s) (tx_sn s) in
  let bs := segs_enc true g pl.1 in
  exists m' s', ptx_loop fuel m p n alloc k s = Ok (m', s', alloc + zlen bs, k + zlen pl.1) /\
    zlen bs <= n /\ slice m' p (zlen bs) = bs /\ same_outside p n m m' /\ bytes_ok m' /\ sent_plan s s' pl.2.
Proof.
  revert m p n alloc k s. induction fuel as [|fuel IH]; intros m p n alloc k s Hc Hi Hm Hp Hn Hl Hu Ha Hau Hf; [lia|].
  pose proof (hdr_len_true g : 4 <= h <= 6).
  assert (forall (Hd : n <= h \/ ptx_frames s = [] \/
      exists fr rest, g = false /\ ptx_frames s = fr :: rest /\ n - h < zlen fr),
    ul_plan true g n (ptx_frames s) (ptx_off s) (tx_sn s) = ([], (ptx_frames s, ptx_off s, tx_sn s)) ->
    let pl := ul_plan true g n (ptx_frames s) (ptx_off s) (tx_sn s) in
    let bs := segs_enc true g pl.1 in
    exists m' s', ptx_loop (S fuel) m p n alloc k s = Ok (m', s', alloc + zlen bs, k + zlen pl.1) /\
      zlen bs <= n /\ slice m' p (zlen bs) = bs /\ same_outside p n m m' /\ bytes_ok m' /\ sent_plan s s' pl.2) as Hstop.
  { intros Hd Hpl. destruct (loop_stop fuel m p n alloc k s) as (m' & E & ? & ?); try done.
    exists m', s. rewrite Hpl, E. cbn. rewrite !Z.add_0_r. split_and!; try done; unfold zlen; simpl; lia. }
  destruct (ptx_frames s) as [|fr rest] eqn:Hfr; [apply Hstop; auto|]. cbn [ul_plan] in *. fold h in Hstop |- *.
  destruct (Z.leb_spec (n - h) 0) as [Hle|Hgt]; [apply Hstop; [left; lia|done]|].
  pose proof (ptx_off_range s fr rest Hi Hfr) as Hor.
  pose proof (loop_turn fuel m p n alloc k s fr rest Hc Hi Hm Hp ltac:(lia) Hl Hu Ha Hau Hfr) as HT.
  cbv zeta in HT.
  destruct (Z.leb_spec (zlen fr - ptx_off s) (n - h)) as [Hlast|Hlast].
  - rewrite (Z.min_l _ _ Hlast) in HT.
    destruct HT as (s1 & [T1 T2 T3 T4 T5 T6] & Hz & Hcp & Hb2 & Hz2 & E); [by left|]. clear Hstop.
    set (left := zlen fr - ptx_off s) in *. set (v := SegVal true _ _ _) in *.
    destruct (IH (splice m p (seg_enc true g v)) (p + (h + left)) (n - (h + left)) (alloc + (h + left)) (k + 1) s1)
      as (m' & s' & E' & B1 & B2 & B3 & B4 & [B5 B6 B7 B8]); try done; try congruence; try ulia.
    rewrite T4, T5, T6 in *. replace (n - (h + left)) with (n - h - left) in * by lia.
    destruct (ul_plan true g (n - h - left) rest 0 _) as [segs kk]. cbn [fst snd] in *.
    pose proof (zlen_nonneg (segs_enc true g segs)).
    destruct (same_outside_append p n m (seg_enc true g v) m' (zlen (segs_enc true g segs))) as [A1 A2];
      try done; try lia; [rewrite Hz; by replace (n - (h + left)) with (n - h - left) by lia|].
    exists m', s'. rewrite segs_enc_cons, zlen_app, A1, zlen_cons, Hz, B2.
    split; [rewrite E, E', <- !Z.add_assoc; done|]. split; [lia|]. split; [done|]. split; [done|]. split; [done|].
    destruct T3 as (? & ? & ?), B7 as (? & ? & ?). constructor; split_and?; try congruence; done.
  - destruct (Bool.bool_dec g true) as [Hg|Hg%not_true_is_false].
    2:{ rewrite Hg in *. apply Hstop; [right; right|done]. exists fr, rest. split_and!; try done. lia. }
    clear Hstop. rewrite (Z.min_r _ _ (Z.lt_le_incl _ _ Hlast)) in HT.
    destruct HT as (s1 & [T1 T2 T3 T4 T5 T6] & Hz & Hcp & Hb2 & Hz2 & E); [by right|].
    set (v := SegVal false _ _ _) in *. replace (h + (n - h)) with n in * by lia.
    destruct (loop_stop (pred fuel) (splice m p (seg_enc true g v)) (p + n) (n - n) (alloc + n) (k + 1) s1)
      as (m' & E' & B3 & B4); try done; try congruence; try lia.
    destruct (same_outside_append p n m (seg_enc true g v) m' 0) as [A1 A2]; try done; try lia; [by rewrite Hz|].
    replace (if g then _ else _) with ([v], (fr :: rest, ptx_off s + (n - h), tx_sn s)) by (by rewrite Hg).
    cbn [fst snd]. rewrite segs_enc_cons. change (segs_enc true g []) with (@nil Z). rewrite app_nil_r, Hz.
    rewrite Hz, Z.add_0_r, slice_nil, app_nil_r in A1.
    exists m', s1. split; [rewrite E; replace fuel with (S (pred fuel)) by lia; exact E'|].
    split; [lia|]. split; [done|]. split; [done|]. split; [done|]. constructor; try done. congruence.
Qed.
End Loop.

Lemma ptx_available_frames s : ptx_inv s -> ptx_available s = negb (bool_decide (ptx_frames s = [])).
Proof.
  intros _. unfold ptx_available, ptx_frames, in_progress.
  destruct (current_tx_offset s <? _); simpl; [by rewrite orb_true_r|].
  destruct (to_tx_queue s) as [|b q]; [done|]. rewrite zlen_cons. pose proof (zlen_nonneg q).
  by rewrite (proj2 (Z.eqb_neq _ 0)) by lia.
Qed.

(** What [on_tx] reports: the bytes added, and whether more are waiting. *)
Definition ptx_report (info : tx_info_t) (n : Z) (frames : list (list Z)) : tx_info_t :=
  info <| out_allocated := out_allocated info + n |>
       <| out_tx_available := negb (bool_decide (frames = [])) |>.

Lemma ptx_on_tx_spec m info s :
  let b := pdu_base (out_pdu info) in
  let n := pdu_size (out_pdu info) in
  let g := px_allow_segmentation (ptx_cfg s) in
  view_ok m b n -> n < 32768 -> ptx_inv s -> px_allow_reordering (ptx_cfg s) = true ->
  0 <= out_allocated info -> is_u64 (out_allocated info + n) ->
  let pl := ul_plan true g n (ptx_frames s) (ptx_off s) (tx_sn s) in
  let bs := segs_enc true g pl.1 in
  exists m' info' s', ptx_on_tx m info s = Ok (m', info', s') /\ same_outside b n m m' /\ bytes_ok m' /\
    if negb (is_tx_enabled s) then m' = m /\ info' = info /\ s' = s
    else if (n <? px_min_commit_size (ptx_cfg s)) || (n =? 0) || bool_decide (ptx_frames s = [])
    then m' = m /\ info' = ptx_report info 0 (ptx_frames s) /\ s' = s
    else zlen bs <= n /\ slice m' b (zlen bs) = bs /\ sent_plan s s' pl.2 /\
         info' = ptx_report info (zlen bs) (ptx_frames s').
Proof.
  intros b n g (Hm & Hu & Hb & Hn & Hl) Hn' Hi Hr Ha Hau pl bs. unfold ptx_on_tx.
  destruct (is_tx_enabled s); cbn [negb].
  2:{ exists m, info, s. done. }
  change (out_pdu (upd out_tx_available _ info)) with (out_pdu info).
  change (out_tx_available (upd out_tx_available _ info)) with (ptx_available s).
  change (out_allocated (upd out_tx_available _ info)) with (out_allocated info).
  rewrite (ptx_available_frames s Hi), negb_involutive. fold n b.
  pose proof (xi_plain _ Hi) as [-> ->]. change (pdcp_header_size _) with 0.
  assert (info <| out_tx_available := negb (bool_decide (ptx_frames s = [])) |> =
    ptx_report info 0 (ptx_frames s)) as Hnone by (unfold ptx_report, upd; cbn; by rewrite Z.add_0_r).
  rewrite (orb_comm (n <? _) (n =? 0)). destruct (Z.eqb_spec n 0) as [H0|H0]; cbn [orb];
    [exists m, (ptx_report info 0 (ptx_frames s)), s; by rewrite Hnone|].
  destruct (bool_decide (ptx_frames s = [])) eqn:Ef; cbn [orb];
    [exists m, (ptx_report info 0 (ptx_frames s)), s; rewrite orb_true_r; by rewrite Hnone|].
  rewrite (proj2 (Z.leb_gt n 0)), !orb_false_r by lia.
  destruct (n <? _) eqn:Ec; [exists m, (ptx_report info 0 (ptx_frames s)), s; by rewrite Hnone|].
  change (deref _) with (Ok b). rewrite bind_ret_l. change (pdcp_max_size _) with n.
  rewrite Z.sub_0_r, u64_id by ulia.
  destruct (loop_plan (ptx_cfg s) Hr (S (Z.to_nat n)) m b n (out_allocated info) 0 s)
    as (m' & s' & E & B1 & B2 & B3 & B4 & B5); try done; try lia.
  fold g in E, B1, B2, B5. fold pl in E, B1, B2, B5. fold bs in E, B1, B2.
  rewrite E, bind_ret_l, (ptx_available_frames s' (sp_inv _ _ _ B5)). exists m', (ptx_report info (zlen bs) (ptx_frames s')), s'.
  split; [|done]. pose proof (zlen_nonneg bs). do 3 f_equal. unfold ptx_report, upd. cbn.
  rewrite Z.add_0_r, u64_id by ulia. by destruct (0 + zlen pl.1 =? 0).
Qed.

(** ** Properties *)

(** C5: [PDCP::on_tx] refines the same plan as the other uplink. When it is
    switched on, has data and is offered the minimum commit size, it writes
    into a view below 32768 bytes the encodings of the segments of the plan,
    one after the other from the start, and reports their size; what is left to
    send and the next sequence number are those of the plan. Otherwise it
    writes nothing. No byte outside the view is touched in either case. *)
Theorem ptx_on_tx_refines m info s :
  let b := pdu_base (out_pdu info) in
  let n := pdu_size (out_pdu info) in
  let g := px_allow_segmentation (ptx_cfg s) in
  view_ok m b n -> n < 32768 -> ptx_inv s -> px_allow_reordering (ptx_cfg s) = true ->
  0 <= out_allocated info -> is_u64 (out_allocated info + n) ->
  let pl := ul_plan true g n (ptx_frames s) (ptx_off s) (tx_sn s) in
  let bs := segs_enc true g pl.1 in
  exists m' info' s', ptx_on_tx m info s = Ok (m', info', s') /\ same_outside b n m m' /\ bytes_ok m' /\
    if negb (is_tx_enabled s) then m' = m /\ info' = info /\ s' = s
    else if (n <? px_min_commit_size (ptx_cfg s)) || (n =? 0) || bool_decide (ptx_frames s = [])
    then m' = m /\ info' = ptx_report info 0 (ptx_frames s) /\ s' = s
    else zlen bs <= n /\ slice m' b (zlen bs) = bs /\ sent_plan s s' pl.2 /\
         info' = ptx_report info (zlen bs) (ptx_frames s').
Proof. exact (ptx_on_tx_spec m info s). Qed.

Definition ptx_example : ptx_t :=
  (to_tx_finish [1; 2; 3] (ptx_set_enabled true (ptx_new 1 (PtxConfig true true false 0 4)))).1.

Lemma buffer_ok_nil : buffer_ok [].
Proof. split; [constructor|vm_compute; split; congruence]. Qed.

Lemma ptx_inv_fresh lcid cfg on : ptx_inv (ptx_set_enabled on (ptx_new lcid cfg)).
Proof. constructor; cbn; try done; try lia; apply buffer_ok_nil. Qed.

Lemma ptx_inv_set_enabled on s : ptx_inv s -> ptx_inv (ptx_set_enabled on s).
Proof. intros []. constructor; cbn; try done; try lia; apply buffer_ok_nil. Qed.

Lemma ptx_inv_reconfigure cfg s : ptx_inv s -> ptx_inv (ptx_reconfigure cfg s).
Proof. intros []. constructor; cbn; try done; try lia; apply buffer_ok_nil. Qed.

Lemma ptx_inv_to_tx buffer s : ptx_inv s -> buffer_ok buffer -> ptx_inv (to_tx_finish buffer s).1.
Proof.
  intros Hi Hb. unfold to_tx_finish. destruct (_ <=? _); [done|]. destruct Hi.
  constructor; cbn; try done. apply Forall_app_2; [done|]. by constructor.
Qed.

Lemma ptx_example_inv : ptx_inv ptx_example.
Proof.
  apply ptx_inv_to_tx; [apply ptx_inv_fresh|]. split; [repeat constructor; ulia|vm_compute; split; congruence].
Qed.

Lemma ptx_on_tx_refines_witness :
  view_ok (replicate 20 0) 2 8 /\ ptx_inv ptx_example /\
  exists m' info' s', ptx_on_tx (replicate 20 0) (TxInfo 0 true false false (Pdu 2 8) 0) ptx_example = Ok (m', info', s') /\
    same_outside 2 8 (replicate 20 0) m'.
Proof.
  assert (view_ok (replicate 20 0) 2 8) as Hv by (apply view_replicate; ulia).
  split; [exact Hv|]. split; [exact ptx_example_inv|].
  destruct (ptx_on_tx_refines (replicate 20 0) (TxInfo 0 true false false (Pdu 2 8) 0) ptx_example Hv)
    as (m' & info' & s' & E & HO & _); try (vm_compute; congruence).
  - exact ptx_example_inv.
  - vm_compute. split; congruence.
  - exists m', info', s'. split; [exact E|exact HO].
Defined.

(** With segmentation the first two bytes go into a view of eight, and the
    last one into the next. *)
Example ptx_example_run :
  let info := TxInfo 0 true false false (Pdu 0 8) 0 in
  ('(m, i, s) ← ptx_on_tx (replicate 8 0) info ptx_example;
   '(m2, i2, s2) ← ptx_on_tx (replicate 8 0) info s;
   mret (m, out_allocated i, out_tx_available i, m2, out_allocated i2, out_tx_available i2)) =
  Ok ([0; 8; 0; 0; 0; 0; 1; 2], 8, true, [128; 7; 0; 0; 0; 2; 3; 0], 7, false).
Proof. vm_compute. reflexivity. Qed.

(** Without reordering [on_tx] cannot send at all: it stores the sequence
    number of the first segment through a pointer that is null because the
    segment has no such field, as soon as a frame is waiting and there is room
    for a segment header. *)
Theorem ptx_no_reordering m info s :
  let b := pdu_base (out_pdu info) in
  let n := pdu_size (out_pdu info) in
  view_ok m b n -> ptx_inv s -> px_allow_reordering (ptx_cfg s) = false ->
  is_tx_enabled s = true -> ptx_frames s <> [] -> px_min_commit_size (ptx_cfg s) <= n ->
  hdr_len false (px_allow_segmentation (ptx_cfg s)) < n ->
  ptx_on_tx m info s = Ub NullDeref.
Proof.
  intros b n (Hm & Hu & Hb & Hn & Hl) Hi Hr Hon Hf Hc Hh. unfold ptx_on_tx. rewrite Hon. cbn [negb].
  set (g := px_allow_segmentation (ptx_cfg s)) in *. pose proof (hdr_len_range false g).
  change (out_pdu (upd out_tx_available _ info)) with (out_pdu info).
  change (out_tx_available (upd out_tx_available _ info)) with (ptx_available s).
  change (out_allocated (upd out_tx_available _ info)) with (out_allocated info).
  rewrite (ptx_available_frames s Hi), bool_decide_false by done. cbn [negb]. fold n b.
  pose proof (xi_plain _ Hi) as [-> ->]. change (pdcp_header_size _) with 0.
  rewrite (proj2 (Z.eqb_neq n 0)), (proj2 (Z.ltb_ge n _)), (proj2 (Z.leb_gt n 0)) by lia. cbn [orb].
  change (deref _) with (Ok b). rewrite bind_ret_l. change (pdcp_max_size _) with n.
  rewrite Z.sub_0_r, u64_id by ulia. cbn [ptx_loop]. rewrite Hr. fold g.
  rewrite rescan_fits by (done || ulia || lia). cbn [fst]. change (seg_header_size _) with (hdr_len false g).
  by rewrite (proj2 (Z.leb_gt _ _)) by lia.
Qed.

Lemma ptx_no_reordering_witness :
  let s := (to_tx_finish [1; 2; 3] (ptx_set_enabled true (ptx_new 1 (PtxConfig true false false 0 4)))).1 in
  ptx_on_tx (replicate 20 0) (TxInfo 0 true false false (Pdu 2 8) 0) s = Ub NullDeref.
Proof.
  intros s. apply (ptx_no_reordering (replicate 20 0) (TxInfo 0 true false false (Pdu 2 8) 0) s).
  - apply (view_replicate 20 2 8); ulia.
  - apply ptx_inv_to_tx; [apply ptx_inv_fresh|]. split; [repeat constructor; ulia|vm_compute; split; congruence].
  - reflexivity.
  - reflexivity.
  - vm_compute. congruence.
  - vm_compute. congruence.
  - vm_compute. congruence.
Defined.

(** The wait of [to_tx] does not wait for room: with a full queue its
    condition holds, and the frame is refused at once. *)
Lemma to_tx_full_no_wait buffer s :
  zlen (to_tx_queue s) = px_max_tx_queue_size (ptx_cfg s) ->
  to_tx_ready s = true /\ to_tx_finish buffer s = (s, false).
Proof.
  intros E. unfold to_tx_ready, to_tx_finish. rewrite E, Z.leb_refl. done.
Qed.
