(* ===== verification/PdcpDl.v ===== *)
(** * PDCP downlink ([winject/src/pdcp/pdcp_dl.hpp], [.cpp])

    Takes PDCP byte streams apart into segments, reassembles the frames and,
    with reordering, hands them out in the order of their sequence numbers.
    Frames in progress live in a ring of slots indexed by sequence number, or
    in an overflow queue when their slot is taken.

    A reassembly buffer is a [bfc::sized_buffer] ([cpp_dependencies/bfc/sized_buffer.hpp]):
    storage of [capacity()] bytes, not initialised when allocated, and a
    logical size. A byte of storage is [None] until it is written. *)

From stdpp Require Import gmap.
From S2P Require Import Prelude Mem SafeInt SafeChecker PdcpSegment.

(** ** [bfc::sized_buffer] *)

Record sized_buffer := SizedBuffer { sb_size : Z; sb_storage : list (option Z) }.
#[export] Instance eta_sized_buffer : Eta sized_buffer := fun b => SizedBuffer (sb_size b) (sb_storage b).

Definition sb_empty : sized_buffer := SizedBuffer 0 [].
Definition sb_capacity (b : sized_buffer) : Z := zlen (sb_storage b).

Definition sb_reserve (new_capacity : Z) (b : sized_buffer) : res sized_buffer :=
  if new_capacity <=? sb_capacity b then mret b else
  if negb (sb_capacity b =? 0) && (0 <? sb_size b) then
    if sb_capacity b <? sb_size b then Ub OutOfBounds else
    mret (b <| sb_storage := slice (sb_storage b) 0 (sb_size b) ++
                replicate (Z.to_nat (new_capacity - sb_size b)) None |>)
  else mret (b <| sb_storage := replicate (Z.to_nat new_capacity) None |>).

Definition sb_resize (new_size : Z) (b : sized_buffer) : res sized_buffer :=
  b ← (if sb_capacity b <? new_size then sb_reserve new_size b else mret b);
  mret (b <| sb_size := new_size |>).

(** The buffer a move leaves behind: the size is copied, the storage taken. *)
Definition sb_moved (b : sized_buffer) : sized_buffer := b <| sb_storage := [] |>.

(** [memcpy(buffer.data() + offset, ...)] *)
Definition sb_write (b : sized_buffer) (offset : Z) (bs : list Z) : res sized_buffer :=
  if (0 <=? offset) && (offset + zlen bs <=? sb_capacity b)
  then mret (b <| sb_storage := splice (sb_storage b) offset (map Some bs) |>)
  else Ub OutOfBounds.

(** ** State *)

Record dl_config := DlConfig {
  dc_allow_segmentation : bool; dc_allow_reordering : bool; dc_reorder_size : Z }.

Inductive dl_status : Set :=
  | DL_SUCCESS | DL_INPUT_EMPTY | DL_SEGMENT_SCAN_FAILED | DL_SEGMENT_OUTSIDE_INPUT
  | DL_RESERVED_VALUE_USED.
#[export] Instance dl_status_eq_dec : EqDecision dl_status.
Proof. solve_decision. Defined.

Record reassembly_state_t := Reassembly {
  rs_buffer : sized_buffer; accumulated_size : Z; expected_size : Z;
  recvd_offsets : gset Z; has_expected_size : bool; is_complete : bool }.
#[export] Instance eta_reassembly : Eta reassembly_state_t := fun r =>
  Reassembly (rs_buffer r) (accumulated_size r) (expected_size r) (recvd_offsets r)
    (has_expected_size r) (is_complete r).

Definition reassembly_init : reassembly_state_t := Reassembly sb_empty 0 0 ∅ false false.

Record slot_t := Slot { slot_sn : Z; slot_state : reassembly_state_t; slot_valid : bool }.
#[export] Instance eta_slot : Eta slot_t := fun s => Slot (slot_sn s) (slot_state s) (slot_valid s).

Definition slot_init : slot_t := Slot 0 reassembly_init false.

Record dl_t := Dl {
  d_config : dl_config; d_status : dl_status;
  reorder_ring : list slot_t;
  overflow_deque : list (Z * reassembly_state_t);
  next_expected_sn : Z;
  completed_frames : list sized_buffer;
  outstanding_bytes : Z }.
#[export] Instance eta_dl : Eta dl_t := fun s =>
  Dl (d_config s) (d_status s) (reorder_ring s) (overflow_deque s) (next_expected_sn s)
    (completed_frames s) (outstanding_bytes s).

(** ** Operations *)

Definition fresh_ring (n : Z) : list slot_t := replicate (Z.to_nat n) slot_init.

Definition pdcp_dl (cfg : dl_config) : dl_t :=
  Dl cfg DL_SUCCESS (fresh_ring (dc_reorder_size cfg)) [] 0 [] 0.

Definition dl_reset (s : dl_t) : dl_t :=
  s <| reorder_ring := fresh_ring (dc_reorder_size (d_config s)) |>
    <| overflow_deque := [] |> <| completed_frames := [] |> <| outstanding_bytes := 0 |>
    <| d_status := DL_SUCCESS |> <| next_expected_sn := 0 |>.

Definition dl_reconfigure (cfg : dl_config) (s : dl_t) : dl_t := dl_reset (s <| d_config := cfg |>).

Definition dl_get_outstanding_packet (s : dl_t) : Z := zlen (completed_frames s).

Definition dl_pop (s : dl_t) : dl_t * sized_buffer :=
  match completed_frames s with
  | [] => (s, sb_empty)
  | rv :: rest =>
    let s := s <| completed_frames := rest |> in
    (s <| outstanding_bytes :=
        if sb_size rv <=? outstanding_bytes s then outstanding_bytes s - sb_size rv else 0 |>, rv)
  end.

Definition slot_index (sn_ : Z) (s : dl_t) : Z :=
  let len := zlen (reorder_ring s) in
  if len =? 0 then 0 else sn_ mod len.

(** Where a reassembly state lives: the pointers of the code. *)
Inductive place := InRing (idx : Z) | InOverflow (idx : nat).

(** [get_or_put_slot] *)
Definition get_or_put_slot (sn_ : Z) (s : dl_t) : dl_t * option place :=
  let idx := slot_index sn_ s in
  match reorder_ring s !! Z.to_nat idx with
  | None => (s, None)
  | Some slot =>
    if slot_valid slot && negb (slot_sn slot =? sn_) then (s, None) else
    let slot := if slot_valid slot then slot else Slot sn_ reassembly_init true in
    (s <| reorder_ring := <[Z.to_nat idx := slot]> (reorder_ring s) |>, Some (InRing idx))
  end.

(** [find_overflow] *)
Definition find_overflow (sn_ : Z) (s : dl_t) : option place :=
  (fun x => InOverflow x.1) <$> list_find (fun x : Z * reassembly_state_t => x.1 = sn_) (overflow_deque s).

Definition get_state (pl : place) (s : dl_t) : res reassembly_state_t :=
  match pl with
  | InRing idx => match reorder_ring s !! Z.to_nat idx with
                  | Some slot => mret (slot_state slot) | None => Ub OutOfBounds end
  | InOverflow idx => match overflow_deque s !! idx with
                      | Some x => mret x.2 | None => Ub OutOfBounds end
  end.

Definition put_state (pl : place) (r : reassembly_state_t) (s : dl_t) : dl_t :=
  match pl with
  | InRing idx =>
      s <| reorder_ring := alter (fun slot => slot <| slot_state := r |>) (Z.to_nat idx) (reorder_ring s) |>
  | InOverflow idx =>
      s <| overflow_deque := alter (fun x => (x.1, r)) idx (overflow_deque s) |>
  end.

(** Append a finished frame to the completed ones. *)
Definition complete_frame (r : reassembly_state_t) (s : dl_t) : dl_t :=
  s <| outstanding_bytes := u64 (outstanding_bytes s + expected_size r) |>
    <| completed_frames := completed_frames s ++ [rs_buffer r] |>.

(** [flush_completed_in_order] *)
Fixpoint flush_completed_in_order (fuel : nat) (s : dl_t) : res dl_t :=
  match fuel with
  | O => NoFuel
  | S fuel =>
    let next := next_expected_sn s in
    let idx := Z.to_nat (slot_index next s) in
    let from_overflow :=
      match list_find (fun x : Z * reassembly_state_t => x.1 = next /\ is_complete x.2)
              (overflow_deque s) with
      | Some (k, x) =>
        let s := complete_frame x.2 s in
        flush_completed_in_order fuel
          (s <| overflow_deque := delete k (overflow_deque s) |> <| next_expected_sn := u16 (next + 1) |>)
      | None => mret s
      end in
    match reorder_ring s !! idx with
    | Some slot =>
      if slot_valid slot && (slot_sn slot =? next) && is_complete (slot_state slot) then
        let s := complete_frame (slot_state slot) s in
        let moved := (slot_state slot) <| rs_buffer := sb_moved (rs_buffer (slot_state slot)) |> in
        let slot := slot <| slot_state := moved |> <| slot_valid := false |> in
        flush_completed_in_order fuel
          (s <| reorder_ring := <[idx := slot]> (reorder_ring s) |> <| next_expected_sn := u16 (next + 1) |>)
      else from_overflow
    | None => from_overflow
    end
  end.

(** Every turn of the loop frees a slot or an element of the queue. *)
Definition flush_fuel (s : dl_t) : nat := S (length (reorder_ring s) + length (overflow_deque s)).
Definition flush (s : dl_t) : res dl_t := flush_completed_in_order (flush_fuel s) s.

(** The place of the state of [sn_]: its slot, or the overflow queue. *)
Definition find_place (sn_ : Z) (s : dl_t) : dl_t * place :=
  match get_or_put_slot sn_ s with
  | (s, Some pl) => (s, pl)
  | (s, None) =>
    match find_overflow sn_ s with
    | Some pl => (s, pl)
    | None => (s <| overflow_deque := overflow_deque s ++ [(sn_, reassembly_init)] |>,
               InOverflow (length (overflow_deque s)))
    end
  end.

(** One segment's payload added to the state it belongs to: [src] is the read
    of its [payload_size] bytes, which is not done for a duplicate. *)
Definition reassemble (offset payload_size : Z) (src : res (list Z)) (last : bool)
    (st : reassembly_state_t) : res reassembly_state_t :=
  let required_size := offset + payload_size in
  b ← (if sb_capacity (rs_buffer st) <? required_size
       then sb_resize required_size (rs_buffer st) else mret (rs_buffer st));
  let st := st <| rs_buffer := b |> in
  let is_duplicate_offset := bool_decide (offset ∈ recvd_offsets st) in
  let st := st <| recvd_offsets := recvd_offsets st ∪ {[ offset ]} |> in
  st ← (if is_duplicate_offset then mret st else
        bs ← src;
        b ← sb_write (rs_buffer st) offset bs;
        mret (st <| rs_buffer := b |>
                 <| accumulated_size := u64 (accumulated_size st + payload_size) |>));
  let st := if last : bool then st <| expected_size := required_size |> <| has_expected_size := true |>
            else st in
  mret (if has_expected_size st && (accumulated_size st =? expected_size st)
        then st <| is_complete := true |> else st).

(** Without reordering a finished frame is delivered at once and its state
    given up. *)
Definition finish_unordered (sn_ : Z) (pl : place) (st : reassembly_state_t) (s : dl_t) : dl_t :=
  let s := complete_frame st s in
  let s := put_state pl reassembly_init s in
  match pl with
  | InOverflow _ =>
    match list_find (fun x : Z * reassembly_state_t => x.1 = sn_) (overflow_deque s) with
    | Some (k, _) => s <| overflow_deque := delete k (overflow_deque s) |>
    | None => s
    end
  | InRing _ =>
    let idx := Z.to_nat (slot_index sn_ s) in
    match reorder_ring s !! idx with
    | Some slot =>
      if slot_sn slot =? sn_
      then s <| reorder_ring := <[idx := slot <| slot_valid := false |>]> (reorder_ring s) |> else s
    | None => s
    end
  end.

(** The part of the loop body behind the checks: one segment delivered. The
    condition is tested on the state just updated, so a frame that was
    complete before and got a duplicate is complete again. *)
Definition deliver (sn_ offset payload_size : Z) (src : res (list Z)) (last : bool) (s : dl_t)
    : res dl_t :=
  let '(s, pl) := find_place sn_ s in
  st ← get_state pl s;
  st ← reassemble offset payload_size src last st;
  let s := put_state pl st s in
  mret (if has_expected_size st && (accumulated_size st =? expected_size st) &&
           negb (dc_allow_reordering (d_config s))
        then finish_unordered sn_ pl st s else s).

(** The [while] loop of [on_pdcp_data]. *)
Fixpoint dl_loop (fuel : nat) (m : list Z) (cursor available_data : Z) (s : dl_t) : res (dl_t * bool) :=
  match fuel with
  | O => NoFuel
  | S fuel =>
    if available_data =? 0 then mret (s, true) else
    let cfg := d_config s in
    let segment := (rescan (segment_make cursor available_data
                             (dc_allow_reordering cfg) (dc_allow_segmentation cfg))).1 in
    if negb (seg_is_header_valid segment) then mret (s <| d_status := DL_SEGMENT_SCAN_FAILED |>, false) else
    total_size ← seg_get_SIZE m segment;
    if available_data <? total_size then mret (s <| d_status := DL_SEGMENT_OUTSIDE_INPUT |>, false) else
    payload_size ← seg_get_payload_size m segment;
    if payload_size =? 0 then mret (s <| d_status := DL_RESERVED_VALUE_USED |>, false) else
    sn_ ← (if dc_allow_reordering cfg then seg_get_SN m segment else mret 0);
    offset_ ← (if dc_allow_segmentation cfg then seg_get_OFFSET m segment else mret 0);
    last ← seg_is_LAST m segment;
    s ← deliver sn_ offset_ payload_size (q ← deref (payload segment); rd_n m q payload_size) last s;
    dl_loop fuel m (cursor + total_size) (u64 (available_data - total_size)) s
  end.

(** [on_pdcp_data] on the view [(b, n)] of [m]. Every segment that is accepted
    is at least as long as its header, so [n + 1] turns are enough, unless a
    segment declares the size 0 (see [dl_zero_size]). *)
Definition on_pdcp_data (m : list Z) (b n : Z) (s : dl_t) : res (dl_t * bool) :=
  if n =? 0 then mret (s <| d_status := DL_INPUT_EMPTY |>, false) else
  '(s, ok) ← dl_loop (S (Z.to_nat n)) m b n s;
  if negb (ok : bool) then mret (s, false) else
  if dc_allow_reordering (d_config s) then s ← flush s; mret (s, true) else mret (s, true).

(** ** Parsing: a stream of segments is delivered one by one *)

Fixpoint deliver_all (segs : list seg_val) (s : dl_t) : res dl_t :=
  match segs with
  | [] => mret s
  | v :: segs =>
    let r := dc_allow_reordering (d_config s) in
    let g := dc_allow_segmentation (d_config s) in
    s ← deliver (if r then v_sn v else 0) (if g then v_off v else 0) (zlen (v_data v))
          (Ok (v_data v)) (v_last v) s;
    deliver_all segs s
  end.

Lemma d_config_put_state pl r s : d_config (put_state pl r s) = d_config s.
Proof. by destruct pl. Qed.

Lemma find_place_config sn_ s : d_config (find_place sn_ s).1 = d_config s.
Proof.
  unfold find_place, get_or_put_slot. repeat case_match; simplify_eq; try done.
Qed.

Lemma deliver_config sn_ off n src last s s' :
  deliver sn_ off n src last s = Ok s' -> d_config s' = d_config s.
Proof.
  unfold deliver. pose proof (find_place_config sn_ s) as Hc.
  destruct (find_place sn_ s) as [s1 pl]. simpl in Hc. intros H. inv_res.
  destruct (_ && _ && _); [|by rewrite d_config_put_state].
  unfold finish_unordered. destruct pl; repeat case_match; done.
Qed.

(** [flush] does not touch the configuration. *)
Lemma flush_config fuel s s' : flush_completed_in_order fuel s = Ok s' -> d_config s' = d_config s.
Proof.
  revert s. induction fuel as [|fuel IH]; intros s; [done|]. simpl.
  repeat case_match; intros H'; try (apply IH in H'; exact H'); by inv_res.
Qed.

Lemma dl_loop_segs fuel m p segs s :
  let r := dc_allow_reordering (d_config s) in
  let g := dc_allow_segmentation (d_config s) in
  segs_ok r g segs -> segs_at m p r g segs -> (length segs < fuel)%nat ->
  dl_loop fuel m p (zlen (segs_enc r g segs)) s = (s' ← deliver_all segs s; mret (s', true)).
Proof.
  revert fuel p s. induction segs as [|v segs IH]; intros [|fuel] p s r g Hok Hat Hf;
    [simpl in Hf; lia|done|simpl in Hf; lia|].
  pose proof (segs_head m p r g v segs Hok Hat) as [H1 H2 H3 H4 H5 H6 H7 H8 H9 H10 H11].
  apply Forall_cons_1 in Hok as [_ Hok]. pose proof (hdr_len_range r g).
  pose proof (zlen_nonneg (segs_enc r g segs)).
  cbn [dl_loop]. rewrite (proj2 (Z.eqb_neq _ 0)) by lia. fold r g. rewrite H3.
  unfold seg_is_header_valid. change (seg_header_size _) with (hdr_len r g).
  change (max_size (scanned p ?n r g)) with n. rewrite (proj2 (Z.leb_le _ _)) by (simpl; lia). cbn [negb].
  rewrite H4, bind_ret_l, (proj2 (Z.ltb_ge _ _)) by lia.
  rewrite H5, bind_ret_l, (proj2 (Z.eqb_neq _ 0)) by lia.
  rewrite H7, bind_ret_l, H8, bind_ret_l, H6, bind_ret_l, H9.
  cbn [deliver_all]. fold r g. rewrite bind_assoc.
  destruct (deliver _ _ _ _ _ s) as [s'| | |] eqn:E; try done. rewrite !bind_ret_l.
  apply deliver_config in E. rewrite H10.
  unfold r, g in *. rewrite <- E in *. apply IH; try done. simpl in Hf. lia.
Qed.

Lemma deliver_all_config segs s s' : deliver_all segs s = Ok s' -> d_config s' = d_config s.
Proof.
  revert s. induction segs as [|v segs IH]; intros s H; simpl in H; [by inv_res|].
  inv_res. apply deliver_config in E. apply IH in H. congruence.
Qed.

Lemma on_pdcp_data_segs m b segs s :
  let r := dc_allow_reordering (d_config s) in
  let g := dc_allow_segmentation (d_config s) in
  segs <> [] -> segs_ok r g segs -> 0 <= b -> b + zlen (segs_enc r g segs) <= zlen m ->
  is_u64 (zlen m) -> slice m b (zlen (segs_enc r g segs)) = segs_enc r g segs ->
  on_pdcp_data m b (zlen (segs_enc r g segs)) s =
  (s ← deliver_all segs s; s ← (if r then flush s else mret s); mret (s, true)).
Proof.
  intros r g Hne Hok Hb Hl Hu Hs. unfold on_pdcp_data.
  pose proof (segs_enc_length r g segs) as Hlen.
  rewrite (proj2 (Z.eqb_neq _ 0)) by (destruct segs; [done|simpl length in Hlen; lia]).
  pose proof (dl_loop_segs (S (Z.to_nat (zlen (segs_enc r g segs)))) m b segs s) as HL.
  cbv zeta in HL. fold r g in HL. rewrite HL by (try done; lia). clear HL. rewrite bind_assoc.
  destruct (deliver_all segs s) as [s1| | |] eqn:E; try done. rewrite !bind_ret_l. cbn [negb].
  apply deliver_all_config in E. rewrite E. fold r. by destruct r.
Qed.

(** ** Reassembly *)

(** The bytes of storage that have been written. *)
Fixpoint filled (l : list (option Z)) : Z :=
  match l with
  | [] => 0
  | x :: l => (match x with Some _ => 1 | None => 0 end) + filled l
  end.

Lemma filled_app l k : filled (l ++ k) = filled l + filled k.
Proof. induction l as [|x l IH]; simpl; [done|]. lia. Qed.
Lemma filled_le l : 0 <= filled l <= zlen l.
Proof. induction l as [|[x|] l IH]; rewrite ?zlen_cons; simpl; [done|lia|lia]. Qed.
Lemma filled_none n : filled (replicate n None) = 0.
Proof. induction n; simpl; [done|lia]. Qed.
Lemma filled_some (l : list Z) : filled (map Some l) = zlen l.
Proof. induction l; simpl; rewrite ?zlen_cons; [done|lia]. Qed.

Lemma filled_all l : filled l = zlen l <-> forall p, (p < length l)%nat -> exists b, l !! p = Some (Some b).
Proof.
  induction l as [|x l IH].
  - split; [intros _ p Hp; simpl in Hp; lia|done].
  - rewrite zlen_cons. simpl filled. pose proof (filled_le l) as Hle. split.
    + intros H p Hp. destruct x as [b|]; [|lia]. destruct p as [|p]; [by exists b|].
      apply IH; [lia|simpl in Hp; lia].
    + intros H. destruct (H O) as [b Hb]; [simpl; lia|]. simpl in Hb. injection Hb as ->.
      enough (filled l = zlen l) by lia. apply IH. intros p Hp. apply (H (S p)). simpl. lia.
Qed.

(** Writing where nothing was written before. *)
Lemma filled_splice l i (bs : list Z) :
  0 <= i -> i + zlen bs <= zlen l ->
  (forall p, (Z.to_nat i <= p < Z.to_nat i + length bs)%nat -> l !! p = Some None) ->
  filled (splice l i (map Some bs)) = filled l + zlen bs.
Proof.
  intros Hi Hl Hn. unfold splice. rewrite !filled_app, filled_some, length_map.
  rewrite <- (take_drop (Z.to_nat i) l) at 3. rewrite filled_app.
  rewrite <- (take_drop (length bs) (drop (Z.to_nat i) l)) at 1. rewrite filled_app, drop_drop.
  assert (take (length bs) (drop (Z.to_nat i) l) = replicate (length bs) None) as ->.
  { apply list_eq. intros k. rewrite lookup_take, lookup_drop.
    case_decide; [|symmetry; apply lookup_ge_None; rewrite length_replicate; lia].
    rewrite Hn by lia. symmetry. by apply lookup_replicate_2. }
  rewrite filled_none. lia.
Qed.

(** How a frame is cut into segments: the segments carry the bytes of the
    frame from their offset on, do not overlap, and cover the frame; exactly
    the one that reaches its end is marked LAST. *)
Record cuts (F : list Z) (segs : list seg_val) : Prop := Cuts {
  ct_in : forall v, v ∈ segs -> 0 <= v_off v /\ v_data v <> [] /\ v_off v + zlen (v_data v) <= zlen F;
  ct_data : forall v, v ∈ segs -> v_data v = slice F (v_off v) (zlen (v_data v));
  ct_last : forall v, v ∈ segs -> v_last v = (v_off v + zlen (v_data v) =? zlen F);
  ct_disj : forall v w, v ∈ segs -> w ∈ segs -> v = w \/ v_off v + zlen (v_data v) <= v_off w \/
    v_off w + zlen (v_data w) <= v_off v;
  ct_cover : forall p, 0 <= p < zlen F -> exists v, v ∈ segs /\ v_off v <= p < v_off v + zlen (v_data v) }.

Definition covered (segs : list seg_val) (R : gset Z) (p : Z) : Prop :=
  exists v, v ∈ segs /\ v_off v ∈ R /\ v_off v <= p < v_off v + zlen (v_data v).

Lemma data_pos v : v_data v <> [] -> 1 <= zlen (v_data v).
Proof. intros. destruct (v_data v); [done|zlia]. Qed.

Lemma cuts_same F segs v w : cuts F segs -> v ∈ segs -> w ∈ segs -> v_off v = v_off w -> v = w.
Proof.
  intros C Hv Hw E. destruct (ct_disj _ _ C v w Hv Hw) as [?|H]; [done|].
  destruct (ct_in _ _ C v Hv) as (_ & H1%data_pos & _).
  destruct (ct_in _ _ C w Hw) as (_ & H2%data_pos & _). lia.
Qed.

(** [reasm F segs R st]: the state [st] has received the segments of [F] at
    the offsets [R], and nothing else. *)
Record reasm (F : list Z) (segs : list seg_val) (R : gset Z) (st : reassembly_state_t) : Prop := Reasm {
  ra_recvd : recvd_offsets st = R;
  ra_sub : forall o, o ∈ R -> exists v, v ∈ segs /\ v_off v = o;
  ra_size : sb_size (rs_buffer st) = sb_capacity (rs_buffer st);
  ra_cap : sb_capacity (rs_buffer st) <= zlen F;
  ra_bytes : forall p b, sb_storage (rs_buffer st) !! p = Some (Some b) -> F !! p = Some b;
  ra_filled : forall p, (exists b, sb_storage (rs_buffer st) !! Z.to_nat p = Some (Some b)) /\ 0 <= p <->
    covered segs R p;
  ra_count : accumulated_size st = filled (sb_storage (rs_buffer st));
  ra_expected : has_expected_size st = true <-> exists v, v ∈ segs /\ v_off v ∈ R /\ v_last v = true;
  ra_value : has_expected_size st = true ->
    expected_size st = zlen F /\ sb_capacity (rs_buffer st) = zlen F;
  ra_complete : is_complete st = has_expected_size st && (accumulated_size st =? expected_size st) }.

Lemma covered_empty segs p : ~ covered segs ∅ p.
Proof. intros (v & _ & H & _). by apply elem_of_empty in H. Qed.

Lemma reasm_init F segs : reasm F segs ∅ reassembly_init.
Proof.
  constructor; simpl; try done.
  - apply zlen_nonneg.
  - intros p. split; [intros [[b Hb] _]; by destruct (Z.to_nat p)|].
    intros H. by apply covered_empty in H.
  - split; [done|]. intros (v & _ & H & _). by apply elem_of_empty in H.
Qed.

(** A buffer whose size is its capacity grows by uninitialised bytes. *)
Lemma sb_grow n b :
  sb_size b = sb_capacity b -> 0 <= n ->
  (if sb_capacity b <? n then sb_resize n b else mret b) =
  Ok (SizedBuffer (Z.max n (sb_capacity b))
        (sb_storage b ++ replicate (Z.to_nat (n - sb_capacity b)) None)).
Proof.
  intros Hs Hn. destruct b as [sz st]. unfold sb_resize, sb_reserve, sb_capacity, upd in *.
  cbn [sb_size sb_storage] in *. subst sz. destruct (Z.ltb_spec (zlen st) n) as [Hlt|Hge].
  - rewrite (proj2 (Z.leb_gt _ _)) by lia. rewrite Z.max_l by lia.
    destruct (Z.eqb_spec (zlen st) 0) as [H0|H0]; cbn [negb andb].
    + rewrite H0, Z.sub_0_r. assert (st = []) as -> by (destruct st; [done|zlia]). done.
    + pose proof (zlen_nonneg st). rewrite (proj2 (Z.ltb_lt 0 _)) by lia.
      rewrite (proj2 (Z.ltb_ge _ _)) by lia. unfold mret, res_ret. rewrite bind_ret_l.
      by rewrite slice_all.
  - rewrite Z.max_r by lia. replace (Z.to_nat (n - zlen st)) with 0%nat by lia.
    by rewrite app_nil_r.
Qed.

Lemma lookup_grow {A} (l : list (option A)) n (p : nat) b :
  (l ++ replicate n None) !! p = Some (Some b) <-> l !! p = Some (Some b).
Proof.
  destruct (decide (p < length l)%nat) as [H|H].
  - by rewrite lookup_app_l.
  - rewrite lookup_app_r by lia. rewrite (proj2 (lookup_ge_None l p)) by lia. split; [|done].
    intros [? _]%lookup_replicate_1. done.
Qed.

Section Reassemble.
Context (F : list Z) (segs : list seg_val) (C : cuts F segs) (HF : is_u64 (zlen F)).

Lemma covered_union R o p :
  covered segs (R ∪ {[ o ]}) p <->
  covered segs R p \/ exists v, v ∈ segs /\ v_off v = o /\ v_off v <= p < v_off v + zlen (v_data v).
Proof.
  unfold covered. split.
  - intros (v & Hv & [H|H%elem_of_singleton]%elem_of_union & ?); [left|right]; eauto.
  - intros [(v & Hv & H & ?)|(v & Hv & H & ?)]; exists v;
      (split; [done|]; split; [apply elem_of_union|done]); [by left|right; by apply elem_of_singleton].
Qed.

(** A segment some byte of which is covered has been received. *)
Lemma covered_recvd R v p :
  v ∈ segs -> v_off v <= p < v_off v + zlen (v_data v) -> covered segs R p -> v_off v ∈ R.
Proof.
  intros Hv Hp (w & Hw & HR & Hwp). destruct (ct_disj _ _ C v w Hv Hw) as [->|?]; [done|lia].
Qed.

Lemma reasm_recvd_cap R st v :
  reasm F segs R st -> v ∈ segs -> v_off v ∈ R -> v_off v + zlen (v_data v) <= sb_capacity (rs_buffer st).
Proof.
  intros H Hv HR. destruct (ct_in _ _ C v Hv) as (Ho & Hp%data_pos & _).
  assert (covered segs R (v_off v + zlen (v_data v) - 1)) as Hcov by (exists v; split_and!; try done; lia).
  apply (ra_filled _ _ _ _ H) in Hcov as [[b Hb] _]. apply lookup_lt_Some in Hb.
  unfold sb_capacity. zlia.
Qed.

(** A frame is complete exactly when all its segments have been received,
    and then the storage is the frame. *)
Lemma reasm_complete R st :
  reasm F segs R st -> segs <> [] ->
  (is_complete st = true <-> forall v, v ∈ segs -> v_off v ∈ R) /\
  (is_complete st = true -> rs_buffer st = SizedBuffer (zlen F) (map Some F) /\ expected_size st = zlen F).
Proof.
  intros H Hne. pose proof H as [H1 H2 H3 H4 H5 H6 H7 H8 H9 H10]. rewrite H10.
  pose proof (filled_le (sb_storage (rs_buffer st))) as Hfl.
  assert (has_expected_size st && (accumulated_size st =? expected_size st) = true ->
    sb_capacity (rs_buffer st) = zlen F /\ expected_size st = zlen F /\
    filled (sb_storage (rs_buffer st)) = zlen (sb_storage (rs_buffer st))) as HX.
  { intros [Hh Ha%Z.eqb_eq]%andb_prop. destruct (H9 Hh) as [E1 E2]. unfold sb_capacity in *. lia. }
  split; [split|].
  - intros (HE & _ & HF')%HX v Hv. destruct (ct_in _ _ C v Hv) as (Ho & Hp%data_pos & Hl).
    apply (covered_recvd R v (v_off v)); [done|lia|]. apply H6. split; [|done].
    apply (proj1 (filled_all _) HF'). unfold sb_capacity in *. zlia.
  - intros Hall.
    assert (1 <= zlen F) as HF1.
    { destruct segs as [|v l] eqn:E; [done|]. destruct (ct_in _ _ C v) as (Ho & Hp%data_pos & Hl);
        [apply list_elem_of_here|lia]. }
    destruct (ct_cover _ _ C (zlen F - 1)) as (v & Hv & Hvp); [lia|].
    destruct (ct_in _ _ C v Hv) as (Ho & Hp%data_pos & Hl).
    assert (has_expected_size st = true) as Hh.
    { apply H8. exists v. split_and!; auto. rewrite (ct_last _ _ C v Hv). apply Z.eqb_eq. lia. }
    destruct (H9 Hh) as [E1 E2]. rewrite Hh, H7, E1. apply Z.eqb_eq. rewrite <- E2. apply filled_all.
    intros p Hp'. destruct (ct_cover _ _ C (Z.of_nat p)) as (w & Hw & Hwp);
      [unfold sb_capacity in *; zlia|].
    assert (covered segs R (Z.of_nat p)) as Hcov by (exists w; auto).
    apply H6 in Hcov as [Hb _]. by rewrite Nat2Z.id in Hb.
  - intros (E1 & E2 & E3)%HX. split; [|done].
    destruct (rs_buffer st) as [sz sto] eqn:Eb. unfold sb_capacity in *. cbn in *. subst sz. rewrite E1.
    f_equal. apply list_eq. intros p. rewrite list_lookup_fmap.
    destruct (decide (p < length sto)%nat) as [Hp|Hp].
    + destruct (proj1 (filled_all _) E3 p Hp) as [b Hb]. rewrite Hb. by rewrite (H5 p b Hb).
    + rewrite !(proj2 (lookup_ge_None _ _)); [done|zlia|lia].
Qed.

(** A duplicate changes nothing. *)
Lemma reassemble_dup R st v src :
  v ∈ segs -> reasm F segs R st -> v_off v ∈ R ->
  reassemble (v_off v) (zlen (v_data v)) src (v_last v) st = Ok st.
Proof.
  intros Hv H HR. pose proof H as [H1 H2 H3 H4 H5 H6 H7 H8 H9 H10].
  destruct (ct_in _ _ C v Hv) as (Ho & Hp%data_pos & Hl).
  pose proof (reasm_recvd_cap R st v H Hv HR) as Hcap.
  unfold reassemble. rewrite sb_grow by (done || lia). rewrite bind_ret_l, Z.max_r by lia.
  replace (Z.to_nat (_ - _)) with 0%nat by lia. rewrite app_nil_r.
  destruct st as [[sz sto] acc exp rcv hase compl]. unfold upd, sb_capacity in *. cbn in *. subst sz rcv.
  rewrite bool_decide_true by done. unfold mret, res_ret. rewrite bind_ret_l.
  rewrite (comm_L (∪)), subseteq_union_1_L by (by apply singleton_subseteq_l).
  destruct (v_last v) eqn:EL; cbn.
  - assert (hase = true) as -> by (apply H8; eauto). destruct H9 as [E1 E2]; [done|].
    pose proof (ct_last _ _ C v Hv) as HL. rewrite EL in HL. symmetry in HL. apply Z.eqb_eq in HL.
    rewrite HL, <- E1. cbn in H10. rewrite H10. cbn. by destruct (acc =? exp).
  - rewrite H10. by destruct (hase && _).
Qed.

(** A new segment: what the state becomes. *)
Definition reasm_add (R : gset Z) (st : reassembly_state_t) (v : seg_val) : reassembly_state_t :=
  let req := v_off v + zlen (v_data v) in
  let cap := sb_capacity (rs_buffer st) in
  let acc := accumulated_size st + zlen (v_data v) in
  let exp := if v_last v then req else expected_size st in
  let hase := v_last v || has_expected_size st in
  Reassembly (SizedBuffer (Z.max req cap)
      (splice (sb_storage (rs_buffer st) ++ replicate (Z.to_nat (req - cap)) None) (v_off v)
         (map Some (v_data v))))
    acc exp (R ∪ {[ v_off v ]}) hase (hase && (acc =? exp)).

Lemma zlen_map {A B} (f : A -> B) l : zlen (map f l) = zlen l.
Proof. unfold zlen. by rewrite length_map. Qed.

Section New.
Context (R : gset Z) (st : reassembly_state_t) (v : seg_val).
Context (Hv : v ∈ segs) (H : reasm F segs R st) (HR : v_off v ∉ R).
Let req := v_off v + zlen (v_data v).
Let cap := sb_capacity (rs_buffer st).
Let grown := sb_storage (rs_buffer st) ++ replicate (Z.to_nat (req - cap)) (@None Z).

Lemma new_bounds : 0 <= v_off v /\ 1 <= zlen (v_data v) /\ req <= zlen F /\ 0 <= cap <= zlen F.
Proof.
  destruct (ct_in _ _ C v Hv) as (Ho & Hp%data_pos & Hl).
  pose proof (ra_cap _ _ _ _ H). pose proof (zlen_nonneg (sb_storage (rs_buffer st))).
  unfold req, cap, sb_capacity in *. lia.
Qed.

Lemma zlen_grown : zlen grown = Z.max req cap.
Proof.
  pose proof new_bounds. unfold grown. rewrite zlen_app, zlen_replicate.
  change (zlen (sb_storage (rs_buffer st))) with cap. lia.
Qed.

Lemma new_unfilled p :
  (Z.to_nat (v_off v) <= p < Z.to_nat (v_off v) + length (v_data v))%nat -> grown !! p = Some None.
Proof.
  intros Hp. pose proof new_bounds as (B1 & B2 & B3 & B4). pose proof zlen_grown as Hg.
  destruct (lookup_lt_is_Some_2 grown p) as [[b|] Hb]; [unfold req, zlen in *; lia| |done].
  exfalso. apply HR. apply lookup_grow in Hb.
  apply (covered_recvd R v (Z.of_nat p)); [done|unfold zlen in *; lia|].
  apply (ra_filled _ _ _ _ H). rewrite Nat2Z.id. split; [by exists b|lia].
Qed.

Lemma new_count :
  filled (splice grown (v_off v) (map Some (v_data v))) = accumulated_size st + zlen (v_data v).
Proof.
  pose proof new_bounds. rewrite filled_splice; [|lia|rewrite zlen_grown; unfold req; lia|apply new_unfilled].
  unfold grown. rewrite filled_app, filled_none, (ra_count _ _ _ _ H). lia.
Qed.

Lemma new_lookup p b :
  splice grown (v_off v) (map Some (v_data v)) !! p = Some (Some b) <->
  ((Z.to_nat (v_off v) <= p < Z.to_nat (v_off v) + length (v_data v))%nat /\
     v_data v !! (p - Z.to_nat (v_off v))%nat = Some b) \/
  sb_storage (rs_buffer st) !! p = Some (Some b).
Proof.
  pose proof new_bounds as (B1 & B2 & B3 & B4).
  rewrite lookup_splice; [|lia|rewrite zlen_map, zlen_grown; unfold req; lia].
  rewrite length_map. case_decide as Hd.
  - rewrite list_lookup_fmap. pose proof (new_unfilled p Hd) as Hn. split.
    + intros Hx. left. split; [done|]. destruct (v_data v !! _); [by injection Hx as ->|done].
    + intros [[_ ->]|Hx]; [done|]. apply (lookup_grow _ (Z.to_nat (req - cap))) in Hx.
      fold grown in Hx. congruence.
  - unfold grown. rewrite lookup_grow. split; [by right|]. by intros [[? _]|?].
Qed.

Lemma reassemble_new :
  reassemble (v_off v) (zlen (v_data v)) (Ok (v_data v)) (v_last v) st = Ok (reasm_add R st v).
Proof.
  pose proof new_bounds as (B1 & B2 & B3 & B4). pose proof new_count as Hcnt.
  pose proof (filled_le (splice grown (v_off v) (map Some (v_data v)))) as Hle.
  rewrite zlen_splice, zlen_grown in Hle by (rewrite ?zlen_map, ?zlen_grown; unfold req; lia).
  assert (accumulated_size st + zlen (v_data v) <= zlen F /\ 0 <= accumulated_size st) as Hacc.
  { rewrite (ra_count _ _ _ _ H) in *. pose proof (filled_le (sb_storage (rs_buffer st))). lia. }
  assert (is_complete st = false) as Hc.
  { destruct (is_complete st) eqn:E; [|done]. exfalso. apply HR.
    apply (reasm_complete R st H); [by intros ->; apply elem_of_nil in Hv|done|done]. }
  unfold reassemble. rewrite sb_grow; [|apply (ra_size _ _ _ _ H)|lia].
  rewrite bind_ret_l. unfold upd. cbn [rs_buffer recvd_offsets accumulated_size expected_size
    has_expected_size is_complete].
  rewrite (ra_recvd _ _ _ _ H). rewrite bool_decide_false by done. rewrite bind_ret_l.
  unfold sb_write. unfold sb_capacity at 1. cbn [sb_storage sb_size]. fold req cap grown.
  rewrite zlen_grown. rewrite (proj2 (Z.leb_le 0 _)) by lia.
  rewrite (proj2 (Z.leb_le req _)) by lia. unfold upd. cbn [andb sb_storage sb_size]. unfold mret, res_ret.
  rewrite !bind_ret_l. rewrite u64_id by ulia. unfold reasm_add. fold req cap grown.
  destruct (v_last v); cbn [orb]; rewrite Hc.
  - destruct (_ =? req) eqn:E; cbn; rewrite E; done.
  - destruct (has_expected_size st && _) eqn:E; cbn in *; rewrite E; done.
Qed.

Lemma new_reasm : reasm F segs (R ∪ {[ v_off v ]}) (reasm_add R st v).
Proof.
  pose proof new_bounds as (B1 & B2 & B3 & B4). pose proof zlen_grown as Hg.
  pose proof H as [H1 H2 H3 H4 H5 H6 H7 H8 H9 H10].
  assert (zlen (splice grown (v_off v) (map Some (v_data v))) = Z.max req cap) as Hz.
  { rewrite zlen_splice; [done|lia|]. rewrite zlen_map, Hg. unfold req. lia. }
  pose proof (ct_last _ _ C v Hv) as HL. fold req in HL.
  constructor; unfold reasm_add; cbn [rs_buffer accumulated_size expected_size recvd_offsets
    has_expected_size is_complete sb_size sb_storage]; fold req cap grown; unfold sb_capacity;
    cbn [sb_storage]; try done.
  - intros o [Ho| ->%elem_of_singleton]%elem_of_union; [by apply H2|by exists v].
  - rewrite Hz. lia.
  - intros p b [[Hp Hb]|Hb]%new_lookup; [|by apply H5].
    rewrite (ct_data _ _ C v Hv) in Hb. rewrite lookup_slice in Hb. case_decide; [|done].
    rewrite <- Hb. f_equal. lia.
  - intros p. rewrite covered_union. split.
    + intros [[b Hb] Hp]. apply new_lookup in Hb as [[Hp' Hb]|Hb].
      * right. exists v. unfold zlen. split; [done|]. split; [done|lia].
      * left. apply H6. split; [by exists b|done].
    + intros [Hcov|(w & Hw & Ho & Hp)].
      * apply H6 in Hcov as [[b Hb] Hp]. split; [|done]. exists b. apply new_lookup. by right.
      * pose proof (cuts_same _ _ _ _ C Hw Hv Ho) as ->. split; [|lia].
        destruct (lookup_lt_is_Some_2 (v_data v) (Z.to_nat p - Z.to_nat (v_off v))) as [b Hb];
          [unfold zlen in *; lia|].
        exists b. apply new_lookup. left. split; [unfold zlen in *; lia|done].
  - symmetry. apply new_count.
  - rewrite orb_true_iff, H8. split.
    + intros [Hl|(w & Hw & HwR & Hl)]; [exists v|exists w]; (split; [done|]; split; [|done]);
        apply elem_of_union; [right; by apply elem_of_singleton|by left].
    + intros (w & Hw & [HwR|Ho%elem_of_singleton]%elem_of_union & Hl); [right; eauto|left].
      by rewrite <- (cuts_same _ _ _ _ C Hw Hv Ho).
  - intros Hh. rewrite Hz. destruct (v_last v) eqn:EL.
    + symmetry in HL. apply Z.eqb_eq in HL. lia.
    + destruct (H9 Hh) as [E1 E2]. fold cap in E2. lia.
Qed.
End New.

Lemma reassemble_reasm R st v :
  v ∈ segs -> reasm F segs R st ->
  exists st', reassemble (v_off v) (zlen (v_data v)) (Ok (v_data v)) (v_last v) st = Ok st' /\
    reasm F segs (R ∪ {[ v_off v ]}) st'.
Proof.
  intros Hv H. destruct (decide (v_off v ∈ R)) as [HR|HR].
  - exists st. split; [by eapply reassemble_dup|].
    rewrite (comm_L (∪)), subseteq_union_1_L by (by apply singleton_subseteq_l). done.
  - exists (reasm_add R st v). split; [by apply reassemble_new|by apply new_reasm].
Qed.
End Reassemble.

(** ** Properties *)

(** A stream of well-formed segments lying in the input is taken apart
    exactly: [on_pdcp_data] delivers the segments one by one in their order,
    flushes the frames that became complete if reordering is on, and accepts. *)
Theorem on_pdcp_data_parses m b segs s :
  let r := dc_allow_reordering (d_config s) in
  let g := dc_allow_segmentation (d_config s) in
  segs <> [] -> segs_ok r g segs -> 0 <= b -> b + zlen (segs_enc r g segs) <= zlen m ->
  is_u64 (zlen m) -> slice m b (zlen (segs_enc r g segs)) = segs_enc r g segs ->
  on_pdcp_data m b (zlen (segs_enc r g segs)) s =
  (s ← deliver_all segs s; s ← (if r then flush s else mret s); mret (s, true)).
Proof. intros. by apply on_pdcp_data_segs. Qed.

Lemma on_pdcp_data_parses_witness :
  let segs := [SegVal true 1 0 [9]; SegVal true 0 0 [7; 8]] in
  let s := pdcp_dl (DlConfig true true 4) in
  segs_enc true true segs = [128; 7; 0; 1; 0; 0; 9; 128; 8; 0; 0; 0; 0; 7; 8] /\
  (x ← on_pdcp_data (segs_enc true true segs) 0 15 s; mret (completed_frames x.1, x.2)) =
    Ok ([SizedBuffer 2 [Some 7; Some 8]; SizedBuffer 1 [Some 9]], true).
Proof.
  intros segs s. split; [vm_compute; reflexivity|].
  refine (eq_trans (f_equal (fun r => x ← r; mret (completed_frames x.1, x.2))
    (on_pdcp_data_parses (segs_enc true true segs) 0 segs s _ _ _ _ _ _)) _).
  - done.
  - repeat constructor; try done; vm_compute; congruence.
  - lia.
  - vm_compute. congruence.
  - vm_compute. split; congruence.
  - vm_compute. reflexivity.
  - vm_compute. reflexivity.
Defined.

Lemma dl_loop_first m b n s :
  0 <= b -> is_u64 (b + n) -> hdr_len (dc_allow_reordering (d_config s)) (dc_allow_segmentation (d_config s)) <= n ->
  forall size_, 0 <= size_ < 32768 -> ld_be16 m b = Ok size_ ->
  (n < size_ -> forall fuel, dl_loop (S fuel) m b n s = Ok (s <| d_status := DL_SEGMENT_OUTSIDE_INPUT |>, false)) /\
  (size_ = hdr_len (dc_allow_reordering (d_config s)) (dc_allow_segmentation (d_config s)) ->
   forall fuel, dl_loop (S fuel) m b n s = Ok (s <| d_status := DL_RESERVED_VALUE_USED |>, false)).
Proof.
  intros Hb Hu Hh sz Hsz Hld. set (r := dc_allow_reordering _) in *. set (g := dc_allow_segmentation _) in *.
  pose proof (hdr_len_range r g).
  assert (seg_get_SIZE m (scanned b n r g) = Ok sz) as HS.
  { unfold seg_get_SIZE. cbn [size scanned]. rewrite Hld. cbn. unfold mret, res_ret.
    rewrite land_7FFF. f_equal. lia. }
  split; intros Hc fuel; cbn [dl_loop]; rewrite (proj2 (Z.eqb_neq n 0)) by lia; fold r g;
    (rewrite rescan_fits; [|done|done|done]); cbn [fst]; unfold seg_is_header_valid;
    change (seg_header_size _) with (hdr_len r g); change (max_size _) with n;
    rewrite (proj2 (Z.leb_le _ _)) by lia; cbn [negb]; rewrite HS, bind_ret_l.
  - by rewrite (proj2 (Z.ltb_lt _ _)) by lia.
  - rewrite (proj2 (Z.ltb_ge _ _)) by lia. unfold seg_get_payload_size. rewrite HS, bind_ret_l.
    change (seg_header_size _) with (hdr_len r g). rewrite Hc, Z.sub_diag. reflexivity.
Qed.

(** Malformed input is refused with the status of its kind, and nothing
    but the status changes: an empty view, one shorter than a segment header,
    a first segment longer than the input, one with no payload. *)
Theorem on_pdcp_data_errors m b n s :
  let h := hdr_len (dc_allow_reordering (d_config s)) (dc_allow_segmentation (d_config s)) in
  0 <= b -> 0 <= n -> is_u64 (b + n) ->
  (n = 0 -> on_pdcp_data m b n s = Ok (s <| d_status := DL_INPUT_EMPTY |>, false)) /\
  (0 < n < h -> on_pdcp_data m b n s = Ok (s <| d_status := DL_SEGMENT_SCAN_FAILED |>, false)) /\
  (forall size_, h <= n -> 0 <= size_ < 32768 -> ld_be16 m b = Ok size_ ->
    (n < size_ -> on_pdcp_data m b n s = Ok (s <| d_status := DL_SEGMENT_OUTSIDE_INPUT |>, false)) /\
    (size_ = h -> on_pdcp_data m b n s = Ok (s <| d_status := DL_RESERVED_VALUE_USED |>, false))).
Proof.
  intros h Hb Hn Hu. split; [by intros ->|]. unfold on_pdcp_data. split.
  - intros Hh. rewrite (proj2 (Z.eqb_neq n 0)) by lia. cbn [dl_loop].
    rewrite (proj2 (Z.eqb_neq n 0)) by lia. unfold seg_is_header_valid.
    rewrite rescan_head, rescan_max. rewrite (proj2 (Z.leb_gt _ _)); [done|]. simpl. apply Hh.
  - intros size_ Hh Hsz Hld. pose proof (dl_loop_first m b n s Hb Hu Hh size_ Hsz Hld) as [H1 H2].
    pose proof (hdr_len_range (dc_allow_reordering (d_config s)) (dc_allow_segmentation (d_config s))).
    fold h in H. rewrite (proj2 (Z.eqb_neq n 0)) by lia.
    split; intros Hc; [rewrite H1 by done|rewrite H2 by done]; done.
Qed.

Lemma on_pdcp_data_errors_witness :
  let s := pdcp_dl (DlConfig true true 4) in
  on_pdcp_data [0; 6; 0; 0; 0; 0; 1] 0 7 s = Ok (s <| d_status := DL_RESERVED_VALUE_USED |>, false).
Proof.
  intros s. apply (on_pdcp_data_errors [0; 6; 0; 0; 0; 0; 1] 0 7 s) with (size_ := 6); try lia;
    vm_compute; try split; congruence.
Defined.

(** A segment that declares a size below that of its own header is not
    refused: its payload size wraps around below 2^16, and [on_pdcp_data]
    reads that many bytes past the end of a shorter input, whatever the
    configuration and the state. *)
Theorem dl_undersized_segment r g L m size_ :
  0 < L -> bytes_ok m -> zlen m < 65530 -> hdr_len r g <= zlen m ->
  ld_be16 m 0 = Ok size_ -> 0 <= size_ < hdr_len r g ->
  on_pdcp_data m 0 (zlen m) (pdcp_dl (DlConfig g r L)) = Ub OutOfBounds.
Proof.
  intros HL Hm Hlen Hh Hld Hsz. pose proof (hdr_len_range r g). unfold on_pdcp_data.
  rewrite (proj2 (Z.eqb_neq _ 0)) by lia. cbn [dl_loop d_config pdcp_dl dc_allow_reordering dc_allow_segmentation].
  rewrite (proj2 (Z.eqb_neq _ 0)) by lia. rewrite rescan_fits by (done || ulia). cbn [fst].
  set (n := zlen m) in *.
  unfold seg_is_header_valid. change (seg_header_size _) with (hdr_len r g). change (max_size _) with n.
  rewrite (proj2 (Z.leb_le _ _)) by lia. cbn [negb].
  assert (seg_get_SIZE m (scanned 0 n r g) = Ok size_) as HS.
  { unfold seg_get_SIZE. cbn [size scanned]. rewrite Hld. cbn. unfold mret, res_ret.
    rewrite land_7FFF. f_equal. lia. }
  rewrite HS, bind_ret_l, (proj2 (Z.ltb_ge _ _)) by lia. unfold seg_get_payload_size.
  rewrite HS, bind_ret_l. change (seg_header_size _) with (hdr_len r g).
  unfold mret, res_ret. rewrite bind_ret_l. set (k := u16 (size_ - hdr_len r g)).
  assert (65530 <= k < 65536) as Hk by (unfold k; ulia).
  rewrite (proj2 (Z.eqb_neq k 0)) by lia.
  assert (exists v, (if r then seg_get_SN m (scanned 0 n r g) else Ok 0) = Ok v /\ is_u16 v) as (sn_ & -> & Hsn).
  { destruct r; [|exists 0; split; [done|ulia]]. unfold seg_get_SN. cbn [sn scanned deref].
    rewrite bind_ret_l. destruct (ld_be16_in m (0 + 2)) as (v & Hv & Hu & _); try done; try lia; [|eauto].
    unfold hdr_len, Z_of_bool in *. destruct g; unfold n in *; lia. }
  rewrite bind_ret_l.
  assert (exists v, (if g then seg_get_OFFSET m (scanned 0 n r g) else Ok 0) = Ok v /\ 0 <= v) as (off & -> & Ho).
  { destruct g; [|exists 0; split; [done|lia]]. unfold seg_get_OFFSET. cbn [offset scanned deref].
    rewrite bind_ret_l. destruct (ld_be16_in m (0 + 2 + Z_of_bool r * 2)) as (v & Hv & Hu & _); try done.
    all: first [ exists v; split; [done|ulia] | unfold hdr_len in Hh; change (zlen m) with n;
      destruct r; simpl Z_of_bool in *; lia ]. }
  rewrite bind_ret_l. unfold seg_is_LAST. cbn [size scanned deref]. rewrite bind_ret_l, Hld.
  unfold mret, res_ret. rewrite !bind_ret_l.
  unfold deliver, find_place, get_or_put_slot, slot_index. cbn [reorder_ring pdcp_dl dc_reorder_size].
  unfold fresh_ring. rewrite zlen_replicate.
  rewrite (proj2 (Z.eqb_neq _ 0)) by lia. set (idx := sn_ mod _).
  assert (0 <= idx < L) as Hidx by (unfold idx; rewrite Z2Nat.id by lia; apply Z.mod_pos_bound; lia).
  rewrite lookup_replicate_2 by lia. cbn [slot_valid slot_init andb].
  unfold get_state, upd. cbn [reorder_ring]. rewrite list_lookup_insert_eq by (rewrite length_replicate; lia).
  unfold mret, res_ret. rewrite bind_ret_l. cbn [slot_state].
  unfold reassemble. cbn [rs_buffer reassembly_init].
  rewrite sb_grow by (done || lia). rewrite bind_ret_l. unfold upd.
  cbn [rs_buffer recvd_offsets accumulated_size expected_size has_expected_size is_complete reassembly_init].
  rewrite bool_decide_false by apply not_elem_of_empty.
  change (payload (scanned 0 n r g)) with (Some (0 + hdr_len r g)). cbn [deref]. rewrite bind_ret_l.
  unfold rd_n. fold n. rewrite (proj2 (Z.leb_gt (0 + hdr_len r g + k) n)) by lia.
  by rewrite andb_false_r.
Qed.

Lemma dl_undersized_segment_witness :
  on_pdcp_data [0; 0; 0; 0; 0; 0] 0 6 (pdcp_dl (DlConfig true true 512)) = Ub OutOfBounds.
Proof.
  apply (dl_undersized_segment true true 512 [0; 0; 0; 0; 0; 0] 0);
    [lia|repeat constructor; ulia| | | |]; vm_compute; repeat split; congruence.
Defined.

(** A frame whose first segment went to the overflow queue because its
    slot was taken is lost when the slot becomes free before its next segment
    arrives: the next segment starts a second state in the slot, so neither
    state ever completes and nothing is delivered from that frame on. Here the
    ring has two slots and frame 2 shares the slot of frame 0. *)
Theorem dl_overflow_split :
  let feed s v := (x ← on_pdcp_data (seg_enc true true v) 0 (zlen (seg_enc true true v)) s; mret x.1) in
  (s ← feed (pdcp_dl (DlConfig true true 2)) (SegVal false 0 0 [10]); (* frame 0 in part *)
   s ← feed s (SegVal false 2 0 [30]);                                (* frame 2 in part *)
   s ← feed s (SegVal true 1 0 [20]);                                 (* frame 1 *)
   s ← feed s (SegVal true 0 1 [11]);                                 (* the rest of 0 *)
   s ← feed s (SegVal true 2 1 [31]);                                 (* the rest of 2 *)
   mret (map sb_storage (completed_frames s), next_expected_sn s,
         map (fun x : Z * reassembly_state_t => (x.1, is_complete x.2)) (overflow_deque s),
         map (fun x => (slot_sn x, slot_valid x, is_complete (slot_state x))) (reorder_ring s))) =
  Ok ([[Some 10; Some 11]; [Some 20]], 2, [(2, false)], [(2, true, false); (1, false, true)]).
Proof. vm_compute. reflexivity. Qed.
