(* ===== verification/PdcpOrder.v ===== *)
(** * In-order delivery of the PDCP downlink

    The refinement of [PdcpDl] against its contract: whatever the order in
    which the segments of a sequence of frames arrive, and with duplicates, as
    long as they fall into the reordering window, the frames come out whole,
    once, and in the order they were sent. *)

From stdpp Require Import gmap.
From S2P Require Import Prelude Mem SafeInt SafeChecker PdcpSegment PdcpDl.

(** A whole frame, as the downlink hands it out. *)
Definition whole (F : list Z) : sized_buffer := SizedBuffer (zlen F) (map Some F).

Definition sizes (l : list sized_buffer) : Z := foldr (fun b k => sb_size b + k) 0 l.

Lemma sizes_app l k : sizes (l ++ k) = sizes l + sizes k.
Proof. induction l as [|b l IH]; simpl; [done|]. unfold sizes in *. simpl. lia. Qed.

Lemma sizes_whole l : sizes (map whole l) = zlen (concat l).
Proof.
  induction l as [|F l IH]; [done|]. cbn [concat map]. rewrite zlen_app, <- IH. done.
Qed.

(** What is left of whole frames after some have been popped. *)
Lemma sizes_rest out rest l :
  out ++ rest = map whole l -> 0 <= sizes rest <= zlen (concat l).
Proof.
  intros E. rewrite <- sizes_whole, <- E, sizes_app.
  assert (Forall (fun b => 0 <= sb_size b) (out ++ rest)) as Hp.
  { rewrite E. apply Forall_map, Forall_true. intros. apply zlen_nonneg. }
  apply Forall_app in Hp as [H1 H2].
  assert (forall k, Forall (fun b => 0 <= sb_size b) k -> 0 <= sizes k) as HP.
  { clear. induction 1; unfold sizes in *; simpl; lia. }
  pose proof (HP _ H1). pose proof (HP _ H2). lia.
Qed.

(** The sender: frame [i] is cut into the segments [segs i], which carry the
    sequence number [i mod 2^16]. *)
Record sender_ok (r g : bool) (fs : list (list Z)) (segs : nat -> list seg_val) : Prop := SenderOk {
  so_cuts : forall i F, fs !! i = Some F -> cuts F (segs i);
  so_len : forall i F, fs !! i = Some F -> 1 <= zlen F;
  so_total : is_u64 (zlen (concat fs));
  so_sn : forall i v, v ∈ segs i -> v_sn v = u16 (Z.of_nat i);
  so_enc : forall i v, v ∈ segs i -> seg_ok r g v;
  so_off : forall i v, v ∈ segs i -> g = false -> v_off v = 0 }.

Definition received (segs : nat -> list seg_val) (R : nat -> gset Z) (i : nat) : Prop :=
  forall v, v ∈ segs i -> v_off v ∈ R i.

(** [front fs segs R d]: [d] is the first frame not yet received entirely. *)
Definition front (fs : list (list Z)) (segs : nat -> list seg_val) (R : nat -> gset Z) (d : nat) : Prop :=
  (d <= length fs)%nat /\ (forall j, (j < d)%nat -> received segs R j) /\
  ((d < length fs)%nat -> ~ received segs R d).

Lemma front_unique fs segs R d e : front fs segs R d -> front fs segs R e -> d = e.
Proof.
  intros (H1 & H2 & H3) (K1 & K2 & K3).
  destruct (lt_eq_lt_dec d e) as [[Hlt| ->]|Hlt]; [|done|].
  - destruct H3; [lia|by apply K2].
  - destruct K3; [lia|by apply H2].
Qed.

Definition Radd (R : nat -> gset Z) (x : nat * seg_val) : nat -> gset Z :=
  fun j => if decide (j = x.1) then R j ∪ {[ v_off x.2 ]} else R j.

Section Order.
Context (g : bool) (fs : list (list Z)) (segs : nat -> list seg_val) (L : Z).
Context (Hs : sender_ok true g fs segs) (HL : 0 < L) (HL16 : 65536 mod L = 0).

Definition slot_of (i : nat) : nat := Z.to_nat (Z.of_nat i mod L).

(** The invariant: frames below [d] have been delivered (the ones in [out]
    have been popped already), the segments [R] of the later ones are in the
    slots of the ring. *)
Record order_inv (d : nat) (R : nat -> gset Z) (s : dl_t) (out : list sized_buffer) : Prop := OrderInv {
  iv_cfg : dc_allow_reordering (d_config s) = true /\ dc_allow_segmentation (d_config s) = g;
  iv_ovf : overflow_deque s = [];
  iv_len : zlen (reorder_ring s) = L;
  iv_next : next_expected_sn s = u16 (Z.of_nat d);
  iv_d : (d <= length fs)%nat;
  iv_done : forall i, (i < d)%nat -> received segs R i;
  iv_out : out ++ completed_frames s = map whole (take d fs);
  iv_bytes : outstanding_bytes s = sizes (completed_frames s);
  iv_slot : forall k slot, reorder_ring s !! k = Some slot -> slot_valid slot = true ->
    exists i F, k = slot_of i /\ (d <= i)%nat /\ Z.of_nat i < Z.of_nat d + L /\ fs !! i = Some F /\
      slot_sn slot = u16 (Z.of_nat i) /\ reasm F (segs i) (R i) (slot_state slot);
  iv_live : forall i, (d <= i)%nat -> R i <> ∅ -> Z.of_nat i < Z.of_nat d + L /\
    exists slot, reorder_ring s !! slot_of i = Some slot /\ slot_valid slot = true /\
      slot_sn slot = u16 (Z.of_nat i) }.

Lemma L_le : L <= 65536.
Proof. destruct (Z.le_gt_cases L 65536); [done|]. rewrite Z.mod_small in HL16; lia. Qed.

Lemma slot_of_sn i : (u16 (Z.of_nat i)) mod L = Z.of_nat i mod L.
Proof.
  unfold u16. apply Z.mod_divide in HL16 as [q Hq]; [|lia]. rewrite Hq.
  rewrite Z.mul_comm, Z.rem_mul_r by lia. rewrite Z.mul_comm, Z.mod_add by lia.
  apply Z.mod_mod. lia.
Qed.

Lemma slot_of_lt i : Z.of_nat (slot_of i) < L.
Proof. unfold slot_of. pose proof (Z.mod_pos_bound (Z.of_nat i) L HL). lia. Qed.

(** Inside the window frames differ in their slots and sequence numbers. *)
Lemma window_sn d i j :
  (d <= i)%nat -> (d <= j)%nat -> Z.of_nat i < Z.of_nat d + L -> Z.of_nat j < Z.of_nat d + L ->
  u16 (Z.of_nat i) = u16 (Z.of_nat j) -> i = j.
Proof. intros. pose proof L_le. ulia. Qed.

Lemma window_slot d i j :
  (d <= i)%nat -> (d <= j)%nat -> Z.of_nat i < Z.of_nat d + L -> Z.of_nat j < Z.of_nat d + L ->
  slot_of i = slot_of j -> i = j.
Proof.
  unfold slot_of. intros H1 H2 H3 H4 E.
  pose proof (Z.mod_pos_bound (Z.of_nat i) L HL). pose proof (Z.mod_pos_bound (Z.of_nat j) L HL).
  assert (Z.of_nat i mod L = Z.of_nat j mod L) as E' by lia.
  pose proof (Z.div_mod (Z.of_nat i) L ltac:(lia)). pose proof (Z.div_mod (Z.of_nat j) L ltac:(lia)).
  assert (Z.of_nat i / L = Z.of_nat j / L); nia.
Qed.

Lemma slot_index_sn s i :
  zlen (reorder_ring s) = L -> Z.to_nat (slot_index (u16 (Z.of_nat i)) s) = slot_of i.
Proof.
  intros E. unfold slot_index. rewrite E, (proj2 (Z.eqb_neq _ _)) by lia. by rewrite slot_of_sn.
Qed.

(** The slot of a frame of the window is free, or its own. *)
Lemma window_find d R s out i F :
  order_inv d R s out -> (d <= i)%nat -> Z.of_nat i < Z.of_nat d + L -> fs !! i = Some F ->
  exists s1 st, find_place (u16 (Z.of_nat i)) s = (s1, InRing (Z.of_nat i mod L)) /\
    get_state (InRing (Z.of_nat i mod L)) s1 = Ok st /\ reasm F (segs i) (R i) st /\
    d_config s1 = d_config s /\
    forall st', put_state (InRing (Z.of_nat i mod L)) st' s1 =
      s <| reorder_ring := <[slot_of i := Slot (u16 (Z.of_nat i)) st' true]> (reorder_ring s) |>.
Proof.
  intros [Hc Ho Hl Hn Hd Hdone Hout Hb Hslot Hlive] Hi HiL HF.
  unfold find_place, get_or_put_slot. rewrite slot_index_sn by done.
  assert (slot_of i < length (reorder_ring s))%nat as Hlt
    by (pose proof (slot_of_lt i); unfold zlen in *; lia).
  destruct (lookup_lt_is_Some_2 _ _ Hlt) as [slot Hsl]. rewrite Hsl.
  assert (slot_index (u16 (Z.of_nat i)) s = Z.of_nat i mod L) as Hidx.
  { unfold slot_index. rewrite Hl, (proj2 (Z.eqb_neq _ _)) by lia. apply slot_of_sn. }
  destruct (slot_valid slot) eqn:Ev.
  - destruct (Hslot _ _ Hsl Ev) as (j & F' & Ek & Hj & HjL & HF' & Hsn & Hra).
    assert (i = j) as <- by (eapply window_slot; eauto).
    assert (F' = F) as -> by congruence.
    rewrite Hsn, Z.eqb_refl. cbn [negb andb]. rewrite Hidx.
    eexists _, (slot_state slot). split; [done|]. unfold get_state, put_state, upd. cbn.
    fold (slot_of i). rewrite list_lookup_insert_eq by done. split_and!; try done.
    intros st'. f_equal. rewrite list_alter_insert. f_equal. by rewrite Hsn, Ev.
  - cbn [negb andb]. rewrite Hidx. eexists _, reassembly_init. split; [done|].
    unfold get_state, put_state, upd. cbn. fold (slot_of i).
    rewrite list_lookup_insert_eq by done. split; [done|]. split; [|split; [done|]].
    + destruct (decide (R i = ∅)) as [->|HR]; [apply reasm_init|].
      destruct (Hlive i Hi HR) as (_ & slot' & E1 & E2 & _). congruence.
    + intros st'. f_equal. by rewrite list_alter_insert.
Qed.

Lemma Radd_eq R x : Radd R x x.1 = R x.1 ∪ {[ v_off x.2 ]}.
Proof. unfold Radd. by rewrite decide_True. Qed.
Lemma Radd_ne R x j : j <> x.1 -> Radd R x j = R j.
Proof. intros. unfold Radd. by rewrite decide_False. Qed.
Lemma Radd_mono R x j : R j ⊆ Radd R x j.
Proof. unfold Radd. case_decide; [apply union_subseteq_l|done]. Qed.

(** One segment of the window. *)
Lemma deliver_inv d R s out i v :
  order_inv d R s out -> (i < length fs)%nat -> v ∈ segs i ->
  (d <= i)%nat -> Z.of_nat i < Z.of_nat d + L ->
  exists s', deliver (v_sn v) (if g then v_off v else 0) (zlen (v_data v)) (Ok (v_data v)) (v_last v) s = Ok s' /\
    order_inv d (Radd R (i, v)) s' out /\ d_config s' = d_config s.
Proof.
  intros HI Hlt Hv Hi HiL. destruct (lookup_lt_is_Some_2 fs i Hlt) as [F HF].
  destruct (window_find d R s out i F HI Hi HiL HF) as (s1 & st & E1 & E2 & Hra & Hcfg & Hput).
  assert (is_u64 (zlen F)) as HFu.
  { pose proof (so_total _ _ _ _ Hs) as Ht. apply list_elem_of_split_length in HF as (l1 & l2 & -> & _).
    rewrite concat_app in Ht. cbn [concat] in Ht. rewrite !zlen_app in Ht.
    pose proof (zlen_nonneg (concat l1)). pose proof (zlen_nonneg (concat l2)).
    pose proof (zlen_nonneg F). ulia. }
  destruct (reassemble_reasm F (segs i) (so_cuts _ _ _ _ Hs i F HF) HFu (R i) st v Hv Hra)
    as (st' & E3 & Hra').
  unfold deliver. rewrite (so_sn _ _ _ _ Hs i v Hv), E1, E2, bind_ret_l.
  replace (if g then v_off v else 0) with (v_off v)
    by (destruct g eqn:Eg; [done|]; by apply (so_off _ _ _ _ Hs i v Hv)).
  rewrite E3, bind_ret_l, Hput. cbn [d_config].
  destruct HI as [[Hc Hc'] Ho Hl Hn Hd Hdone Hout Hb Hslot Hlive].
  eexists. split; [reflexivity|]. unfold upd. cbn [d_config]. rewrite Hc.
  rewrite andb_false_r. split; [|done]. constructor; cbn; try done.
  - unfold zlen. rewrite length_insert. exact Hl.
  - intros j Hj w Hw. apply (Radd_mono R (i, v) j). by apply Hdone.
  - intros k slot Hk Hval. destruct (decide (k = slot_of i)) as [->|Hne].
    + rewrite list_lookup_insert_eq in Hk
        by (pose proof (slot_of_lt i); unfold zlen in *; lia).
      injection Hk as <-. exists i, F. cbn. split_and!; try done; try lia.
      pose proof (Radd_eq R (i, v)) as HX. cbn [fst snd] in HX. by rewrite HX.
    + rewrite list_lookup_insert_ne in Hk by done.
      destruct (Hslot k slot Hk Hval) as (j & F' & Ek & Hj & HjL & HF' & Hsn & Hra'').
      exists j, F'. split_and!; try done; try lia. rewrite Radd_ne; [done|]. simpl. by intros ->.
  - intros j Hj HR. destruct (decide (j = i)) as [->|Hne].
    + split; [lia|]. eexists. rewrite list_lookup_insert_eq
        by (pose proof (slot_of_lt i); unfold zlen in *; lia). done.
    + rewrite Radd_ne in HR by done. destruct (Hlive j Hj HR) as (HjL & slot & Hk & ?).
      split; [done|]. exists slot. rewrite list_lookup_insert_ne; [done|].
      intros E. apply Hne. symmetry. eapply window_slot; eauto.
Qed.

(** The invariant after frame [d] is handed out and its slot freed. *)
Lemma order_inv_next d R s out slot F st :
  order_inv d R s out -> reorder_ring s !! slot_of d = Some slot ->
  slot_sn slot = u16 (Z.of_nat d) -> fs !! d = Some F -> received segs R d ->
  rs_buffer (slot_state slot) = whole F -> expected_size (slot_state slot) = zlen F ->
  let s := complete_frame (slot_state slot) s in
  order_inv (S d) R
    (s <| reorder_ring := <[slot_of d := Slot (slot_sn slot) st false]> (reorder_ring s) |>
       <| next_expected_sn := u16 (u16 (Z.of_nat d) + 1) |>) out.
Proof.
  intros [Hc Ho Hl Hn Hd Hdone Hout Hb Hslot Hlive] Hk Hsn HF Hrec HB HE s'.
  pose proof (lookup_lt_Some _ _ _ HF) as Hlt.
  assert (slot_of d < length (reorder_ring s))%nat as Hsl
    by (pose proof (slot_of_lt d); unfold zlen in *; lia).
  constructor; unfold s', complete_frame, upd; cbn; try done.
  - unfold zlen. rewrite length_insert. exact Hl.
  - ulia.
  - intros j Hj. destruct (decide (j = d)) as [->|]; [done|]. apply Hdone. lia.
  - rewrite app_assoc, Hout, HB. rewrite (take_S_r _ _ _ HF), map_app. done.
  - rewrite Hb, HB, HE, sizes_app. cbn. rewrite Z.add_0_r. apply u64_id.
    pose proof (sizes_rest _ _ _ Hout) as Hsz.
    pose proof (so_total _ _ _ _ Hs) as Ht. rewrite <- (take_drop_middle _ _ _ HF), concat_app in Ht.
    cbn [concat] in Ht. rewrite !zlen_app in Ht. pose proof (zlen_nonneg (concat (drop (S d) fs))).
    pose proof (zlen_nonneg F). ulia.
  - intros k slot' Hk' Hval. destruct (decide (k = slot_of d)) as [->|Hne].
    + rewrite list_lookup_insert_eq in Hk' by done. by injection Hk' as <-.
    + rewrite list_lookup_insert_ne in Hk' by done.
      destruct (Hslot k slot' Hk' Hval) as (j & F' & Ek & Hj & HjL & HF' & Hsn' & Hra').
      exists j, F'. split_and!; try done; [|lia]. destruct (decide (j = d)) as [->|]; [done|lia].
  - intros j Hj HR. destruct (Hlive j ltac:(lia) HR) as (HjL & slot' & Hk' & ?).
    split; [lia|]. exists slot'. rewrite list_lookup_insert_ne; [done|].
    intros E. assert (d = j); [|lia]. eapply window_slot; eauto; lia.
Qed.

Fixpoint valid_slots (l : list slot_t) : nat :=
  match l with [] => O | x :: l => (Nat.b2n (slot_valid x) + valid_slots l)%nat end.

Lemma valid_slots_free l k slot slot' :
  l !! k = Some slot -> slot_valid slot = true -> slot_valid slot' = false ->
  valid_slots l = S (valid_slots (<[k := slot']> l)).
Proof.
  revert k. induction l as [|x l IH]; intros [|k] Hk Hv Hv'; try done; simpl in *.
  - injection Hk as ->. by rewrite Hv, Hv'.
  - rewrite (IH k) by done. lia.
Qed.

(** [flush_completed_in_order] stops at the first frame that is not complete. *)
Lemma flush_inv fuel d R s out :
  order_inv d R s out -> (valid_slots (reorder_ring s) < fuel)%nat ->
  exists d' s', flush_completed_in_order fuel s = Ok s' /\ order_inv d' R s' out /\
    front fs segs R d' /\ d_config s' = d_config s.
Proof.
  revert d s. induction fuel as [|fuel IH]; intros d s HI Hf; [lia|].
  pose proof HI as [Hc Ho Hl Hn Hd Hdone Hout Hb Hslot Hlive].
  cbn [flush_completed_in_order]. rewrite Hn, slot_index_sn, Ho by done. cbn [list_find].
  assert (slot_of d < length (reorder_ring s))%nat as Hsl
    by (pose proof (slot_of_lt d); unfold zlen in *; lia).
  destruct (lookup_lt_is_Some_2 _ _ Hsl) as [slot Hk]. rewrite Hk.
  destruct (slot_valid slot && _ && _) eqn:Ec.
  - apply andb_prop in Ec as [[Hv Hsn%Z.eqb_eq]%andb_prop Hcomp].
    destruct (Hslot _ _ Hk Hv) as (j & F & Ek & Hj & HjL & HF & Hsn' & Hra).
    assert (j = d) as -> by (eapply (window_slot d); eauto; lia).
    assert (segs d <> []) as Hne.
    { destruct (ct_cover _ _ (so_cuts _ _ _ _ Hs d F HF) 0) as (w & Hw & _).
      - pose proof (so_len _ _ _ _ Hs d F HF). lia.
      - intros E. rewrite E in Hw. by apply elem_of_nil in Hw. }
    destruct (reasm_complete F (segs d) (so_cuts _ _ _ _ Hs d F HF) (R d) _ Hra Hne) as [HC1 HC2].
    destruct (HC2 Hcomp) as [HB HE].
    set (st := (slot_state slot) <| rs_buffer := _ |>).
    pose proof (order_inv_next d R s out slot F st HI Hk Hsn HF (proj1 HC1 Hcomp) HB HE) as HN.
    apply IH in HN; [exact HN|]. unfold complete_frame, upd. cbn.
    rewrite (valid_slots_free _ _ _ _ Hk Hv (eq_refl : slot_valid (Slot (slot_sn slot) st false) = false)) in Hf.
    lia.
  - exists d, s. split; [done|]. split; [done|]. split; [|done]. split; [done|]. split; [done|].
    intros Hlt Hrec. destruct (lookup_lt_is_Some_2 fs d Hlt) as [F HF].
    destruct (ct_cover _ _ (so_cuts _ _ _ _ Hs d F HF) 0) as (w & Hw & _).
    { pose proof (so_len _ _ _ _ Hs d F HF). lia. }
    assert (R d <> ∅) as HR.
    { intros E. pose proof (Hrec w Hw) as HX. rewrite E in HX. by apply elem_of_empty in HX. }
    destruct (Hlive d (Nat.le_refl _) HR) as (_ & slot' & Hk' & Hv & Hsn).
    assert (slot' = slot) as -> by congruence.
    destruct (Hslot _ _ Hk Hv) as (j & F' & Ek & Hj & HjL & HF' & Hsn' & Hra).
    assert (j = d) as -> by (eapply (window_slot d); eauto; lia).
    assert (F' = F) as -> by congruence.
    assert (is_complete (slot_state slot) = true) as Hcomp.
    { apply (reasm_complete F (segs d) (so_cuts _ _ _ _ Hs d F HF) (R d) _ Hra); [|exact Hrec].
      intros E. rewrite E in Hw. by apply elem_of_nil in Hw. }
    rewrite Hv, Hsn, Z.eqb_refl, Hcomp in Ec. done.
Qed.

(** ** Histories *)

(** The link hands over a PDU, or the application pops a frame. *)
Inductive dl_event := EvData (pdu : list (nat * seg_val)) | EvPop.

Definition ev_step (e : dl_event) (x : dl_t * list sized_buffer) : res (dl_t * list sized_buffer) :=
  match e with
  | EvData pdu =>
    let bs := segs_enc true g (map snd pdu) in
    '(s, ok) ← on_pdcp_data bs 0 (zlen bs) x.1;
    if ok : bool then mret (s, x.2) else Throw StdRuntimeError
  | EvPop =>
    let '(s, b) := dl_pop x.1 in
    mret (s, if dl_get_outstanding_packet x.1 =? 0 then x.2 else x.2 ++ [b])
  end.

Fixpoint ev_run (evs : list dl_event) (x : dl_t * list sized_buffer)
    : res (dl_t * list sized_buffer) :=
  match evs with [] => mret x | e :: evs => x ← ev_step e x; ev_run evs x end.

(** A PDU is one the sender may have sent, and all its segments belong to
    the [L] frames from the first incomplete one on. Segments of those
    frames may come in any order and more than once. *)
Definition pdu_ok (R : nat -> gset Z) (pdu : list (nat * seg_val)) : Prop :=
  pdu <> [] /\ is_u64 (zlen (segs_enc true g (map snd pdu))) /\
  forall i v, (i, v) ∈ pdu -> (i < length fs)%nat /\ v ∈ segs i /\
    forall d, front fs segs R d -> (d <= i)%nat /\ Z.of_nat i < Z.of_nat d + L.

Definition ev_recv (e : dl_event) (R : nat -> gset Z) : nat -> gset Z :=
  match e with EvData pdu => foldl Radd R pdu | EvPop => R end.
Definition recv_all (evs : list dl_event) (R : nat -> gset Z) : nat -> gset Z :=
  foldl (fun R e => ev_recv e R) R evs.

Fixpoint history_ok (R : nat -> gset Z) (evs : list dl_event) : Prop :=
  match evs with
  | [] => True
  | e :: evs => match e with EvData pdu => pdu_ok R pdu | EvPop => True end /\
                history_ok (ev_recv e R) evs
  end.

Lemma deliver_all_inv pdu d R s out :
  order_inv d R s out ->
  (forall i v, (i, v) ∈ pdu -> (i < length fs)%nat /\ v ∈ segs i /\ (d <= i)%nat /\ Z.of_nat i < Z.of_nat d + L) ->
  exists s', deliver_all (map snd pdu) s = Ok s' /\ order_inv d (foldl Radd R pdu) s' out.
Proof.
  revert R s. induction pdu as [|[i v] pdu IH]; intros R s HI Hp; [by exists s|].
  destruct (Hp i v) as (H1 & H2 & H3 & H4); [apply list_elem_of_here|].
  destruct (deliver_inv d R s out i v HI H1 H2 H3 H4) as (s1 & E1 & HI1 & Hc1).
  pose proof (iv_cfg _ _ _ _ HI) as [Hr Hg].
  cbn [map snd deliver_all foldl]. rewrite Hr, Hg, E1, bind_ret_l.
  apply IH; [exact HI1|]. intros. apply Hp. by apply list_elem_of_further.
Qed.

Lemma pop_inv d R s out :
  order_inv d R s out ->
  exists s' out', ev_step EvPop (s, out) = Ok (s', out') /\ order_inv d R s' out'.
Proof.
  intros HI. pose proof HI as [Hc Ho Hl Hn Hd Hdone Hout Hb Hslot Hlive]. cbn [ev_step fst snd].
  unfold dl_pop, dl_get_outstanding_packet.
  destruct (completed_frames s) as [|b rest] eqn:E.
  - by exists s, out.
  - eexists _, (out ++ [b]). split; [rewrite (proj2 (Z.eqb_neq _ 0)) by zlia; done|].
    assert (0 <= sizes rest) as Hr.
    { rewrite (cons_middle b out rest), app_assoc in Hout. apply sizes_rest in Hout. lia. }
    constructor; unfold upd; cbn; try done.
    + by rewrite <- app_assoc.
    + rewrite Hb. unfold sizes in *. cbn. rewrite (proj2 (Z.leb_le _ _)) by lia. lia.
Qed.

Lemma order_inv_front d R s out : order_inv d R s out -> front fs segs R d ->
  forall e, front fs segs R e -> e = d.
Proof. intros _ H e He. by eapply front_unique. Qed.

Lemma ev_step_inv e d R s out :
  order_inv d R s out -> front fs segs R d ->
  match e with EvData pdu => pdu_ok R pdu | EvPop => True end ->
  exists s' out' d', ev_step e (s, out) = Ok (s', out') /\
    order_inv d' (ev_recv e R) s' out' /\ front fs segs (ev_recv e R) d'.
Proof.
  intros HI Hfr He. destruct e as [pdu|]; [|destruct (pop_inv d R s out HI) as (s' & out' & E & HI'); by exists s', out', d].
  destruct He as (Hne & Hu & Hp). pose proof (iv_cfg _ _ _ _ HI) as [Hr Hg].
  destruct (deliver_all_inv pdu d R s out HI) as (s1 & E1 & HI1).
  { intros i v Hv. destruct (Hp i v Hv) as (? & ? & Hw). destruct (Hw d Hfr). auto. }
  destruct (flush_inv (flush_fuel s1) d (foldl Radd R pdu) s1 out HI1) as (d' & s2 & E2 & HI2 & Hf2 & _).
  { unfold flush_fuel. enough (valid_slots (reorder_ring s1) <= length (reorder_ring s1))%nat by lia.
    induction (reorder_ring s1) as [|x l IH]; simpl; [done|]. destruct (slot_valid x); simpl; lia. }
  exists s2, out, d'. split; [|done]. cbn [ev_step fst snd].
  pose proof (on_pdcp_data_segs (segs_enc true g (map snd pdu)) 0 (map snd pdu) s) as HD.
  cbv zeta in HD. rewrite Hr, Hg in HD. rewrite HD; clear HD.
  - rewrite E1, bind_ret_l. unfold flush. rewrite E2, bind_ret_l. done.
  - by destruct pdu.
  - apply Forall_map, Forall_forall. intros [i v] Hv.
    destruct (Hp i v) as (Hi & Hvs & _); [by apply list_elem_of_In|]. cbn.
    split; [by apply (so_enc _ _ _ _ Hs i)|].
    destruct (lookup_lt_is_Some_2 fs i Hi) as [F HF].
    apply (ct_in _ _ (so_cuts _ _ _ _ Hs i F HF) v Hvs).
  - done.
  - lia.
  - done.
  - apply slice_all.
Qed.

Lemma ev_run_inv evs d R s out :
  order_inv d R s out -> front fs segs R d -> history_ok R evs ->
  exists s' out' d', ev_run evs (s, out) = Ok (s', out') /\
    order_inv d' (recv_all evs R) s' out' /\ front fs segs (recv_all evs R) d'.
Proof.
  revert d R s out. induction evs as [|e evs IH]; intros d R s out HI Hf Hh; [by exists s, out, d|].
  destruct Hh as [He Hh]. destruct (ev_step_inv e d R s out HI Hf He) as (s1 & out1 & d1 & E1 & HI1 & Hf1).
  cbn [ev_run]. rewrite E1, bind_ret_l. by apply (IH d1).
Qed.

Definition none_received : nat -> gset Z := fun _ => ∅.

Lemma order_inv_init :
  order_inv 0 none_received (pdcp_dl (DlConfig g true L)) [].
Proof.
  constructor; unfold none_received; cbn; try done; try lia.
  - unfold fresh_ring. rewrite zlen_replicate. lia.
  - intros k slot [-> _]%lookup_replicate_1. done.
Qed.

Lemma front_init : front fs segs none_received 0.
Proof.
  split; [lia|]. split; [lia|]. intros Hlt Hrec. destruct (lookup_lt_is_Some_2 fs 0 Hlt) as [F HF].
  destruct (ct_cover _ _ (so_cuts _ _ _ _ Hs O F HF) 0) as (w & Hw & _).
  - pose proof (so_len _ _ _ _ Hs O F HF). lia.
  - specialize (Hrec w Hw). by apply elem_of_empty in Hrec.
Qed.
End Order.

(** ** Properties *)

(** C4: in-order delivery. For every history of PDUs and pops in which each
    segment belongs to one of the [L] frames from the first incomplete one on
    (in any order, with repetitions, the sequence numbers wrapping around), the
    downlink accepts every PDU, and what it has handed out, together with what
    waits to be popped, is exactly the frames before the first incomplete one:
    whole, once each, in the order they were sent. The outstanding bytes are
    the bytes waiting to be popped. The ring size divides 2^16, as the default
    of 512 does. *)
Theorem dl_in_order g fs segs L evs :
  sender_ok true g fs segs -> 0 < L -> 65536 mod L = 0 ->
  history_ok g fs segs L none_received evs ->
  exists s out d,
    ev_run g evs (pdcp_dl (DlConfig g true L), []) = Ok (s, out) /\
    front fs segs (recv_all evs none_received) d /\
    out ++ completed_frames s = map whole (take d fs) /\
    outstanding_bytes s = sizes (completed_frames s).
Proof.
  intros Hs HL H16 Hh.
  destruct (ev_run_inv g fs segs L Hs HL H16 evs 0 none_received _ []
    (order_inv_init g fs segs L HL) (front_init g fs segs L Hs HL) Hh)
    as (s & out & d & E & HI & Hf).
  exists s, out, d. split; [done|]. split; [done|]. split; [apply (iv_out _ _ _ _ _ _ _ _ HI)|].
  apply (iv_bytes _ _ _ _ _ _ _ _ HI).
Qed.

(** Two frames of three and one bytes, the first cut in two, whose segments
    arrive in reverse order in two PDUs. *)
Definition ex_frames : list (list Z) := [[1; 2; 3]; [9]].
Definition ex_segs (i : nat) : list seg_val :=
  match i with
  | 0%nat => [SegVal false 0 0 [1; 2]; SegVal true 0 2 [3]]
  | 1%nat => [SegVal true 1 0 [9]]
  | _ => []
  end.
Definition ex_history : list dl_event :=
  [EvData [(1%nat, SegVal true 1 0 [9]); (0%nat, SegVal true 0 2 [3]); (1%nat, SegVal true 1 0 [9])];
   EvData [(0%nat, SegVal false 0 0 [1; 2])]; EvPop].

Lemma ex_sender : sender_ok true true ex_frames ex_segs.
Proof.
  assert (forall i v, v ∈ ex_segs i ->
    (i = 0%nat /\ (v = SegVal false 0 0 [1; 2] \/ v = SegVal true 0 2 [3])) \/
    (i = 1%nat /\ v = SegVal true 1 0 [9])) as HS.
  { intros [|[|i]] v Hv; simpl in Hv; rewrite ?elem_of_cons, ?elem_of_nil in Hv; tauto. }
  constructor.
  - intros [|[|i]] F; intros [= <-]; constructor; simpl ex_segs.
    all: try (intros v Hv; rewrite ?elem_of_cons, ?elem_of_nil in Hv;
      destruct Hv as [->|[->|[]]] || destruct Hv as [->|[]];
      vm_compute; repeat split; congruence).
    all: try (intros v w Hv Hw; rewrite ?elem_of_cons, ?elem_of_nil in Hv, Hw;
      first [destruct Hv as [->|[->|[]]] | destruct Hv as [->|[]]];
      first [destruct Hw as [->|[->|[]]] | destruct Hw as [->|[]]];
      first [by left | right; left; vm_compute; congruence | right; right; vm_compute; congruence]).
    + intros p Hp. change (zlen [1; 2; 3]) with 3 in Hp. destruct (Z.ltb_spec p 2).
      * exists (SegVal false 0 0 [1; 2]). split; [constructor|]. cbn. change (zlen [1; 2]) with 2. lia.
      * exists (SegVal true 0 2 [3]). split; [repeat constructor|]. cbn. change (zlen [3]) with 1. lia.
    + intros p Hp. exists (SegVal true 1 0 [9]). split; [constructor|]. exact Hp.
  - intros [|[|i]] F; intros [= <-]; vm_compute; congruence.
  - vm_compute. split; congruence.
  - intros i v [[-> [-> | ->]]|[-> ->]]%HS; reflexivity.
  - intros i v [[-> [-> | ->]]|[-> ->]]%HS; unfold seg_ok, bytes_ok; cbn;
      (split; [ulia|]; split; [ulia|]; split; [repeat constructor; ulia|vm_compute; reflexivity]).
  - done.
Qed.

Lemma ex_history_ok : history_ok true ex_frames ex_segs 512 none_received ex_history.
Proof.
  assert (forall i v, (i < 2)%nat -> v ∈ ex_segs i -> forall R, (forall d, front ex_frames ex_segs R d -> d = 0%nat) ->
    (i < length ex_frames)%nat /\ v ∈ ex_segs i /\
      forall d, front ex_frames ex_segs R d -> (d <= i)%nat /\ Z.of_nat i < Z.of_nat d + 512) as HX.
  { intros i v Hi Hv R HR. split; [exact Hi|]. split; [done|]. intros d Hd%HR. lia. }
  assert (forall R, 0 ∉ R 0%nat -> forall d, front ex_frames ex_segs R d -> d = 0%nat) as HF.
  { intros R HR [|d] (_ & Hd & _); [done|]. exfalso. apply HR.
    apply (Hd 0%nat ltac:(lia) (SegVal false 0 0 [1; 2])). constructor. }
  split; [|split; [|done]].
  - split; [done|]. split; [vm_compute; split; congruence|].
    intros i v Hv. rewrite !elem_of_cons, elem_of_nil in Hv.
    assert (0 ∉ none_received 0%nat) as H0 by apply not_elem_of_empty.
    destruct Hv as [[= -> ->]|[[= -> ->]|[[= -> ->]|[]]]];
      (apply HX; [lia|repeat constructor|by apply HF]).
  - split; [done|]. split; [vm_compute; split; congruence|].
    intros i v Hv. rewrite !elem_of_cons, elem_of_nil in Hv. destruct Hv as [[= -> ->]|[]].
    apply HX; [lia|constructor|]. apply HF. vm_compute. congruence.
Qed.

Lemma dl_in_order_witness :
  sender_ok true true ex_frames ex_segs /\
  history_ok true ex_frames ex_segs 512 none_received ex_history /\
  exists s out d, ev_run true ex_history (pdcp_dl (DlConfig true true 512), []) = Ok (s, out) /\
    out ++ completed_frames s = map whole (take d ex_frames).
Proof.
  split; [exact ex_sender|]. split; [exact ex_history_ok|].
  destruct (dl_in_order true ex_frames ex_segs 512 ex_history ex_sender ltac:(lia) eq_refl ex_history_ok)
    as (s & out & d & E1 & _ & E2 & _).
  exists s, out, d. split; [exact E1|exact E2].
Defined.

Example ex_history_run :
  (x ← ev_run true ex_history (pdcp_dl (DlConfig true true 512), []);
   mret (x.2, completed_frames x.1, outstanding_bytes x.1)) =
  Ok ([whole [1; 2; 3]], [whole [9]], 1).
Proof. vm_compute. reflexivity. Qed.
