(* ===== verification/PdcpRx.v ===== *)
(** * PDCP, receive side ([winject/src/PDCP.hpp], [PDCP.cpp])

    Takes PDUs apart into segments, puts the frames together again in a ring
    indexed by sequence number, and hands them out in order. The window of
    sequence numbers that may arrive is [max_sn_distance] wide; a segment
    beyond it is a failure of the link, or makes the receiver skip ahead. *)

From stdpp Require Import gmap.
From S2P Require Import Prelude Mem SafeInt SafeChecker PdcpSegment Info.

(** ** State *)

(** [IPDCP::rx_config_t], without the keys and algorithms nothing reads. *)
Record prx_config := PrxConfig {
  qx_allow_rlf : bool; qx_allow_segmentation : bool; qx_allow_reordering : bool; qx_max_sn_distance : Z }.

Record rx_buffer_info_t := RxBufferInfo {
  rb_has_expected_size : bool; rb_accumulated_size : Z; rb_expected_size : Z;
  rb_recvd_offsets : gset Z; rb_buffer : list Z }.
#[export] Instance eta_rx_buffer_info : Eta rx_buffer_info_t := fun e =>
  RxBufferInfo (rb_has_expected_size e) (rb_accumulated_size e) (rb_expected_size e) (rb_recvd_offsets e)
    (rb_buffer e).

Definition rb_init : rx_buffer_info_t := RxBufferInfo false 0 0 ∅ [].
Definition rb_is_complete (e : rx_buffer_info_t) : bool :=
  rb_has_expected_size e && (rb_expected_size e =? rb_accumulated_size e).
Definition rb_has_data (e : rx_buffer_info_t) : bool := bool_of_Z (Z.of_nat (stdpp.base.size (rb_recvd_offsets e))).
(** [reset] leaves the buffer as it is. *)
Definition rb_reset (e : rx_buffer_info_t) : rx_buffer_info_t :=
  RxBufferInfo false 0 0 ∅ (rb_buffer e).

Record prx_t := Prx {
  prx_lcid : Z; prx_cfg : prx_config;
  rx_sn : Z; rx_sn_synced : bool; rx_cipher_iv_size : Z; rx_hmac_size : Z;
  rx_buffer_ring : list rx_buffer_info_t;
  to_rx_queue : list (list Z);
  is_rx_enabled : bool;
  prx_rrc : list rrc_call }.
#[export] Instance eta_prx : Eta prx_t := fun s =>
  Prx (prx_lcid s) (prx_cfg s) (rx_sn s) (rx_sn_synced s) (rx_cipher_iv_size s) (rx_hmac_size s)
    (rx_buffer_ring s) (to_rx_queue s) (is_rx_enabled s) (prx_rrc s).

(** ** Operations *)

Definition prx_new (lcid : Z) (cfg : prx_config) : prx_t :=
  Prx lcid cfg 0 false 0 0 (replicate (Z.to_nat 8192) rb_init) [] false [].

Definition prx_set_enabled (value : bool) (s : prx_t) : prx_t :=
  let s := s <| is_rx_enabled := value |> in
  let s := s <| rx_buffer_ring := map rb_reset (rx_buffer_ring s) |> in
  s <| rx_sn_synced := false |>.

Definition prx_reconfigure (config : prx_config) (s : prx_t) : prx_t :=
  let s := s <| prx_cfg := config |> in
  prx_set_enabled (is_rx_enabled s) s.

(** [to_rx] after its wait: the first frame, or an empty buffer. *)
Definition to_rx (s : prx_t) : prx_t * list Z :=
  match to_rx_queue s with
  | [] => (s, [])
  | rv :: queue => (s <| to_rx_queue := queue |>, rv)
  end.

Definition rx_buffer_ring_index (sn : Z) (s : prx_t) : nat := Z.to_nat (sn mod zlen (rx_buffer_ring s)).

(** The distance of [sn] from the next one expected. *)
Definition sn_dist (sn : Z) (s : prx_t) : Z :=
  if rx_sn s <=? sn then sn - rx_sn s else 65535 - rx_sn s + sn + 1.

Definition put_el (idx : nat) (e : rx_buffer_info_t) (s : prx_t) : prx_t :=
  s <| rx_buffer_ring := <[idx := e]> (rx_buffer_ring s) |>.

(** The element is given up and its buffer moved to the queue, which leaves an
    empty one behind. *)
Definition hand_out (idx : nat) (e : rx_buffer_info_t) (s : prx_t) : prx_t :=
  put_el idx ((rb_reset e) <| rb_buffer := [] |>) s <| to_rx_queue := to_rx_queue s ++ [rb_buffer e] |>.

(** The [while] loop of [update_rx_sn]. *)
Fixpoint update_loop (fuel : nat) (sn : Z) (fast_forward : bool) (s : prx_t) : res prx_t :=
  match fuel with
  | O => NoFuel
  | S fuel =>
    let dist := sn_dist sn s in
    let idx := rx_buffer_ring_index (rx_sn s) s in
    match rx_buffer_ring s !! idx with
    | None => Ub OutOfBounds
    | Some el =>
      if rb_is_complete el then
        update_loop fuel sn fast_forward (hand_out idx el s <| rx_sn := u16 (rx_sn s + 1) |>)
      else if fast_forward then
        let s := put_el idx (rb_reset el) s <| rx_sn := u16 (rx_sn s + 1) |> in
        if (rx_sn s =? sn) || (dist <? qx_max_sn_distance (prx_cfg s)) then mret s
        else update_loop fuel sn fast_forward s
      else mret s
    end
  end.

(** Every sequence number is passed at most twice. *)
Definition update_fuel : nat := Z.to_nat (2 * 65536 + 2).

Definition update_rx_sn (sn : Z) (fast_forward : bool) (s : prx_t) : res prx_t :=
  if negb (qx_allow_reordering (prx_cfg s)) then
    match rx_buffer_ring s !! 0%nat with
    | None => Ub OutOfBounds
    | Some el => mret (hand_out 0 el s)
    end
  else update_loop update_fuel sn fast_forward s.

(** [std::vector::resize] to a larger size *)
Definition vec_grow (n : Z) (l : list Z) : list Z :=
  if zlen l <? n then l ++ replicate (Z.to_nat (n - zlen l)) 0 else l.

(** A segment put into its element: [src] is the read of its payload, which is
    not done for an offset received before. *)
Definition rb_store (offset size_ : Z) (src : res (list Z)) (last : bool) (e : rx_buffer_info_t)
    : res rx_buffer_info_t :=
  let e := e <| rb_buffer := vec_grow (offset + size_) (rb_buffer e) |> in
  let e := if last
    then e <| rb_expected_size := offset + size_ |> <| rb_has_expected_size := true |> else e in
  if bool_decide (offset ∈ rb_recvd_offsets e) then mret e else
  bs ← src;
  b ← wr_n (rb_buffer e) offset bs;
  mret (e <| rb_buffer := b |> <| rb_recvd_offsets := rb_recvd_offsets e ∪ {[ offset ]} |>
          <| rb_accumulated_size := u64 (rb_accumulated_size e + size_) |>).

(** The part of the loop body of [on_rx] behind the parsing of a segment. The
    result is false where the code leaves the loop. *)
Definition rx_segment (sn offset size_ : Z) (src : res (list Z)) (last : bool) (s : prx_t)
    : res (prx_t * bool) :=
  let s := if rx_sn_synced s then s else (s <| rx_sn_synced := true |>) <| rx_sn := sn |> in
  let dist := sn_dist sn s in
  if bool_of_Z dist && (65535 - dist <=? qx_max_sn_distance (prx_cfg s)) then mret (s, true) else
  let fast_forward := qx_max_sn_distance (prx_cfg s) <? dist in
  if fast_forward && qx_allow_rlf (prx_cfg s)
  then mret (s <| prx_rrc := prx_rrc s ++ [OnRlf (prx_lcid s)] |>, false) else
  let idx := rx_buffer_ring_index sn s in
  match rx_buffer_ring s !! idx with
  | None => Ub OutOfBounds
  | Some el =>
    if rb_is_complete el then mret (s, true) else
    el ← rb_store offset size_ src last el;
    let s := put_el idx el s in
    if rb_is_complete el then s ← update_rx_sn sn fast_forward s; mret (s, true) else mret (s, true)
  end.

(** The [while] loop of [on_rx]. *)
Fixpoint prx_loop (fuel : nat) (m : list Z) (payload_ available_data : Z) (s : prx_t) : res prx_t :=
  match fuel with
  | O => NoFuel
  | S fuel =>
    if available_data =? 0 then mret s else
    let segment := (rescan (segment_make payload_ available_data
                     (qx_allow_reordering (prx_cfg s)) (qx_allow_segmentation (prx_cfg s)))).1 in
    if available_data <=? seg_header_size segment then mret s else
    sn ← (if qx_allow_reordering (prx_cfg s) then seg_get_SN m segment else mret 0);
    total ← seg_get_SIZE m segment;
    if available_data <? total then mret s else
    offset ← (if qx_allow_segmentation (prx_cfg s) then seg_get_OFFSET m segment else mret 0);
    size_ ← seg_get_payload_size m segment;
    last ← seg_is_LAST m segment;
    '(s, go) ← rx_segment sn offset size_ (q ← deref (payload segment); rd_n m q size_) last s;
    if go : bool then prx_loop fuel m (payload_ + total) (u64 (available_data - total)) s else mret s
  end.

(** [on_rx] on the view [(b, n)] of [m]. A segment that is not smaller than its
    header uses up at least two bytes. *)
Definition prx_on_rx (m : list Z) (b n : Z) (s : prx_t) : res prx_t :=
  if negb (is_rx_enabled s) then mret s else
  let pdcp := pdcp_make b n in
  let pdcp := pdcp <| pdcp_iv_size := rx_cipher_iv_size s |> in
  let pdcp := pdcp <| pdcp_hmac_size := rx_hmac_size s |> in
  let pdcp := pdcp_rescan pdcp in
  if n <=? pdcp_header_size pdcp then mret s else
  payload_ ← deref (pdcp_payload pdcp);
  prx_loop (S (Z.to_nat n)) m payload_ (u64 (n - pdcp_header_size pdcp)) s.

(** ** Parsing: a stream of segments is taken one by one *)

Fixpoint rx_all (segs : list seg_val) (s : prx_t) : res prx_t :=
  match segs with
  | [] => mret s
  | v :: segs =>
    let r := qx_allow_reordering (prx_cfg s) in
    let g := qx_allow_segmentation (prx_cfg s) in
    '(s, go) ← rx_segment (if r then v_sn v else 0) (if g then v_off v else 0) (zlen (v_data v))
      (Ok (v_data v)) (v_last v) s;
    if go : bool then rx_all segs s else mret s
  end.

Lemma update_loop_cfg fuel sn ff s s' : update_loop fuel sn ff s = Ok s' -> prx_cfg s' = prx_cfg s.
Proof.
  revert s. induction fuel as [|fuel IH]; intros s; [done|]. simpl.
  repeat case_match; intros H'; try (apply IH in H'; exact H'); by inv_res.
Qed.

Lemma rx_segment_cfg sn off n src last s s' go :
  rx_segment sn off n src last s = Ok (s', go) -> prx_cfg s' = prx_cfg s.
Proof.
  unfold rx_segment. set (s0 := if rx_sn_synced s then s else _).
  assert (prx_cfg s0 = prx_cfg s) as <- by (unfold s0; by destruct (rx_sn_synced s)).
  destruct (bool_of_Z _ && _); [intros [= <- <-]; done|].
  destruct (_ && qx_allow_rlf _); [intros [= <- <-]; done|].
  destruct (rx_buffer_ring s0 !! _) as [el|]; [|done].
  destruct (rb_is_complete el); [intros [= <- <-]; done|]. intros H. inv_res.
  destruct (rb_is_complete a); [|by inv_res]. inv_res.
  unfold update_rx_sn in E0. destruct (negb _).
  - destruct (rx_buffer_ring _ !! 0%nat); [|done]. by inv_res.
  - by apply update_loop_cfg in E0.
Qed.

(** Segments with a payload are taken as [rx_all] does. *)
Lemma rx_loop_segs fuel m p segs s :
  let r := qx_allow_reordering (prx_cfg s) in
  let g := qx_allow_segmentation (prx_cfg s) in
  segs_ok r g segs -> segs_at m p r g segs -> (length segs < fuel)%nat ->
  prx_loop fuel m p (zlen (segs_enc r g segs)) s = rx_all segs s.
Proof.
  revert fuel p s. induction segs as [|v segs IH]; intros [|fuel] p s r g Hok Hat Hf;
    [simpl in Hf; lia|done|simpl in Hf; lia|].
  pose proof (segs_head m p r g v segs Hok Hat) as [H1 H2 H3 H4 H5 H6 H7 H8 H9 H10 H11].
  apply Forall_cons_1 in Hok as [_ Hok]. pose proof (hdr_len_range r g).
  pose proof (zlen_nonneg (segs_enc r g segs)).
  cbn [prx_loop]. rewrite (proj2 (Z.eqb_neq _ 0)) by lia. fold r g. rewrite H3.
  change (seg_header_size _) with (hdr_len r g). rewrite (proj2 (Z.leb_gt _ _)) by lia.
  rewrite H7, bind_ret_l, H4, bind_ret_l, (proj2 (Z.ltb_ge _ _)) by lia.
  rewrite H8, bind_ret_l, H5, bind_ret_l, H6, bind_ret_l, H9.
  cbn [rx_all]. fold r g.
  destruct (rx_segment _ _ _ _ _ s) as [[s' go]| | |] eqn:E; try done. rewrite !bind_ret_l.
  destruct go; [|done]. apply rx_segment_cfg in E. rewrite H10.
  unfold r, g in *. rewrite <- E in *. apply IH; try done. simpl in Hf. lia.
Qed.

(** [on_rx] on a stream of segments. *)
Lemma on_rx_segs m b segs s :
  let r := qx_allow_reordering (prx_cfg s) in
  let g := qx_allow_segmentation (prx_cfg s) in
  rx_cipher_iv_size s = 0 -> rx_hmac_size s = 0 -> is_rx_enabled s = true ->
  segs <> [] -> segs_ok r g segs -> segs_at m b r g segs ->
  prx_on_rx m b (zlen (segs_enc r g segs)) s = rx_all segs s.
Proof.
  intros r g Hiv Hh Hon Hne Hok Hat. pose proof Hat as (Hb & Hl & Hu & Hs). unfold prx_on_rx. rewrite Hon, Hiv, Hh. cbn [negb].
  pose proof (segs_enc_length r g segs) as Hlen. destruct segs as [|v segs]; [done|].
  change (pdcp_header_size _) with 0. simpl length in Hlen.
  rewrite (proj2 (Z.leb_gt _ _)) by lia. change (deref _) with (Ok b). rewrite bind_ret_l.
  rewrite Z.sub_0_r, u64_id by ulia. apply rx_loop_segs; try done. simpl length. lia.
Qed.
