(* ===== verification/Pdcp.v ===== *)
(** * The class [PDCP] ([winject/src/PDCP.hpp], [PDCP.cpp])

    The two sides together, as an implementation of the interface [Ipdcp] the
    LLC is written against. *)

From S2P Require Import Prelude Mem SafeInt SafeChecker PdcpSegment PdcpUl Info PdcpTx PdcpRx.

Record pdcp := Pdcp { p_tx : ptx_t; p_rx : prx_t }.

Definition pdcp_new (lcid : Z) (tx : ptx_config) (rx : prx_config) : pdcp := Pdcp (ptx_new lcid tx) (prx_new lcid rx).

#[export] Instance pdcp_ipdcp : Ipdcp pdcp := {
  pdcp_on_tx m info p := '(m, info, s) ← ptx_on_tx m info (p_tx p); mret (m, info, Pdcp s (p_rx p));
  pdcp_on_rx m b n p := s ← prx_on_rx m b n (p_rx p); mret (Pdcp (p_tx p) s) }.

(** The transmit side keeps the promise of the interface if it numbers its
    frames; without reordering it cannot send. *)
Definition pdcp_sound (p : pdcp) : Prop := ptx_inv (p_tx p) /\ px_allow_reordering (ptx_cfg (p_tx p)) = true.

Lemma pdcp_sound_tx m info p :
  pdcp_sound p -> tx_view_ok m info ->
  exists m' k av p', pdcp_on_tx m info p =
      Ok (m', info <| out_allocated := out_allocated info + k |> <| out_tx_available := av |>, p') /\
    pdcp_sound p' /\ bytes_ok m' /\ 0 <= k <= pdu_size (out_pdu info) /\
    same_outside (pdu_base (out_pdu info)) (pdu_size (out_pdu info)) m m'.
Proof.
  intros [Hi Hr] (Hv & Hn & Ha & Hu). pose proof Hv as (_ & _ & _ & H0 & _).
  destruct (ptx_on_tx_spec m info (p_tx p) Hv Hn Hi Hr Ha Hu) as (m' & info' & s' & E & HO & Hm & Hcase).
  cbn [pdcp_on_tx pdcp_ipdcp]. rewrite E, bind_ret_l. set (n := pdu_size (out_pdu info)) in *.
  assert (forall k frames, ptx_report info k frames =
    info <| out_allocated := out_allocated info + k |> <| out_tx_available := negb (bool_decide (frames = [])) |>) as Hrep by done.
  destruct (negb (is_tx_enabled (p_tx p))).
  - destruct Hcase as (-> & -> & ->). exists m, 0, (out_tx_available info), (Pdcp (p_tx p) (p_rx p)).
    split; [do 3 f_equal; unfold upd; cbn; rewrite Z.add_0_r; by destruct info|]. split_and!; done || lia.
  - destruct (_ || _ || _).
    + destruct Hcase as (-> & -> & ->). rewrite Hrep. eexists m, 0, _, (Pdcp (p_tx p) (p_rx p)).
      split; [done|]. split_and!; done || lia.
    + destruct Hcase as (Hle & _ & Hp & ->). rewrite Hrep. set (bs := segs_enc _ _ _) in *.
      eexists m', (zlen bs), _, (Pdcp s' (p_rx p)). split; [done|]. split; [|split_and!; try done; apply zlen_nonneg].
      split; [apply (sp_inv _ _ _ Hp)|]. cbn. by rewrite (sp_cfg _ _ _ Hp).
Qed.

#[export] Instance pdcp_laws : IpdcpLaws pdcp := { pdcp_ok := pdcp_sound; pdcp_on_tx_ok := pdcp_sound_tx }.
