(* ===== verification/PdcpRxOrder.v ===== *)
(** * In-order delivery by the receive side of [PDCP]

    The contract of [PdcpRx], the same as that of the other downlink: as long
    as the segments that arrive belong to the window of [max_sn_distance]
    frames, or are late ones from just before it, the frames come out whole,
    once, and in the order they were sent.

    The element of a frame simulates the reassembly state of [PdcpDl], whose
    lemmas are used: its buffer is that state's storage with zeros for the
    bytes not yet written. *)

From stdpp Require Import gmap.
From S2P Require Import Prelude Mem SafeInt SafeChecker PdcpSegment PdcpDl PdcpOrder Info PdcpRx.

(** ** An element simulates a reassembly state *)

Definition el_of (st : reassembly_state_t) : rx_buffer_info_t :=
  RxBufferInfo (has_expected_size st) (accumulated_size st) (expected_size st) (recvd_offsets st)
    (map (default 0) (sb_storage (rs_buffer st))).

Definition el_ok (F : list Z) (segs : list seg_val) (R : gset Z) (e : rx_buffer_info_t) : Prop :=
  exists st, reasm F segs R st /\ e = el_of st.

Lemma el_ok_init F segs : el_ok F segs ∅ rb_init.
Proof. exists reassembly_init. split; [apply reasm_init|done]. Qed.

Lemma map_splice {A B} (f : A -> B) l i bs : map f (splice l i bs) = splice (map f l) i (map f bs).
Proof. unfold splice. by rewrite !map_app, firstn_map, skipn_map, length_map. Qed.

Lemma vec_grow_storage n (l : list (option Z)) :
  vec_grow n (map (default 0) l) = map (default 0) (l ++ replicate (Z.to_nat (n - zlen l)) None).
Proof.
  unfold vec_grow. rewrite zlen_map, map_app. destruct (Z.ltb_spec (zlen l) n).
  - by rewrite fmap_replicate.
  - replace (Z.to_nat (n - zlen l)) with 0%nat by lia. simpl. by rewrite app_nil_r.
Qed.

Section Element.
Context (F : list Z) (segs : list seg_val) (C : cuts F segs) (HF : is_u64 (zlen F)).

Lemma el_complete R e :
  el_ok F segs R e -> segs <> [] ->
  (rb_is_complete e = true <-> forall v, v ∈ segs -> v_off v ∈ R) /\
  (rb_is_complete e = true -> rb_buffer e = F).
Proof.
  intros (st & Hra & ->) Hne. destruct (reasm_complete F segs C R st Hra Hne) as [H1 H2].
  assert (rb_is_complete (el_of st) = is_complete st) as ->.
  { rewrite (ra_complete _ _ _ _ Hra). unfold rb_is_complete, el_of. cbn. by rewrite Z.eqb_sym. }
  split; [done|]. intros [E _]%H2. unfold el_of. cbn. rewrite E. cbn. rewrite map_map. apply map_id.
Qed.

Lemma el_store R e v :
  v ∈ segs -> el_ok F segs R e -> rb_is_complete e = false ->
  exists e', rb_store (v_off v) (zlen (v_data v)) (Ok (v_data v)) (v_last v) e = Ok e' /\
    el_ok F segs (R ∪ {[ v_off v ]}) e'.
Proof.
  intros Hv (st & Hra & ->) Hc. destruct (ct_in _ _ C v Hv) as (Ho & Hp%data_pos & Hl).
  unfold rb_store, upd. cbv zeta.
  change (rb_buffer (el_of st)) with (map (default 0) (sb_storage (rs_buffer st))).
  rewrite vec_grow_storage.
  destruct (decide (v_off v ∈ R)) as [HR|HR].
  - exists (el_of st). split.
    2:{ exists st. split; [|done]. rewrite (comm_L (∪)), subseteq_union_1_L by (by apply singleton_subseteq_l). done. }
    pose proof (reasm_recvd_cap F segs C R st v Hra Hv HR) as Hcap.
    replace (Z.to_nat _) with 0%nat by (unfold sb_capacity in Hcap; lia). rewrite app_nil_r.
    assert (v_off v ∈ recvd_offsets st) as HR' by by rewrite (ra_recvd _ _ _ _ Hra).
    destruct (v_last v) eqn:EL; cbn; rewrite bool_decide_true by done; [|done].
    assert (has_expected_size st = true) as Hh by (apply (ra_expected _ _ _ _ Hra); eauto).
    destruct (ra_value _ _ _ _ Hra Hh) as [E1 _].
    pose proof (ct_last _ _ C v Hv) as HL. rewrite EL in HL. symmetry in HL. apply Z.eqb_eq in HL.
    unfold el_of. by rewrite Hh, E1, HL.
  - exists (el_of (reasm_add R st v)). split.
    2:{ eexists. split; [by apply new_reasm|done]. }
    pose proof (new_bounds F segs C R st v Hv Hra) as (_ & _ & HB1 & HB2).
    pose proof (zlen_grown F segs C R st v Hv Hra) as Hg.
    pose proof (new_count F segs C R st v Hv Hra HR) as Hcnt.
    pose proof (filled_le (splice (sb_storage (rs_buffer st) ++
      replicate (Z.to_nat (v_off v + zlen (v_data v) - sb_capacity (rs_buffer st))) None) (v_off v) (map Some (v_data v)))) as Hle.
    rewrite zlen_splice, Hg, Hcnt in Hle by (rewrite ?zlen_map, ?Hg; lia).
    assert (0 <= accumulated_size st) as Hacc.
    { rewrite (ra_count _ _ _ _ Hra). apply filled_le. }
    assert (forall sto, zlen sto = Z.max (v_off v + zlen (v_data v)) (sb_capacity (rs_buffer st)) ->
      wr_n (map (default 0) sto) (v_off v) (v_data v) =
      Ok (map (default 0) (splice sto (v_off v) (map Some (v_data v))))) as Hwr.
    { intros sto Hsto. rewrite wr_n_in by (rewrite ?zlen_map; lia). f_equal.
      rewrite map_splice, map_map. f_equal. symmetry. apply map_id. }
    unfold reasm_add, el_of.
    assert (v_off v ∉ recvd_offsets st) as HR' by by rewrite (ra_recvd _ _ _ _ Hra).
    rewrite <- (ra_recvd _ _ _ _ Hra).
    destruct (v_last v) eqn:EL; cbn; rewrite bool_decide_false by done;
      rewrite Hwr by (exact Hg); unfold mret, res_ret; rewrite bind_ret_l, u64_id by ulia; done.
Qed.
End Element.

(** ** The invariant *)

Section Order.
Context (g : bool) (fs : list (list Z)) (segs : nat -> list seg_val) (D : Z).
Context (Hs : sender_ok true g fs segs) (HD : 0 <= D <= 8190).

Abbreviation slot := (slot_of 8192).
Definition window (d i : nat) : Prop := (d <= i)%nat /\ Z.of_nat i <= Z.of_nat d + D.

(** Frames below [d] have been handed out, those in [out] have been read too;
    of the later ones the segments [R] are in the elements of the ring, and
    every other element is as good as new. *)
Record rx_inv (d : nat) (R : nat -> gset Z) (s : prx_t) (out : list (list Z)) : Prop := RxInv {
  ri_cfg : qx_allow_reordering (prx_cfg s) = true /\ qx_allow_segmentation (prx_cfg s) = g /\
    qx_max_sn_distance (prx_cfg s) = D;
  ri_on : is_rx_enabled s = true /\ rx_cipher_iv_size s = 0 /\ rx_hmac_size s = 0 /\ prx_rrc s = [];
  ri_len : length (rx_buffer_ring s) = Z.to_nat 8192;
  ri_sync : rx_sn_synced s = true \/ (d = 0%nat /\ forall i, R i = ∅);
  ri_sn : rx_sn s = u16 (Z.of_nat d);
  ri_d : (d <= length fs)%nat;
  ri_done : forall i, (i < d)%nat -> received segs R i;
  ri_out : out ++ to_rx_queue s = take d fs;
  ri_slot : forall i F, window d i -> fs !! i = Some F ->
    exists el, rx_buffer_ring s !! slot i = Some el /\ el_ok F (segs i) (R i) el;
  ri_rest : forall k el, rx_buffer_ring s !! k = Some el ->
    (forall i, window d i -> (i < length fs)%nat -> slot i <> k) -> el = rb_init;
  ri_none : forall i, Z.of_nat d + D < Z.of_nat i -> R i = ∅ }.

Lemma window_slot_inj d i j : window d i -> window d j -> slot i = slot j -> i = j.
Proof. intros [] [] E. eapply (window_slot 8192 ltac:(lia) eq_refl d); try done; lia. Qed.

Lemma ring_slot_lt i : (slot i < Z.to_nat 8192)%nat.
Proof. pose proof (slot_of_lt 8192 ltac:(lia) i). lia. Qed.

Lemma ring_index d R s out i :
  rx_inv d R s out -> rx_buffer_ring_index (u16 (Z.of_nat i)) s = slot i.
Proof.
  intros HI. unfold rx_buffer_ring_index, zlen. rewrite (ri_len _ _ _ _ HI), Z2Nat.id by lia.
  by rewrite (slot_of_sn 8192 ltac:(lia) eq_refl).
Qed.

Lemma frame_facts i F : fs !! i = Some F ->
  cuts F (segs i) /\ is_u64 (zlen F) /\ segs i <> [].
Proof.
  intros HF. pose proof (so_cuts _ _ _ _ Hs i F HF) as C. split; [done|]. split.
  - pose proof (so_total _ _ _ _ Hs) as Ht. apply list_elem_of_split_length in HF as (l1 & l2 & -> & _).
    rewrite concat_app in Ht. cbn [concat] in Ht. rewrite !zlen_app in Ht.
    pose proof (zlen_nonneg (concat l1)). pose proof (zlen_nonneg (concat l2)).
    pose proof (zlen_nonneg F). ulia.
  - destruct (ct_cover _ _ C 0) as (w & Hw & _); [pose proof (so_len _ _ _ _ Hs i F HF); lia|].
    intros E. rewrite E in Hw. by apply elem_of_nil in Hw.
Qed.

(** The distance of a frame from the next one expected. *)
Lemma sn_dist_window d R s out i :
  rx_inv d R s out -> window d i -> sn_dist (u16 (Z.of_nat i)) s = Z.of_nat i - Z.of_nat d.
Proof. intros HI []. unfold sn_dist. rewrite (ri_sn _ _ _ _ HI). case_Z; ulia. Qed.

Lemma sn_dist_late d R s out i :
  rx_inv d R s out -> (i < d)%nat -> Z.of_nat d <= Z.of_nat i + D + 1 ->
  sn_dist (u16 (Z.of_nat i)) s = 65536 - (Z.of_nat d - Z.of_nat i).
Proof. intros HI ??. unfold sn_dist. rewrite (ri_sn _ _ _ _ HI). case_Z; ulia. Qed.

(** *** The loop that hands out *)

Fixpoint count_complete (l : list rx_buffer_info_t) : nat :=
  match l with [] => O | e :: l => (Nat.b2n (rb_is_complete e) + count_complete l)%nat end.

Lemma count_complete_put l k e :
  l !! k = Some e -> rb_is_complete e = true -> count_complete l = S (count_complete (<[k := rb_init]> l)).
Proof.
  revert k. induction l as [|x l IH]; intros [|k] Hk He; try done; simpl in *.
  - injection Hk as ->. by rewrite He.
  - rewrite (IH k) by done. lia.
Qed.

Lemma count_complete_le l : (count_complete l <= length l)%nat.
Proof. induction l as [|x l IH]; simpl; [done|]. destruct (rb_is_complete x); simpl; lia. Qed.

(** Frame [d] is handed out: the window moves by one. *)
Lemma rx_inv_next d R s out F el :
  rx_inv d R s out -> rx_sn_synced s = true -> fs !! d = Some F -> rx_buffer_ring s !! slot d = Some el ->
  received segs R d -> rb_buffer el = F ->
  rx_inv (S d) R (hand_out (slot d) el s <| rx_sn := u16 (u16 (Z.of_nat d) + 1) |>) out.
Proof.
  intros [Hc Ho Hl Hy Hn Hd Hdone Hout Hslot Hrest Hnone] Hsy HF Hk Hrec HB.
  pose proof (lookup_lt_Some _ _ _ HF) as Hlt.
  assert (slot d < length (rx_buffer_ring s))%nat as Hsl by (rewrite Hl; apply ring_slot_lt).
  constructor; unfold hand_out, put_el, upd; cbn; try done.
  - by rewrite length_insert.
  - by left.
  - ulia.
  - intros j Hj. destruct (decide (j = d)) as [->|]; [done|]. apply Hdone. lia.
  - rewrite app_assoc, Hout, HB. by rewrite (take_S_r _ _ _ HF).
  - intros i Fi [Hi1 Hi2] HFi. destruct (decide (slot i = slot d)) as [E|Hne].
    { exfalso. assert (i = d); [|lia]. eapply (window_slot 8192 ltac:(lia) eq_refl d); try done; lia. }
    rewrite list_lookup_insert_ne by done.
    destruct (decide (Z.of_nat i <= Z.of_nat d + D)) as [Hin|Hout'].
    { apply Hslot; [split; lia|done]. }
    destruct (lookup_lt_is_Some_2 (rx_buffer_ring s) (slot i)) as [e He]; [rewrite Hl; apply ring_slot_lt|].
    exists e. split; [done|]. rewrite (Hnone i) by lia. assert (e = rb_init) as ->; [|apply el_ok_init].
    apply (Hrest _ _ He). intros j [Hj1 Hj2] Hjl E. assert (j = i); [|lia].
    eapply (window_slot 8192 ltac:(lia) eq_refl d); try done; lia.
  - intros k e Hk' Hall. destruct (decide (k = slot d)) as [->|Hne].
    + rewrite list_lookup_insert_eq in Hk' by done. by injection Hk' as <-.
    + rewrite list_lookup_insert_ne in Hk' by done. apply (Hrest _ _ Hk').
      intros i [Hi1 Hi2] Hil. destruct (decide (i = d)) as [->|]; [done|]. apply Hall; [split; lia|done].
  - intros i Hi. apply Hnone. lia.
Qed.

Lemma update_inv fuel d R s out sn :
  rx_inv d R s out -> rx_sn_synced s = true -> (count_complete (rx_buffer_ring s) < fuel)%nat ->
  exists d' s', update_loop fuel sn false s = Ok s' /\ rx_inv d' R s' out /\ front fs segs R d' /\
    rx_sn_synced s' = true.
Proof.
  revert d s. induction fuel as [|fuel IH]; intros d s HI Hsy Hf; [lia|].
  cbn [update_loop]. rewrite (ri_sn _ _ _ _ HI), (ring_index d R s out d HI).
  pose proof (ri_d _ _ _ _ HI) as Hd.
  assert (forall el, rx_buffer_ring s !! slot d = Some el -> rb_is_complete el = false ->
    (forall F, fs !! d = Some F -> el_ok F (segs d) (R d) el) -> front fs segs R d) as Hfront.
  { intros el Hk Hc Hel. split; [done|]. split; [apply (ri_done _ _ _ _ HI)|]. intros Hlt Hrec.
    destruct (lookup_lt_is_Some_2 fs d Hlt) as [F HF]. destruct (frame_facts d F HF) as (C & HFu & Hne).
    apply (el_complete F (segs d) C (R d) el (Hel F HF) Hne) in Hrec. congruence. }
  destruct (decide (d < length fs)%nat) as [Hlt|Hge].
  - destruct (lookup_lt_is_Some_2 fs d Hlt) as [F HF]. destruct (frame_facts d F HF) as (C & HFu & Hne).
    destruct (ri_slot _ _ _ _ HI d F) as (el & Hk & Hel); [split; lia|done|]. rewrite Hk.
    destruct (rb_is_complete el) eqn:Ec.
    + destruct (el_complete F (segs d) C (R d) el Hel Hne) as [HC1 HC2].
      pose proof (rx_inv_next d R s out F el HI Hsy HF Hk (proj1 HC1 Ec) (HC2 Ec)) as HN.
      apply IH in HN; [exact HN|exact Hsy|]. unfold hand_out, put_el, upd. cbn [rx_buffer_ring].
      rewrite (count_complete_put _ _ _ Hk Ec) in Hf. unfold rb_reset, rb_init in *. simpl in *. lia.
    + exists d, s. split_and!; try done. apply (Hfront el); try done. intros F' HF'. congruence.
  - destruct (lookup_lt_is_Some_2 (rx_buffer_ring s) (slot d)) as [el Hk];
      [rewrite (ri_len _ _ _ _ HI); apply ring_slot_lt|]. rewrite Hk.
    assert (el = rb_init) as ->.
    { apply (ri_rest _ _ _ _ HI _ _ Hk). intros i [Hi _] Hil. lia. }
    cbn. exists d, s. split_and!; try done. apply (Hfront rb_init); try done.
    intros F HF. apply lookup_lt_Some in HF. lia.
Qed.

(** *** One segment *)

Definition in_window (R : nat -> gset Z) (i : nat) (v : seg_val) : Prop :=
  (i < length fs)%nat /\ v ∈ segs i /\ ((forall j, R j = ∅) -> i = 0%nat) /\
  forall d, front fs segs R d -> Z.of_nat i <= Z.of_nat d + D /\ Z.of_nat d <= Z.of_nat i + D + 1.

Lemma rx_inv_ext d R R' s out : (forall j, R j = R' j) -> rx_inv d R s out -> rx_inv d R' s out.
Proof.
  intros E [Hc Ho Hl Hy Hn Hd Hdone Hout Hslot Hrest Hnone]. constructor; try done.
  - destruct Hy as [|[? Hy]]; [by left|right; split; [done|]]. intros i. by rewrite <- E.
  - intros i Hi v Hv. rewrite <- E. by apply Hdone.
  - intros i F Hi HF. rewrite <- E. by apply Hslot.
  - intros i Hi. rewrite <- E. by apply Hnone.
Qed.

Lemma front_ext R R' d : (forall j, R j = R' j) -> front fs segs R d -> front fs segs R' d.
Proof.
  intros E (H1 & H2 & H3). split; [done|]. split.
  - intros j Hj v Hv. rewrite <- E. by apply H2.
  - intros Hlt Hr. apply H3; [done|]. intros v Hv. rewrite E. by apply Hr.
Qed.

(** A segment received before adds nothing. *)
Lemma Radd_same R i v : v_off v ∈ R i -> forall j, R j = Radd R (i, v) j.
Proof.
  intros H j. destruct (decide (j = i)) as [->|Hne].
  - pose proof (Radd_eq R (i, v)) as HX. cbn [fst snd] in HX. rewrite HX.
    symmetry. rewrite (comm_L (∪)). apply subseteq_union_1_L. by apply singleton_subseteq_l.
  - by rewrite Radd_ne.
Qed.

Lemma rx_inv_put d R s out i v F el' :
  rx_inv d R s out -> rx_sn_synced s = true -> window d i -> fs !! i = Some F ->
  el_ok F (segs i) (R i ∪ {[ v_off v ]}) el' ->
  rx_inv d (Radd R (i, v)) (put_el (slot i) el' s) out.
Proof.
  intros [Hc Ho Hl Hy Hn Hd Hdone Hout Hslot Hrest Hnone] Hsy Hw HF Hel.
  pose proof (lookup_lt_Some _ _ _ HF) as Hlt.
  pose proof (Radd_eq R (i, v)) as HX. cbn [fst snd] in HX.
  assert (slot i < length (rx_buffer_ring s))%nat as Hsl by (rewrite Hl; apply ring_slot_lt).
  constructor; unfold put_el, upd; cbn; try done.
  - by rewrite length_insert.
  - by left.
  - intros j Hj w Hv. apply (Radd_mono R (i, v) j). by apply Hdone.
  - intros j Fj Hj HFj. destruct (decide (j = i)) as [->|Hne].
    + assert (Fj = F) as -> by congruence. exists el'. by rewrite list_lookup_insert_eq, HX.
    + rewrite list_lookup_insert_ne; [rewrite Radd_ne by done; by apply Hslot|].
      intros E. apply Hne. by eapply window_slot_inj.
  - intros k e Hk Hall. rewrite list_lookup_insert_ne in Hk by (by apply Hall). by apply (Hrest k).
  - intros j Hj. rewrite Radd_ne; [by apply Hnone|]. simpl. intros ->. destruct Hw. lia.
Qed.

(** The first segment of all sets the sequence number to start from. *)
Lemma rx_inv_sync d R s out i v :
  rx_inv d R s out -> in_window R i v ->
  let s0 := if rx_sn_synced s then s else (s <| rx_sn_synced := true |>) <| rx_sn := u16 (Z.of_nat i) |> in
  rx_inv d R s0 out /\ rx_sn_synced s0 = true.
Proof.
  intros HI (_ & _ & H0 & _). destruct (rx_sn_synced s) eqn:E; [done|].
  destruct (ri_sync _ _ _ _ HI) as [?|[-> HR]]; [congruence|]. rewrite (H0 HR). split; [|done].
  destruct HI. constructor; try done. by left.
Qed.

Lemma segment_inv d R s out i v :
  rx_inv d R s out -> front fs segs R d -> in_window R i v ->
  exists d' s', rx_segment (v_sn v) (if g then v_off v else 0) (zlen (v_data v)) (Ok (v_data v)) (v_last v) s =
      Ok (s', true) /\ rx_inv d' (Radd R (i, v)) s' out /\ front fs segs (Radd R (i, v)) d'.
Proof.
  intros HI Hfr Hw. destruct (rx_inv_sync d R s out i v HI Hw) as [HI0 Hsy0].
  destruct Hw as (Hlt & Hv & _ & Hwin). destruct (Hwin d Hfr) as [W1 W2]. clear Hwin.
  destruct (lookup_lt_is_Some_2 fs i Hlt) as [F HF]. destruct (frame_facts i F HF) as (C & HFu & Hne).
  unfold rx_segment. rewrite (so_sn _ _ _ _ Hs i v Hv). set (s0 := if rx_sn_synced s then s else _) in *.
  replace (if g then v_off v else 0) with (v_off v)
    by (destruct g eqn:Eg; [done|]; by apply (so_off _ _ _ _ Hs i v Hv)).
  pose proof (ri_cfg _ _ _ _ HI0) as (Hr & Hg & HDc). rewrite HDc.
  assert (v_off v ∈ R i -> exists d' s', Ok (s0, true) = Ok (s', true) /\
    rx_inv d' (Radd R (i, v)) s' out /\ front fs segs (Radd R (i, v)) d') as Hsame.
  { intros HR. exists d, s0. split; [done|]. pose proof (Radd_same R i v HR).
    split; [by apply (rx_inv_ext d R)|by apply (front_ext R)]. }
  destruct (decide (i < d)%nat) as [Hid|Hid].
  { rewrite (sn_dist_late d R s0 out i) by (done || lia).
    unfold bool_of_Z. rewrite (proj2 (Z.eqb_neq _ 0)), (proj2 (Z.leb_le _ D)) by lia.
    apply Hsame. by apply (ri_done _ _ _ _ HI). }
  assert (window d i) as Hin by (split; lia).
  rewrite (sn_dist_window d R s0 out i) by done.
  replace (bool_of_Z _ && _) with false
    by (symmetry; apply andb_false_iff; right; apply Z.leb_gt; lia).
  rewrite (proj2 (Z.ltb_ge D _)) by lia. cbn [andb]. rewrite (ring_index d R s0 out i HI0).
  destruct (ri_slot _ _ _ _ HI0 i F Hin HF) as (el & Hk & Hel). rewrite Hk.
  destruct (rb_is_complete el) eqn:Ec.
  { apply Hsame. by apply (el_complete F (segs i) C (R i) el Hel Hne). }
  destruct (el_store F (segs i) C HFu (R i) el v Hv Hel Ec) as (el' & -> & Hel'). rewrite bind_ret_l.
  pose proof (rx_inv_put d R s0 out i v F el' HI0 Hsy0 Hin HF Hel') as HP.
  destruct (rb_is_complete el') eqn:Ec'.
  - unfold update_rx_sn. change (prx_cfg (put_el _ _ _)) with (prx_cfg s0). rewrite Hr. cbn [negb].
    destruct (update_inv update_fuel d _ _ out (u16 (Z.of_nat i)) HP Hsy0) as (d' & s' & -> & HI' & Hf' & _).
    { pose proof (count_complete_le (rx_buffer_ring (put_el (slot i) el' s0))) as Hle.
      rewrite (ri_len _ _ _ _ HP) in Hle. unfold update_fuel. lia. }
    rewrite bind_ret_l. by exists d', s'.
  - exists d, (put_el (slot i) el' s0). split; [done|]. split; [done|].
    destruct Hfr as (Hd & Hdone & Hnot). split; [done|]. split.
    + intros j Hj w Hwj. apply (Radd_mono R (i, v) j). by apply Hdone.
    + intros Hdl Hrec. destruct (decide (d = i)) as [->|Hne'].
      * assert (rb_is_complete el' = true); [|congruence].
        apply (el_complete F (segs i) C (R i ∪ {[ v_off v ]}) el' Hel' Hne).
        intros w Hwi. specialize (Hrec w Hwi). pose proof (Radd_eq R (i, v)) as HX.
        cbn [fst snd] in HX. by rewrite HX in Hrec.
      * apply Hnot; [done|]. intros w Hwd. specialize (Hrec w Hwd). by rewrite Radd_ne in Hrec.
Qed.

(** *** Histories *)

(** The LLC hands over a PDU, or the application reads. *)
Inductive rx_event := EvPdu (pdu : list (nat * seg_val)) | EvRead.

Definition rx_step (e : rx_event) (x : prx_t * list (list Z)) : res (prx_t * list (list Z)) :=
  match e with
  | EvPdu pdu =>
    let bs := segs_enc true g (map snd pdu) in
    s ← prx_on_rx bs 0 (zlen bs) x.1; mret (s, x.2)
  | EvRead =>
    let '(s, b) := to_rx x.1 in
    mret (s, if decide (to_rx_queue x.1 = []) then x.2 else x.2 ++ [b])
  end.

Fixpoint rx_run (evs : list rx_event) (x : prx_t * list (list Z)) : res (prx_t * list (list Z)) :=
  match evs with [] => mret x | e :: evs => x ← rx_step e x; rx_run evs x end.

(** Every segment is in the window of the moment it arrives, or late by at
    most [D + 1] frames; the first of all is one of the first frame. *)
Fixpoint pdu_window (R : nat -> gset Z) (pdu : list (nat * seg_val)) : Prop :=
  match pdu with
  | [] => True
  | (i, v) :: pdu => in_window R i v /\ pdu_window (Radd R (i, v)) pdu
  end.

Definition rx_recv (e : rx_event) (R : nat -> gset Z) : nat -> gset Z :=
  match e with EvPdu pdu => foldl Radd R pdu | EvRead => R end.
Definition rx_recv_all (evs : list rx_event) (R : nat -> gset Z) : nat -> gset Z :=
  foldl (fun R e => rx_recv e R) R evs.

Fixpoint rx_history_ok (R : nat -> gset Z) (evs : list rx_event) : Prop :=
  match evs with
  | [] => True
  | e :: evs =>
    match e with
    | EvPdu pdu => pdu <> [] /\ is_u64 (zlen (segs_enc true g (map snd pdu))) /\ pdu_window R pdu
    | EvRead => True
    end /\ rx_history_ok (rx_recv e R) evs
  end.

Lemma rx_all_inv pdu d R s out :
  rx_inv d R s out -> front fs segs R d -> pdu_window R pdu ->
  exists d' s', rx_all (map snd pdu) s = Ok s' /\ rx_inv d' (foldl Radd R pdu) s' out /\
    front fs segs (foldl Radd R pdu) d'.
Proof.
  revert d R s. induction pdu as [|[i v] pdu IH]; intros d R s HI Hf Hp; [by exists d, s|].
  destruct Hp as [Hw Hp]. destruct (segment_inv d R s out i v HI Hf Hw) as (d1 & s1 & E1 & HI1 & Hf1).
  pose proof (ri_cfg _ _ _ _ HI) as (Hr & Hg & _).
  cbn [map snd rx_all foldl]. rewrite Hr, Hg, E1, bind_ret_l. by apply (IH d1).
Qed.

Lemma pdu_window_in R pdu : pdu_window R pdu -> forall i v, (i, v) ∈ pdu -> (i < length fs)%nat /\ v ∈ segs i.
Proof.
  revert R. induction pdu as [|[j w] pdu IH]; intros R Hp i v Hv; [by apply elem_of_nil in Hv|].
  destruct Hp as [(? & ? & _) Hp]. apply elem_of_cons in Hv as [[= -> ->]|Hv]; [done|by eapply IH].
Qed.

Lemma rx_step_inv e d R s out :
  rx_inv d R s out -> front fs segs R d -> rx_history_ok R [e] ->
  exists d' s' out', rx_step e (s, out) = Ok (s', out') /\ rx_inv d' (rx_recv e R) s' out' /\
    front fs segs (rx_recv e R) d'.
Proof.
  intros HI Hf [He _]. destruct e as [pdu|]; cbn [rx_step rx_recv fst snd] in *.
  - destruct He as (Hne & Hu & Hp).
    destruct (rx_all_inv pdu d R s out HI Hf Hp) as (d' & s' & E & HI' & Hf').
    exists d', s', out. split; [|done]. pose proof (ri_cfg _ _ _ _ HI) as (Hr & Hg & _).
    pose proof (ri_on _ _ _ _ HI) as (Hon & Hiv & Hhm & _).
    pose proof (on_rx_segs (segs_enc true g (map snd pdu)) 0 (map snd pdu) s) as HX. cbv zeta in HX.
    rewrite Hr, Hg in HX. rewrite HX, E; try done; [by destruct pdu| |].
    + apply Forall_map, list.Forall_forall. intros [i v] [Hi Hv]%(pdu_window_in R pdu Hp). cbn.
      split; [by apply (so_enc _ _ _ _ Hs i)|].
      destruct (lookup_lt_is_Some_2 fs i Hi) as [F HF].
      apply (ct_in _ _ (so_cuts _ _ _ _ Hs i F HF) v Hv).
    + split; [done|]. split; [lia|]. split; [done|]. apply slice_all.
  - unfold to_rx. pose proof HI as [Hc Ho Hl Hy Hn Hd Hdone Hout Hslot Hrest Hnone].
    destruct (to_rx_queue s) as [|b q] eqn:E.
    + exists d, s, out. rewrite decide_True by done. done.
    + eexists d, _, (out ++ [b]). rewrite decide_False by done. split; [done|]. split; [|done].
      constructor; try done. cbn. by rewrite <- app_assoc.
Qed.

Lemma rx_run_inv evs d R s out :
  rx_inv d R s out -> front fs segs R d -> rx_history_ok R evs ->
  exists d' s' out', rx_run evs (s, out) = Ok (s', out') /\ rx_inv d' (rx_recv_all evs R) s' out' /\
    front fs segs (rx_recv_all evs R) d'.
Proof.
  revert d R s out. induction evs as [|e evs IH]; intros d R s out HI Hf Hh; [by exists d, s, out|].
  destruct Hh as [He Hh]. destruct (rx_step_inv e d R s out HI Hf (conj He I)) as (d1 & s1 & out1 & E1 & HI1 & Hf1).
  cbn [rx_run]. rewrite E1, bind_ret_l. by apply (IH d1).
Qed.

Lemma rx_inv_init lcid rlf :
  rx_inv 0 none_received (prx_set_enabled true (prx_new lcid (PrxConfig rlf g true D))) [].
Proof.
  set (s := prx_set_enabled true _).
  assert (rx_buffer_ring s = replicate (Z.to_nat 8192) rb_init) as E by apply fmap_replicate.
  constructor; unfold none_received; try done; try lia.
  - by right.
  - intros i F [Hi1 Hi2] HF. exists rb_init. split; [|apply el_ok_init].
    rewrite E. apply lookup_replicate_2, ring_slot_lt.
  - intros k el. rewrite E. by intros [-> _]%lookup_replicate_1.
Qed.
End Order.

(** ** Properties *)

(** C6: in-order delivery by [PDCP]. From the moment the receive side is
    switched on, for every history of PDUs and reads in which the first segment
    belongs to the first frame and every segment to one of the [D + 1] frames
    from the first incomplete one on, or to one of the [D + 1] before it, in
    any order and with repetitions: no failure is reported, and the frames read,
    together with those waiting to be read, are exactly the frames before the
    first incomplete one, whole, once each, in the order they were sent. [D] is
    [max_sn_distance], which must leave a free element in the ring of 8192. *)
Theorem rx_in_order g fs segs D lcid rlf evs :
  sender_ok true g fs segs -> 0 <= D <= 8190 -> rx_history_ok g fs segs D none_received evs ->
  exists s out d,
    rx_run g evs (prx_set_enabled true (prx_new lcid (PrxConfig rlf g true D)), []) = Ok (s, out) /\
    front fs segs (rx_recv_all evs none_received) d /\
    out ++ to_rx_queue s = take d fs /\ prx_rrc s = [].
Proof.
  intros Hs HD Hh.
  destruct (rx_run_inv g fs segs D Hs HD evs 0 none_received _ [] (rx_inv_init g fs segs D lcid rlf)
    (front_init g fs segs 512 Hs eq_refl) Hh) as (d & s & out & E & HI & Hf).
  exists s, out, d. split; [done|]. split; [done|]. split; [apply (ri_out _ _ _ _ _ _ _ _ HI)|].
  apply (ri_on _ _ _ _ _ _ _ _ HI).
Qed.

(** The frames of [PdcpOrder.ex_frames]: the end of the first, the second
    twice, then the beginning of the first. *)
Definition ex_rx_history : list rx_event :=
  [EvPdu [(0%nat, SegVal true 0 2 [3]); (1%nat, SegVal true 1 0 [9]); (1%nat, SegVal true 1 0 [9])];
   EvPdu [(0%nat, SegVal false 0 0 [1; 2])]; EvRead].

Lemma ex_in_window R i v :
  (i < 2)%nat -> v ∈ ex_segs i -> 0 ∉ R 0%nat -> (i = 0%nat \/ 2 ∈ R 0%nat) -> in_window ex_frames ex_segs 20 R i v.
Proof.
  intros Hi Hv H0 H2. split; [done|]. split; [done|]. split.
  - intros HR. destruct H2 as [?|H2]; [done|]. rewrite HR in H2. by apply elem_of_empty in H2.
  - intros [|d] (_ & Hd & _); [lia|]. exfalso. apply H0.
    apply (Hd 0%nat ltac:(lia) (SegVal false 0 0 [1; 2])). constructor.
Qed.

Lemma ex_rx_history_ok : rx_history_ok true ex_frames ex_segs 20 none_received ex_rx_history.
Proof.
  split; [|split; [|done]].
  - split; [done|]. split; [vm_compute; split; congruence|].
    split; [|split; [|split; [|done]]];
      (apply ex_in_window; [lia|repeat constructor|vm_compute; congruence|]);
      [by left|right; vm_compute; reflexivity|right; vm_compute; reflexivity].
  - split; [done|]. split; [vm_compute; split; congruence|]. split; [|done].
    apply ex_in_window; [lia|repeat constructor|vm_compute; congruence|by left].
Qed.

Lemma rx_in_order_witness :
  sender_ok true true ex_frames ex_segs /\
  rx_history_ok true ex_frames ex_segs 20 none_received ex_rx_history /\
  exists s out d,
    rx_run true ex_rx_history (prx_set_enabled true (prx_new 1 (PrxConfig true true true 20)), []) = Ok (s, out) /\
    out ++ to_rx_queue s = take d ex_frames.
Proof.
  split; [exact ex_sender|]. split; [exact ex_rx_history_ok|].
  destruct (rx_in_order true ex_frames ex_segs 20 1 true ex_rx_history ex_sender ltac:(lia) ex_rx_history_ok)
    as (s & out & d & E1 & _ & E2 & _).
  exists s, out, d. split; [exact E1|exact E2].
Defined.

Example ex_rx_run :
  (x ← rx_run true ex_rx_history (prx_set_enabled true (prx_new 1 (PrxConfig true true true 20)), []);
   mret (x.2, to_rx_queue x.1)) = Ok ([[1; 2; 3]], [[9]]).
Proof. vm_compute. reflexivity. Qed.
