(* ===== verification/PdcpLink.v ===== *)
(** * PDCP from end to end: what is queued on one side is read on the other

    The transmit side of [PdcpTx] cuts the frames of its queue into segments
    as the LLC offers room, the receive side of [PdcpRx] puts them together.
    This file has the two joined by a link that carries the PDUs unchanged and
    in order, which is what the LLC provides in acknowledged mode.

    The bridge between the two is the stream of segments: the plan that
    [PDCP::on_tx] follows extends the stream, and a stream tiles every frame
    it has passed, which is the sender [PdcpRxOrder] asks for. *)

From stdpp Require Import gmap.
From S2P Require Import Prelude Mem PdcpSegment PdcpUl PdcpTx PdcpDl PdcpOrder Info PdcpRx PdcpRxOrder.

(** ** The joined system *)

(** The application queues a frame; the LLC offers the PDCP a view of [n]
    bytes at [b] of the frame buffer [m], and what was written there reaches
    the peer; the peer's application reads. *)
Inductive link_event := LinkFrame (frame : list Z) | LinkSlot (m : list Z) (b n : Z) | LinkRead.

(** The two sides, the frames the transmit side accepted, and those read. A
    frame is queued without waiting for room. *)
Record link_t := Link {
  lk_tx : ptx_t; lk_rx : prx_t; lk_sent : list (list Z); lk_read : list (list Z) }.

Definition link_offer (b n : Z) : tx_info_t := TxInfo 0 true false false (Pdu b n) 0.

Definition link_step (e : link_event) (k : link_t) : res link_t :=
  match e with
  | LinkFrame frame =>
    let '(tx, accepted) := to_tx_finish frame (to_tx_enter (lk_tx k)) in
    mret (Link tx (lk_rx k) (if accepted then lk_sent k ++ [frame] else lk_sent k) (lk_read k))
  | LinkSlot m b n =>
    '(m, info, tx) ← ptx_on_tx m (link_offer b n) (lk_tx k);
    if out_allocated info =? 0 then mret (Link tx (lk_rx k) (lk_sent k) (lk_read k)) else
    let pdu := slice m b (out_allocated info) in
    rx ← prx_on_rx pdu 0 (zlen pdu) (lk_rx k);
    mret (Link tx rx (lk_sent k) (lk_read k))
  | LinkRead =>
    let '(rx, b) := to_rx (lk_rx k) in
    mret (Link (lk_tx k) rx (lk_sent k)
      (if decide (to_rx_queue (lk_rx k) = []) then lk_read k else lk_read k ++ [b]))
  end.

Fixpoint link_run (evs : list link_event) (k : link_t) : res link_t :=
  match evs with [] => mret k | e :: evs => k ← link_step e k; link_run evs k end.

(** Both sides as they are when the channel has just been switched on. *)
Definition link_new (tcid rcid : Z) (tcfg : ptx_config) (rcfg : prx_config) : link_t :=
  Link (ptx_set_enabled true (ptx_new tcid tcfg)) (prx_set_enabled true (prx_new rcid rcfg)) [] [].

(** A frame is not empty and its offsets fit the 16-bit field; a view is
    smaller than the 15-bit size of a segment. *)
Definition link_frame_ok (fr : list Z) : Prop := bytes_ok fr /\ 1 <= zlen fr <= 65536.
Definition link_event_ok (e : link_event) : Prop :=
  match e with
  | LinkFrame fr => link_frame_ok fr
  | LinkSlot m b n => view_ok m b n /\ n < 32768
  | LinkRead => True
  end.
Definition offered (evs : list link_event) : list (list Z) :=
  concat (map (fun e => match e with LinkFrame fr => [fr] | _ => [] end) evs).

(** ** Streams of segments *)

Section Stream.
Context (g : bool).

(** [stream fs i off l j o]: the segments [l], each with the number of its
    frame, take the sender from byte [off] of frame [i] to byte [o] of [j]. *)
Inductive stream (fs : list (list Z)) : nat -> Z -> list (nat * seg_val) -> nat -> Z -> Prop :=
  | stream_nil i off : stream fs i off [] i off
  | stream_last i off fr v l j o :
      fs !! i = Some fr -> 0 <= off < zlen fr ->
      v = SegVal true (u16 (Z.of_nat i)) off (slice fr off (zlen fr - off)) -> seg_ok true g v ->
      stream fs (S i) 0 l j o -> stream fs i off ((i, v) :: l) j o
  | stream_part i off fr v c l j o :
      fs !! i = Some fr -> 0 <= off -> 0 < c -> off + c < zlen fr -> g = true ->
      v = SegVal false (u16 (Z.of_nat i)) off (slice fr off c) -> seg_ok true g v ->
      stream fs i (off + c) l j o -> stream fs i off ((i, v) :: l) j o.
#[local] Hint Constructors stream : core.

Lemma stream_app fs i off l j o l' j' o' :
  stream fs i off l j o -> stream fs j o l' j' o' -> stream fs i off (l ++ l') j' o'.
Proof. induction 1; intros; cbn [app]; eauto. Qed.

Lemma stream_split fs l l' i off j o :
  stream fs i off (l ++ l') j o -> exists i' o', stream fs i off l i' o' /\ stream fs i' o' l' j o.
Proof.
  revert i off. induction l as [|[k w] l IH]; intros i off H; [by eauto|].
  inversion H; subst;
    match goal with Hst : stream _ _ _ (l ++ l') _ _ |- _ => apply IH in Hst as (? & ? & ? & ?) end; eauto 10.
Qed.

(** Where the segments of a stream are: not before its start, before its end. *)
Lemma stream_bounds fs i off l j o :
  stream fs i off l j o -> (i <= j)%nat /\ (i = j -> off <= o) /\
  forall x v, (x, v) ∈ l ->
    (i <= x <= j)%nat /\ 0 <= v_off v /\ (x = i -> off <= v_off v) /\ (x = j -> v_off v < o).
Proof.
  induction 1 as [i off|i off fr v l j o Hfr Hoff -> Hok Hst (IH1 & IH2 & IH3)
    |i off fr v c l j o Hfr Hoff Hc Hlt Hg -> Hok Hst (IH1 & IH2 & IH3)].
  - split; [done|]. split; [done|]. intros x v Hx. by apply elem_of_nil in Hx.
  - split; [lia|]. split; [lia|]. intros x v [[= -> ->]|Hx]%elem_of_cons; cbn [v_off]; [lia|].
    destruct (IH3 x v Hx) as (? & ? & ? & ?). lia.
  - split; [lia|]. split; [lia|]. intros x v [[= -> ->]|Hx]%elem_of_cons; cbn [v_off].
    + split; [lia|]. split; [lia|]. split; [lia|]. intros E. specialize (IH2 E). lia.
    + destruct (IH3 x v Hx) as (? & ? & ? & ?). split_and!; try done; lia.
Qed.

(** A stream depends on the frames it passes only. *)
Lemma stream_frames fs gs i off l j o :
  (forall x v fr, (x, v) ∈ l -> fs !! x = Some fr -> gs !! x = Some fr) ->
  stream fs i off l j o -> stream gs i off l j o.
Proof.
  intros Hx H. induction H as [|i off fr v l j o Hfr Hoff Hv Hok Hst IH|i off fr v c l j o Hfr Hoff Hc Hlt Hg Hv Hok Hst IH];
    [constructor| |];
    (assert (gs !! i = Some fr) by (apply (Hx i v); [left|done]));
    (assert (stream gs _ _ l j o) by (apply IH; intros x w fr' Hin; apply (Hx x w); by right)); eauto.
Qed.

Lemma stream_take fs i off l k : stream fs i off l k 0 -> stream (take k fs) i off l k 0.
Proof.
  intros H. destruct (stream_bounds _ _ _ _ _ _ H) as (_ & _ & HB). revert H. apply stream_frames.
  intros x v fr Hx. destruct (HB x v Hx) as (? & ? & _ & Hk). rewrite lookup_take.
  intros E. rewrite decide_True; [done|]. destruct (decide (x = k)) as [->|]; [specialize (Hk eq_refl)|]; lia.
Qed.

(** The bytes still to send; every segment takes at least one. *)
Definition left_of (fs : list (list Z)) (i : nat) (off : Z) : Z := frames_len (drop i fs) - off.

Lemma stream_left fs i off l j o : stream fs i off l j o -> left_of fs j o + zlen l <= left_of fs i off.
Proof.
  unfold left_of. induction 1 as [i off|i off fr v l j o Hfr Hoff -> Hok Hst IH|i off fr v c l j o Hfr Hoff Hc Hlt Hg -> Hok Hst IH];
    rewrite ?zlen_nil, ?zlen_cons; [lia| |lia].
  rewrite (drop_S fs fr i Hfr), frames_len_cons. lia.
Qed.

(** *** What the plan of the sender does to a stream *)

Definition at_ok (fs : list (list Z)) (i : nat) (off : Z) : Prop :=
  (i <= length fs)%nat /\ front_ok (drop i fs) off /\ (off = 0 \/ g = true).

Lemma at_ok_next fs i fr rest : Forall link_frame_ok fs -> drop i fs = fr :: rest ->
  fs !! i = Some fr /\ drop (S i) fs = rest /\ link_frame_ok fr /\ at_ok fs (S i) 0.
Proof.
  intros Hfs E. assert (fs !! i = Some fr) as Hi by (by rewrite <- (Nat.add_0_r i), <- lookup_drop, E).
  assert (drop (S i) fs = rest) as Hd by (by rewrite <- Nat.add_1_r, <- drop_drop, E).
  pose proof (Forall_lookup_1 _ _ _ _ Hfs Hi) as Hok. split; [done|]. split; [done|]. split; [done|].
  split; [by apply lookup_lt_Some in Hi|]. split; [|by left]. rewrite Hd.
  destruct rest as [|fr' rest]; [done|]. cbn.
  pose proof (Forall_drop _ (S i) _ Hfs) as Hr. rewrite Hd in Hr. apply list.Forall_cons in Hr as [[_ ?] _]. lia.
Qed.

Lemma stream_plan fs n i off :
  n < 32768 -> Forall link_frame_ok fs -> at_ok fs i off ->
  let pl := ul_plan true g n (drop i fs) off (u16 (Z.of_nat i)) in
  exists l i' off', stream fs i off l i' off' /\ map snd l = pl.1 /\
    pl.2 = (drop i' fs, off', u16 (Z.of_nat i')) /\ at_ok fs i' off'.
Proof.
  intros Hn Hfs. remember (drop i fs) as frames eqn:E. revert i off n Hn E.
  induction frames as [|fr rest IH]; intros i off n Hn E Hat; cbn [ul_plan].
  { exists [], i, off. rewrite <- E. by split_and!; [constructor| | |]. }
  assert (exists l i' off', stream fs i off l i' off' /\ map snd l = [] /\
    (fr :: rest, off, u16 (Z.of_nat i)) = (drop i' fs, off', u16 (Z.of_nat i')) /\ at_ok fs i' off') as Hstop.
  { exists [], i, off. rewrite <- E. by split_and!; [constructor| | |]. }
  pose proof Hat as (_ & Hoff & Hg). rewrite <- E in Hoff. cbn in Hoff.
  destruct (at_ok_next fs i fr rest Hfs (eq_sym E)) as (Hi & Hd & [Hb Hl] & Hat').
  pose proof (hdr_len_true g). assert (u16 off = off) as Hu by ulia.
  destruct (Z.leb_spec (n - hdr_len true g) 0); [done|].
  destruct (Z.leb_spec (zlen fr - off) (n - hdr_len true g)) as [Hle|Hgt].
  - destruct (IH (S i) 0 (n - hdr_len true g - (zlen fr - off)) ltac:(lia) (eq_sym Hd) Hat')
      as (l & i' & off' & Hst & Hm & Hk & Ho).
    replace (u16 (Z.of_nat (S i))) with (u16 (u16 (Z.of_nat i) + 1)) in Hm, Hk by ulia.
    destruct (ul_plan true g _ rest 0 _) as [segs k]. cbn [fst snd] in *.
    exists ((i, SegVal true (u16 (Z.of_nat i)) off (slice fr off (zlen fr - off))) :: l), i', off'.
    rewrite Hu. cbn [map snd]. rewrite Hm. split; [|done]. eapply stream_last; try done.
    unfold seg_ok. cbn. rewrite zlen_slice by lia. split; [apply u16_range|].
    split; [ulia|]. split; [by apply bytes_ok_slice|lia].
  - destruct (Bool.bool_dec g true) as [Hg1|Hg1%not_true_is_false]; [|by rewrite Hg1 in *].
    exists [(i, SegVal false (u16 (Z.of_nat i)) off (slice fr off (n - hdr_len true g)))], i, (off + (n - hdr_len true g)).
    replace (if g then _ else _) with
      ([SegVal false (u16 (Z.of_nat i)) (u16 off) (slice fr off (n - hdr_len true g))],
       (fr :: rest, off + (n - hdr_len true g), u16 (Z.of_nat i))) by (by rewrite Hg1).
    rewrite Hu, <- E. split; [|split; [done|split; [done|]]].
    + apply (stream_part _ _ _ fr _ (n - hdr_len true g)); try done; try lia.
      unfold seg_ok. cbn. rewrite zlen_slice by lia. split; [apply u16_range|].
      split; [ulia|]. split; [by apply bytes_ok_slice|lia].
    + destruct Hat as (? & _). split; [done|]. rewrite <- E. cbn. split; [lia|by right].
Qed.
End Stream.

(** ** The segments of one frame *)

(** [tiles F off l]: the segments [l] cover [F] from byte [off] on, one after
    the other. *)
Inductive tiles (F : list Z) : Z -> list seg_val -> Prop :=
  | tiles_last off v :
      v_off v = off -> v_last v = true -> v_data v = slice F off (zlen F - off) -> 0 <= off < zlen F ->
      tiles F off [v]
  | tiles_part off c v l :
      v_off v = off -> v_last v = false -> v_data v = slice F off c -> 0 <= off -> 0 < c -> off + c < zlen F ->
      tiles F (off + c) l -> tiles F off (v :: l).

Record cut_at (F : list Z) (off : Z) (v : seg_val) : Prop := CutAt {
  ca_from : 0 <= off <= v_off v; ca_some : v_data v <> []; ca_in : v_off v + zlen (v_data v) <= zlen F;
  ca_data : v_data v = slice F (v_off v) (zlen (v_data v));
  ca_last : v_last v = (v_off v + zlen (v_data v) =? zlen F) }.

Lemma cut_at_slice F off c v :
  v_off v = off -> v_data v = slice F off c -> 0 <= off -> 0 < c -> off + c <= zlen F ->
  v_last v = (off + c =? zlen F) -> cut_at F off v /\ zlen (v_data v) = c.
Proof.
  intros Ho Hd H0 Hc Hl Hla. assert (zlen (v_data v) = c) as Hz by (rewrite Hd; apply zlen_slice; lia).
  split; [|done]. constructor; rewrite ?Ho, ?Hz; try done; try lia.
  intros E. rewrite E in Hz. change (zlen []) with 0 in Hz. lia.
Qed.

Lemma tiles_cut F off l : tiles F off l ->
  (forall v, v ∈ l -> cut_at F off v) /\
  (forall v w, v ∈ l -> w ∈ l -> v = w \/ v_off v + zlen (v_data v) <= v_off w \/
    v_off w + zlen (v_data w) <= v_off v) /\
  forall p, off <= p < zlen F -> exists v, v ∈ l /\ v_off v <= p < v_off v + zlen (v_data v).
Proof.
  induction 1 as [off v Ho Hla Hd Hb|off c v l Ho Hla Hd H0 Hc Hl Ht (IH1 & IH2 & IH3)].
  - destruct (cut_at_slice F off (zlen F - off) v) as [Hv Hz]; try done; try lia; [rewrite Hla; symmetry; apply Z.eqb_eq; lia|].
    split; [by intros w ->%list_elem_of_singleton|].
    split; [intros x y ->%list_elem_of_singleton ->%list_elem_of_singleton; by left|].
    intros p Hp. exists v. split; [left|lia].
  - destruct (cut_at_slice F off c v) as [Hv Hz]; try done; try lia; [rewrite Hla; symmetry; apply Z.eqb_neq; lia|].
    split; [|split].
    + intros w [->|Hw]%elem_of_cons; [done|]. destruct (IH1 w Hw). constructor; try done; lia.
    + intros x y [->|Hx]%elem_of_cons [->|Hy]%elem_of_cons; [by left| | |by apply IH2].
      * right; left. destruct (IH1 y Hy). lia.
      * right; right. destruct (IH1 x Hx). lia.
    + intros p Hp. destruct (Z.ltb_spec p (off + c)) as [Hlt|Hge].
      * exists v. split; [left|lia].
      * destruct (IH3 p ltac:(lia)) as (w & Hw & ?). exists w. split; [by right|done].
Qed.

Lemma tiles_cuts F l : tiles F 0 l -> cuts F l.
Proof.
  intros (H1 & H2 & H3)%tiles_cut. constructor; try done; intros v Hv; destruct (H1 v Hv); split_and?; try done; lia.
Qed.

(** The segments of frame [j] among those of a stream. *)
Definition segs_of (l : list (nat * seg_val)) (j : nat) : list seg_val := map snd (filter (fun x => x.1 = j) l).

Lemma elem_of_segs_of l j v : v ∈ segs_of l j <-> (j, v) ∈ l.
Proof.
  unfold segs_of. rewrite list_elem_of_fmap. split.
  - intros ([x w] & -> & Hx). apply list_elem_of_filter in Hx as [<- ?]. done.
  - intros H. exists (j, v). split; [done|]. by apply list_elem_of_filter.
Qed.

Lemma segs_of_cons i v l j : segs_of ((i, v) :: l) j = if decide (i = j) then v :: segs_of l j else segs_of l j.
Proof. unfold segs_of. rewrite filter_cons. cbn [fst]. by case_decide. Qed.

Lemma segs_of_none l j : (forall v, (j, v) ∉ l) -> segs_of l j = [].
Proof.
  intros H. apply elem_of_nil_inv. intros v Hv. by apply elem_of_segs_of, H in Hv.
Qed.

Section Sender.
Context (g : bool).

Lemma stream_tiles fs i off l k o j F :
  stream g fs i off l k o -> fs !! j = Some F -> (i <= j < k)%nat ->
  tiles F (if decide (j = i) then off else 0) (segs_of l j).
Proof.
  intros Hst HF. induction Hst as [i off|i off fr v l k o Hfr Hoff -> Hok Hst IH
    |i off fr v c l k o Hfr Hoff Hc Hlt Hg -> Hok Hst IH]; intros Hj; [lia|..]; rewrite segs_of_cons.
  - destruct (decide (i = j)) as [<-|Hne].
    + destruct (decide (i = i)); [|done]. assert (fr = F) as -> by congruence.
      rewrite segs_of_none; [by apply tiles_last|]. intros v Hv.
      apply (stream_bounds _ _ _ _ _ _ _ Hst) in Hv as [? _]. lia.
    + destruct (decide (j = i)); [congruence|]. specialize (IH ltac:(lia)). by destruct (decide (j = S i)).
  - specialize (IH ltac:(lia)). destruct (decide (i = j)) as [<-|Hne].
    + destruct (decide (i = i)); [|done]. assert (fr = F) as -> by congruence. by apply (tiles_part _ _ c).
    + destruct (decide (j = i)); [congruence|done].
Qed.

Lemma stream_vals fs i off l k o :
  stream g fs i off l k o -> off = 0 \/ g = true -> forall x v, (x, v) ∈ l ->
  v_sn v = u16 (Z.of_nat x) /\ seg_ok true g v /\ (g = false -> v_off v = 0).
Proof.
  intros Hst. induction Hst as [|i off fr v l k o Hfr Hoff -> Hok Hst IH
    |i off fr v c l k o Hfr Hoff Hc Hlt Hg -> Hok Hst IH]; intros Hz x w Hx; [by apply elem_of_nil in Hx|..];
    apply elem_of_cons in Hx as [[= -> ->]|Hx].
  - split; [done|]. split; [done|]. intros E. destruct Hz; [done|congruence].
  - apply IH; [by left|done].
  - split; [done|]. split; [done|]. congruence.
  - apply IH; [by right|done].
Qed.

(** A stream that stops between two frames is a sender as [PdcpRxOrder] wants it. *)
Lemma stream_sender_ok fs l k :
  stream g fs 0 0 l k 0 -> Forall link_frame_ok fs -> is_u64 (zlen (concat fs)) ->
  sender_ok true g (take k fs) (segs_of l).
Proof.
  intros Hst Hfs Hu. pose proof (stream_vals _ _ _ _ _ _ Hst (or_introl eq_refl)) as HV.
  constructor; [| |
    |intros j v Hv%elem_of_segs_of; by apply HV|intros j v Hv%elem_of_segs_of; by apply (HV j)
    |intros j v Hv%elem_of_segs_of; by apply (HV j)].
  - intros j F (HF & Hj)%lookup_take_Some. apply tiles_cuts.
    pose proof (stream_tiles _ _ _ _ _ _ j F Hst HF ltac:(lia)) as HT. by destruct (decide (j = 0%nat)).
  - intros j F (HF & Hj)%lookup_take_Some. by destruct (Forall_lookup_1 _ _ _ _ Hfs HF) as [_ []].
  - rewrite <- (take_drop k fs), concat_app, zlen_app in Hu.
    pose proof (zlen_nonneg (concat (take k fs))). pose proof (zlen_nonneg (concat (drop k fs))). ulia.
Qed.

(** Any stream can be continued to the end of the frame it is in. *)
Lemma stream_finish fs i off :
  Forall link_frame_ok fs -> at_ok g fs i off ->
  exists l k, stream g fs i off l k 0 /\ (k <= length fs)%nat.
Proof.
  intros Hfs (Hi & Ho & Hg). destruct (decide (off = 0)) as [->|Hne]; [exists [], i; by split; [constructor|]|].
  destruct Hg as [|Hg]; [done|].
  destruct (drop i fs) as [|fr rest] eqn:E; [done|]. cbn in Ho.
  assert (fs !! i = Some fr) as Hfr by (by rewrite <- (Nat.add_0_r i), <- lookup_drop, E).
  pose proof (Forall_lookup_1 _ _ _ _ Hfs Hfr) as [Hb Hl].
  assert (exists l, stream g fs i off l (S i) 0) as [l Hst];
    [|exists l, (S i); split; [done|by apply lookup_lt_Some in Hfr]].
  assert (forall o c last, 0 <= o < 65536 -> 0 <= c -> c < 32762 -> o + c <= zlen fr ->
    seg_ok true g (SegVal last (u16 (Z.of_nat i)) o (slice fr o c))) as Hseg.
  { intros o c last Ho' Hc0 Hc Hoc. pose proof (hdr_len_true g). unfold seg_ok. cbn. rewrite zlen_slice by lia.
    split; [apply u16_range|]. split; [ulia|]. split; [by apply bytes_ok_slice|lia]. }
  remember (Z.to_nat (zlen fr - off)) as n eqn:Hn. revert off Hne Ho Hn.
  induction n as [|n IH]; intros off Hne Ho Hn; [lia|].
  destruct (decide (zlen fr - off = 1)) as [E1|].
  - exists [(i, SegVal true (u16 (Z.of_nat i)) off (slice fr off (zlen fr - off)))].
    eapply stream_last; try done; [|constructor]. apply Hseg; lia.
  - destruct (IH (off + 1)) as [l Hst]; try lia. eexists.
    eapply (stream_part _ _ _ _ _ _ 1); try done; try lia. apply Hseg; lia.
Qed.
End Sender.

(** ** In-order reception *)

Section Reception.
Context (g : bool) (fs : list (list Z)) (L : list (nat * seg_val)) (k : nat) (D : Z).
Context (HL : stream g fs 0 0 L k 0) (Hk : (k <= length fs)%nat) (HD : 0 <= D).

Abbreviation segs := (segs_of L).
Abbreviation Fs := (take k fs).
Abbreviation got l := (foldl Radd none_received l).

Lemma elem_of_Radd R i v j o : o ∈ Radd R (i, v) j <-> o ∈ R j \/ (j = i /\ v_off v = o).
Proof.
  unfold Radd. cbn [fst snd]. destruct (decide (j = i)) as [->|Hne]; [rewrite elem_of_union, elem_of_singleton|].
  - split; intros [Ho|Ho]; [by left|by right|by left|right; by destruct Ho].
  - split; [by left|]. intros [Ho|[? _]]; done.
Qed.

Lemma elem_of_got l R j o : o ∈ foldl Radd R l j <-> o ∈ R j \/ exists v, (j, v) ∈ l /\ v_off v = o.
Proof.
  revert R. induction l as [|[i v] l IH]; intros R; cbn [foldl].
  - split; [by left|]. intros [?|(v & Hv & _)]; [done|by apply elem_of_nil in Hv].
  - rewrite IH, elem_of_Radd. split.
    + intros [[Ho|[-> Ho]]|(w & Hw & Ho)]; [by left|right..]; [exists v|exists w]; (split; [|done]); [left|by right].
    + intros [Ho|(w & [[= -> ->]|Hw]%elem_of_cons & Ho)]; [by left; left|left; by right|right]. by exists w.
Qed.

(** Having received a prefix of the stream, the receiver waits for the frame
    the prefix ends in. *)
Lemma stream_front l1 l2 i off :
  L = l1 ++ l2 -> stream g fs 0 0 l1 i off -> stream g fs i off l2 k 0 -> front Fs segs (got l1) i.
Proof.
  intros E S1 S2. destruct (stream_bounds _ _ _ _ _ _ _ S1) as (_ & _ & B1).
  destruct (stream_bounds _ _ _ _ _ _ _ S2) as (Hik & _ & B2).
  split; [rewrite length_take; lia|]. split.
  - intros j Hj v Hv%elem_of_segs_of. apply elem_of_got. right. exists v. split; [|done].
    rewrite E in Hv. apply elem_of_app in Hv as [?|Hv]; [done|]. destruct (B2 j v Hv). lia.
  - intros Hlt Hrec. rewrite length_take in Hlt.
    assert (exists v l, l2 = (i, v) :: l /\ v_off v = off) as (v & l & -> & Hv)
      by (inversion S2; subst; [lia|eauto|eauto]).
    assert (v ∈ segs i) as Hin by (apply elem_of_segs_of; rewrite E; apply elem_of_app; right; left).
    apply Hrec, elem_of_got in Hin as [Hin|(w & Hw & Ho)]; [by apply elem_of_empty in Hin|].
    destruct (B1 i w Hw) as (_ & _ & _ & Hlt'). specialize (Hlt' eq_refl). lia.
Qed.

Lemma stream_in_window l1 i v l2 :
  L = l1 ++ (i, v) :: l2 -> in_window Fs segs D (got l1) i v.
Proof.
  intros E. pose proof HL as HS. rewrite E in HS. apply stream_split in HS as (j & o & S1 & S2).
  assert (j = i) as -> by by inversion S2.
  pose proof (stream_front l1 _ i o E S1 S2) as Hf. destruct (stream_bounds _ _ _ _ _ _ _ S2) as (_ & _ & B2).
  destruct (B2 i v) as (? & ? & _ & Hik); [left|].
  assert (i <> k) as Hne by (intros ->; specialize (Hik eq_refl); lia).
  split; [rewrite length_take; lia|].
  split; [apply elem_of_segs_of; rewrite E; apply elem_of_app; right; left|]. split.
  - intros Hnone. destruct l1 as [|[j w] l1]; [by inversion S1|].
    assert (v_off w ∈ got ((j, w) :: l1) j) as Hin by (apply elem_of_got; right; exists w; split; [left|done]).
    rewrite Hnone in Hin. by apply elem_of_empty in Hin.
  - intros d Hd. assert (d = i) as -> by (by eapply front_unique). lia.
Qed.

Lemma stream_pdu_window l1 pdu l2 : L = l1 ++ pdu ++ l2 -> pdu_window Fs segs D (got l1) pdu.
Proof.
  revert l1. induction pdu as [|[i v] pdu IH]; intros l1 E; [done|]. split; [by eapply stream_in_window|].
  replace (Radd (got l1) (i, v)) with (got (l1 ++ [(i, v)])) by (by rewrite foldl_app).
  apply IH. by rewrite <- app_assoc.
Qed.

Definition pdus (evs : list rx_event) : list (nat * seg_val) :=
  concat (map (fun e => match e with EvPdu pdu => pdu | EvRead => [] end) evs).

Definition carried_ok (e : rx_event) : Prop :=
  match e with EvPdu pdu => pdu <> [] /\ is_u64 (zlen (segs_enc true g (map snd pdu))) | EvRead => True end.

Lemma got_pdus evs l : rx_recv_all evs (got l) = got (l ++ pdus evs).
Proof.
  revert l. induction evs as [|[pdu|] evs IH]; intros l; cbn; [by rewrite app_nil_r| |apply IH].
  unfold pdus. cbn [map concat]. rewrite app_assoc. unfold rx_recv_all in IH. rewrite <- IH.
  by rewrite foldl_app.
Qed.

Lemma stream_history evs l1 l2 :
  L = l1 ++ pdus evs ++ l2 -> Forall carried_ok evs -> rx_history_ok g Fs segs D (got l1) evs.
Proof.
  revert l1. induction evs as [|[pdu|] evs IH]; intros l1 E Hc; [done|..]; apply list.Forall_cons in Hc as [He Hc'];
    unfold pdus in E; cbn [map concat] in E; fold (pdus evs) in E.
  - rewrite <- app_assoc in E. destruct He as [Hn Hu]. split; [split_and!; try done; by eapply stream_pdu_window|].
    cbn [rx_recv]. rewrite <- foldl_app. apply IH; [by rewrite <- app_assoc|done].
  - split; [done|]. by apply IH.
Qed.
End Reception.

(** ** The two sides together *)

Section Link.
Context (g : bool) (cfg : ptx_config).

(** The transmit side has sent the frames before [i] and [off] bytes of frame [i]. *)
Record sending (tx : ptx_t) (fs : list (list Z)) (i : nat) (off : Z) : Prop := Sending {
  sd_inv : ptx_inv tx;
  sd_on : is_tx_enabled tx = true;
  sd_reorder : px_allow_reordering (ptx_cfg tx) = true;
  sd_segment : px_allow_segmentation (ptx_cfg tx) = g;
  sd_ok : Forall link_frame_ok fs;
  sd_rest : (ptx_frames tx, ptx_off tx, tx_sn tx) = (drop i fs, off, u16 (Z.of_nat i));
  sd_at : at_ok g fs i off;
  sd_cfg : ptx_cfg tx = cfg }.

(** Running [m] from [tx] and [fs] is receiving [revs], which takes the sender
    further by the stream of their segments. *)
Record carries (tx : ptx_t) (fs : list (list Z)) (i : nat) (off : Z) (n : Z)
    (run : prx_t -> list (list Z) -> res link_t)
    (tx' : ptx_t) (added : list (list Z)) (revs : list rx_event) (i' : nat) (off' : Z) : Prop := Carries {
  cr_sending : sending tx' (fs ++ added) i' off';
  cr_total : zlen (concat added) <= n;
  cr_stream : stream g (fs ++ added) i off (pdus revs) i' off';
  cr_ok : Forall (carried_ok g) revs;
  cr_run : forall rx out, run rx out = (x ← rx_run g revs (rx, out); mret (Link tx' x.1 (fs ++ added) x.2)) }.

Lemma sending_queue tx fs i off fr :
  sending tx fs i off -> link_frame_ok fr -> sending (tx <| to_tx_queue := to_tx_queue tx ++ [fr] |>) (fs ++ [fr]) i off.
Proof.
  intros [Hi Hon Hr Hg Hok Hrest (Hl & Hf & Ho) Hcfg] Hfr. injection Hrest as Hfs Hoff Hsn.
  assert (drop i (fs ++ [fr]) = drop i fs ++ [fr]) as Hd by (by rewrite drop_app_le).
  assert (buffer_ok fr) as Hb by (destruct Hfr; split; [done|ulia]).
  constructor; try done.
  - destruct Hi. constructor; try done. cbn. apply Forall_app_2; [done|by constructor].
  - apply Forall_app_2; [done|by constructor].
  - rewrite Hd, <- Hfs, <- Hoff, <- Hsn. unfold ptx_frames, ptx_off.
    change (in_progress (upd _ _ _)) with (in_progress tx). cbn. by rewrite app_assoc.
  - split; [rewrite length_app; lia|]. rewrite Hd. split; [|done].
    destruct (drop i fs); [|done]. cbn in Hf |- *. destruct Hfr. lia.
Qed.

Lemma slot_carries m b n tx fs i off :
  sending tx fs i off -> view_ok m b n -> n < 32768 ->
  exists tx' revs i' off', carries tx fs i off 0 (fun rx out => link_step (LinkSlot m b n) (Link tx rx fs out))
    tx' [] revs i' off' /\
    (px_min_commit_size cfg <= n -> hdr_len true g < n -> g = true -> drop i fs <> [] -> pdus revs <> []).
Proof.
  intros Hs Hv Hn. pose proof Hs as [Hi Hon Hr Hg Hok Hrest Hat Hcfg]. injection Hrest as Hfs Hoff Hsn.
  pose proof (ptx_on_tx_spec m (link_offer b n) tx Hv Hn Hi Hr ltac:(done)) as HX.
  destruct Hv as (_ & Hu & Hb & Hn0 & Hl). cbv zeta in HX. cbn [link_offer out_pdu out_allocated pdu_base pdu_size] in HX.
  destruct HX as (m' & info' & tx' & E & _ & _ & HC); [ulia|]. rewrite Hon in HC. cbn [negb] in HC.
  rewrite Hfs, Hoff, Hsn in HC. destruct (_ || _ || _) eqn:Ec.
  { destruct HC as (_ & -> & ->). exists tx, [], i, off. split.
    - constructor; rewrite ?app_nil_r; try done; [constructor|].
      intros rx out. cbn [link_step lk_tx]. by rewrite E, bind_ret_l.
    - intros Hmin Hh _ Hne. pose proof (hdr_len_true g). exfalso. revert Ec.
      rewrite Hcfg, (proj2 (Z.ltb_ge n _)), (proj2 (Z.eqb_neq n 0)) by lia. by rewrite bool_decide_false. }
  destruct HC as (Hz & Hbs & [S1 S2 S3 S4] & Hinfo). rewrite Hg in *.
  destruct (stream_plan g fs n i off Hn Hok Hat) as (l & i' & off' & Hst & Hm & Hk & Hat').
  rewrite <- Hm in Hz, Hbs, Hinfo. rewrite Hk in S4.
  assert (sending tx' fs i' off') as Hs' by (destruct S3 as (? & _); constructor; try done; congruence).
  assert (out_allocated info' = zlen (segs_enc true g (map snd l))) as Ha by (by rewrite Hinfo).
  assert (hdr_len true g < n -> g = true -> drop i fs <> [] -> l <> []) as Hl0.
  { intros Hh Hg1 Hne ->. destruct (drop i fs) as [|fr rest] eqn:Ed; [done|].
    by apply (ul_plan_room true g n fr rest off (u16 (Z.of_nat i)) Hh); [right|]. }
  destruct l as [|x l].
  - exists tx', [], i', off'. split; [|intros _ Hh Hg1 Hne; by destruct Hl0]. constructor; rewrite ?app_nil_r; try done.
    intros rx out. cbn [link_step lk_tx]. by rewrite E, bind_ret_l, Ha.
  - exists tx', [EvPdu (x :: l)], i', off'. rewrite <- Ha in *. pose proof (hdr_len_true g).
    assert (0 < out_allocated info') as Hp.
    { rewrite Ha. cbn [map]. rewrite segs_enc_cons, zlen_app, zlen_seg_enc.
      pose proof (zlen_nonneg (v_data x.2)). pose proof (zlen_nonneg (segs_enc true g (map snd l))). lia. }
    split; [|done]. constructor; rewrite ?app_nil_r; try done.
    + unfold pdus. cbn [map concat]. by rewrite app_nil_r.
    + constructor; [|done]. split; [done|]. rewrite <- Ha. ulia.
    + intros rx out. cbn [link_step lk_tx lk_rx lk_sent lk_read rx_run rx_step].
      rewrite E, bind_ret_l, (proj2 (Z.eqb_neq _ _)) by lia. rewrite Hbs, <- Ha.
      rewrite !bind_assoc. cbn [fst snd]. by destruct (prx_on_rx _ _ _ _).
Qed.

Lemma step_carries e tx fs i off :
  sending tx fs i off -> link_event_ok e ->
  exists tx' added revs i' off', carries tx fs i off (zlen (concat (offered [e])))
    (fun rx out => link_step e (Link tx rx fs out)) tx' added revs i' off'.
Proof.
  intros Hs He. destruct e as [fr|m b n|]; cbn [link_event_ok] in He.
  - cbn [offered map concat app]. rewrite app_nil_r. pose proof (zlen_nonneg fr).
    assert (to_tx_enter tx = tx) as Hen by (unfold to_tx_enter; by rewrite (sd_on _ _ _ _ Hs)).
    destruct (px_max_tx_queue_size (ptx_cfg tx) <=? zlen (to_tx_queue tx)) eqn:E.
    + exists tx, [], [], i, off. constructor; rewrite ?app_nil_r; try done; [constructor|].
      intros rx out. cbn [link_step lk_tx lk_rx lk_sent lk_read]. unfold to_tx_finish. by rewrite Hen, E.
    + eexists _, [fr], [], i, off. constructor; [by apply sending_queue| |constructor|constructor|].
      * cbn. rewrite app_nil_r. lia.
      * intros rx out. cbn [link_step lk_tx lk_rx lk_sent lk_read]. unfold to_tx_finish. by rewrite Hen, E.
  - destruct He as [Hv Hn]. destruct (slot_carries m b n tx fs i off Hs Hv Hn) as (tx' & revs & i' & off' & HC & _).
    by exists tx', [], revs, i', off'.
  - exists tx, [], [EvRead], i, off. constructor; rewrite ?app_nil_r; try done; [constructor|by repeat constructor|].
    intros rx out. cbn [link_step lk_tx lk_rx lk_sent lk_read rx_run rx_step fst snd].
    by destruct (to_rx rx).
Qed.

Lemma rx_run_app a b x : rx_run g (a ++ b) x = (y ← rx_run g a x; rx_run g b y).
Proof.
  revert x. induction a as [|e a IH]; intros x; [done|]. cbn [app rx_run]. rewrite bind_assoc.
  destruct (rx_step g e x); [apply IH|done..].
Qed.

Lemma carries_nil tx fs i off :
  sending tx fs i off -> carries tx fs i off 0 (fun rx out => mret (Link tx rx fs out)) tx [] [] i off.
Proof. intros Hs. constructor; rewrite ?app_nil_r; try done. constructor. Qed.

Lemma carries_app tx fs i off n run tx1 a1 r1 i1 o1 n2 run2 tx2 a2 r2 i2 o2 :
  carries tx fs i off n run tx1 a1 r1 i1 o1 ->
  carries tx1 (fs ++ a1) i1 o1 n2 (fun rx out => run2 (Link tx1 rx (fs ++ a1) out)) tx2 a2 r2 i2 o2 ->
  carries tx fs i off (n + n2) (fun rx out => k ← run rx out; run2 k) tx2 (a1 ++ a2) (r1 ++ r2) i2 o2.
Proof.
  intros [C1 C2 C3 C4 C5] [K1 K2 K3 K4 K5]. rewrite <- app_assoc in K1, K3. constructor; try done.
  - rewrite concat_app, zlen_app. lia.
  - unfold pdus. rewrite map_app, concat_app. eapply stream_app; [|exact K3].
    rewrite app_assoc. revert C3. apply stream_frames. intros x v fr _ Hx. by apply lookup_app_l_Some.
  - by apply Forall_app_2.
  - intros rx out. rewrite C5, rx_run_app, !bind_assoc.
    destruct (rx_run g r1 (rx, out)) as [x| | |]; [|done..]. rewrite !bind_ret_l, K5. cbn [fst snd].
    destruct x. by rewrite app_assoc.
Qed.

Lemma run_carries evs tx fs i off :
  sending tx fs i off -> Forall link_event_ok evs ->
  exists tx' added revs i' off', carries tx fs i off (zlen (concat (offered evs)))
    (fun rx out => link_run evs (Link tx rx fs out)) tx' added revs i' off'.
Proof.
  revert tx fs i off. induction evs as [|e evs IH]; intros tx fs i off Hs Hev.
  { exists tx, [], [], i, off. by apply carries_nil. }
  apply list.Forall_cons in Hev as [He Hev].
  destruct (step_carries e tx fs i off Hs He) as (tx1 & a1 & r1 & i1 & o1 & HC).
  destruct (IH tx1 (fs ++ a1) i1 o1 (cr_sending _ _ _ _ _ _ _ _ _ _ _ HC) Hev) as (tx2 & a2 & r2 & i2 & o2 & HK).
  exists tx2, (a1 ++ a2), (r1 ++ r2), i2, o2.
  replace (zlen (concat (offered (e :: evs)))) with (zlen (concat (offered [e])) + zlen (concat (offered evs)))
    by (unfold offered; cbn [map concat]; by rewrite app_nil_r, concat_app, zlen_app).
  exact (carries_app _ _ _ _ _ _ _ _ _ _ _ _ (link_run evs) _ _ _ _ _ HC HK).
Qed.

(** As many slots as there are bytes left send them all. *)
Lemma slots_drain m b n k tx fs i off :
  view_ok m b n -> n < 32768 -> hdr_len true g < n -> g = true ->
  px_min_commit_size cfg <= n -> sending tx fs i off -> left_of fs i off <= Z.of_nat k ->
  exists tx' revs i' off', carries tx fs i off 0
    (fun rx out => link_run (replicate k (LinkSlot m b n)) (Link tx rx fs out)) tx' [] revs i' off' /\ ptx_frames tx' = [].
Proof.
  intros Hv Hn Hh Hg Hm. revert tx fs i off. induction k as [|k IH]; intros tx fs i off Hs Hl.
  - exists tx, [], i, off. split; [by apply carries_nil|]. pose proof (sd_rest _ _ _ _ Hs) as [= -> _ _].
    destruct (sd_at _ _ _ _ Hs) as (_ & Hf & _). unfold left_of in Hl.
    destruct (drop i fs) as [|fr rest]; [done|]. rewrite frames_len_cons in Hl. cbn in Hf.
    pose proof (frames_len_nonneg rest). lia.
  - destruct (slot_carries m b n tx fs i off Hs Hv Hn) as (tx1 & r1 & i1 & o1 & HC & Hp).
    pose proof HC as [Hs1 _ Hst _ _]. rewrite app_nil_r in Hs1, Hst. pose proof (stream_left _ _ _ _ _ _ _ Hst) as Hd.
    destruct (IH tx1 fs i1 o1 Hs1) as (tx2 & r2 & i2 & o2 & HK & Hf).
    { destruct (decide (drop i fs = [])) as [E|E].
      - destruct (stream_bounds _ _ _ _ _ _ _ Hst) as (Hle & _).
        destruct (sd_at _ _ _ _ Hs1) as (_ & Hf & _). unfold left_of.
        assert (drop i1 fs = []) as E1
          by (apply length_zero_iff_nil; rewrite length_drop; apply (f_equal length) in E; rewrite length_drop in E; simpl in E; lia).
        rewrite E1 in Hf |- *. cbn in Hf. subst. change (frames_len []) with 0. lia.
      - specialize (Hp Hm Hh Hg E). destruct (pdus r1) as [|x l]; [done|]. rewrite zlen_cons in Hd.
        pose proof (zlen_nonneg l). lia. }
    exists tx2, (r1 ++ r2), i2, o2. split; [|done].
    rewrite <- (app_nil_r fs) in HK.
    exact (carries_app _ _ _ _ _ _ _ _ _ _ _ 0 (link_run (replicate k (LinkSlot m b n))) _ _ _ _ _ HC HK).
Qed.
End Link.

(** What the receiver makes of it, from the moment both sides are switched on. *)
Lemma link_received tcid rcid tcfg rlf D n run tx fs revs i off :
  let g := px_allow_segmentation tcfg in
  let new := link_new tcid rcid tcfg (PrxConfig rlf g true D) in
  0 <= D <= 8190 -> is_u64 n ->
  carries g tcfg (lk_tx new) [] 0 0 n (fun rx out => run (Link (lk_tx new) rx [] out)) tx fs revs i off ->
  exists k, run new = Ok k /\ lk_tx k = tx /\
    lk_sent k = lk_read k ++ to_rx_queue (lk_rx k) ++ ptx_frames (lk_tx k) /\ prx_rrc (lk_rx k) = [].
Proof.
  intros g new HD Hu [[Hi _ _ _ Hok Hrest Hat _] Ht Hst Hc Hrun].
  cbn [app] in *. injection Hrest as Hfs _ _.
  destruct (stream_finish g fs i off Hok Hat) as (l & j & Hst' & Hj).
  pose proof (stream_app _ _ _ _ _ _ _ _ _ _ Hst Hst') as HL.
  assert (is_u64 (zlen (concat fs))) as Hu' by (pose proof (zlen_nonneg (concat fs)); ulia).
  pose proof (stream_sender_ok g fs _ j HL Hok Hu') as Hsend.
  pose proof (stream_history g fs _ j D HL Hj ltac:(lia) revs [] l eq_refl Hc) as Hh.
  destruct (rx_run_inv g _ _ D Hsend HD revs 0 none_received _ [] (rx_inv_init g _ _ D rcid rlf)
    (front_init g _ _ 512 Hsend eq_refl) Hh) as (d & rx & out & E & HI & Hf).
  pose proof (got_pdus revs []) as Hg. cbn [foldl app] in Hg. rewrite Hg in Hf.
  pose proof (front_unique _ _ _ _ _ Hf (stream_front g fs _ j HL Hj (pdus revs) l i off eq_refl Hst Hst')) as ->.
  destruct (stream_bounds _ _ _ _ _ _ _ Hst') as (Hin & _).
  exists (Link tx rx fs out). specialize (Hrun (lk_rx new) []). cbn [lk_rx new link_new] in Hrun.
  rewrite E, bind_ret_l in Hrun. split; [done|]. split; [done|]. cbn [lk_sent lk_read lk_rx lk_tx].
  split; [|apply (ri_on _ _ _ _ _ _ _ _ HI)].
  rewrite app_assoc, (ri_out _ _ _ _ _ _ _ _ HI), Hfs, take_take, Nat.min_l by done. by rewrite take_drop.
Qed.

Lemma sending_new tcid rcid tcfg rcfg :
  px_allow_reordering tcfg = true ->
  sending (px_allow_segmentation tcfg) tcfg (lk_tx (link_new tcid rcid tcfg rcfg)) [] 0 0.
Proof. intros Hr. constructor; try done; [apply ptx_inv_fresh|]. split; [done|]. split; [done|by left]. Qed.

Lemma link_run_app a b k : link_run (a ++ b) k = (k ← link_run a k; link_run b k).
Proof.
  revert k. induction a as [|e a IH]; intros k; [done|]. cbn [app link_run]. rewrite bind_assoc.
  destruct (link_step e k); [apply IH|done..].
Qed.

Lemma link_sound tcid rcid tcfg rlf D evs :
  px_allow_reordering tcfg = true -> 0 <= D <= 8190 ->
  Forall link_event_ok evs -> is_u64 (zlen (concat (offered evs))) ->
  let rcfg := PrxConfig rlf (px_allow_segmentation tcfg) true D in
  exists k, link_run evs (link_new tcid rcid tcfg rcfg) = Ok k /\
    lk_sent k = lk_read k ++ to_rx_queue (lk_rx k) ++ ptx_frames (lk_tx k) /\ prx_rrc (lk_rx k) = [].
Proof.
  intros Hr HD Hev Hu rcfg.
  destruct (run_carries _ _ evs _ [] 0 0 (sending_new tcid rcid tcfg rcfg Hr) Hev) as (tx & fs & revs & i & off & HC).
  destruct (link_received tcid rcid tcfg rlf D _ (link_run evs) _ _ _ _ _ HD Hu HC) as (k & E & _ & H).
  by exists k.
Qed.

(** ** Properties *)

(** C1: what is queued on one side is read on the other. Starting from two sides that have
    just been switched on, for every history of frames queued (of 1 to 65536
    bytes), views offered (below 32768 bytes, of any size and anywhere in the
    buffer) and reads, with segmentation or without: nothing fails, and the
    frames read, those waiting to be read, and those the transmit side still
    has (the one in progress first) are together exactly the frames that were
    accepted, whole, in the order they were queued; all but those left at the
    transmit side have arrived. *)
Theorem pdcp_link tcid rcid tcfg rlf D evs :
  px_allow_reordering tcfg = true -> 0 <= D <= 8190 ->
  Forall link_event_ok evs -> is_u64 (zlen (concat (offered evs))) ->
  let rcfg := PrxConfig rlf (px_allow_segmentation tcfg) true D in
  exists k, link_run evs (link_new tcid rcid tcfg rcfg) = Ok k /\
    lk_sent k = lk_read k ++ to_rx_queue (lk_rx k) ++ ptx_frames (lk_tx k) /\ prx_rrc (lk_rx k) = [].
Proof. exact (link_sound tcid rcid tcfg rlf D evs). Qed.

(** C2: nothing is left behind. With segmentation, a view above the minimum
    commit size that has room for more than a header, offered once for every
    byte queued, empties the transmit side: every frame accepted has been read
    or waits to be read. *)
Theorem pdcp_link_drains tcid rcid tcfg rlf D evs m b n :
  px_allow_reordering tcfg = true -> px_allow_segmentation tcfg = true -> 0 <= D <= 8190 ->
  Forall link_event_ok evs -> is_u64 (zlen (concat (offered evs))) ->
  view_ok m b n -> hdr_len true true < n < 32768 -> px_min_commit_size tcfg <= n ->
  let slots := replicate (Z.to_nat (zlen (concat (offered evs)))) (LinkSlot m b n) in
  exists k, link_run (evs ++ slots) (link_new tcid rcid tcfg (PrxConfig rlf true true D)) = Ok k /\
    ptx_frames (lk_tx k) = [] /\ lk_sent k = lk_read k ++ to_rx_queue (lk_rx k).
Proof.
  intros Hr Hg HD Hev Hu Hv [Hh Hn] Hm slots. replace (hdr_len true true) with (hdr_len true (px_allow_segmentation tcfg)) in Hh by (by rewrite Hg).
  replace (PrxConfig rlf true true D) with (PrxConfig rlf (px_allow_segmentation tcfg) true D) by (by rewrite Hg).
  destruct (run_carries _ _ evs _ [] 0 0 (sending_new tcid rcid tcfg (PrxConfig rlf (px_allow_segmentation tcfg) true D) Hr) Hev)
    as (tx & fs & revs & i & off & HC).
  pose proof HC as [Hs Ht Hst _ _]. pose proof (stream_left _ _ _ _ _ _ _ Hst) as Hl.
  pose proof (zlen_nonneg (pdus revs)). unfold left_of in Hl at 2. rewrite drop_0 in Hl. unfold frames_len in Hl.
  destruct (slots_drain _ _ m b n (Z.to_nat (zlen (concat (offered evs)))) tx ([] ++ fs) i off Hv Hn Hh Hg Hm Hs)
    as (tx2 & r2 & i2 & o2 & HK & Hf); [cbn [app] in *; lia|].
  assert (is_u64 (zlen (concat (offered evs)) + 0)) as Hu0 by (by rewrite Z.add_0_r).
  pose proof (carries_app _ _ _ _ _ _ _ _ _ _ _ _ _ 0 (link_run slots) _ _ _ _ _ HC HK) as HA.
  destruct (link_received tcid rcid tcfg rlf D _ (fun k => k ← link_run evs k; link_run slots k) _ _ _ _ _ HD
    Hu0 HA) as (k & E & <- & HS & _).
  exists k. rewrite link_run_app. rewrite Hf, app_nil_r in HS. done.
Qed.

(** Two frames; the first is cut in two, the second is left waiting. *)
Definition link_example : list link_event :=
  [LinkFrame [1; 2; 3]; LinkFrame [9; 8]; LinkSlot (replicate 20 0) 2 8; LinkSlot (replicate 20 0) 0 7; LinkRead].

Lemma link_example_ok : Forall link_event_ok link_example.
Proof.
  assert (forall l, Forall is_u8 l -> 1 <= zlen l <= 65536 -> link_frame_ok l) as Hf by done.
  repeat constructor; cbn; try (vm_compute; congruence); apply view_replicate; ulia.
Qed.

Lemma pdcp_link_witness :
  exists k, link_run link_example (link_new 1 1 (PtxConfig true true false 0 4) (PrxConfig true true true 20)) = Ok k /\
    lk_sent k = lk_read k ++ to_rx_queue (lk_rx k) ++ ptx_frames (lk_tx k).
Proof.
  destruct (pdcp_link 1 1 (PtxConfig true true false 0 4) true 20 link_example eq_refl ltac:(lia) link_example_ok
    ltac:(vm_compute; split; congruence)) as (k & E1 & E2 & _).
  exists k. split; [exact E1|exact E2].
Defined.

Lemma pdcp_link_drains_witness :
  let slots := replicate (Z.to_nat (zlen (concat (offered link_example)))) (LinkSlot (replicate 20 0) 2 8) in
  exists k, link_run (link_example ++ slots)
      (link_new 1 1 (PtxConfig true true false 0 4) (PrxConfig true true true 20)) = Ok k /\
    ptx_frames (lk_tx k) = [] /\ lk_sent k = lk_read k ++ to_rx_queue (lk_rx k).
Proof.
  apply (pdcp_link_drains 1 1 (PtxConfig true true false 0 4) true 20 link_example (replicate 20 0) 2 8 eq_refl eq_refl
    ltac:(lia) link_example_ok ltac:(vm_compute; split; congruence) ltac:(apply view_replicate; ulia)
    ltac:(vm_compute; split; congruence) ltac:(vm_compute; congruence)).
Defined.

Example link_example_run :
  (k ← link_run link_example (link_new 1 1 (PtxConfig true true false 0 4) (PrxConfig true true true 20));
   mret (lk_sent k, lk_read k, to_rx_queue (lk_rx k), ptx_frames (lk_tx k))) =
  Ok ([[1; 2; 3]; [9; 8]], [[1; 2; 3]], [], [[9; 8]]).
Proof. vm_compute. reflexivity. Qed.
