(* ===== verification/EndPoint.v ===== *)
(** * What the end points share ([winject/src/*EndPoint.hpp], [bfc/socket.hpp])

    An end point connects a channel to the world: one thread waits for a socket
    and gives what it reads to the PDCP, another gives what the PDCP delivers
    to the socket. This file has the parts the three kinds of end point share:
    the addresses of their configuration, the owner of a socket, and what the
    calls of the operating system may answer.

    The system calls are no code of the repository. Their answers are
    arguments of the model, as values of the types [select_result] and
    [recv_result]; [errno] is part of the state of a thread, and, as POSIX has
    it, a call that fails sets it and a call that succeeds leaves it. *)

From Stdlib Require Import Ascii.
From stdpp Require Import gmap strings pretty.
From S2P Require Import Prelude Mem.
#[local] Open Scope string_scope.
#[local] Open Scope Z_scope.

(** ** Addresses *)

(** [sockaddr_in]: the family is 0 or [AF_INET]; address and port as numbers,
    in host order. *)
Record sockaddr4 := SockAddr { sin_family : Z; sin_addr : Z; sin_port : Z }.
#[export] Instance sockaddr4_dec : EqDecision sockaddr4. Proof. solve_decision. Defined.
Definition AF_INET : Z := 2.
Definition sockaddr_zero : sockaddr4 := SockAddr 0 0 0.

(** [std::getline(ss, line, d)] on the text still in the stream: [None] when it
    fails because there is none. The delimiter is taken and not kept. *)
Fixpoint until (d : Ascii.ascii) (s : string) : string * string :=
  match s with
  | EmptyString => (EmptyString, EmptyString)
  | String c s => if Ascii.eqb c d then (EmptyString, s) else let '(l, rest) := until d s in (String c l, rest)
  end.
Definition getline (d : Ascii.ascii) (s : string) : option (string * string) :=
  match s with EmptyString => None | _ => Some (until d s) end.

(** [std::stoul] in base ten: white space, a sign, and digits up to the first
    other character. *)
Definition is_space (c : Ascii.ascii) : bool :=
  let n := Z.of_N (Ascii.N_of_ascii c) in (n =? 32) || ((9 <=? n) && (n <=? 13)).
Definition digit_of (c : Ascii.ascii) : option Z :=
  let n := Z.of_N (Ascii.N_of_ascii c) - 48 in if (0 <=? n) && (n <=? 9) then Some n else None.
Fixpoint skip_spaces (s : string) : string :=
  match s with String c s' => if is_space c then skip_spaces s' else s | EmptyString => s end.
Fixpoint digits (acc : Z) (s : string) : Z :=
  match s with
  | String c s => match digit_of c with Some d => digits (10 * acc + d) s | None => acc end
  | EmptyString => acc
  end.
Definition starts_digit (s : string) : bool :=
  match s with String c _ => bool_decide (is_Some (digit_of c)) | EmptyString => false end.
Definition stoul (s : string) : res Z :=
  let s := skip_spaces s in
  let '(neg, s) := match s with
    | String c s' => if Ascii.eqb c "-"%char then (true, s') else if Ascii.eqb c "+"%char then (false, s') else (false, s)
    | EmptyString => (false, s)
    end in
  if negb (starts_digit s) then Throw StdInvalidArgument else
  let v := digits 0 s in
  if 18446744073709551616 <=? v then Throw StdOutOfRange else
  mret (if neg then u64 (- v) else v).

Section Address.
(** [inet_pton(AF_INET, ...)]: the address, if the text is one. *)
Context (inet_pton : string -> option Z).

Definition ip4_port_to_sockaddr (ip : string) (port : Z) : sockaddr4 :=
  match inet_pton ip with
  | Some a => SockAddr AF_INET a port
  | None => SockAddr 0 0 port
  end.

(** [udp_ep_to_sockaddr4], [tcp_ep_to_sockaddr4], [tcp_client_to_sockaddr4]
    have the same text. *)
Definition ep_to_sockaddr4 (hostport : string) : res sockaddr4 :=
  match getline ":"%char hostport with
  | None => mret sockaddr_zero
  | Some (host, ss) =>
    match getline (Ascii.ascii_of_nat 10) ss with
    | None => mret sockaddr_zero
    | Some (port_str, _) => port ← stoul port_str; mret (ip4_port_to_sockaddr host (u16 port))
    end
  end.
End Address.

(** ** Sockets *)

(** A [bfc::socket] owns a descriptor, or none ([-1]). Its move assignment
    leaves the object and the descriptors closed: the one on the right gives
    its descriptor away; if it has none, nothing happens. *)
Definition no_fd : Z := -1.
Definition socket_assign (self other : Z) : Z * list Z :=
  if negb (other =? no_fd) then (other, if negb (self =? no_fd) then [self] else []) else (self, []).
Definition socket_close (self : Z) : list Z := if negb (self =? no_fd) then [self] else [].

(** ** Answers of the operating system *)

(** [select] either fails or returns the descriptors that are ready. *)
Inductive select_result := SelectFails (err : Z) | SelectReady (ready : gset Z).
Inductive recv_result := RecvFails (err : Z) | RecvData (data : list Z) (from : sockaddr4).
Definition EINTR : Z := 4.
Definition EBADF : Z := 9.
Definition EAGAIN : Z := 11.

(** [errno] after a call. *)
Definition errno_select (r : select_result) (errno : Z) : Z :=
  match r with SelectFails err => err | SelectReady _ => errno end.
Definition errno_recv (r : recv_result) (errno : Z) : Z :=
  match r with RecvFails err => err | RecvData _ _ => errno end.

(** What is watched after [select]: the ready ones, or, if it failed, the same
    as before. *)
Definition watch_select (r : select_result) (watch : gset Z) : gset Z :=
  match r with SelectFails _ => watch | SelectReady ready => ready end.

(** Where the transmit thread of an end point is: before its first statement,
    at [select], in the loop that offers [b] to the PDCP, behind it, about to
    take an event from the queue, at its end; [ready] is what [select] reported.
    And the receive thread. *)
Inductive tx_pc := TxStart | TxTurn | TxSend (b : list Z) (ready : gset Z) | TxRest (ready : gset Z) | TxPop | TxExit.
Inductive rx_pc := RxStart | RxTest | RxExit.
#[export] Instance tx_pc_dec : EqDecision tx_pc. Proof. solve_decision. Defined.
#[export] Instance rx_pc_dec : EqDecision rx_pc. Proof. solve_decision. Defined.

(** Where a thread is that calls a method of a TCP end point: in the destructor,
    behind the first flag; at [check_state]; in it, at [connect]; in
    [notify_event], before the event is queued, and before the event descriptor
    is written. Several may be there at once. *)
Inductive notify_pc := NStop | NCheck | NConnect | NPush (event : Z) | NWrite.
#[export] Instance notify_pc_dec : EqDecision notify_pc. Proof. solve_decision. Defined.
Definition next_caller (i : nat) (next : option notify_pc) (l : list notify_pc) : list notify_pc :=
  match next with Some c => <[i := c]> l | None => delete i l end.
(** The callers that have queued an event and not yet written the descriptor *)
Definition writers (l : list notify_pc) : Z := zlen (filter (fun c => c = NWrite) l).

(** ** Lemmas *)

Definition writes (c : notify_pc) : Z := Z_of_bool (bool_decide (c = NWrite)).
Lemma writers_cons c l : writers (c :: l) = writes c + writers l.
Proof. unfold writers, writes. rewrite filter_cons. case_bool_decide; case_decide; try done. by rewrite zlen_cons. Qed.
Lemma writers_app l k : writers (l ++ k) = writers l + writers k.
Proof. unfold writers. by rewrite list.filter_app, zlen_app. Qed.
Lemma writers_nonneg l : 0 <= writers l. Proof. apply zlen_nonneg. Qed.
Lemma writers_next i c next l : l !! i = Some c ->
  writers (next_caller i next l) = writers l - writes c + match next with Some c => writes c | None => 0 end.
Proof.
  intros Hi. rewrite <- (take_drop_middle l i c Hi) at 2. rewrite writers_app, writers_cons.
  destruct next as [d|]; cbn [next_caller].
  - rewrite (insert_take_drop l i d) by (by eapply lookup_lt_Some). rewrite writers_app, writers_cons. lia.
  - rewrite delete_take_drop, writers_app. lia.
Qed.

Lemma until_cons d c s :
  until d (String c s) = if Ascii.eqb c d then (EmptyString, s) else let '(l, rest) := until d s in (String c l, rest).
Proof. reflexivity. Qed.

Lemma until_app d a b : (forall c, c ∈ String.list_ascii_of_string a -> c <> d) ->
  until d (a +:+ String d b) = (a, b).
Proof.
  induction a as [|c a IH]; intros H.
  { change ("" +:+ String d b) with (String d b). by rewrite until_cons, Ascii.eqb_refl. }
  change (String c a +:+ String d b) with (String c (a +:+ String d b)). rewrite until_cons.
  assert (c <> d) as Hc by (apply H; left). apply Ascii.eqb_neq in Hc. rewrite Hc, IH; [done|].
  intros x Hx. apply H. by right.
Qed.

Lemma until_none d a : (forall c, c ∈ String.list_ascii_of_string a -> c <> d) -> until d a = (a, "").
Proof.
  induction a as [|c a IH]; intros H; [done|]. rewrite until_cons.
  assert (c <> d) as Hc by (apply H; left). apply Ascii.eqb_neq in Hc. rewrite Hc, IH; [done|].
  intros x Hx. apply H. by right.
Qed.

Lemma digit_char n : (n < 10)%N -> digit_of (pretty_N_char n) = Some (Z.of_N n).
Proof. intros H. destruct n as [|p]; [done|]. do 4 (destruct p as [p|p|]; try done). Qed.

Lemma digits_pretty x s : digits 0 (pretty_N_go x s) = digits (Z.of_N x) s.
Proof.
  revert s. induction (N.lt_wf_0 x) as [x _ IH]; intros s.
  assert (x = 0 \/ 0 < x)%N as [->|Hx] by lia; [done|].
  rewrite pretty_N_go_step, IH by (done || by apply N.div_lt). cbn [digits].
  rewrite digit_char by (by apply N.mod_lt). f_equal. lia.
Qed.

(** The text [pretty] prints is made of digits. *)
Definition all_digits (s : string) : Prop :=
  forall c, c ∈ String.list_ascii_of_string s -> is_Some (digit_of c).
Lemma all_digits_go x s : all_digits s -> all_digits (pretty_N_go x s).
Proof.
  revert s. induction (N.lt_wf_0 x) as [x _ IH]; intros s Hs.
  assert (x = 0 \/ 0 < x)%N as [->|Hx] by lia; [done|].
  rewrite pretty_N_go_step by done. apply IH; [by apply N.div_lt|].
  intros c [->|Hc]%elem_of_cons; [|by apply Hs]. rewrite digit_char by (by apply N.mod_lt). by eexists.
Qed.

Lemma pretty_digits (n : N) : digits 0 (pretty n) = Z.of_N n /\ all_digits (pretty n) /\ pretty n <> "".
Proof.
  unfold pretty, pretty_N. destruct (decide (n = 0)%N) as [->|Hn].
  - split; [done|]. split; [|done]. intros c [->|Hc]%elem_of_cons; [by eexists|by apply elem_of_nil in Hc].
  - split; [by rewrite digits_pretty|]. split; [by apply all_digits_go; intros c Hc%elem_of_nil|].
    intros E. pose proof (digits_pretty n "") as HX. rewrite E in HX. cbn in HX. lia.
Qed.

(** A digit is no white space and no sign. *)
Lemma digit_plain c d : digit_of c = Some d ->
  is_space c = false /\ Ascii.eqb c "-"%char = false /\ Ascii.eqb c "+"%char = false.
Proof. intros Hc. destruct c as [[] [] [] [] [] [] [] []]; vm_compute in Hc; try done; vm_compute; done. Qed.

Lemma stoul_pretty (n : N) : is_u64 (Z.of_N n) -> stoul (pretty n) = Ok (Z.of_N n).
Proof.
  intros Hn. destruct (pretty_digits n) as (Hv & Hd & Hne). unfold stoul.
  destruct (pretty n) as [|c s] eqn:E; [done|].
  destruct (Hd c) as [d Hc]; [left|].
  destruct (digit_plain c d Hc) as (Hs & Hm & Hp).
  cbn [skip_spaces]. rewrite Hs, Hm, Hp. cbn [starts_digit]. rewrite bool_decide_true by (rewrite Hc; by eexists).
  cbn [negb]. rewrite Hv, (proj2 (Z.leb_gt _ _)) by ulia. done.
Qed.

(** The configuration [host:port] gives the address it names: with a host
    without a colon and a port of 16 bits. A longer port is reduced. *)
Theorem ep_address inet_pton host (port : N) :
  (forall c, c ∈ String.list_ascii_of_string host -> c <> ":"%char) -> is_u64 (Z.of_N port) ->
  ep_to_sockaddr4 inet_pton (host +:+ ":" +:+ pretty port) =
  Ok (ip4_port_to_sockaddr inet_pton host (u16 (Z.of_N port))).
Proof.
  intros Hh Hp. destruct (pretty_digits port) as (_ & Hd & Hne).
  unfold ep_to_sockaddr4, getline.
  destruct (host +:+ ":" +:+ pretty port) as [|c s] eqn:E; [by destruct host|]. rewrite <- E.
  change (host +:+ ":" +:+ pretty port) with (host +:+ String ":"%char (pretty port)). rewrite until_app by done.
  destruct (pretty port) as [|c' s'] eqn:E'; [done|]. rewrite <- E'.
  rewrite until_none; [by rewrite stoul_pretty|].
  intros x Hx ->. rewrite E' in Hx. apply Hd in Hx as [d Hx]. by vm_compute in Hx.
Qed.

(** Without a colon, or without a port behind it, the address is the empty one;
    a port that is no number throws. *)
Example ep_address_empty f : ep_to_sockaddr4 f "10.0.0.1" = Ok sockaddr_zero /\ ep_to_sockaddr4 f "10.0.0.1:" = Ok sockaddr_zero.
Proof. done. Qed.
Example ep_address_throws f : ep_to_sockaddr4 f "10.0.0.1:x" = Throw StdInvalidArgument.
Proof. done. Qed.

(** Assigning an empty socket closes nothing and changes nothing, although that
    is how the end points close theirs. *)
Lemma socket_assign_none self : socket_assign self no_fd = (self, []).
Proof. done. Qed.
