(* ===== verification/UdpEndPoint.v ===== *)
(** * The UDP end point ([winject/src/UDPEndPoint.hpp])

    Its two threads as steps: what one pass through the loop of [run_pdcp_tx]
    and [run_pdcp_rx] does, given the answers of the system calls and of the
    PDCP. The theorem joins an end point, the two sides of a PDCP over a link
    ([PdcpLink]) and the end point of the peer: the datagrams that come out
    are those that went in. *)

From stdpp Require Import gmap strings.
From S2P Require Import Prelude Mem PdcpSegment PdcpUl PdcpTx PdcpRx Info PdcpLink EndPoint.

(** ** State *)

(** [ue_in] and [ue_out] are the traffic of the socket: the datagrams read from
    it, and those sent with the address they were sent to. *)
Record udp_ep := UdpEp {
  ue_fd : Z; ue_event_fd : Z; ue_reply_to_last : bool; ue_target : sockaddr4;
  ue_is_tx_enabled : bool; ue_is_rx_enabled : bool;
  ue_tx_running : bool; ue_rx_running : bool; ue_errno : Z;
  ue_tx : tx_pc; ue_rx : rx_pc;
  ue_in : list (list Z); ue_out : list (sockaddr4 * list Z) }.
#[export] Instance eta_udp : Eta udp_ep := fun e =>
  UdpEp (ue_fd e) (ue_event_fd e) (ue_reply_to_last e) (ue_target e) (ue_is_tx_enabled e) (ue_is_rx_enabled e)
    (ue_tx_running e) (ue_rx_running e) (ue_errno e) (ue_tx e) (ue_rx e) (ue_in e) (ue_out e).

(** ** Operations *)

(** The constructor, given the socket, what [bind] and [eventfd] answer, and
    that the threads have been created. *)
Definition udp_new (inet_pton : string -> option Z) (address1 address2 : string) (reply_to_last : bool)
    (fd : Z) (bind_rv : sockaddr4 -> Z) (event_fd : Z) : res udp_ep :=
  bind_addr ← ep_to_sockaddr4 inet_pton address1;
  if bind_rv bind_addr <? 0 then Throw StdRuntimeError else
  if event_fd <? 0 then Throw StdRuntimeError else
  target ← ep_to_sockaddr4 inet_pton address2;
  mret (UdpEp fd event_fd reply_to_last target false false false false 0 TxStart RxStart [] []).

Definition udp_set_tx_enabled (value : bool) (e : udp_ep) : udp_ep := e <| ue_is_tx_enabled := value |>.
Definition udp_set_rx_enabled (value : bool) (e : udp_ep) : udp_ep := e <| ue_is_rx_enabled := value |>.

(** The destructor up to the joins; the descriptor of events is ready from then
    on. *)
Definition udp_stop (e : udp_ep) : udp_ep := e <| ue_tx_running := false |> <| ue_rx_running := false |>.

(** [run_pdcp_tx]: its first statement, the end of a pass, a pass from [select]
    to the call of the PDCP, and one turn of the loop that calls the PDCP
    ([accepted]: what [to_tx] returns). *)
Definition udp_tx_begin (e : udp_ep) : udp_ep := e <| ue_tx_running := true |> <| ue_tx := TxTurn |>.
Definition udp_tx_rest (ready : gset Z) (e : udp_ep) : udp_ep :=
  e <| ue_tx := if bool_decide (ue_event_fd e ∈ ready) then TxExit else TxTurn |>.
Definition udp_tx_turn (sel : select_result) (rc : recv_result) (e : udp_ep) : udp_ep :=
  if negb (ue_tx_running e) then e <| ue_tx := TxExit |> else
  let e := e <| ue_errno := errno_select sel (ue_errno e) |> in
  if (EAGAIN =? ue_errno e) || (EINTR =? ue_errno e) then e else
  match sel with
  | SelectFails _ => e <| ue_tx := TxExit |>
  | SelectReady ready =>
    if bool_decide (ue_fd e ∈ ready) then
      match rc with
      | RecvData ((_ :: _) as data) sender_addr =>
        let e := e <| ue_in := ue_in e ++ [data] |> in
        let e := if ue_reply_to_last e then e <| ue_target := sender_addr |> else e in
        e <| ue_tx := TxSend data ready |>
      | _ => udp_tx_rest ready (e <| ue_errno := errno_recv rc (ue_errno e) |>)
      end
    else udp_tx_rest ready e
  end.
Definition udp_tx_try (accepted : bool) (e : udp_ep) : udp_ep :=
  match ue_tx e with
  | TxSend _ ready => if ue_tx_running e && negb accepted then e else udp_tx_rest ready e
  | _ => e
  end.

(** [run_pdcp_rx]: its first statement, and one pass ([b]: what [to_rx]
    returns). *)
Definition udp_rx_begin (e : udp_ep) : udp_ep := e <| ue_rx_running := true |> <| ue_rx := RxTest |>.
Definition udp_rx_turn (b : list Z) (e : udp_ep) : udp_ep :=
  if negb (ue_rx_running e) then e <| ue_rx := RxExit |> else
  match b with [] => e | _ => e <| ue_out := ue_out e ++ [(ue_target e, b)] |> end.

(** ** The tunnel

    An end point, its PDCP, the link, the PDCP and the end point of the peer. *)

Record tunnel := Tunnel { tn_a : udp_ep; tn_link : link_t; tn_b : udp_ep }.
#[export] Instance eta_tunnel : Eta tunnel := fun t => Tunnel (tn_a t) (tn_link t) (tn_b t).

(** A datagram arrives and [a] is at [select]; [a] offers the datagram it holds
    to the PDCP; a slot; the receive thread of [b] makes a pass. *)
Inductive tunnel_event := TnRecv (data : list Z) (from : sockaddr4) | TnTry | TnSlot (m : list Z) (b n : Z) | TnSend.

Definition tunnel_step (e : tunnel_event) (t : tunnel) : res tunnel :=
  match e with
  | TnRecv data from =>
    mret (match ue_tx (tn_a t) with
          | TxTurn => t <| tn_a := udp_tx_turn (SelectReady {[ ue_fd (tn_a t) ]}) (RecvData data from) (tn_a t) |>
          | _ => t
          end)
  | TnTry =>
    match ue_tx (tn_a t) with
    | TxSend b _ =>
      let accepted := (to_tx_finish b (to_tx_enter (lk_tx (tn_link t)))).2 in
      k ← link_step (LinkFrame b) (tn_link t);
      mret (t <| tn_link := k |> <| tn_a := udp_tx_try accepted (tn_a t) |>)
    | _ => mret t
    end
  | TnSlot m b n => k ← link_step (LinkSlot m b n) (tn_link t); mret (t <| tn_link := k |>)
  | TnSend =>
    let b := (to_rx (lk_rx (tn_link t))).2 in
    k ← link_step LinkRead (tn_link t);
    mret (t <| tn_link := k |> <| tn_b := udp_rx_turn b (tn_b t) |>)
  end.
Fixpoint tunnel_run (evs : list tunnel_event) (t : tunnel) : res tunnel :=
  match evs with [] => mret t | e :: evs => t ← tunnel_step e t; tunnel_run evs t end.

(** A datagram is what fits [buffer_read], an empty one aside. *)
Definition tunnel_event_ok (e : tunnel_event) : Prop :=
  match e with
  | TnRecv data _ => bytes_ok data /\ 1 <= zlen data <= 16384
  | TnSlot m b n => view_ok m b n /\ n < 32768
  | _ => True
  end.

(** The datagram the transmit thread holds. *)
Definition held (e : udp_ep) : list (list Z) := match ue_tx e with TxSend b _ => [b] | _ => [] end.

(** A transmit thread in its loop that no call has failed, and a receive thread
    in its loop. *)
Record udp_sends (e : udp_ep) : Prop := UdpSends {
  us_fds : ue_event_fd e <> ue_fd e;
  us_running : ue_tx_running e = true;
  us_errno : ue_errno e = 0;
  us_pc : ue_tx e = TxTurn \/ exists b, ue_tx e = TxSend b {[ ue_fd e ]} }.
Definition udp_receives (e : udp_ep) : Prop := ue_rx_running e = true /\ ue_rx e = RxTest.

(** ** Proofs *)

Section Tunnel.
Context (tcid rcid : Z) (tcfg : ptx_config) (rlf : bool) (D : Z) (target : sockaddr4).
Context (Hr : px_allow_reordering tcfg = true) (HD : 0 <= D <= 8190).
Let new := link_new tcid rcid tcfg (PrxConfig rlf (px_allow_segmentation tcfg) true D).

(** The link has come about by [n] steps at most. *)
Definition link_made (n : Z) (k : link_t) : Prop :=
  exists levs, link_run levs new = Ok k /\ Forall link_event_ok levs /\ zlen (concat (offered levs)) <= 16384 * n.

Lemma link_made_step n k e :
  link_made n k -> link_event_ok e -> zlen (concat (offered [e])) <= 16384 -> 16384 * (n + 1) < 2 ^ 64 ->
  exists k', link_step e k = Ok k' /\ link_made (n + 1) k' /\
    lk_sent k' = lk_read k' ++ to_rx_queue (lk_rx k') ++ ptx_frames (lk_tx k').
Proof.
  intros (levs & E & Hok & Hz) He Hez Hn. change (2 ^ 64) with 18446744073709551616 in Hn.
  assert (Forall link_event_ok (levs ++ [e])) as Hok' by (apply Forall_app_2; [done|by constructor]).
  assert (zlen (concat (offered (levs ++ [e]))) <= 16384 * (n + 1)) as Hz'.
  { unfold offered in *. rewrite map_app, !concat_app, zlen_app. lia. }
  pose proof (zlen_nonneg (concat (offered (levs ++ [e])))).
  destruct (link_sound tcid rcid tcfg rlf D (levs ++ [e]) Hr HD Hok' ltac:(ulia)) as (k' & E' & HS & _).
  fold new in E'. pose proof E' as E1. rewrite link_run_app, E, bind_ret_l in E'. cbn [link_run] in E'.
  apply bind_Ok in E' as (k1 & E' & [= ->]). exists k'. split; [done|]. split; [|done]. by exists (levs ++ [e]).
Qed.

Record tunnel_inv (n : Z) (t : tunnel) : Prop := TunnelInv {
  tv_a : udp_sends (tn_a t);
  tv_b : udp_receives (tn_b t);
  tv_link : link_made n (tn_link t);
  tv_sent : lk_sent (tn_link t) =
    lk_read (tn_link t) ++ to_rx_queue (lk_rx (tn_link t)) ++ ptx_frames (lk_tx (tn_link t));
  tv_in : ue_in (tn_a t) = lk_sent (tn_link t) ++ held (tn_a t);
  tv_ok : Forall (fun d => bytes_ok d /\ 1 <= zlen d <= 16384) (ue_in (tn_a t));
  tv_out : ue_out (tn_b t) = map (pair target) (lk_read (tn_link t));
  tv_target : ue_target (tn_b t) = target }.

Lemma udp_turn_recv e d from : udp_sends e -> ue_tx e = TxTurn -> d <> [] ->
  let e' := udp_tx_turn (SelectReady {[ ue_fd e ]}) (RecvData d from) e in
  udp_sends e' /\ ue_tx e' = TxSend d {[ ue_fd e ]} /\ ue_in e' = ue_in e ++ [d].
Proof.
  intros [Hf Hrun He _] Hpc Hd. unfold udp_tx_turn. rewrite Hrun. cbn [negb errno_select].
  change (ue_errno (upd ue_errno _ e)) with (ue_errno e). rewrite He. cbn [orb Z.eqb EAGAIN EINTR].
  change (ue_fd (upd ue_errno _ e)) with (ue_fd e). rewrite bool_decide_true by set_solver.
  destruct d as [|z d]; [done|]. destruct (ue_reply_to_last _); (split; [|split; [|]]; cycle 1; [reflexivity|reflexivity|]);
    (constructor; [done..|right; by eexists]).
Qed.

Lemma udp_try_pc e b acc : udp_sends e -> ue_tx e = TxSend b {[ ue_fd e ]} ->
  let e' := udp_tx_try acc e in
  udp_sends e' /\ ue_in e' = ue_in e /\ held e' = if acc then [] else [b].
Proof.
  intros [Hf Hrun He _] Hpc. unfold udp_tx_try, held. rewrite Hpc, Hrun. destruct acc; cbn [negb andb].
  - unfold udp_tx_rest. rewrite bool_decide_false by set_solver. split; [|done]. constructor; try done. by left.
  - rewrite Hpc. split; [|done]. constructor; try done. right. by eexists.
Qed.

Lemma tunnel_step_inv n t e :
  tunnel_inv n t -> tunnel_event_ok e -> 0 <= n -> 16384 * (n + 1) < 2 ^ 64 ->
  exists t', tunnel_step e t = Ok t' /\ tunnel_inv (n + 1) t'.
Proof.
  intros [Ha Hb Hl Hs Hi Hk Ho Ht] He Hn Hn1.
  assert (link_made (n + 1) (tn_link t)) as Hl1 by (destruct Hl as (levs & ? & ? & ?); exists levs; split_and!; try done; lia).
  destruct e as [d from| |m b z|]; cbn [tunnel_step tunnel_event_ok] in *.
  - destruct (ue_tx (tn_a t)) eqn:Epc; try (exists t; by split).
    assert (d <> []) as Hd by (intros ->; change (zlen []) with 0 in He; lia).
    destruct (udp_turn_recv _ d from Ha Epc Hd) as (Ha' & Hpc & Hin).
    eexists; split; [done|]. constructor; cbn; try done.
    + unfold held in *. rewrite Hin, Hi, Hpc, Epc. cbn. by rewrite app_nil_r.
    + rewrite Hin. apply Forall_app_2; [done|by constructor].
  - destruct (ue_tx (tn_a t)) as [| |b ready| | |] eqn:Epc; try (exists t; by split).
    assert (ready = {[ ue_fd (tn_a t) ]}) as -> by (destruct (us_pc _ Ha) as [E|[b' E]]; congruence).
    assert (bytes_ok b /\ 1 <= zlen b <= 16384) as Hbk.
    { unfold held in Hi. rewrite Epc in Hi. rewrite Hi in Hk. by apply Forall_app in Hk as [_ [? _]%list.Forall_cons]. }
    destruct (link_made_step n (tn_link t) (LinkFrame b)) as (k & E & Hlk & HS); try done.
    { split; [apply Hbk|lia]. } { cbn. rewrite app_nil_r. lia. }
    rewrite E, bind_ret_l.
    destruct (udp_try_pc _ b (to_tx_finish b (to_tx_enter (lk_tx (tn_link t)))).2 Ha Epc) as (Ha' & Hin & Hh).
    eexists; split; [done|]. unfold held in Hi. rewrite Epc in Hi. cbn [link_step] in E.
    destruct (to_tx_finish b _) as [tx acc]. injection E as <-. cbn [snd] in *.
    constructor; cbn; try done; rewrite Hin; try done. rewrite Hh, Hi. by destruct acc; rewrite ?app_nil_r.
  - destruct He as [Hv Hz]. destruct (link_made_step n (tn_link t) (LinkSlot m b z)) as (k & E & Hlk & HS); try done.
    rewrite E, bind_ret_l. assert (lk_sent k = lk_sent (tn_link t) /\ lk_read k = lk_read (tn_link t)) as [E1 E2].
    { cbn [link_step] in E. apply bind_Ok in E as ([[m' i'] tx'] & _ & E). destruct (_ =? 0); [by injection E as <-|].
      apply bind_Ok in E as (rx & _ & E). by injection E as <-. }
    eexists; split; [done|]. constructor; cbn; try done; congruence.
  - destruct (link_made_step n (tn_link t) LinkRead) as (k & E & Hlk & HS); try done.
    rewrite E, bind_ret_l. eexists; split; [done|]. cbn [link_step] in E. unfold to_rx in *.
    destruct Hb as [Hb1 Hb2]. destruct (to_rx_queue (lk_rx (tn_link t))) as [|b q] eqn:Eq.
    + rewrite decide_True in E by done. injection E as <-. constructor; cbn; try done; unfold udp_rx_turn; by rewrite Hb1.
    + rewrite decide_False in E by done. injection E as <-. cbn [snd].
      assert (b <> []) as Hbn.
      { assert (b ∈ ue_in (tn_a t)) as Hin by (rewrite Hi, Hs; set_solver).
        pose proof (proj1 (list.Forall_forall _ _) Hk b Hin) as [_ Hz]. intros ->. change (zlen []) with 0 in Hz. lia. }
      assert (udp_rx_turn b (tn_b t) = (tn_b t) <| ue_out := ue_out (tn_b t) ++ [(ue_target (tn_b t), b)] |>) as ->
        by (unfold udp_rx_turn; rewrite Hb1; by destruct b).
      constructor; cbn; try done. by rewrite Ho, Ht, map_app.
Qed.

Lemma tunnel_run_inv evs n t :
  tunnel_inv n t -> Forall tunnel_event_ok evs -> 0 <= n -> 16384 * (n + zlen evs) < 2 ^ 64 ->
  exists t', tunnel_run evs t = Ok t' /\ tunnel_inv (n + zlen evs) t'.
Proof.
  revert n t. induction evs as [|e evs IH]; intros n t Hi Hok Hn Hz.
  - exists t. rewrite zlen_nil, Z.add_0_r. done.
  - apply list.Forall_cons in Hok as [He Hok]. rewrite zlen_cons in *. pose proof (zlen_nonneg evs).
    destruct (tunnel_step_inv n t e Hi He Hn ltac:(lia)) as (t1 & E & Hi1).
    destruct (IH (n + 1) t1 Hi1 Hok ltac:(lia) ltac:(lia)) as (t2 & E2 & Hi2).
    exists t2. cbn [tunnel_run]. rewrite E, bind_ret_l. split; [done|]. by replace (n + (1 + zlen evs)) with (n + 1 + zlen evs) by lia.
Qed.
End Tunnel.

(** ** Properties *)

(** C3: the tunnel. Two UDP end points whose threads are in their loops, over a
    channel that has just been switched on: for every history of arriving
    datagrams (up to the 16 KiB of the buffer, and not empty), calls of the
    PDCP, slots and passes of the receive thread, the datagrams read from the
    one socket are, whole and in order, those sent on the other, those waiting
    in the PDCP of the receiver, those still in the PDCP of the sender, and the
    one its thread is offering. Every datagram sent goes to the configured
    address. A full queue delays a datagram and loses none. *)
Theorem udp_tunnel tcid rcid tcfg rlf D a b evs :
  px_allow_reordering tcfg = true -> 0 <= D <= 8190 ->
  udp_sends a -> ue_tx a = TxTurn -> ue_in a = [] -> udp_receives b -> ue_out b = [] ->
  Forall tunnel_event_ok evs -> zlen evs < 2 ^ 50 ->
  let new := link_new tcid rcid tcfg (PrxConfig rlf (px_allow_segmentation tcfg) true D) in
  exists t, tunnel_run evs (Tunnel a new b) = Ok t /\
    ue_in (tn_a t) = map snd (ue_out (tn_b t)) ++ to_rx_queue (lk_rx (tn_link t)) ++
      ptx_frames (lk_tx (tn_link t)) ++ held (tn_a t) /\
    Forall (fun o => o.1 = ue_target b) (ue_out (tn_b t)).
Proof.
  intros Hr HD Ha Hpc Hin Hb Hout Hev Hz new.
  assert (tunnel_inv tcid rcid tcfg rlf D (ue_target b) 0 (Tunnel a new b)) as H0.
  { constructor; cbn; try done; [by exists []|unfold held; by rewrite Hpc|by rewrite Hin]. }
  destruct (tunnel_run_inv _ _ _ _ _ _ Hr HD evs 0 _ H0 Hev ltac:(lia) ltac:(lia)) as (t & E & [_ _ _ Hs Hi _ Ho _]).
  exists t. split; [done|]. rewrite Hi, Hs, Ho, map_map, map_id. split; [by rewrite <- !app_assoc|].
  apply Forall_map, list.Forall_forall. done.
Qed.

(** The transmit thread tests [errno] after every [select], whether it failed
    or not, and a call that succeeds leaves [errno] alone: once a call has been
    interrupted, the thread receives nothing, whatever arrives, until a call
    fails in another way. *)
Theorem udp_errno_stuck e answers :
  ue_tx_running e = true -> ue_errno e = EINTR \/ ue_errno e = EAGAIN ->
  Forall (fun a : select_result * recv_result => exists ready, a.1 = SelectReady ready) answers ->
  foldl (fun e a => udp_tx_turn a.1 a.2 e) e answers = e.
Proof.
  intros Hrun He. induction answers as [|a answers IH]; intros Hok; [done|].
  apply list.Forall_cons in Hok as [[ready Ha] Hok]. cbn [foldl].
  assert (udp_tx_turn a.1 a.2 e = e) as ->; [|by apply IH].
  unfold udp_tx_turn. rewrite Hrun, Ha. cbn [negb errno_select].
  change (ue_errno (upd ue_errno _ e)) with (ue_errno e).
  destruct e. cbn in He |- *. by destruct He as [-> | ->].
Qed.

(** The destructor clears the flag of the receive thread and joins it; the
    thread sets the flag when it starts. If it starts after the destructor, it
    never ends; if before, its next pass is the last. *)
Theorem udp_rx_stop e bs :
  let run bs e := foldl (fun e b => udp_rx_turn b e) e bs in
  ue_rx (run bs (udp_rx_begin (udp_stop e))) = RxTest /\
  forall b, ue_rx (udp_rx_turn b (udp_stop (udp_rx_begin e))) = RxExit.
Proof.
  intros run. split; [|done]. set (s := udp_rx_begin _).
  assert (udp_receives s) as Hs by done. clearbody s. revert s Hs.
  induction bs as [|b bs IH]; intros s Hs; [apply Hs|]. cbn [run foldl] in *. apply IH.
  destruct Hs as [Hr Hp]. unfold udp_rx_turn. rewrite Hr. by destruct b.
Qed.

(** The address a datagram goes to is that of the last sender, where the
    configuration says so. *)
Lemma udp_reply e d from ready :
  udp_sends e -> ue_tx e = TxTurn -> d <> [] -> ue_fd e ∈ ready ->
  ue_target (udp_tx_turn (SelectReady ready) (RecvData d from) e) =
  if ue_reply_to_last e then from else ue_target e.
Proof.
  intros [_ Hrun He _] _ Hd Hf. unfold udp_tx_turn. rewrite Hrun. cbn [negb errno_select].
  change (ue_errno (upd ue_errno _ e)) with (ue_errno e). rewrite He. cbn [orb Z.eqb EAGAIN EINTR].
  change (ue_fd (upd ue_errno _ e)) with (ue_fd e). rewrite bool_decide_true by done.
  destruct d; [done|]. change (ue_reply_to_last (upd _ _ (upd _ _ e))) with (ue_reply_to_last e).
  by destruct (ue_reply_to_last e).
Qed.

(** Two end points; a datagram of two bytes, and one of one byte that is left
    waiting at the sender. *)
Definition tunnel_address (s : string) : option Z := if decide (s = "10.0.0.2"%string) then Some 167772162 else None.
Definition tunnel_end : res udp_ep :=
  e ← udp_new tunnel_address "10.0.0.2:700" "10.0.0.2:701" false 5 (fun _ => 0) 6;
  mret (udp_rx_begin (udp_tx_begin e)).
Definition tunnel_example : list tunnel_event :=
  let from := SockAddr AF_INET 1 1 in
  [TnRecv [7; 8] from; TnTry; TnRecv [9] from; TnTry; TnSlot (replicate 20 0) 0 8; TnSend].

Lemma udp_tunnel_witness : exists e t,
  tunnel_end = Ok e /\ ue_target e = SockAddr AF_INET 167772162 701 /\
  tunnel_run tunnel_example (Tunnel e
    (link_new 1 1 (PtxConfig true true false 0 4) (PrxConfig true true true 20)) e) = Ok t /\
  ue_in (tn_a t) = map snd (ue_out (tn_b t)) ++ to_rx_queue (lk_rx (tn_link t)) ++
      ptx_frames (lk_tx (tn_link t)) ++ held (tn_a t).
Proof.
  destruct (udp_tunnel 1 1 (PtxConfig true true false 0 4) true 20
    (UdpEp 5 6 false (SockAddr AF_INET 167772162 701) false false true true 0 TxTurn RxTest [] [])
    (UdpEp 5 6 false (SockAddr AF_INET 167772162 701) false false true true 0 TxTurn RxTest [] [])
    tunnel_example eq_refl ltac:(lia)) as (t & E & Hi & _); try reflexivity.
  - constructor; try reflexivity; [discriminate|by left].
  - split; reflexivity.
  - assert (forall l, Forall is_u8 l -> 1 <= zlen l <= 16384 -> bytes_ok l /\ 1 <= zlen l <= 16384) as Hf by done.
    repeat constructor; cbn; try (vm_compute; congruence); apply view_replicate; ulia.
  - eexists _, t. split; [vm_compute; reflexivity|]. split; [reflexivity|]. split; [exact E|exact Hi].
Defined.

Example tunnel_example_run :
  (e ← tunnel_end;
   t ← tunnel_run tunnel_example (Tunnel e
     (link_new 1 1 (PtxConfig true true false 0 4) (PrxConfig true true true 20)) e);
   mret (ue_in (tn_a t), ue_out (tn_b t), ptx_frames (lk_tx (tn_link t)))) =
  Ok ([[7; 8]; [9]], [(SockAddr AF_INET 167772162 701, [7; 8])], [[9]]).
Proof. vm_compute. reflexivity. Qed.
