(* ===== verification/TcpServer.v ===== *)
(** * The TCP server end point ([winject/src/TCPServerEndPoint.hpp])

    It accepts one client and carries the bytes between the client and the
    PDCP while the channel is active. The transmit thread, the receive thread
    and the RRC, which switches the channel, work on one object; their
    operations are functions, their interleavings a step relation. A method is
    several steps where other threads can come in between: an event is queued
    under a lock, and the event descriptor is written afterwards, without it. *)

From stdpp Require Import gmap strings relations.
From S2P Require Import Prelude Mem Info EndPoint.

(** ** State *)

(** [ts_watch] is [recv_set], which keeps its content from pass to pass;
    [ts_count] the counter of the event descriptor, a semaphore. [ts_callers]
    are the threads that are in a method of the object. [ts_calls]
    are the calls of the RRC, [ts_to_pdcp] the frames the PDCP accepted,
    [ts_sent] what was sent and to which descriptor, [ts_closed] the
    descriptors closed, in order. *)
Record tcps := Tcps {
  ts_lcid : Z; ts_server : Z; ts_event_fd : Z; ts_client : Z;
  ts_is_tx_enabled : bool; ts_is_rx_enabled : bool;
  ts_tx_running : bool; ts_rx_running : bool; ts_errno : Z; ts_watch : gset Z;
  ts_events : list Z; ts_count : Z; ts_callers : list notify_pc; ts_tx : tx_pc; ts_rx : rx_pc;
  ts_calls : list rrc_call; ts_to_pdcp : list (list Z); ts_sent : list (Z * list Z); ts_closed : list Z }.
#[export] Instance eta_tcps : Eta tcps := fun s =>
  Tcps (ts_lcid s) (ts_server s) (ts_event_fd s) (ts_client s) (ts_is_tx_enabled s) (ts_is_rx_enabled s)
    (ts_tx_running s) (ts_rx_running s) (ts_errno s) (ts_watch s) (ts_events s) (ts_count s) (ts_callers s) (ts_tx s) (ts_rx s)
    (ts_calls s) (ts_to_pdcp s) (ts_sent s) (ts_closed s).

Definition EVENTFD_STOP : Z := 0xFFFFFFFFFFFFFFFF.
Definition EVENTFD_BREAK_SELECT : Z := 1.

(** ** Operations *)

(** The constructor, given the answers of its calls. *)
Definition tcps_new (inet_pton : string -> option Z) (lcid : Z) (address1 : string) (server opt_rv : Z)
    (bind_rv : sockaddr4 -> Z) (event_fd listen_rv : Z) : res tcps :=
  if opt_rv <? 0 then Throw StdRuntimeError else
  bind_addr ← ep_to_sockaddr4 inet_pton address1;
  if bind_rv bind_addr <? 0 then Throw StdRuntimeError else
  if event_fd <? 0 then Throw StdRuntimeError else
  if listen_rv <? 0 then Throw StdRuntimeError else
  mret (Tcps lcid server event_fd no_fd false false false false 0 ∅ [] 0 [] TxStart RxStart [] [] [] []).

(** [notify_event]: the event is queued, then the descriptor is written. *)
Definition tcps_notify_push (event : Z) (s : tcps) : tcps := s <| ts_events := ts_events s ++ [event] |>.
Definition tcps_notify_write (s : tcps) : tcps := s <| ts_count := ts_count s + 1 |>.
Definition tcps_is_active (s : tcps) : bool := ts_is_tx_enabled s && ts_is_rx_enabled s.
Definition tcps_is_rlf (s : tcps) : bool := negb (ts_is_tx_enabled s) && negb (ts_is_rx_enabled s).

(** [clientSock = other] *)
Definition tcps_assign (other : Z) (s : tcps) : tcps :=
  let '(client, closed) := socket_assign (ts_client s) other in
  s <| ts_client := client |> <| ts_closed := ts_closed s ++ closed |>.

(** [check_state] up to [notify_event], and a thread in a method: what it does
    next, and where it is then. *)
Definition tcps_check_state (s : tcps) : tcps :=
  if tcps_is_rlf s && negb (ts_client s =? no_fd) then tcps_assign no_fd s else s.
Definition tcps_call (c : notify_pc) (s : tcps) : tcps * option notify_pc :=
  match c with
  | NStop => (s <| ts_rx_running := false |>, Some (NPush EVENTFD_STOP))
  | NCheck | NConnect => (tcps_check_state s, Some (NPush EVENTFD_BREAK_SELECT))
  | NPush event => (tcps_notify_push event s, Some NWrite)
  | NWrite => (tcps_notify_write s, None)
  end.
Definition tcps_call_step (i : nat) (c : notify_pc) (s : tcps) : tcps :=
  let '(s, next) := tcps_call c s in s <| ts_callers := next_caller i next (ts_callers s) |>.

(** The methods, up to [check_state] and to the second flag *)
Definition tcps_set_tx_enabled (value : bool) (s : tcps) : tcps :=
  s <| ts_is_tx_enabled := value |> <| ts_callers := ts_callers s ++ [NCheck] |>.
Definition tcps_set_rx_enabled (value : bool) (s : tcps) : tcps :=
  s <| ts_is_rx_enabled := value |> <| ts_callers := ts_callers s ++ [NCheck] |>.
Definition tcps_stop (s : tcps) : tcps :=
  s <| ts_tx_running := false |> <| ts_callers := ts_callers s ++ [NStop] |>.

(** [on_new_connection], given what [accept] returns. *)
Definition tcps_on_new_connection (newSock : Z) (s : tcps) : tcps :=
  if negb (ts_client s =? no_fd) then s <| ts_closed := ts_closed s ++ socket_close newSock |> else
  let s := tcps_assign newSock s in
  if negb (ts_is_tx_enabled s) then s <| ts_calls := ts_calls s ++ [OnInit (ts_lcid s)] |> else s.

(** [run_pdcp_tx]: its first statement; what is watched; a pass from [select]
    to the call of the PDCP; one turn of the loop that calls the PDCP; the new
    connection and the reading of the event descriptor; and the taking of an
    event from the queue. *)
Definition tcps_tx_begin (s : tcps) : tcps := s <| ts_tx_running := true |> <| ts_watch := ∅ |> <| ts_tx := TxTurn |>.
Definition tcps_tx_end (s : tcps) : tcps := s <| ts_tx_running := false |> <| ts_tx := TxExit |>.
Definition tcps_watched (s : tcps) : gset Z :=
  ts_watch s ∪ {[ ts_server s; ts_event_fd s ]} ∪
  (if tcps_is_active s && negb (ts_client s =? no_fd) then {[ ts_client s ]} else ∅).
Definition tcps_tx_turn (sel : select_result) (rc : recv_result) (s : tcps) : tcps :=
  if negb (ts_tx_running s) then tcps_tx_end s else
  let s := s <| ts_watch := watch_select sel (tcps_watched s) |> <| ts_errno := errno_select sel (ts_errno s) |> in
  if EINTR =? ts_errno s then s else
  match sel with
  | SelectFails _ => if negb (ts_client s =? no_fd) then tcps_assign no_fd s else s
  | SelectReady ready =>
    if negb (ts_client s =? no_fd) && bool_decide (ts_client s ∈ ready) then
      match rc with
      | RecvData ((_ :: _) as b) _ => s <| ts_tx := TxSend b ready |>
      | _ =>
        let s := tcps_assign no_fd (s <| ts_errno := errno_recv rc (ts_errno s) |>) in
        s <| ts_calls := ts_calls s ++ [OnRlf (ts_lcid s)] |> <| ts_tx := TxRest ready |>
      end
    else s <| ts_tx := TxRest ready |>
  end.
Definition tcps_tx_try (accepted : bool) (s : tcps) : tcps :=
  match ts_tx s with
  | TxSend b ready =>
    let s := if accepted then s <| ts_to_pdcp := ts_to_pdcp s ++ [b] |> else s in
    if ts_tx_running s && negb accepted then s else s <| ts_tx := TxRest ready |>
  | _ => s
  end.
Definition tcps_tx_rest (newSock : Z) (s : tcps) : tcps :=
  match ts_tx s with
  | TxRest ready =>
    let s := if bool_decide (ts_server s ∈ ready) then tcps_on_new_connection newSock s else s in
    if bool_decide (ts_event_fd s ∈ ready) then s <| ts_count := ts_count s - 1 |> <| ts_tx := TxPop |>
    else s <| ts_tx := TxTurn |>
  | _ => s
  end.
Definition tcps_tx_pop (s : tcps) : res tcps :=
  match ts_tx s with
  | TxPop =>
    match ts_events s with
    | [] => Ub EmptyFront
    | val :: events =>
      let s := s <| ts_events := events |> in
      mret (if EVENTFD_STOP =? val then tcps_tx_end s else s <| ts_tx := TxTurn |>)
    end
  | _ => mret s
  end.

(** [run_pdcp_rx]: its first statement, and one pass. *)
Definition tcps_rx_begin (s : tcps) : tcps := s <| ts_rx_running := true |> <| ts_rx := RxTest |>.
Definition tcps_rx_turn (b : list Z) (s : tcps) : tcps :=
  if negb (ts_rx_running s) then s <| ts_rx := RxExit |> else
  match b with
  | [] => s
  | _ => if tcps_is_active s && negb (ts_client s =? no_fd)
         then s <| ts_sent := ts_sent s ++ [(ts_client s, b)] |> else s
  end.

(** ** The threads together *)

(** What [select] may answer: descriptors that were watched, the event
    descriptor only when its counter is not zero. *)
Definition tcps_select_ok (sel : select_result) (s : tcps) : Prop :=
  match sel with
  | SelectFails _ => True
  | SelectReady ready => ready ⊆ tcps_watched s /\ (ts_event_fd s ∈ ready -> 0 < ts_count s)
  end.

Inductive tcps_step : tcps -> tcps -> Prop :=
  | sv_tx_begin s : ts_tx s = TxStart -> tcps_step s (tcps_tx_begin s)
  | sv_turn sel rc s : ts_tx s = TxTurn -> tcps_select_ok sel s -> tcps_step s (tcps_tx_turn sel rc s)
  | sv_try accepted s : tcps_step s (tcps_tx_try accepted s)
  | sv_rest newSock s : tcps_step s (tcps_tx_rest newSock s)
  | sv_pop s s' : tcps_tx_pop s = Ok s' -> tcps_step s s'
  | sv_rx_begin s : ts_rx s = RxStart -> tcps_step s (tcps_rx_begin s)
  | sv_rx b s : ts_rx s = RxTest -> tcps_step s (tcps_rx_turn b s)
  | sv_set_tx value s : tcps_step s (tcps_set_tx_enabled value s)
  | sv_set_rx value s : tcps_step s (tcps_set_rx_enabled value s)
  | sv_stop s : tcps_step s (tcps_stop s)
  | sv_call i c s : ts_callers s !! i = Some c -> tcps_step s (tcps_call_step i c s).

(** ** The event queue *)

(** The event that the transmit thread has read, but not yet taken *)
Definition taking (pc : tx_pc) : Z := match pc with TxPop => 1 | _ => 0 end.

(** Each event in the queue is counted, or its caller has yet to write, or the
    thread has read its count; and the thread that found the event descriptor
    ready finds a count. *)
Record events_inv (s : tcps) : Prop := EventsInv {
  vi_count : ts_count s + writers (ts_callers s) + taking (ts_tx s) = zlen (ts_events s);
  vi_range : 0 <= ts_count s;
  vi_ready : match ts_tx s with
    | TxSend _ ready | TxRest ready => ts_event_fd s ∈ ready -> 0 < ts_count s
    | _ => True
    end }.

Lemma assign_none s : tcps_assign no_fd s = s.
Proof. unfold tcps_assign. rewrite socket_assign_none, app_nil_r. by destruct s. Qed.
Lemma check_state_none s : tcps_check_state s = s.
Proof. unfold tcps_check_state. rewrite assign_none. by destruct (_ && _). Qed.

Lemma events_inv_ext s s' : ts_count s' = ts_count s -> ts_events s' = ts_events s ->
  writers (ts_callers s') = writers (ts_callers s) ->
  ts_event_fd s' = ts_event_fd s -> ts_tx s' = ts_tx s -> events_inv s -> events_inv s'.
Proof. intros E1 E2 E5 E3 E4 [Hc Hn Hr]. constructor; [congruence|congruence|]. by rewrite E4, E3, E1. Qed.

(** From one place of the transmit thread to another *)
Lemma events_inv_at pc s s' : ts_count s' = ts_count s -> ts_events s' = ts_events s -> ts_callers s' = ts_callers s ->
  ts_tx s' = pc -> taking pc = taking (ts_tx s) ->
  match pc with TxSend _ ready | TxRest ready => ts_event_fd s' ∈ ready -> 0 < ts_count s | _ => True end ->
  events_inv s -> events_inv s'.
Proof. intros E1 E2 E3 <- E4 E5 [Hc Hn Hr]. constructor; [|congruence|by rewrite E1]. by rewrite E1, E2, E3, E4. Qed.

Lemma new_connection_fields newSock s : let s' := tcps_on_new_connection newSock s in
  ts_count s' = ts_count s /\ ts_events s' = ts_events s /\ ts_callers s' = ts_callers s /\
  ts_event_fd s' = ts_event_fd s /\ ts_tx s' = ts_tx s.
Proof.
  unfold tcps_on_new_connection, tcps_assign. destruct (negb _); [done|].
  destruct (socket_assign _ _) as [c l]. by destruct (negb _).
Qed.

Lemma rest_events newSock s : events_inv s -> events_inv (tcps_tx_rest newSock s).
Proof.
  intros HI. unfold tcps_tx_rest. destruct (ts_tx s) as [| |b ready|ready| |] eqn:Epc; try done.
  set (s1 := if bool_decide (ts_server s ∈ ready) then _ else s).
  assert (events_inv s1 /\ ts_tx s1 = TxRest ready) as [HI1 Epc1].
  { subst s1. destruct (bool_decide _); [|done].
    destruct (new_connection_fields newSock s) as (E1 & E2 & E3 & E4 & E5). split; [|congruence].
    apply (events_inv_ext s); congruence. }
  clearbody s1. case_bool_decide as Hev.
  - destruct HI1 as [Hc Hn Hr]. rewrite Epc1 in Hc, Hr. specialize (Hr Hev). constructor; cbn in *; lia || done.
  - apply (events_inv_at TxTurn s1); try done. by rewrite Epc1.
Qed.

(** The thread that takes an event finds one. *)
Lemma pop_Ok s : events_inv s -> exists s', tcps_tx_pop s = Ok s' /\ events_inv s'.
Proof.
  intros HI. unfold tcps_tx_pop. destruct (ts_tx s) as [| |b ready|ready| |] eqn:Epc; try (exists s; by split).
  destruct HI as [Hc Hn Hr]. rewrite Epc in Hc. pose proof (writers_nonneg (ts_callers s)). cbn [taking] in Hc.
  destruct (ts_events s) as [|val events] eqn:Ee; rewrite ?zlen_nil, ?zlen_cons in Hc; [lia|].
  destruct (EVENTFD_STOP =? val); (eexists; split; [done|]; constructor; cbn in *; lia || done).
Qed.

Lemma call_events i c s : ts_callers s !! i = Some c -> events_inv s -> events_inv (tcps_call_step i c s).
Proof.
  intros Hi [Hc Hn Hr]. unfold tcps_call_step.
  pose proof (fun next => writers_next i c next (ts_callers s) Hi) as HW.
  destruct c as [| | |event|]; cbn [tcps_call]; rewrite ?check_state_none;
    (constructor; cbn [ts_count ts_events ts_callers ts_tx ts_event_fd upd eta tcps_notify_push tcps_notify_write];
      [rewrite HW, ?zlen_app, ?zlen_cons, ?zlen_nil; unfold writes; repeat case_bool_decide; try done; cbn [Z_of_bool]; change (zlen []) with 0; lia|lia|]);
    try exact Hr.
  destruct (ts_tx s); try done; intros Hin; cbn in Hin |- *; specialize (Hr Hin); lia.
Qed.

Lemma step_events s s' : tcps_step s s' -> events_inv s -> events_inv s'.
Proof.
  intros Hs HI. pose proof HI as [Hc Hn Hr]. destruct Hs as [s Epc|sel rc s Epc Hsel|acc s|fd s|s s' E|s|b s|v s|v s|s|i c s Hi].
  - apply (events_inv_at TxTurn s); try done. by rewrite Epc.
  - unfold tcps_tx_turn. destruct (negb _); [apply (events_inv_at TxExit s); try done; by rewrite Epc|]. set (s1 := upd ts_errno _ _).
    assert (events_inv s1) as HI1 by (by apply (events_inv_ext s)).
    destruct (EINTR =? _); [done|]. destruct sel as [err|ready]; [rewrite assign_none; by destruct (negb _)|].
    destruct Hsel as [_ Hev]. assert (forall s2 pc, ts_count s2 = ts_count s -> ts_events s2 = ts_events s -> ts_callers s2 = ts_callers s ->
      ts_event_fd s2 = ts_event_fd s -> ts_tx s2 = pc -> (pc = TxRest ready \/ exists b, pc = TxSend b ready) -> events_inv s2) as HX.
    { intros s2 pc E1 E2 E3 E4 E5 Hpc. apply (events_inv_at pc s); try done.
      - rewrite Epc. by destruct Hpc as [-> | [b ->]].
      - rewrite E4. by destruct Hpc as [-> | [b ->]]. }
    destruct (_ && _); [|eapply HX; try done; by left].
    destruct rc as [err|[|z d] from]; rewrite ?assign_none; eapply HX; try done; eauto.
  - unfold tcps_tx_try. destruct (ts_tx s) as [| |b ready|ready| |] eqn:Epc; try done.
    destruct acc; cbn [negb]; rewrite ?andb_false_r; [|destruct (_ && true); [done|]];
      apply (events_inv_at (TxRest ready) s); try done; by rewrite Epc.
  - by apply rest_events.
  - destruct (pop_Ok s HI) as (s2 & E2 & HI2). congruence.
  - by apply (events_inv_ext s).
  - unfold tcps_rx_turn. destruct (negb _); [by apply (events_inv_ext s)|]. destruct b; [done|].
    destruct (_ && _); [by apply (events_inv_ext s)|done].
  - apply (events_inv_ext s); try done. cbn. rewrite writers_app. change (writers [NCheck]) with 0. lia.
  - apply (events_inv_ext s); try done. cbn. rewrite writers_app. change (writers [NCheck]) with 0. lia.
  - apply (events_inv_ext s); try done. cbn. rewrite writers_app. change (writers [NStop]) with 0. lia.
  - by apply call_events.
Qed.

(** ** The client *)

Lemma rest_client newSock s : ts_client s <> no_fd -> let s' := tcps_tx_rest newSock s in
  ts_client s' = ts_client s /\ ts_lcid s' = ts_lcid s /\ ts_calls s' = ts_calls s.
Proof.
  intros Hc. unfold tcps_tx_rest, tcps_on_new_connection. destruct (ts_tx s) as [| |b ready|ready| |]; try done.
  rewrite (proj2 (Z.eqb_neq _ _) Hc). cbn [negb]. by repeat case_bool_decide.
Qed.
Lemma pop_client s s' : tcps_tx_pop s = Ok s' ->
  ts_client s' = ts_client s /\ ts_lcid s' = ts_lcid s /\ ts_calls s' = ts_calls s.
Proof.
  unfold tcps_tx_pop. destruct (ts_tx s); try (by intros [= <-]). destruct (ts_events s) as [|val events]; [done|].
  destruct (EVENTFD_STOP =? val); by intros [= <-].
Qed.

(** The calls [on_init] among those of the RRC. *)
Definition inits (lcid : Z) (calls : list rrc_call) : list rrc_call := filter (fun c => c = OnInit lcid) calls.

Lemma step_client s s' : tcps_step s s' -> ts_client s <> no_fd ->
  ts_client s' = ts_client s /\ ts_lcid s' = ts_lcid s /\ inits (ts_lcid s) (ts_calls s') = inits (ts_lcid s) (ts_calls s).
Proof.
  intros Hs Hc. destruct Hs as [s|sel rc s Epc Hsel|acc s|fd s|s s' E|s|b s|v s|v s|s|i c s Hi]; try done.
  - unfold tcps_tx_turn. destruct (negb _); [done|]. set (s1 := upd ts_errno _ _).
    destruct (EINTR =? _); [done|]. destruct sel as [err|ready]; [rewrite assign_none; by destruct (negb _)|].
    assert (inits (ts_lcid s) (ts_calls s ++ [OnRlf (ts_lcid s)]) = inits (ts_lcid s) (ts_calls s)) as HI
      by (unfold inits; rewrite list.filter_app; by apply app_nil_r).
    destruct (_ && _); [|done]. destruct rc as [err|[|z d] from]; rewrite ?assign_none; done.
  - unfold tcps_tx_try. destruct (ts_tx s); try done. destruct acc; cbn [negb]; rewrite ?andb_false_r; [done|].
    by destruct (_ && true).
  - destruct (rest_client fd s Hc) as (-> & -> & ->). done.
  - destruct (pop_client s s' E) as (-> & -> & ->). done.
  - unfold tcps_rx_turn. destruct (negb _); [done|]. destruct b; [done|]. by destruct (_ && _).
  - unfold tcps_call_step. destruct c; cbn [tcps_call]; by rewrite ?check_state_none.
Qed.

(** ** Properties *)

(** C37: the event queue of the end point is never read when it is empty. In
    every state that the threads, the RRC and the destructor can reach from a
    new end point, however the queueing of events and the writing of the event
    descriptor interleave, each event in the queue has a count, or a thread that
    has yet to write it, or the transmit thread has just read its count; so the
    reading of the descriptor does not block, and the thread that has read it
    finds an event to take. *)
Theorem server_events s0 s :
  ts_events s0 = [] -> ts_count s0 = 0 -> ts_callers s0 = [] -> ts_tx s0 = TxStart -> rtc tcps_step s0 s ->
  ts_count s + writers (ts_callers s) + taking (ts_tx s) = zlen (ts_events s) /\
  (forall ready, ts_tx s = TxRest ready -> ts_event_fd s ∈ ready -> 0 < ts_count s) /\
  (ts_tx s = TxPop -> ts_events s <> []) /\
  is_Ok (tcps_tx_pop s).
Proof.
  intros He Hc Hw Ht Hr. assert (events_inv s0) as H0 by (constructor; rewrite ?He, ?Hc, ?Hw, ?Ht; done).
  clear He Hc Hw Ht. assert (events_inv s) as HI by (induction Hr as [|s0 s1 s2 Hs _ IH]; [done|];
    by apply IH, (step_events s0)).
  destruct (pop_Ok s HI) as (s' & E & _). pose proof HI as [H1 H2 H3]. split; [done|]. split; [|split; [|by exists s']].
  - intros ready Epc. by rewrite Epc in H3.
  - intros Epc He. unfold tcps_tx_pop in E. by rewrite Epc, He in E.
Qed.

(** One client, for good. The end point closes the connection to its client
    by assigning an empty socket, which does nothing: once a client has
    connected it stays, whatever the threads and the RRC do. All later
    connections are closed as they are accepted, the channel is not set up for
    them, and no call of [on_init] is made again. *)
Theorem server_one_client s s' :
  rtc tcps_step s s' -> ts_client s <> no_fd ->
  ts_client s' = ts_client s /\ inits (ts_lcid s) (ts_calls s') = inits (ts_lcid s) (ts_calls s) /\
  forall newSock, tcps_on_new_connection newSock s' =
    s' <| ts_closed := ts_closed s' ++ socket_close newSock |>.
Proof.
  intros Hr Hc.
  assert (ts_client s' = ts_client s /\ ts_lcid s' = ts_lcid s /\
    inits (ts_lcid s) (ts_calls s') = inits (ts_lcid s) (ts_calls s)) as (H1 & H2 & H3).
  { induction Hr as [|s0 s1 s2 Hs _ IH]; [done|]. destruct (step_client _ _ Hs Hc) as (E1 & E2 & E3).
    rewrite E1, E2, E3 in IH. by apply IH. }
  split; [done|]. split; [done|]. intros newSock. unfold tcps_on_new_connection.
  by rewrite (proj2 (Z.eqb_neq (ts_client s') no_fd)) by congruence.
Qed.

(** A pass in which [select] reports the client alone and [recv] the end of the
    stream, as it does from then on. *)
Definition eof_pass (s : tcps) : tcps :=
  tcps_tx_rest no_fd (tcps_tx_turn (SelectReady {[ ts_client s ]}) (RecvData [] sockaddr_zero) s).

(** When the client has closed its end, its descriptor stays in the set that is
    watched, because [recv_set] is never cleared and the descriptor is never
    closed: every pass reads the end of the stream again and reports the
    failure of the link again, switched on or off. *)
Theorem server_eof_loops n s :
  ts_tx s = TxTurn -> ts_tx_running s = true -> ts_errno s <> EINTR -> ts_client s <> no_fd ->
  ts_server s <> ts_client s -> ts_event_fd s <> ts_client s -> ts_watch s = {[ ts_client s ]} ->
  tcps_select_ok (SelectReady {[ ts_client s ]}) s /\
  Nat.iter n eof_pass s = s <| ts_calls := ts_calls s ++ replicate n (OnRlf (ts_lcid s)) |>.
Proof.
  intros Hpc Hrun He Hc Hs Hev Hw. split.
  { split; [|by intros ?%elem_of_singleton]. unfold tcps_watched. rewrite Hw. apply union_subseteq_l', union_subseteq_l. }
  assert (forall l, eof_pass (s <| ts_calls := l |>) = s <| ts_calls := l ++ [OnRlf (ts_lcid s)] |>) as HP.
  { intros l. unfold eof_pass, tcps_tx_turn. change (ts_client (upd _ _ s)) with (ts_client s).
    change (ts_tx_running (upd _ _ s)) with (ts_tx_running s). rewrite Hrun. cbn [negb errno_select watch_select].
    change (ts_errno (upd ts_errno _ _)) with (ts_errno s). rewrite (proj2 (Z.eqb_neq EINTR _)) by congruence.
    change (ts_client (upd ts_errno _ _)) with (ts_client s). rewrite (proj2 (Z.eqb_neq _ _) Hc), bool_decide_true by (by apply elem_of_singleton).
    cbn [negb andb errno_recv]. rewrite assign_none. unfold tcps_tx_rest. cbn [ts_tx upd eta].
    change (ts_server (upd ts_tx _ _)) with (ts_server s).
    rewrite (bool_decide_false (ts_server s ∈ _)) by (rewrite elem_of_singleton; congruence).
    rewrite bool_decide_false by (rewrite elem_of_singleton; cbn; congruence).
    destruct s; cbn in *; subst. reflexivity. }
  induction n as [|n IH]; cbn [Nat.iter replicate].
  - rewrite app_nil_r. by destruct s.
  - change (Nat.iter (S n) ?f ?x) with (f (Nat.iter n f x)). rewrite IH, HP.
    change (OnRlf (ts_lcid s) :: replicate n (OnRlf (ts_lcid s))) with (replicate (S n) (OnRlf (ts_lcid s))).
    by rewrite replicate_S_end, app_assoc.
Qed.

(** A channel that is active, and a client. *)
Definition server_example : tcps :=
  Tcps 3 5 6 7 true true true true 0 {[ 7 ]} [] 0 [] TxTurn RxTest [OnInit 3] [] [] [].

(** The RRC switches the channel off, and the client is still there. *)
Lemma server_one_client_witness :
  let s' := tcps_call_step 1 NCheck (tcps_set_rx_enabled false (tcps_set_tx_enabled false server_example)) in
  tcps_is_rlf s' = true /\ ts_client s' = 7 /\ tcps_on_new_connection 9 s' = s' <| ts_closed := ts_closed s' ++ [9] |>.
Proof.
  intros s'. split; [reflexivity|].
  destruct (server_one_client server_example s') as (E & _ & HN).
  - eapply rtc_l; [apply sv_set_tx|]. eapply rtc_l; [apply sv_set_rx|]. apply rtc_once, sv_call. reflexivity.
  - discriminate.
  - split; [exact E|exact (HN 9)].
Defined.

(** Two callers have queued an event, and the second has not yet written, when
    the transmit thread has read the descriptor. *)
Definition race_start : tcps := Tcps 3 5 6 no_fd false false false false 0 ∅ [] 0 [] TxStart RxStart [] [] [] [].
Definition race_queued : tcps :=
  let s := tcps_set_rx_enabled true (tcps_set_tx_enabled true (tcps_tx_begin race_start)) in
  let s := tcps_call_step 1 NCheck (tcps_call_step 0 NCheck s) in
  let s := tcps_call_step 1 (NPush 1) (tcps_call_step 0 (NPush 1) s) in
  tcps_call_step 0 NWrite s.
Definition race_read : tcps :=
  tcps_tx_rest no_fd (tcps_tx_turn (SelectReady {[ 6 ]}) (RecvFails 0) race_queued).

Lemma race_reached : rtc tcps_step race_start race_read.
Proof.
  eapply rtc_l; [by apply sv_tx_begin|]. eapply rtc_l; [apply (sv_set_tx true)|]. eapply rtc_l; [apply (sv_set_rx true)|].
  eapply rtc_l; [by apply (sv_call 0 NCheck)|]. eapply rtc_l; [by apply (sv_call 1 NCheck)|].
  eapply rtc_l; [by apply (sv_call 0 (NPush 1))|]. eapply rtc_l; [by apply (sv_call 1 (NPush 1))|].
  eapply rtc_l; [by apply (sv_call 0 NWrite)|]. eapply rtc_l; [|apply rtc_once, (sv_rest no_fd)].
  apply (sv_turn (SelectReady {[ 6 ]}) (RecvFails 0)); [reflexivity|].
  split; [|intros _; by vm_compute]. apply (bool_decide_unpack _). by vm_compute.
Qed.

Lemma server_events_witness :
  (exists s, tcps_new (fun _ => Some 1) 3 "0.0.0.0:80" 5 0 (fun _ => 0) 6 0 = Ok s /\ s = race_start) /\
  ts_tx race_read = TxPop /\ ts_callers race_read = [NWrite] /\ ts_count race_read = 0 /\ ts_events race_read = [1; 1] /\
  is_Ok (tcps_tx_pop race_read).
Proof.
  split; [eexists; split; vm_compute; reflexivity|].
  split; [vm_compute; reflexivity|]. split; [vm_compute; reflexivity|]. split; [vm_compute; reflexivity|].
  split; [vm_compute; reflexivity|].
  exact (proj2 (proj2 (proj2 (server_events race_start race_read eq_refl eq_refl eq_refl eq_refl race_reached)))).
Defined.

Lemma server_eof_loops_witness :
  Nat.iter 3 eof_pass server_example = server_example <| ts_calls := [OnInit 3; OnRlf 3; OnRlf 3; OnRlf 3] |>.
Proof. apply (server_eof_loops 3 server_example); (reflexivity || discriminate). Defined.
