(* ===== verification/TcpClient.v ===== *)
(** * The TCP client end point ([winject/src/TCPClientEndPoint.hpp])

    It connects to its target when the channel becomes active. The threads and
    the event queue are those of the server; different are the connection, and
    the receive thread, which keeps a frame until it can be sent. *)

From stdpp Require Import gmap strings relations.
From S2P Require Import Prelude Mem Info EndPoint TcpServer.

(** ** State *)

(** [tc_closed] are the descriptors that are closed now. [tc_taken] are the
    frames [to_rx] has handed out. *)
Record tcpc := Tcpc {
  tc_lcid : Z; tc_event_fd : Z; tc_target : Z; tc_target_addr : sockaddr4;
  tc_is_tx_enabled : bool; tc_is_rx_enabled : bool;
  tc_tx_running : bool; tc_rx_running : bool; tc_errno : Z; tc_watch : gset Z;
  tc_events : list Z; tc_count : Z; tc_callers : list notify_pc; tc_tx : tx_pc; tc_rx : rx_pc; tc_pending : list Z;
  tc_calls : list rrc_call; tc_to_pdcp : list (list Z); tc_taken : list (list Z);
  tc_sent : list (Z * list Z); tc_closed : gset Z }.
#[export] Instance eta_tcpc : Eta tcpc := fun s =>
  Tcpc (tc_lcid s) (tc_event_fd s) (tc_target s) (tc_target_addr s) (tc_is_tx_enabled s) (tc_is_rx_enabled s)
    (tc_tx_running s) (tc_rx_running s) (tc_errno s) (tc_watch s) (tc_events s) (tc_count s) (tc_callers s) (tc_tx s) (tc_rx s)
    (tc_pending s) (tc_calls s) (tc_to_pdcp s) (tc_taken s) (tc_sent s) (tc_closed s).

(** ** Operations *)

Definition tcpc_new (inet_pton : string -> option Z) (lcid : Z) (address1 : string) (event_fd : Z) : res tcpc :=
  if event_fd <? 0 then Throw StdRuntimeError else
  target_addr ← ep_to_sockaddr4 inet_pton address1;
  mret (Tcpc lcid event_fd no_fd target_addr false false false false 0 ∅ [] 0 [] TxStart RxStart [] [] [] [] [] ∅).

(** [notify_event]: the event is queued, then the descriptor is written. *)
Definition tcpc_notify_push (event : Z) (s : tcpc) : tcpc := s <| tc_events := tc_events s ++ [event] |>.
Definition tcpc_notify_write (s : tcpc) : tcpc := s <| tc_count := tc_count s + 1 |>.
Definition tcpc_is_active (s : tcpc) : bool := tc_is_tx_enabled s && tc_is_rx_enabled s.
Definition tcpc_is_rlf (s : tcpc) : bool := negb (tc_is_tx_enabled s) && negb (tc_is_rx_enabled s).

(** [targetSock = other] *)
Definition tcpc_assign (other : Z) (s : tcpc) : tcpc :=
  let '(target, closed) := socket_assign (tc_target s) other in
  s <| tc_target := target |> <| tc_closed := tc_closed s ∪ list_to_set closed |>.

(** [check_state] up to [connect], given what [create_tcp4] returns, which is
    open then; behind it, given what [connect] returns. *)
Definition tcpc_check (newfd : Z) (s : tcpc) : tcpc * notify_pc :=
  if tcpc_is_rlf s then (tcpc_assign no_fd s, NPush EVENTFD_BREAK_SELECT)
  else if tcpc_is_active s then (tcpc_assign newfd (s <| tc_closed := tc_closed s ∖ {[ newfd ]} |>), NConnect)
  else (s, NPush EVENTFD_BREAK_SELECT).
Definition tcpc_connected (connect_rv : Z) (s : tcpc) : tcpc :=
  if 0 <=? connect_rv then s else (tcpc_assign no_fd s) <| tc_calls := tc_calls s ++ [OnRlf (tc_lcid s)] |>.

(** A thread in a method: what it does next, and where it is then. *)
Definition tcpc_call (newfd connect_rv : Z) (c : notify_pc) (s : tcpc) : tcpc * option notify_pc :=
  match c with
  | NStop => (s <| tc_rx_running := false |>, Some (NPush EVENTFD_STOP))
  | NCheck => let '(s, next) := tcpc_check newfd s in (s, Some next)
  | NConnect => (tcpc_connected connect_rv s, Some (NPush EVENTFD_BREAK_SELECT))
  | NPush event => (tcpc_notify_push event s, Some NWrite)
  | NWrite => (tcpc_notify_write s, None)
  end.
Definition tcpc_call_step (i : nat) (newfd connect_rv : Z) (c : notify_pc) (s : tcpc) : tcpc :=
  let '(s, next) := tcpc_call newfd connect_rv c s in s <| tc_callers := next_caller i next (tc_callers s) |>.

(** The methods up to their first step with others in between *)
Definition tcpc_begin_set_tx (value : bool) (s : tcpc) : tcpc :=
  s <| tc_is_tx_enabled := value |> <| tc_callers := tc_callers s ++ [NCheck] |>.
Definition tcpc_begin_set_rx (value : bool) (s : tcpc) : tcpc :=
  s <| tc_is_rx_enabled := value |> <| tc_callers := tc_callers s ++ [NCheck] |>.
Definition tcpc_stop (s : tcpc) : tcpc :=
  s <| tc_tx_running := false |> <| tc_callers := tc_callers s ++ [NStop] |>.

(** The whole methods, of a caller that nobody comes in between *)
Definition tcpc_notify_event (event : Z) (s : tcpc) : tcpc := tcpc_notify_write (tcpc_notify_push event s).
Definition tcpc_check_state (newfd connect_rv : Z) (s : tcpc) : tcpc :=
  let '(s, next) := tcpc_check newfd s in
  tcpc_notify_event EVENTFD_BREAK_SELECT (match next with NConnect => tcpc_connected connect_rv s | _ => s end).
Definition tcpc_set_tx_enabled (value : bool) (newfd connect_rv : Z) (s : tcpc) : tcpc :=
  tcpc_check_state newfd connect_rv (s <| tc_is_tx_enabled := value |>).
Definition tcpc_set_rx_enabled (value : bool) (newfd connect_rv : Z) (s : tcpc) : tcpc :=
  tcpc_check_state newfd connect_rv (s <| tc_is_rx_enabled := value |>).

Definition tcpc_tx_begin (s : tcpc) : tcpc := s <| tc_tx_running := true |> <| tc_watch := ∅ |> <| tc_tx := TxTurn |>.
Definition tcpc_tx_end (s : tcpc) : tcpc := s <| tc_tx_running := false |> <| tc_tx := TxExit |>.
Definition tcpc_watched (s : tcpc) : gset Z :=
  tc_watch s ∪ {[ tc_event_fd s ]} ∪ (if negb (tc_target s =? no_fd) then {[ tc_target s ]} else ∅).
Definition tcpc_tx_turn (sel : select_result) (rc : recv_result) (s : tcpc) : tcpc :=
  if negb (tc_tx_running s) then tcpc_tx_end s else
  let s := s <| tc_watch := watch_select sel (tcpc_watched s) |> <| tc_errno := errno_select sel (tc_errno s) |> in
  if EINTR =? tc_errno s then s else
  match sel with
  | SelectFails _ => s
  | SelectReady ready =>
    if negb (tc_target s =? no_fd) && bool_decide (tc_target s ∈ ready) then
      match rc with
      | RecvData ((_ :: _) as b) _ => s <| tc_tx := TxSend b ready |>
      | _ =>
        let s := tcpc_assign no_fd (s <| tc_errno := errno_recv rc (tc_errno s) |>) in
        s <| tc_calls := tc_calls s ++ [OnRlf (tc_lcid s)] |> <| tc_tx := TxRest ready |>
      end
    else s <| tc_tx := TxRest ready |>
  end.
Definition tcpc_tx_try (accepted : bool) (s : tcpc) : tcpc :=
  match tc_tx s with
  | TxSend b ready =>
    let s := if accepted then s <| tc_to_pdcp := tc_to_pdcp s ++ [b] |> else s in
    if tc_tx_running s && negb accepted then s else s <| tc_tx := TxRest ready |>
  | _ => s
  end.
Definition tcpc_tx_rest (s : tcpc) : tcpc :=
  match tc_tx s with
  | TxRest ready =>
    if bool_decide (tc_event_fd s ∈ ready) then s <| tc_count := tc_count s - 1 |> <| tc_tx := TxPop |>
    else s <| tc_tx := TxTurn |>
  | _ => s
  end.
Definition tcpc_tx_pop (s : tcpc) : res tcpc :=
  match tc_tx s with
  | TxPop =>
    match tc_events s with
    | [] => Ub EmptyFront
    | val :: events =>
      let s := s <| tc_events := events |> in
      mret (if EVENTFD_STOP =? val then tcpc_tx_end s else s <| tc_tx := TxTurn |>)
    end
  | _ => mret s
  end.

(** [run_pdcp_rx]: one pass; [b] is what [to_rx] returns if it is called. *)
Definition tcpc_rx_begin (s : tcpc) : tcpc := s <| tc_rx_running := true |> <| tc_pending := [] |> <| tc_rx := RxTest |>.
Definition tcpc_rx_turn (b : list Z) (s : tcpc) : tcpc :=
  if negb (tc_rx_running s) then s <| tc_rx := RxExit |> else
  let s := match tc_pending s, b with
    | [], _ :: _ => s <| tc_pending := b |> <| tc_taken := tc_taken s ++ [b] |>
    | _, _ => s
    end in
  match tc_pending s with
  | [] => s
  | pending =>
    if tcpc_is_active s && negb (tc_target s =? no_fd)
    then s <| tc_sent := tc_sent s ++ [(tc_target s, pending)] |> <| tc_pending := [] |>
    else s
  end.

(** ** The threads together *)

(** [select] answers with descriptors that were watched, and it fails if one of
    them is closed ([EBADF]). *)
Definition tcpc_select_ok (sel : select_result) (s : tcpc) : Prop :=
  match sel with
  | SelectFails _ => True
  | SelectReady ready => ready ⊆ tcpc_watched s /\ tcpc_watched s ∩ tc_closed s ⊆ ∅ /\
      (tc_event_fd s ∈ ready -> 0 < tc_count s)
  end.

Inductive tcpc_step : tcpc -> tcpc -> Prop :=
  | cl_tx_begin s : tc_tx s = TxStart -> tcpc_step s (tcpc_tx_begin s)
  | cl_turn sel rc s : tc_tx s = TxTurn -> tcpc_select_ok sel s -> tcpc_step s (tcpc_tx_turn sel rc s)
  | cl_try accepted s : tcpc_step s (tcpc_tx_try accepted s)
  | cl_rest s : tcpc_step s (tcpc_tx_rest s)
  | cl_pop s s' : tcpc_tx_pop s = Ok s' -> tcpc_step s s'
  | cl_rx_begin s : tc_rx s = RxStart -> tcpc_step s (tcpc_rx_begin s)
  | cl_rx b s : tc_rx s = RxTest -> tcpc_step s (tcpc_rx_turn b s)
  | cl_set_tx value s : tcpc_step s (tcpc_begin_set_tx value s)
  | cl_set_rx value s : tcpc_step s (tcpc_begin_set_rx value s)
  | cl_stop s : tcpc_step s (tcpc_stop s)
  | cl_call i newfd rv c s : tc_callers s !! i = Some c -> tcpc_step s (tcpc_call_step i newfd rv c s).

(** ** Lemmas *)

Lemma tcpc_assign_none s : tcpc_assign no_fd s = s.
Proof.
  unfold tcpc_assign. rewrite socket_assign_none. destruct s. unfold upd. cbn. f_equal. apply union_empty_r_L.
Qed.

(** The frame that waits to be sent. *)
Definition waiting (s : tcpc) : list (list Z) := match tc_pending s with [] => [] | p => [p] end.

(** What the receive thread has taken is what it has sent and what waits. *)
Record rx_kept (s : tcpc) : Prop := RxKept {
  rk_taken : tc_taken s = map snd (tc_sent s) ++ waiting s;
  rk_start : tc_rx s = RxStart -> tc_pending s = [] }.

Lemma rx_kept_ext s s' : tc_taken s' = tc_taken s -> tc_sent s' = tc_sent s -> tc_pending s' = tc_pending s ->
  tc_rx s' = tc_rx s -> rx_kept s -> rx_kept s'.
Proof. intros E1 E2 E3 E4 [H1 H2]. constructor; [unfold waiting; by rewrite E1, E2, E3|by rewrite E4, E3]. Qed.

Lemma tcpc_assign_kept fd s : rx_kept s -> rx_kept (tcpc_assign fd s).
Proof. unfold tcpc_assign. destruct (socket_assign _ _). by apply rx_kept_ext. Qed.

Lemma call_kept i newfd rv c s : rx_kept s -> rx_kept (tcpc_call_step i newfd rv c s).
Proof.
  intros Hs. unfold tcpc_call_step. destruct (tcpc_call newfd rv c s) as [s1 next] eqn:E.
  apply (rx_kept_ext s1); try done. destruct c as [| | |event|]; cbn [tcpc_call] in E.
  - injection E as <- _. by apply (rx_kept_ext s).
  - unfold tcpc_check in E. rewrite tcpc_assign_none in E. repeat case_match; simplify_eq; try done.
    apply tcpc_assign_kept. by apply (rx_kept_ext s).
  - injection E as <- _. unfold tcpc_connected. rewrite tcpc_assign_none. case_match; [done|]. by apply (rx_kept_ext s).
  - injection E as <- _. by apply (rx_kept_ext s).
  - injection E as <- _. by apply (rx_kept_ext s).
Qed.

Lemma rx_turn_kept b s : tc_rx s = RxTest -> rx_kept s -> rx_kept (tcpc_rx_turn b s).
Proof.
  intros Hpc Hs. unfold tcpc_rx_turn. destruct (negb _).
  { destruct Hs as [H1 H2]. by constructor. }
  set (s1 := match tc_pending s with [] => _ | _ => s end).
  assert (rx_kept s1 /\ tc_rx s1 = RxTest) as [[H1 H2] Hpc1].
  { subst s1. destruct (tc_pending s) eqn:Ep; [|done]. destruct b as [|z b]; [done|]. split; [|done].
    destruct Hs as [H1 H2]. constructor; [|cbn; by rewrite Hpc]. unfold waiting in *. rewrite Ep, app_nil_r in H1. cbn. by rewrite H1. }
  clearbody s1. unfold waiting in H1. destruct (tc_pending s1) as [|z p] eqn:Ep.
  - constructor; [by unfold waiting; rewrite Ep|done].
  - destruct (_ && _).
    + constructor; [|done]. unfold waiting. cbn. by rewrite H1, map_app, app_nil_r.
    + constructor; [by unfold waiting; rewrite Ep|by rewrite Hpc1].
Qed.

Lemma step_kept s s' : tcpc_step s s' -> rx_kept s -> rx_kept s'.
Proof.
  intros Hs HI. destruct Hs as [s|sel rc s Epc Hsel|acc s|s|s s' E|s Erx|b s Erx|v s|v s|s|i fd rv c s _].
  - by apply (rx_kept_ext s).
  - unfold tcpc_tx_turn. destruct (negb _); [by apply (rx_kept_ext s)|]. set (s1 := upd tc_errno _ _).
    assert (rx_kept s1) as HI1 by (by apply (rx_kept_ext s)). clearbody s1.
    destruct (EINTR =? _); [done|]. destruct sel as [err|ready]; [done|]. destruct (_ && _); [|by apply (rx_kept_ext s1)].
    destruct rc as [err|[|z d] from]; rewrite ?tcpc_assign_none; by apply (rx_kept_ext s1).
  - unfold tcpc_tx_try. destruct (tc_tx s); try done. destruct (_ && _); destruct acc; by apply (rx_kept_ext s).
  - unfold tcpc_tx_rest. destruct (tc_tx s); try done. case_bool_decide; by apply (rx_kept_ext s).
  - unfold tcpc_tx_pop in E. destruct (tc_tx s); try by injection E as <-.
    destruct (tc_events s) as [|val events]; [done|].
    destruct (EVENTFD_STOP =? val); injection E as <-; by apply (rx_kept_ext s).
  - destruct HI as [H1 H2]. specialize (H2 Erx). constructor; [|done]. unfold waiting in *. rewrite H2 in H1. done.
  - by apply rx_turn_kept.
  - by apply (rx_kept_ext s).
  - by apply (rx_kept_ext s).
  - by apply (rx_kept_ext s).
  - by apply call_kept.
Qed.

(** A closed descriptor among those watched: [select] can only fail, and the
    thread stays where it is. *)
Definition stale (s : tcpc) : Prop := exists fd, fd ∈ tc_watch s /\ fd ∈ tc_closed s.

Definition tx_pass (s s' : tcpc) : Prop :=
  exists sel rc, tcpc_select_ok sel s /\ s' = tcpc_tx_turn sel rc s.

Lemma stale_pass s s' : stale s -> tc_tx_running s = true -> tx_pass s s' ->
  stale s' /\ exists watch errno, s' = s <| tc_watch := watch |> <| tc_errno := errno |>.
Proof.
  intros (fd & Hw & Hc) Hrun (sel & rc & Hok & ->). unfold tcpc_tx_turn. rewrite Hrun. cbn [negb].
  assert (fd ∈ tcpc_watched s) as Hfd by (unfold tcpc_watched; set_solver).
  destruct sel as [err|ready].
  - cbn [watch_select errno_select]. destruct (EINTR =? _);
      (split; [by exists fd|by eexists _, _]).
  - destruct Hok as (_ & Hok & _). exfalso. apply (not_elem_of_empty (C := gset Z) fd). apply Hok. by apply elem_of_intersection.
Qed.

Lemma stale_passes s s' : rtc tx_pass s s' -> stale s -> tc_tx_running s = true ->
  exists watch errno, s' = s <| tc_watch := watch |> <| tc_errno := errno |>.
Proof.
  induction 1 as [s|s s1 s2 H1 _ IH]; intros Hs Hr; [exists (tc_watch s), (tc_errno s); by destruct s|].
  destruct (stale_pass s s1 Hs Hr H1) as (Hs1 & w & e & ->).
  destruct (IH Hs1 Hr) as (w' & e' & ->). by exists w', e'.
Qed.

(** Switching the channel off, and on again with the new connection [d]. *)
Lemma switch_off d rv s :
  tcpc_set_rx_enabled false d rv (tcpc_set_tx_enabled false d rv s) =
  tcpc_notify_event EVENTFD_BREAK_SELECT (tcpc_notify_event EVENTFD_BREAK_SELECT s
      <| tc_is_tx_enabled := false |>) <| tc_is_rx_enabled := false |>.
Proof.
  unfold tcpc_set_rx_enabled, tcpc_set_tx_enabled, tcpc_check_state, tcpc_check. rewrite !tcpc_assign_none.
  unfold tcpc_is_rlf, tcpc_is_active. cbn. by destruct (tc_is_rx_enabled s).
Qed.

Lemma switch_on_eq d rv s : tc_is_rx_enabled s = false -> 0 <= rv ->
  let s1 := (tcpc_notify_event EVENTFD_BREAK_SELECT (s <| tc_is_tx_enabled := true |>)) <| tc_is_rx_enabled := true |> in
  tcpc_set_rx_enabled true d rv (tcpc_set_tx_enabled true d rv s) =
  tcpc_notify_event EVENTFD_BREAK_SELECT (tcpc_assign d (s1 <| tc_closed := tc_closed s1 ∖ {[ d ]} |>)).
Proof.
  intros Hrx Hrv s1. assert (tcpc_set_tx_enabled true d rv s =
    tcpc_notify_event EVENTFD_BREAK_SELECT (s <| tc_is_tx_enabled := true |>)) as ->.
  { unfold tcpc_set_tx_enabled, tcpc_check_state, tcpc_check, tcpc_is_rlf, tcpc_is_active. cbn. by rewrite Hrx. }
  unfold tcpc_set_rx_enabled. fold s1. unfold tcpc_check_state, tcpc_check.
  assert (tcpc_is_rlf s1 = false) as -> by done. assert (tcpc_is_active s1 = true) as -> by done.
  unfold tcpc_connected. by rewrite (proj2 (Z.leb_le _ _) Hrv).
Qed.

Lemma switch_on d rv s :
  tc_is_rx_enabled s = false -> 0 <= rv -> d <> no_fd -> d <> tc_target s ->
  tc_target s <> no_fd -> tc_target s ∈ tc_watch s ->
  let on := tcpc_set_rx_enabled true d rv (tcpc_set_tx_enabled true d rv s) in
  stale on /\ tc_target on = d /\ tc_tx_running on = tc_tx_running s.
Proof.
  intros Hrx Hrv Hd Hdt Ht Hw. rewrite (switch_on_eq d rv s Hrx Hrv). cbv zeta. set (s1 := _ <| tc_is_rx_enabled := true |>).
  unfold tcpc_assign, socket_assign. change (tc_target (upd tc_closed _ s1)) with (tc_target s).
  rewrite (proj2 (Z.eqb_neq _ _) Hd), (proj2 (Z.eqb_neq _ _) Ht). cbn [negb]. split; [|done].
  exists (tc_target s). split; [done|]. unfold tcpc_notify_event, upd. cbn. apply elem_of_union_r. set_solver.
Qed.

(** ** Properties *)

(** C36: the receive thread loses no frame. In every state the threads and the
    RRC can reach, the frames the PDCP has handed out are those sent to the
    target and the one that waits, in order and once each, however often the
    channel is switched off and on and the target connected again. *)
Theorem client_rx_exact s0 s :
  tc_taken s0 = [] -> tc_sent s0 = [] -> tc_pending s0 = [] -> rtc tcpc_step s0 s ->
  tc_taken s = map snd (tc_sent s) ++ waiting s.
Proof.
  intros H1 H2 H3 Hr. assert (rx_kept s0) as H0 by (constructor; [unfold waiting; by rewrite H1, H2, H3|done]).
  clear H1 H2 H3. apply rk_taken. induction Hr as [|s0 s1 s2 Hs _ IH]; [done|]. by apply IH, (step_kept s0).
Qed.

(** A reconnection that deafens the end point. The target has closed the
    connection [c], and the set watched has its descriptor, as the pass that
    saw the end of the stream left it. The RRC switches the channel off, where
    nothing is closed, and on again, with a new connection [d]: now [c] is
    closed, but still in the set, which is never cleared. From then on every
    call of [select] fails; the transmit thread takes nothing from the target
    and sees no event, however long it runs. *)
Theorem client_reconnect_deaf s d rv s' :
  tc_tx_running s = true -> tc_target s <> no_fd -> tc_watch s = {[ tc_target s ]} ->
  d <> no_fd -> d <> tc_target s -> 0 <= rv ->
  let off := tcpc_set_rx_enabled false d rv (tcpc_set_tx_enabled false d rv s) in
  let on := tcpc_set_rx_enabled true d rv (tcpc_set_tx_enabled true d rv off) in
  tc_target off = tc_target s /\ tc_target on = d /\
  (rtc tx_pass on s' -> exists watch errno, s' = on <| tc_watch := watch |> <| tc_errno := errno |>).
Proof.
  intros Hrun Ht Hw Hd Hdt Hrv off on. pose proof (switch_off d rv s) as Hoff. fold off in Hoff.
  assert (tc_target off = tc_target s /\ tc_watch off = tc_watch s /\ tc_is_rx_enabled off = false /\
    tc_tx_running off = tc_tx_running s) as (E1 & E2 & E3 & E4) by (by rewrite Hoff).
  destruct (switch_on d rv off E3 Hrv Hd) as (Hs & Htd & Hr); try congruence;
    [rewrite E1, E2, Hw; by apply elem_of_singleton|].
  split; [exact E1|]. split; [exact Htd|]. intros Hp.
  apply (stale_passes on s' Hp Hs). etransitivity; [exact Hr|]. by rewrite E4.
Qed.

(** An active channel whose target has just closed the connection. *)
Definition client_example : tcpc :=
  Tcpc 3 6 7 sockaddr_zero true true true true 0 {[ 7 ]} [] 0 [] TxTurn RxTest [] [OnRlf 3] [] [] [] ∅.

Lemma client_reconnect_deaf_witness :
  let off := tcpc_set_rx_enabled false 8 0 (tcpc_set_tx_enabled false 8 0 client_example) in
  let on := tcpc_set_rx_enabled true 8 0 (tcpc_set_tx_enabled true 8 0 off) in
  let s' := tcpc_tx_turn (SelectFails EBADF) (RecvData [] sockaddr_zero) on in
  exists watch errno, s' = on <| tc_watch := watch |> <| tc_errno := errno |>.
Proof.
  intros off on s'. apply (client_reconnect_deaf client_example 8 0 s'); [reflexivity || discriminate..|].
  apply rtc_once. exists (SelectFails EBADF), (RecvData [] sockaddr_zero). split; [exact I|reflexivity].
Defined.

(** A frame waits while the channel is off, and is sent when it is on. *)
Lemma client_rx_exact_witness :
  let s0 := Tcpc 3 6 7 sockaddr_zero false false true true 0 ∅ [] 0 [] TxTurn RxTest [] [] [] [] [] ∅ in
  let s := tcpc_rx_turn [5; 6] s0 in
  waiting s = [[5; 6]] /\ tc_taken s = map snd (tc_sent s) ++ waiting s.
Proof.
  intros s0 s. split; [reflexivity|].
  apply (client_rx_exact s0 s eq_refl eq_refl eq_refl). apply rtc_once, cl_rx. reflexivity.
Defined.
