(* ===== verification/PdcpRxLimits.v ===== *)
(** * Where the receive side of [PDCP] fails

    The inputs and states outside the contract of [PdcpRxOrder]: segments that
    declare a size below that of their header, a frame that was begun before
    the receiver was switched off and on again, and the skip over lost frames. *)

From stdpp Require Import gmap.
From S2P Require Import Prelude Mem SafeInt SafeChecker PdcpSegment Info PdcpRx.

(** ** A segment whose size is below its header size *)

(** What [on_rx] reads of a segment that declares [total] bytes at the start of
    its input. *)
Record short_segment (r g : bool) (m : list Z) (total sn off : Z) (last : bool) : Prop := ShortSegment {
  ss_bytes : bytes_ok m;
  ss_fits : hdr_len r g < zlen m < 65530;
  ss_word : ld_be16 m 0 = Ok (Z_of_bool last * 32768 + total);
  ss_total : 0 <= total < hdr_len r g;
  ss_sn : (if r then ld_be16 m 2 else mret 0) = Ok sn;
  ss_off : (if g then ld_be16 m (2 + Z_of_bool r * 2) else mret 0) = Ok off }.

Lemma short_fields r g m total sn off last :
  short_segment r g m total sn off last ->
  let segment := scanned 0 (zlen m) r g in
  (rescan (segment_make 0 (zlen m) r g)).1 = segment /\
  (if r then seg_get_SN m segment else mret 0) = Ok sn /\
  seg_get_SIZE m segment = Ok total /\
  (if g then seg_get_OFFSET m segment else mret 0) = Ok off /\
  seg_get_payload_size m segment = Ok (65536 + total - hdr_len r g) /\
  seg_is_LAST m segment = Ok last.
Proof.
  intros [Hm Hf Hw Ht Hsn Hoff] segment. pose proof (hdr_len_range r g).
  assert (seg_get_SIZE m segment = Ok total) as E.
  { unfold seg_get_SIZE. simpl. rewrite Hw. cbn. unfold mret, res_ret. rewrite land_7FFF. f_equal.
    destruct last; unfold Z_of_bool; lia. }
  split; [rewrite rescan_fits; [done|lia|lia|ulia]|]. split; [by destruct r|]. split; [done|].
  split; [by destruct g|]. split.
  - unfold seg_get_payload_size. rewrite E, bind_ret_l. unfold mret, res_ret. f_equal.
    change (seg_header_size segment) with (hdr_len r g). ulia.
  - unfold seg_is_LAST. simpl. rewrite Hw. cbn. unfold mret, res_ret.
    rewrite land_8000 by (destruct last; unfold Z_of_bool; ulia). f_equal.
    destruct last; unfold Z_of_bool, bool_of_Z; case_Z; lia.
Qed.

(** One turn of the loop of [on_rx] on such a segment: the payload to read is
    longer than the input. *)
Lemma short_turn r g m total sn off last fuel s :
  short_segment r g m total sn off last ->
  qx_allow_reordering (prx_cfg s) = r -> qx_allow_segmentation (prx_cfg s) = g ->
  prx_loop (S fuel) m 0 (zlen m) s =
    ('(s, go) ← rx_segment sn off (65536 + total - hdr_len r g) (Ub OutOfBounds) last s;
     if go : bool then prx_loop fuel m total (u64 (zlen m - total)) s else mret s).
Proof.
  intros H Hr Hg. destruct (short_fields r g m total sn off last H) as (E1 & E2 & E3 & E4 & E5 & E6).
  destruct H as [Hm Hf Hw Ht Hsn Hoff]. pose proof (hdr_len_range r g).
  cbn [prx_loop]. rewrite (proj2 (Z.eqb_neq _ 0)) by lia. rewrite Hr, Hg, E1.
  change (seg_header_size _) with (hdr_len r g). rewrite (proj2 (Z.leb_gt _ _)) by lia.
  rewrite E2, bind_ret_l, E3, bind_ret_l, (proj2 (Z.ltb_ge _ _)) by lia.
  rewrite E4, bind_ret_l, E5, bind_ret_l, E6, bind_ret_l.
  change (deref (payload (scanned 0 (zlen m) r g))) with (Ok (hdr_len r g)). rewrite bind_ret_l.
  unfold rd_n at 1. replace (_ && _) with false; [done|].
  symmetry. apply andb_false_iff. right. apply Z.leb_gt. lia.
Qed.

(** A segment that declares a size below that of its own header is not
    refused. The first one a receiver gets after it was switched on makes it
    read more than 65000 bytes of payload past the end of a shorter input. *)
Theorem rx_undersized r g rlf D lcid m total sn off last :
  short_segment r g m total sn off last -> is_u16 sn -> 0 <= D ->
  prx_on_rx m 0 (zlen m) (prx_set_enabled true (prx_new lcid (PrxConfig rlf g r D))) = Ub OutOfBounds.
Proof.
  intros H Hsn HD. pose proof (ss_fits _ _ _ _ _ _ _ H). pose proof (hdr_len_range r g).
  unfold prx_on_rx. set (s := prx_set_enabled true _).
  assert (rx_buffer_ring s = replicate (Z.to_nat 8192) rb_init) as E by apply fmap_replicate.
  change (negb (is_rx_enabled s)) with false. change (pdcp_header_size _) with 0.
  rewrite (proj2 (Z.leb_gt _ _)) by lia. change (deref _) with (Ok 0). rewrite bind_ret_l.
  rewrite Z.sub_0_r, u64_id by ulia. rewrite (short_turn r g m total sn off last) by done.
  unfold rx_segment. change (rx_sn_synced s) with false. cbv iota.
  set (s0 := (s <| rx_sn_synced := true |>) <| rx_sn := sn |>).
  assert (sn_dist sn s0 = 0) as -> by (unfold sn_dist; cbn; rewrite Z.leb_refl; lia).
  cbn [bool_of_Z Z.eqb negb andb]. change (qx_max_sn_distance (prx_cfg s0)) with D.
  rewrite (proj2 (Z.ltb_ge D 0)) by lia. cbn [andb].
  assert (rx_buffer_ring s0 !! rx_buffer_ring_index sn s0 = Some rb_init) as ->.
  { change (rx_buffer_ring s0) with (rx_buffer_ring s). unfold rx_buffer_ring_index.
    change (rx_buffer_ring s0) with (rx_buffer_ring s). rewrite E, zlen_replicate.
    apply lookup_replicate_2. ulia. }
  cbn [rb_is_complete rb_init rb_has_expected_size andb].
  unfold rb_store, upd. destruct last; cbn; rewrite bool_decide_false by (apply not_elem_of_empty); done.
Qed.

Definition ex_short : list Z := [0; 1; 0; 7; 0; 0; 42; 42].

Lemma ex_short_ok : short_segment true true ex_short 1 7 0 false.
Proof.
  constructor; try (vm_compute; reflexivity).
  - repeat constructor; ulia.
  - vm_compute. split; reflexivity.
  - vm_compute. split; congruence.
Qed.

Lemma rx_undersized_witness :
  prx_on_rx ex_short 0 (zlen ex_short) (prx_set_enabled true (prx_new 1 (PrxConfig true true true 20))) = Ub OutOfBounds.
Proof. apply (rx_undersized true true true 20 1 ex_short 1 7 0 false ex_short_ok); ulia. Defined.

(** A state that waits for the rest of frame [sn] and has received the segment
    at [off]. *)
Definition waits_for (r g : bool) (sn off : Z) (s : prx_t) : Prop :=
  qx_allow_reordering (prx_cfg s) = r /\ qx_allow_segmentation (prx_cfg s) = g /\
  0 <= qx_max_sn_distance (prx_cfg s) /\ rx_sn_synced s = true /\ rx_sn s = sn /\
  exists el, rx_buffer_ring s !! rx_buffer_ring_index sn s = Some el /\ rb_is_complete el = false /\
    off ∈ rb_recvd_offsets el /\ rb_accumulated_size el < 65530.

Lemma short_waits r g sn off n last s :
  waits_for r g sn off s -> 65530 <= off + n ->
  exists s', rx_segment sn off n (Ub OutOfBounds) last s = Ok (s', true) /\ waits_for r g sn off s'.
Proof.
  intros (Hr & Hg & HD & Hsy & Hsn & el & Hk & Hc & Hoff & Hacc) Hn.
  unfold rx_segment. rewrite Hsy.
  assert (sn_dist sn s = 0) as -> by (unfold sn_dist; rewrite Hsn, Z.leb_refl; lia).
  cbn [bool_of_Z Z.eqb negb andb]. rewrite (proj2 (Z.ltb_ge _ 0)) by lia. cbn [andb]. rewrite Hk, Hc.
  set (el' := if last then RxBufferInfo true (rb_accumulated_size el) (off + n) (rb_recvd_offsets el)
                (vec_grow (off + n) (rb_buffer el))
              else el <| rb_buffer := vec_grow (off + n) (rb_buffer el) |>).
  assert (rb_store off n (Ub OutOfBounds) last el = Ok el') as ->.
  { unfold rb_store, el', upd. destruct last; cbn; by rewrite bool_decide_true. }
  rewrite bind_ret_l.
  assert (rb_is_complete el' = false) as Hc'.
  { unfold el', rb_is_complete in *. destruct last; cbn; [apply Z.eqb_neq; lia|exact Hc]. }
  rewrite Hc'. eexists. split; [done|]. split_and!; try done.
  exists el'. split; [|split; [done|by unfold el'; destruct last]].
  unfold put_el, upd, rx_buffer_ring_index, zlen in *. cbn. rewrite length_insert.
  apply list_lookup_insert_eq. by apply lookup_lt_Some in Hk.
Qed.

(** A segment that declares the size zero, of a frame that is incomplete and at
    an offset already received, is never left behind: the loop of [on_rx] does
    not advance and never ends, with the mutex of the receiver held. *)
Theorem rx_zero_size_hangs r g m sn off last s :
  short_segment r g m 0 sn off last -> waits_for r g sn off s -> 0 <= off ->
  forall fuel, prx_loop fuel m 0 (zlen m) s = NoFuel.
Proof.
  intros H Hw Hoff fuel. revert s Hw. induction fuel as [|fuel IH]; intros s Hw; [done|].
  rewrite (short_turn r g m 0 sn off last) by (try done; apply Hw). pose proof (hdr_len_range r g).
  destruct (short_waits r g sn off (65536 + 0 - hdr_len r g) last s Hw ltac:(lia)) as (s' & -> & Hw').
  rewrite bind_ret_l, Z.sub_0_r, u64_id by (pose proof (ss_fits _ _ _ _ _ _ _ H); ulia). by apply IH.
Qed.

(** A receiver that has the first byte of frame 7. *)
Definition ex_waiting : prx_t :=
  let s := prx_set_enabled true (prx_new 1 (PrxConfig true true true 20)) in
  put_el 7 (RxBufferInfo false 1 0 {[ 0 ]} [42]) s <| rx_sn_synced := true |> <| rx_sn := 7 |>.

Lemma ring_fresh lcid cfg :
  rx_buffer_ring (prx_set_enabled true (prx_new lcid cfg)) = replicate (Z.to_nat 8192) rb_init.
Proof. apply fmap_replicate. Qed.

Example ex_waiting_run :
  (s ← prx_on_rx [0; 7; 0; 7; 0; 0; 42] 0 7 (prx_set_enabled true (prx_new 1 (PrxConfig true true true 20)));
   mret (rx_buffer_ring s !! 7%nat, rx_sn s, rx_sn_synced s)) =
  Ok (rx_buffer_ring ex_waiting !! 7%nat, rx_sn ex_waiting, rx_sn_synced ex_waiting).
Proof. vm_compute. reflexivity. Qed.

Lemma rx_zero_size_hangs_witness :
  let m := [0; 0; 0; 7; 0; 0; 42; 42] in
  short_segment true true m 0 7 0 false /\ waits_for true true 7 0 ex_waiting /\
  prx_loop 1000 m 0 (zlen m) ex_waiting = NoFuel.
Proof.
  intros m. assert (short_segment true true m 0 7 0 false) as H1.
  { constructor; try (vm_compute; reflexivity).
    - repeat constructor; ulia.
    - vm_compute. split; reflexivity.
    - vm_compute. split; congruence. }
  assert (waits_for true true 7 0 ex_waiting) as H2.
  { split_and!; try done. exists (RxBufferInfo false 1 0 {[ 0 ]} [42]).
    unfold ex_waiting, put_el, rx_buffer_ring_index, upd. cbn [rx_buffer_ring].
    rewrite (ring_fresh 1 (PrxConfig true true true 20)). unfold zlen. rewrite length_insert, length_replicate.
    split; [apply list_lookup_insert_eq; rewrite length_replicate; lia|].
    split; [done|]. split; [cbn; apply elem_of_singleton; done|]. cbn. lia. }
  split; [exact H1|]. split; [exact H2|]. apply (rx_zero_size_hangs true true m 7 0 false ex_waiting H1 H2). lia.
Defined.

(** ** A buffer that is not cleared *)

Lemma ring_index_8192 sn s :
  length (rx_buffer_ring s) = Z.to_nat 8192 -> rx_buffer_ring_index sn s = Z.to_nat (sn mod 8192).
Proof. intros H. unfold rx_buffer_ring_index, zlen. by rewrite H, Z2Nat.id by lia. Qed.

(** The loop hands out the frame expected and stops at the next. *)
Lemma update_one s el el2 :
  is_u16 (rx_sn s) -> length (rx_buffer_ring s) = Z.to_nat 8192 -> qx_allow_reordering (prx_cfg s) = true ->
  rx_buffer_ring s !! Z.to_nat (rx_sn s mod 8192) = Some el -> rb_is_complete el = true ->
  rx_buffer_ring s !! Z.to_nat (u16 (rx_sn s + 1) mod 8192) = Some el2 -> rb_is_complete el2 = false ->
  exists s', update_rx_sn (rx_sn s) false s = Ok s' /\ to_rx_queue s' = to_rx_queue s ++ [rb_buffer el].
Proof.
  intros Hsn Hlen Hr Hk Hc Hk2 Hc2. unfold update_rx_sn. rewrite Hr. cbn [negb].
  assert (exists f, update_fuel = S (S f)) as [f ->]
    by (exists (Z.to_nat (2 * 65536)); unfold update_fuel; lia).
  cbn [update_loop]. rewrite ring_index_8192, Hk, Hc by done.
  set (i := Z.to_nat (rx_sn s mod 8192)) in *. set (j := Z.to_nat (u16 (rx_sn s + 1) mod 8192)) in *.
  assert (j <> i) as Hji by (unfold i, j; ulia).
  set (s1 := hand_out i el s <| rx_sn := u16 (rx_sn s + 1) |>).
  assert (rx_buffer_ring s1 = <[i := (rb_reset el) <| rb_buffer := [] |>]> (rx_buffer_ring s)) as Hr1 by done.
  assert (length (rx_buffer_ring s1) = Z.to_nat 8192) as Hlen1 by by rewrite Hr1, length_insert.
  rewrite (ring_index_8192 _ s1 Hlen1). change (rx_sn s1) with (u16 (rx_sn s + 1)). fold j.
  rewrite Hr1, list_lookup_insert_ne, Hk2, Hc2 by done. by exists s1.
Qed.

(** [data] written over the first bytes of [buf]. *)
Definition over (data buf : list Z) : list Z := data ++ drop (length data) buf.

(** A whole frame put into an element with a longer buffer. *)
Lemma store_stale data el :
  is_u64 (zlen data) -> zlen data < zlen (rb_buffer el) ->
  rb_store 0 (zlen data) (Ok data) true (rb_reset el) =
    Ok (RxBufferInfo true (zlen data) (zlen data) {[ 0 ]} (over data (rb_buffer el))).
Proof.
  intros Hu Hlt. pose proof (zlen_nonneg data).
  unfold rb_store, upd, rb_reset. cbn. unfold vec_grow. rewrite (proj2 (Z.ltb_ge _ _)) by lia.
  rewrite wr_n_in by lia. unfold mret, res_ret. rewrite bind_ret_l, u64_id, Z.add_0_l by done.
  by rewrite union_empty_l_L.
Qed.

(** Switching the receiver off and on forgets what it has received, but
    not the buffers: the next frame in the same element of the ring is handed
    out with the bytes of the abandoned one behind its own. *)
Theorem rx_stale_buffer s sn data el :
  is_u16 sn -> length (rx_buffer_ring s) = Z.to_nat 8192 -> is_u64 (zlen data) ->
  qx_allow_reordering (prx_cfg s) = true -> 0 <= qx_max_sn_distance (prx_cfg s) ->
  rx_buffer_ring s !! Z.to_nat (sn mod 8192) = Some el -> zlen data < zlen (rb_buffer el) ->
  exists s', rx_segment sn 0 (zlen data) (Ok data) true (prx_set_enabled true s) = Ok (s', true) /\
    to_rx_queue s' = to_rx_queue s ++ [over data (rb_buffer el)].
Proof.
  intros Hsn Hlen Hu Hr HD Hk Hlt.
  set (s1 := prx_set_enabled true s).
  assert (rx_buffer_ring s1 = map rb_reset (rx_buffer_ring s)) as Hring by done.
  unfold rx_segment. change (rx_sn_synced s1) with false. cbv iota.
  set (s2 := (s1 <| rx_sn_synced := true |>) <| rx_sn := sn |>).
  assert (sn_dist sn s2 = 0) as -> by (unfold sn_dist; cbn; rewrite Z.leb_refl; lia).
  cbn [bool_of_Z Z.eqb negb andb]. change (prx_cfg s2) with (prx_cfg s).
  rewrite (proj2 (Z.ltb_ge _ 0)) by lia. cbn [andb].
  assert (length (rx_buffer_ring s2) = Z.to_nat 8192) as Hlen2
    by (change (rx_buffer_ring s2) with (rx_buffer_ring s1); by rewrite Hring, length_map).
  rewrite ring_index_8192 by done. change (rx_buffer_ring s2) with (rx_buffer_ring s1).
  rewrite Hring, list_lookup_fmap, Hk. cbn [fmap option_fmap option_map].
  change (rb_is_complete (rb_reset el)) with false. cbv iota. rewrite store_stale, bind_ret_l by done.
  set (e := RxBufferInfo _ _ _ _ _). assert (rb_is_complete e = true) as He by apply Z.eqb_refl.
  rewrite He. set (i := Z.to_nat (sn mod 8192)) in *.
  destruct (lookup_lt_is_Some_2 (rx_buffer_ring s) (Z.to_nat (u16 (sn + 1) mod 8192))) as [e2 He2];
    [rewrite Hlen; ulia|].
  assert (rx_buffer_ring (put_el i e s2) = <[i := e]> (rx_buffer_ring s2)) as Hput by done.
  destruct (update_one (put_el i e s2) e (rb_reset e2)) as (s' & E & Hq); try done.
  - by rewrite Hput, length_insert.
  - rewrite Hput. apply list_lookup_insert_eq. rewrite Hlen2. unfold i. ulia.
  - rewrite Hput, list_lookup_insert_ne by (unfold i; change (rx_sn _) with sn; ulia).
    change (rx_sn (put_el i e s2)) with sn. change (rx_buffer_ring s2) with (map rb_reset (rx_buffer_ring s)).
    by rewrite list_lookup_fmap, He2.
  - change (rx_sn (put_el i e s2)) with sn in E. rewrite E, bind_ret_l. by exists s'.
Qed.

(** Frame 7 was begun with the byte 42 at offset 2; after the restart a frame
    of one byte comes. *)
Definition ex_begun : prx_t :=
  put_el 7 (RxBufferInfo false 1 0 {[ 2 ]} [0; 0; 42]) (prx_set_enabled true (prx_new 1 (PrxConfig true true true 20))).

Lemma rx_stale_buffer_witness :
  exists s', rx_segment 7 0 1 (Ok [9]) true (prx_set_enabled true ex_begun) = Ok (s', true) /\
    to_rx_queue s' = [[9; 0; 42]].
Proof.
  destruct (rx_stale_buffer ex_begun 7 [9] (RxBufferInfo false 1 0 {[ 2 ]} [0; 0; 42])) as (s' & E & Hq).
  - ulia.
  - unfold ex_begun, put_el, upd. cbn [rx_buffer_ring]. rewrite length_insert.
    rewrite (ring_fresh 1 (PrxConfig true true true 20)). apply length_replicate.
  - vm_compute. split; congruence.
  - reflexivity.
  - vm_compute. congruence.
  - unfold ex_begun, put_el, upd. cbn [rx_buffer_ring]. rewrite (ring_fresh 1 (PrxConfig true true true 20)).
    apply list_lookup_insert_eq. rewrite length_replicate. lia.
  - vm_compute. reflexivity.
  - exists s'. split; [exact E|exact Hq].
Defined.

(** ** The skip over a lost frame *)

(** The elements ahead of the next sequence number: [n] of them are complete
    with the buffers [bufs], and no other of the ring is. *)
Definition element_at (s : prx_t) (j : Z) : option rx_buffer_info_t :=
  rx_buffer_ring s !! Z.to_nat (u16 (rx_sn s + j) mod 8192).

Record ahead (bufs : list (list Z)) (s : prx_t) : Prop := Ahead {
  ah_sn : is_u16 (rx_sn s);
  ah_len : length (rx_buffer_ring s) = Z.to_nat 8192;
  ah_in : forall j b, bufs !! j = Some b ->
    exists el, element_at s (Z.of_nat j) = Some el /\ rb_is_complete el = true /\ rb_buffer el = b;
  ah_out : forall j el, zlen bufs <= j < 8192 -> element_at s j = Some el -> rb_is_complete el = false }.

Lemma element_at_some s j : length (rx_buffer_ring s) = Z.to_nat 8192 -> is_Some (element_at s j).
Proof. intros H. apply lookup_lt_is_Some_2. rewrite H. ulia. Qed.

(** The ring after the element expected was replaced and the window moved. *)
Lemma element_at_next s e s' j :
  is_u16 (rx_sn s) -> length (rx_buffer_ring s) = Z.to_nat 8192 ->
  rx_buffer_ring s' = <[Z.to_nat (rx_sn s mod 8192) := e]> (rx_buffer_ring s) ->
  rx_sn s' = u16 (rx_sn s + 1) -> 0 <= j < 8192 ->
  element_at s' j = if j =? 8191 then Some e else element_at s (j + 1).
Proof.
  intros Hsn Hlen Hr Hn Hj. unfold element_at. rewrite Hr, Hn.
  assert (u16 (u16 (rx_sn s + 1) + j) = u16 (rx_sn s + (j + 1))) as -> by ulia.
  destruct (Z.eqb_spec j 8191) as [->|Hne].
  - replace (Z.to_nat (u16 (rx_sn s + (8191 + 1)) mod 8192)) with (Z.to_nat (rx_sn s mod 8192)) by ulia.
    apply list_lookup_insert_eq. rewrite Hlen. ulia.
  - apply list_lookup_insert_ne. ulia.
Qed.

Lemma element_at_0 s : is_u16 (rx_sn s) -> element_at s 0 = rx_buffer_ring s !! Z.to_nat (rx_sn s mod 8192).
Proof. intros. unfold element_at. by rewrite Z.add_0_r, u16_id. Qed.

(** The complete elements are handed out one after the other. *)
Lemma hand_out_all bufs fuel sn s :
  ahead bufs s -> zlen bufs < 8192 ->
  exists s', update_loop (length bufs + fuel) sn true s = update_loop fuel sn true s' /\ ahead [] s' /\
    rx_sn s' = u16 (rx_sn s + zlen bufs) /\ to_rx_queue s' = to_rx_queue s ++ bufs /\ prx_cfg s' = prx_cfg s.
Proof.
  revert s. induction bufs as [|b bufs IH]; intros s [Hsn Hlen Hin Hout] Hz.
  { exists s. rewrite Z.add_0_r, app_nil_r, u16_id by done. done. }
  rewrite zlen_cons in *. destruct (Hin O b eq_refl) as (el & Hk & Hc & Hb).
  change (Z.of_nat 0) with 0 in Hk. rewrite (element_at_0 s Hsn) in Hk. cbn [length Nat.add update_loop].
  rewrite ring_index_8192, Hk, Hc by done. set (s1 := hand_out _ el s <| rx_sn := _ |>).
  assert (forall j, 0 <= j < 8192 -> element_at s1 j = if j =? 8191 then Some rb_init else element_at s (j + 1)) as Hnext
    by (intros; by apply element_at_next).
  assert (ahead bufs s1) as HA.
  { constructor.
    - apply u16_range.
    - unfold s1, hand_out, put_el, upd. cbn. by rewrite length_insert.
    - intros j b' Hj. pose proof (lookup_lt_Some _ _ _ Hj). rewrite Hnext by (unfold zlen in *; lia).
      rewrite (proj2 (Z.eqb_neq _ _)) by (unfold zlen in *; lia).
      destruct (Hin (S j) b' Hj) as (el' & He & ?). exists el'. split; [|done]. rewrite <- He. f_equal. lia.
    - intros j el' Hj. pose proof (zlen_nonneg bufs). rewrite Hnext by lia.
      destruct (Z.eqb_spec j 8191); [by intros [= <-]|]. apply Hout. lia. }
  destruct (IH s1 HA ltac:(lia)) as (s' & E & HA' & Hn & Hq & Hcfg). exists s'. split; [exact E|]. split; [done|].
  split; [|split].
  - rewrite Hn. change (rx_sn s1) with (u16 (rx_sn s + 1)). ulia.
  - rewrite Hq. change (to_rx_queue s1) with (to_rx_queue s ++ [rb_buffer el]). rewrite Hb. by rewrite <- app_assoc.
  - by rewrite Hcfg.
Qed.

(** With nothing complete the loop goes on through the sequence numbers until
    it is less than [D] before [sn]. *)
Lemma skip_all k fuel sn s :
  let D := qx_max_sn_distance (prx_cfg s) in
  ahead [] s -> is_u16 sn -> 2 <= D -> D - 1 + Z.of_nat k < 65536 ->
  rx_sn s = u16 (sn - (D - 1) - Z.of_nat k) -> (k < fuel)%nat ->
  exists s', update_loop fuel sn true s = Ok s' /\ rx_sn s' = u16 (sn - D + 2) /\ to_rx_queue s' = to_rx_queue s.
Proof.
  revert fuel s. induction k as [|k IH]; intros [|fuel] s D HA Hsn HD Hk Hrx Hf; try lia.
  all: destruct HA as [Hu Hlen Hin Hout].
  all: destruct (element_at_some s 0 Hlen) as [el He].
  all: pose proof (Hout 0 el ltac:(rewrite zlen_nil; lia) He) as Hc; rewrite (element_at_0 s Hu) in He.
  all: cbn [update_loop]; rewrite ring_index_8192, He, Hc by done.
  all: set (s1 := put_el _ _ s <| rx_sn := _ |>).
  all: change (qx_max_sn_distance (prx_cfg s1)) with D; change (rx_sn s1) with (u16 (rx_sn s + 1)).
  - assert (sn_dist sn s = D - 1) as -> by (unfold sn_dist; case_Z; ulia).
    rewrite (proj2 (Z.ltb_lt _ D)), orb_true_r by lia. exists s1. split; [done|].
    change (rx_sn s1) with (u16 (rx_sn s + 1)). split; [ulia|done].
  - assert (sn_dist sn s = D + Z.of_nat k) as -> by (unfold sn_dist; case_Z; ulia).
    rewrite (proj2 (Z.ltb_ge _ D)), orb_false_r by lia.
    rewrite (proj2 (Z.eqb_neq (u16 (rx_sn s + 1)) sn)) by (rewrite Hrx; clear - Hsn Hk HD; ulia).
    pose proof (IH fuel s1) as HI. cbv zeta in HI.
    change (qx_max_sn_distance (prx_cfg s1)) with D in HI. change (rx_sn s1) with (u16 (rx_sn s + 1)) in HI.
    apply HI; try done; [|lia|rewrite Hrx; ulia|lia].
    constructor; [apply u16_range| |done|].
    + unfold s1, put_el, upd. cbn. by rewrite length_insert.
    + intros j el' Hj. rewrite (element_at_next s (rb_reset el) s1) by (done || lia).
      rewrite zlen_nil in Hj. destruct (Z.eqb_spec j 8191); [by intros [= <-]|].
      apply Hout. rewrite zlen_nil. lia.
Qed.

(** The next frame is missing, the ones after it are there. *)
Record gap (bufs : list (list Z)) (s : prx_t) : Prop := Gap {
  gp_sn : is_u16 (rx_sn s);
  gp_len : length (rx_buffer_ring s) = Z.to_nat 8192;
  gp_first : forall el, element_at s 0 = Some el -> rb_is_complete el = false;
  gp_in : forall j b, bufs !! j = Some b ->
    exists el, element_at s (Z.of_nat j + 1) = Some el /\ rb_is_complete el = true /\ rb_buffer el = b;
  gp_out : forall j el, zlen bufs + 1 <= j < 8192 -> element_at s j = Some el -> rb_is_complete el = false }.

Lemma gap_skipped bufs s el :
  gap bufs s -> zlen bufs < 8191 ->
  ahead bufs (put_el (Z.to_nat (rx_sn s mod 8192)) (rb_reset el) s <| rx_sn := u16 (rx_sn s + 1) |>).
Proof.
  intros [Hsn Hlen Hf Hin Hout] Hz. set (s1 := put_el _ _ s <| rx_sn := _ |>).
  assert (forall j, 0 <= j < 8192 ->
    element_at s1 j = if j =? 8191 then Some (rb_reset el) else element_at s (j + 1)) as Hnext
    by (intros; by apply element_at_next).
  constructor.
  - apply u16_range.
  - unfold s1, put_el, upd. cbn. by rewrite length_insert.
  - intros j b Hj. pose proof (lookup_lt_Some _ _ _ Hj). rewrite Hnext by (unfold zlen in *; lia).
    rewrite (proj2 (Z.eqb_neq _ _)) by (unfold zlen in *; lia). by apply Hin.
  - intros j el' Hj. pose proof (zlen_nonneg bufs). rewrite Hnext by lia.
    destruct (Z.eqb_spec j 8191); [by intros [= <-]|]. apply Hout. lia.
Qed.

(** The skip over a lost frame goes back. When the next frame is missing,
    the [D] frames of the window behind it are complete and so is one more,
    whose arrival makes the receiver skip, then the lost frame is dropped and the
    [D + 1] others are handed out; but the loop does not stop there. It runs
    through all sequence numbers and leaves the receiver waiting for the frame
    [D - 2] before the last one handed out, so the frame that comes next is kept
    back although nothing is missing before it. *)
Theorem rx_skip_back bufs s :
  let D := qx_max_sn_distance (prx_cfg s) in
  let sn := u16 (rx_sn s + D + 1) in
  qx_allow_reordering (prx_cfg s) = true -> 2 <= D <= 8189 -> gap bufs s -> zlen bufs = D + 1 ->
  exists s', update_rx_sn sn true s = Ok s' /\ to_rx_queue s' = to_rx_queue s ++ bufs /\
    rx_sn s' = u16 (sn - D + 2) /\ sn_dist (u16 (sn + 1)) s' = D - 1.
Proof.
  intros D sn Hr HD Hg Hz. destruct (element_at_some s 0 (gp_len _ _ Hg)) as [el He].
  pose proof (gp_first _ _ Hg el He) as Hc. pose proof (gp_sn _ _ Hg) as Hsn.
  pose proof (gap_skipped bufs s el Hg ltac:(lia)) as HA.
  rewrite (element_at_0 s Hsn) in He.
  assert (exists f, update_fuel = S (length bufs + f) /\ (Z.to_nat (65536 - D) < f)%nat) as (f & Hf & Hfk).
  { exists (Z.to_nat (131073 - D - 1)). unfold update_fuel, zlen in *. lia. }
  unfold update_rx_sn. rewrite Hr, Hf. cbn [negb update_loop].
  rewrite ring_index_8192, He, Hc by apply Hg. set (s1 := put_el _ _ s <| rx_sn := _ |>) in *.
  change (qx_max_sn_distance (prx_cfg s1)) with D. change (rx_sn s1) with (u16 (rx_sn s + 1)).
  assert (sn_dist sn s = D + 1) as -> by (unfold sn_dist, sn; case_Z; ulia).
  rewrite (proj2 (Z.ltb_ge _ D)), orb_false_r by lia.
  rewrite (proj2 (Z.eqb_neq _ sn)) by (unfold sn; ulia).
  destruct (hand_out_all bufs f sn s1 HA ltac:(lia)) as (s2 & -> & HA2 & Hn2 & Hq2 & Hc2).
  change (rx_sn s1) with (u16 (rx_sn s + 1)) in Hn2. change (prx_cfg s1) with (prx_cfg s) in Hc2.
  pose proof (skip_all (Z.to_nat (65536 - D)) f sn s2) as HS. cbv zeta in HS. rewrite Hc2 in HS. fold D in HS.
  destruct HS as (s' & -> & Hn & Hq); try done; try lia; [apply u16_range|rewrite Hn2; unfold sn; ulia|].
  exists s'. split; [done|]. split; [by rewrite Hq, Hq2|]. split; [done|].
  unfold sn_dist. rewrite Hn. clear - HD. case_Z; ulia.
Qed.

(** With a window of two, frame 0 is missing, frames 1 to 3 are there. *)
Definition ex_gap : prx_t :=
  let s := prx_set_enabled true (prx_new 1 (PrxConfig false true true 2)) in
  let e b := RxBufferInfo true 1 1 {[ 0 ]} [b] in
  put_el 3 (e 3) (put_el 2 (e 2) (put_el 1 (e 1) s)).

Lemma ex_gap_at j :
  0 <= j < 8192 -> element_at ex_gap j =
  Some (if decide (1 <= j <= 3) then RxBufferInfo true 1 1 {[ 0 ]} [j] else rb_init).
Proof.
  intros Hj. unfold element_at, ex_gap, put_el, upd. cbn [rx_buffer_ring].
  rewrite (ring_fresh 1 (PrxConfig false true true 2)). change (rx_sn _) with 0.
  rewrite Z.add_0_l, (u16_id j), Z.mod_small by ulia.
  destruct (decide (j = 3)) as [->|]; [rewrite list_lookup_insert_eq; [done|rewrite !length_insert, length_replicate; lia]|].
  rewrite list_lookup_insert_ne by lia.
  destruct (decide (j = 2)) as [->|]; [rewrite list_lookup_insert_eq; [done|rewrite !length_insert, length_replicate; lia]|].
  rewrite list_lookup_insert_ne by lia.
  destruct (decide (j = 1)) as [->|]; [rewrite list_lookup_insert_eq; [done|rewrite length_replicate; lia]|].
  rewrite list_lookup_insert_ne by lia. rewrite lookup_replicate_2 by lia.
  rewrite decide_False by lia. done.
Qed.

Lemma ex_gap_ok : gap [[1]; [2]; [3]] ex_gap.
Proof.
  constructor.
  - vm_compute. split; congruence.
  - unfold ex_gap, put_el, upd. cbn [rx_buffer_ring]. rewrite (ring_fresh 1 (PrxConfig false true true 2)).
    rewrite !length_insert. apply length_replicate.
  - intros el. rewrite ex_gap_at by lia. rewrite decide_False by lia. by intros [= <-].
  - intros j b Hj. pose proof (lookup_lt_Some _ _ _ Hj) as Hl. simpl in Hl. rewrite ex_gap_at by lia.
    rewrite decide_True by lia. eexists. split; [done|]. split; [done|].
    destruct j as [|[|[|j]]]; [..|lia]; by injection Hj as <-.
  - intros j el Hj. rewrite !zlen_cons, zlen_nil in Hj. rewrite ex_gap_at by lia.
    rewrite decide_False by lia. by intros [= <-].
Qed.

Lemma rx_skip_back_witness :
  gap [[1]; [2]; [3]] ex_gap /\
  exists s', update_rx_sn 3 true ex_gap = Ok s' /\ to_rx_queue s' = [[1]; [2]; [3]] /\ rx_sn s' = 3.
Proof.
  split; [exact ex_gap_ok|].
  destruct (rx_skip_back [[1]; [2]; [3]] ex_gap) as (s' & E & Hq & Hn & _).
  - reflexivity.
  - vm_compute. split; congruence.
  - exact ex_gap_ok.
  - reflexivity.
  - exists s'. split; [exact E|]. split; [exact Hq|exact Hn].
Defined.
