(* ===== verification/LlcTx.v ===== *)
(** * The transmit side of the LLC: what one call of [on_tx] does

    [llc_on_tx] is shown to be memory safe, to write a PDU of
    acknowledgements and a data PDU, one behind the other, and to take one
    step of the abstract machine [data_step], against the interface
    [IpdcpLaws] to the PDCP. *)

From S2P Require Import Prelude Mem SafeInt LlcFrame Crc LlcCrc Info Llc.

(** ** The invariant *)

Definition crc_on (s : llc) : bool := bool_decide (it_crc_type (ll_tx_config s) = E_CRC_TYPE_CRC32_04C11DB7).

Definition slot_buffer (b : list Z) : Prop := zlen b = 1500 /\ bytes_ok b.

Record elem_ok (am : bool) (e : tx_ring_elem_t) : Prop := ElemOk {
  eo_index : sent_index e = no_index \/ 0 <= sent_index e < 1024;
  eo_pdu : slot_buffer (te_pdcp_pdu e) \/ am = false /\ te_pdcp_pdu e = [];
  eo_size : 0 <= te_pdcp_pdu_size e <= 1500;
  eo_retry : is_u64 (te_retry_count e);
  eo_unacked : te_acknowledged e = false -> 0 < te_pdcp_pdu_size e }.

Record retx_ok (r : retx_elem_t) : Prop := RetxOk {
  ro_pdu : slot_buffer (rt_pdcp_pdu r);
  ro_size : 0 < rt_pdcp_pdu_size r <= 1500;
  ro_retry : is_u64 (rt_retry_count r) }.

(** Sequence numbers [first], [first + 1], ... below 256. *)
Definition ack_ok (a : Z * Z) : Prop := 0 <= a.1 /\ 1 <= a.2 /\ a.1 + a.2 <= 256.

Record llc_inv (s : llc) : Prop := LlcInv {
  vi_lcid : 0 <= ll_lcid s < 16;
  vi_sn : is_u8 (sn_counter s);
  vi_crc : tx_crc_size s = crc_len (crc_on s);
  vi_ring : zlen (tx_ring s) = 1024;
  vi_elem : Forall (elem_ok (am_mode s)) (tx_ring s);
  vi_retx : Forall retx_ok (to_retx_list s);
  vi_pool : Forall slot_buffer (tx_buffer_pool s);
  vi_window : am_mode s = true -> 0 < it_arq_window_size (ll_tx_config s) <= zlen (sn_ring s);
  vi_acks : Forall ack_ok (to_ack_list s) }.

Lemma slot_buffer_fresh : slot_buffer (replicate (Z.to_nat LLC_max_size) 0).
Proof.
  split; [rewrite zlen_replicate; unfold LLC_max_size; lia|]. apply Forall_replicate. ulia.
Qed.

Lemma allocate_spec s :
  llc_inv s -> exists pool b, allocate_tx_buffer s = (s <| tx_buffer_pool := pool |>, b) /\
    slot_buffer b /\ Forall slot_buffer pool.
Proof.
  intros Hi. pose proof (vi_pool _ Hi) as Hp. unfold allocate_tx_buffer. destruct (tx_buffer_pool s) as [|b pool] eqn:E.
  - exists [], (replicate (Z.to_nat LLC_max_size) 0). split; [by rewrite <- E; destruct s|]. split; [apply slot_buffer_fresh|done].
  - inversion Hp; subst. by exists pool, b.
Qed.

(** ** Indices *)

Definition slot_idx (slot : Z) : nat := Z.to_nat (slot mod 1024).

Lemma tx_ring_index_slot slot s : llc_inv s -> tx_ring_index slot s = slot_idx slot.
Proof. intros Hi. unfold tx_ring_index. by rewrite (vi_ring _ Hi). Qed.

Lemma slot_idx_lt slot : (slot_idx slot < 1024)%nat.
Proof. unfold slot_idx. lia. Qed.
Lemma slot_idx_u64 slot : slot_idx (u64 slot) = slot_idx slot.
Proof. unfold slot_idx. f_equal. ulia. Qed.

Lemma ring_elem s i : llc_inv s -> (i < 1024)%nat -> exists e, tx_ring s !! i = Some e /\ elem_ok (am_mode s) e.
Proof.
  intros Hi Hlt. pose proof (vi_ring _ Hi) as Hr.
  destruct (lookup_lt_is_Some_2 (tx_ring s) i) as [e He]; [unfold zlen in Hr; lia|].
  exists e. split; [done|]. by eapply Forall_lookup_1; [apply (vi_elem _ Hi)|].
Qed.

Lemma ring_at s i : llc_inv s -> (i < 1024)%nat -> exists e, tx_ring s !! i = Some e /\ vec_at (tx_ring s) i = Ok e /\
  elem_ok (am_mode s) e.
Proof. intros Hi Hlt. destruct (ring_elem s i Hi Hlt) as (e & He & Hok). eauto using vec_at_Some. Qed.

(** ** The check of a slot *)

(** The element whose PDU is due in [slot], if it is not acknowledged. *)
Definition due (slot : Z) (s : llc) : option (nat * tx_ring_elem_t) :=
  if negb (am_mode s) then None else
  this ← tx_ring s !! slot_idx slot;
  e ← tx_ring s !! slot_idx (sent_index this);
  if te_acknowledged e then None else Some (slot_idx (sent_index this), e).

Definition retx_of (e : tx_ring_elem_t) : retx_elem_t :=
  RetxElem (te_llc_tx_id e) (te_retry_count e) (te_pdcp_pdu_size e) (te_pdcp_pdu e).

Lemma check_retransmit_spec slot s :
  llc_inv s -> exists s', check_retransmit slot s = Ok s' /\ llc_inv s' /\
    match due slot s with
    | None => s' = s
    | Some (i, e) => exists pool b, slot_buffer b /\
        s' = s <| tx_buffer_pool := pool |>
               <| tx_ring := <[i := e <| te_acknowledged := true |> <| te_pdcp_pdu := b |>]> (tx_ring s) |>
               <| to_retx_list := to_retx_list s ++ [retx_of e] |>
    end.
Proof.
  intros Hi. unfold check_retransmit, due. destruct (am_mode s) eqn:Em; cbn [negb]; [|by exists s].
  rewrite !(tx_ring_index_slot _ s Hi).
  destruct (ring_at s (slot_idx slot) Hi (slot_idx_lt _)) as (t & Ht & -> & Hto). rewrite Ht, bind_ret_l. cbn [mbind option_bind].
  rewrite (tx_ring_index_slot _ s Hi).
  destruct (ring_at s (slot_idx (sent_index t)) Hi (slot_idx_lt _)) as (e & He & -> & [Hx Hp Hs Hr Hun]).
  rewrite He, bind_ret_l. cbn [mbind option_bind]. destruct (te_acknowledged e); [by exists s|].
  specialize (Hun eq_refl).
  destruct (allocate_spec s Hi) as (pool & b & -> & Hb & Hpool). eexists. split; [reflexivity|].
  split; [|exists pool, b; split; done].
  rewrite Em in Hp. destruct Hp as [Hp|[? _]]; [|done]. destruct Hi.
  constructor; cbn; try done.
  - unfold zlen in *. by rewrite length_insert.
  - change (am_mode _) with (am_mode s). apply Forall_insert; [done|]. constructor; cbn; auto.
  - apply Forall_app_2; [done|]. apply Forall_singleton. constructor; cbn; [done|lia|done].
Qed.

(** ** Loading the data PDU *)

Definition hdr_len_of (c : bool) : Z := 3 + crc_len c.

Lemma hdr_len_of_range c : 3 <= hdr_len_of c <= 7.
Proof. unfold hdr_len_of. destruct c; cbn [crc_len]; lia. Qed.

(** A header of an LLC view at [b], with [room] bytes of payload behind it. *)
Record view_at (m : list Z) (c : bool) (l : llc_t) (b room : Z) (h : llc_hdr) : Prop := ViewAt {
  va_bytes : bytes_ok m;
  va_len : is_u64 (zlen m);
  va_base : llc_base l = Some b;
  va_crc : llc_crc_size l = crc_len c;
  va_hdr : holds m l h;
  va_room : 0 <= room <= 1500;
  va_fit : b + hdr_len_of c + room <= zlen m }.

Lemma view_header m c l b room h : view_at m c l b room h -> get_header_size l = hdr_len_of c.
Proof. intros []. unfold get_header_size. rewrite va_crc0. by destruct c. Qed.

Lemma view_payload m c l b room h : view_at m c l b room h -> get_payload l = Ok (b + hdr_len_of c).
Proof. intros H. unfold get_payload. rewrite (view_header _ _ _ _ _ _ H). by destruct H as [_ _ -> _]. Qed.

Lemma view_at_pos m c l b room h : view_at m c l b room h -> 0 <= b.
Proof. intros []. destruct va_hdr0 as (b0 & ? & ? & _). congruence. Qed.

(** One header field changed. *)
Lemma view_update m c l b room h h' r :
  view_at m c l b room h -> updates m l h' r ->
  exists m', r = Ok m' /\ view_at m' c l b room h' /\ same_outside b (hdr_len_of c) m m' /\
    forall d, slice m (b + hdr_len_of c) (zlen d) = d -> slice m' (b + hdr_len_of c) (zlen d) = d.
Proof.
  intros Hv Hu. pose proof (view_at_pos _ _ _ _ _ _ Hv) as H0. pose proof (hdr_len_of_range c).
  destruct Hv as [Hm Hu64 Hb Hc Hh Hr Hf]. destruct (updates_splice m l h h' b r Hb Hh Hm Hu) as (-> & Hh' & Hm').
  assert (zlen (hdr_bytes h') = 3) as H3 by done.
  assert (same_outside b (hdr_len_of c) m (splice m b (hdr_bytes h'))) as HO by (apply same_outside_splice; lia).
  eexists. split; [done|]. pose proof HO as [Hz _].
  split; [constructor; try done; rewrite Hz; done|]. split; [done|]. intros d Hd. pose proof (zlen_nonneg d).
  by rewrite slice_splice_after by lia.
Qed.

(** [d] is in place behind the header, whose size field says so. *)
Record loaded (m : list Z) (c : bool) (l : llc_t) (b room : Z) (h : llc_hdr) (d m' : list Z) : Prop := Loaded {
  ld_view : view_at m' c l b room (h <| h_size := hdr_len_of c + zlen d |>);
  ld_outside : same_outside b (hdr_len_of c + room) m m';
  ld_fits : zlen d <= room;
  ld_data : slice m' (b + hdr_len_of c) (zlen d) = d }.

(** Something written behind the header, and the size set. *)
Lemma load_size m m1 c l b room h d :
  view_at m c l b room h -> bytes_ok m1 -> same_outside (b + hdr_len_of c) room m m1 -> zlen d <= room ->
  slice m1 (b + hdr_len_of c) (zlen d) = d ->
  exists m', set_payload_size m1 l (u16 (zlen d)) = Ok m' /\ loaded m c l b room h d m'.
Proof.
  intros Hv Hm1 HO Hd Hs. pose proof (view_at_pos _ _ _ _ _ _ Hv) as H0. pose proof (hdr_len_of_range c) as Hc.
  pose proof (zlen_nonneg d). pose proof (view_header _ _ _ _ _ _ Hv) as Hhs. destruct Hv as [Hm Hu64 Hb Hcr Hh Hr Hf].
  assert (view_at m1 c l b room h) as Hv1.
  { pose proof HO as [Hz _]. constructor; try done; try congruence; try lia.
    apply (holds_outside m m1 l h b _ _ Hh Hb HO). lia. }
  unfold set_payload_size. rewrite Hhs. set (n := u16 (u16 (zlen d) + hdr_len_of c)).
  assert (n = hdr_len_of c + zlen d) as Hn by (unfold n; ulia).
  destruct (view_update m1 c l b room h (h <| h_size := n mod 2048 |>) (set_SIZE m1 l n) Hv1)
    as (m' & E & Hv' & HO' & Hd'); [apply set_SIZE_updates; [unfold n; ulia|apply (va_hdr _ _ _ _ _ _ Hv1)]|].
  rewrite (Z.mod_small n 2048), Hn in Hv' by lia. exists m'. split; [done|]. constructor; try done.
  - eapply same_outside_trans; (eapply same_outside_sub; [| |eassumption]); lia.
  - by apply Hd'.
Qed.

(** The view offered to the PDCP. *)
Definition offered (info : tx_info_t) (b room : Z) : Prop :=
  out_pdu info = Pdu b room /\ 0 <= out_allocated info /\ is_u64 (out_allocated info + room).

Lemma view_offer m c l b room h info n :
  view_at m c l b room h -> offered info (b + hdr_len_of c) n -> 0 <= n <= room -> tx_view_ok m info.
Proof.
  intros Hv (Hp & Ha & Hu) Hn. pose proof (view_at_pos _ _ _ _ _ _ Hv). pose proof (hdr_len_of_range c).
  destruct Hv. unfold tx_view_ok, view_ok. rewrite Hp. cbn [pdu_base pdu_size]. split_and!; try done; lia.
Qed.

(** Nothing happened to the data: the PDCP was called without space. *)
Lemma loaded_idle m c l b room h d m1 m2 :
  loaded m c l b room h d m1 -> bytes_ok m2 -> same_outside (b + hdr_len_of c) 0 m1 m2 ->
  loaded m c l b room h d m2.
Proof.
  intros [Hv HO Hd Hs] Hm2 HO2. pose proof (view_at_pos _ _ _ _ _ _ Hv). pose proof (hdr_len_of_range c).
  pose proof (zlen_nonneg d). destruct Hv. pose proof HO2 as [Hz _]. constructor.
  - constructor; try done; try congruence; try lia.
    apply (holds_outside m1 m2 l _ b (b + hdr_len_of c) 0); try done. lia.
  - eapply same_outside_trans; [exact HO|]. eapply same_outside_sub; [| |exact HO2]; lia.
  - done.
  - rewrite (same_outside_slice _ _ _ _ _ _ HO2) by lia. done.
Qed.

Section load.
Context {P : Type} `{IpdcpLaws P}.

(** The PDCP, offered [room] bytes, has written [d]. *)
Definition fetched (room : Z) (p : P) (d : list Z) (p' : P) : Prop :=
  exists m info m' info', tx_view_ok m info /\ pdu_size (out_pdu info) = room /\
    pdcp_on_tx m info p = Ok (m', info', p') /\ out_allocated info' = out_allocated info + zlen d /\
    d = slice m' (pdu_base (out_pdu info)) (zlen d).

(** A call of the PDCP without space. *)
Lemma pdcp_no_space m info p :
  pdcp_ok p -> tx_view_ok m info -> pdu_size (out_pdu info) = 0 ->
  exists m' av p', pdcp_on_tx m info p = Ok (m', info <| out_allocated := out_allocated info + 0 |> <| out_tx_available := av |>, p') /\
    pdcp_ok p' /\ fetched 0 p [] p' /\ bytes_ok m' /\ same_outside (pdu_base (out_pdu info)) 0 m m'.
Proof.
  intros Hp Ht Hz. destruct (pdcp_on_tx_ok m info p Hp Ht) as (m' & k & av & p' & E & Hp' & Hm' & Hk & HO).
  rewrite Hz in Hk, HO. assert (k = 0) as -> by lia. exists m', av, p'. split; [done|]. split; [done|]. split; [|done].
  exists m, info, m', (info <| out_allocated := out_allocated info + 0 |> <| out_tx_available := av |>).
  split; [done|]. split; [done|]. split; [exact E|]. done.
Qed.

Lemma pdcp_idle m c l b room h info p :
  view_at m c l b room h -> offered info (b + hdr_len_of c) 0 -> pdcp_ok p ->
  exists m' av p', pdcp_on_tx m info p = Ok (m', info <| out_allocated := out_allocated info + 0 |> <| out_tx_available := av |>, p') /\
    pdcp_ok p' /\ fetched 0 p [] p' /\ bytes_ok m' /\ same_outside (b + hdr_len_of c) 0 m m'.
Proof.
  intros Hv Ho Hp. pose proof Ho as (Hpd & _).
  destruct (pdcp_no_space m info p Hp) as (m' & av & p' & ?); [|by rewrite Hpd|].
  - apply (view_offer m c l b room h info 0 Hv Ho). pose proof (va_room _ _ _ _ _ _ Hv). lia.
  - rewrite Hpd in *. by exists m', av, p'.
Qed.

Lemma load_pdcp_spec m c l b room h info p :
  view_at m c l b room h -> offered info (b + hdr_len_of c) room -> pdcp_ok p ->
  exists m1 k av p' m',
    let info1 := info <| out_allocated := out_allocated info + k |> <| out_tx_available := av |> in
    let d := slice m1 (b + hdr_len_of c) k in
    pdcp_on_tx m info p = Ok (m1, info1, p') /\ pdcp_ok p' /\
    load_pdcp m info l p = Ok (m', info1 <| out_has_data_loaded := true |>, p') /\
    loaded m c l b room h d m' /\ zlen d = k.
Proof.
  intros Hv Ho Hp. pose proof Hv as Hv0. pose proof (view_at_pos _ _ _ _ _ _ Hv). pose proof (hdr_len_of_range c).
  pose proof (va_room _ _ _ _ _ _ Hv) as Hrm.
  destruct (pdcp_on_tx_ok m info p Hp) as (m1 & k & av & p' & E & Hp' & Hm1 & Hk & HO).
  { apply (view_offer m c l b room h info room Hv Ho). lia. }
  destruct Ho as (Ho & Ha & Hu). rewrite Ho in Hk, HO. cbn [pdu_base pdu_size] in Hk, HO.
  set (d := slice m1 (b + hdr_len_of c) k).
  assert (zlen d = k) as Hd.
  { pose proof HO as [Hz _]. destruct Hv. unfold d. apply zlen_slice; lia. }
  destruct (load_size m m1 c l b room h d Hv Hm1 HO) as (m' & E' & Hl); [lia|by rewrite Hd|].
  exists m1, k, av, p', m'. split; [done|]. split; [done|]. split; [|done].
  unfold load_pdcp. rewrite E, bind_ret_l.
  change (out_allocated (upd out_tx_available _ _)) with (out_allocated info + k).
  replace (u64 (out_allocated info + k - out_allocated info)) with k by ulia.
  rewrite Hd in E'. by rewrite E', bind_ret_l.
Qed.

Lemma load_retx_spec m c l b room h info r rest s p :
  view_at m c l b room h -> offered info (b + hdr_len_of c) room -> pdcp_ok p ->
  retx_ok r -> rt_pdcp_pdu_size r <= room ->
  exists m' info' p',
    let d := slice (rt_pdcp_pdu r) 0 (rt_pdcp_pdu_size r) in
    load_retx m info l r rest s p =
      Ok (m', info', (free_tx_buffer (rt_pdcp_pdu r) s) <| to_retx_list := rest |>, p') /\ pdcp_ok p' /\
    fetched 0 p [] p' /\ loaded m c l b room h d m' /\ zlen d = rt_pdcp_pdu_size r /\
    out_allocated info' = out_allocated info + zlen d /\ in_slot_number info' = in_slot_number info /\
    out_has_data_loaded info' = true.
Proof.
  intros Hv Ho Hp [[Hb Hbb] Hs _] Hfit. pose proof (view_at_pos _ _ _ _ _ _ Hv). pose proof (hdr_len_of_range c).
  unfold load_retx. rewrite (view_payload _ _ _ _ _ _ Hv), bind_ret_l, rd_n_in, bind_ret_l by lia.
  set (d := slice _ 0 _). assert (zlen d = rt_pdcp_pdu_size r) as Hd by (apply zlen_slice; lia).
  pose proof (va_fit _ _ _ _ _ _ Hv). pose proof (va_room _ _ _ _ _ _ Hv).
  rewrite wr_n_in, bind_ret_l by lia. rewrite <- Hd.
  destruct (load_size m (splice m (b + hdr_len_of c) d) c l b room h d Hv) as (m2 & -> & Hl).
  { apply bytes_ok_splice; [apply Hv|]. by apply bytes_ok_slice. }
  { apply same_outside_splice; lia. }
  { lia. }
  { apply slice_splice_same; lia. }
  rewrite bind_ret_l. destruct Ho as (Ho & Ha & Hu).
  rewrite u64_id by ulia.
  set (info1 := set_out_size 0 _).
  assert (out_pdu info1 = Pdu (b + hdr_len_of c) 0) as Ho1 by (unfold info1, set_out_size, upd; cbn; by rewrite Ho).
  assert (out_allocated info1 = out_allocated info + zlen d) as Ha1 by done.
  destruct (pdcp_idle m2 c l b room _ info1 p (ld_view _ _ _ _ _ _ _ _ Hl)) as (m3 & av & p' & E & Hp' & Hf & Hm3 & HO);
    [unfold offered; rewrite Ha1; split_and!; [done|lia|ulia]|done|].
  rewrite E, bind_ret_l. eexists m3, _, p'. split; [done|]. split; [done|]. split; [done|].
  split; [by apply (loaded_idle _ _ _ _ _ _ _ m2)|]. split; [done|]. split; [|done].
  change (out_allocated (upd out_has_data_loaded _ _)) with (out_allocated info1 + 0). lia.
Qed.
End load.

(** ** Keeping the PDU *)

(** The element of the slot with the PDU [d], and the state with the PDU kept
    in [slot] under the sequence number [sn], to be checked [arq_window_size]
    slots later. [retx] is the number of a PDU that is sent again. *)
Definition kept_elem (id count : Z) (d : list Z) (e : tx_ring_elem_t) : tx_ring_elem_t :=
  TxRingElem (sent_index e) id count (zlen d) (d ++ drop (length d) (te_pdcp_pdu e)) false.

Definition window (s : llc) : Z := it_arq_window_size (ll_tx_config s).
Definition check_idx (slot : Z) (s : llc) : nat := slot_idx (slot + window s).

Definition kept_ring (i j : nat) (id count : Z) (d : list Z) (ring : list tx_ring_elem_t) : list tx_ring_elem_t :=
  alter (fun e => e <| sent_index := Z.of_nat i |>) j (alter (kept_elem id count d) i ring).

Definition kept (slot sn : Z) (d : list Z) (retx : option Z) (count : Z) (s : llc) : llc :=
  if am_mode s then
    (match retx with Some _ => s | None => s <| ll_tx_id := u64 (ll_tx_id s + 1) |> end)
      <| tx_ring := kept_ring (slot_idx slot) (check_idx slot s) (default (ll_tx_id s) retx) count d (tx_ring s) |>
      <| sn_ring := alter (fun e => e <| ring_idx := Z.of_nat (check_idx slot s) |>)
                      (Z.to_nat (sn mod window s)) (sn_ring s) |>
  else s <| tx_ring := alter (fun e => e <| te_pdcp_pdu_size := zlen d |>) (slot_idx slot) (tx_ring s) |>.

Lemma alter_at {A} (f : A -> A) (l : list A) i e : l !! i = Some e -> alter f i l = <[i := f e]> l.
Proof. intros H. rewrite <- (list_insert_id l i e) at 1 by done. apply list_alter_insert. Qed.

Lemma splice_front {A} (l d : list A) : splice l 0 d = d ++ drop (length d) l.
Proof. unfold splice. reflexivity. Qed.

Lemma kept_elem_ok am id count d e :
  elem_ok am e -> is_u64 count -> bytes_ok d -> slot_buffer (te_pdcp_pdu e) -> 0 < zlen d <= 1500 ->
  elem_ok am (kept_elem id count d e).
Proof.
  intros [] Hc Hd [Hb Hbb] Hl. pose proof (zlen_nonneg d).
  constructor; cbn; try done; try lia. left. rewrite <- splice_front. split.
  - rewrite zlen_splice; lia.
  - by apply bytes_ok_splice.
Qed.

Lemma kept_inv slot sn d retx count s :
  llc_inv s -> bytes_ok d -> 0 < zlen d <= 1500 -> is_u64 count -> llc_inv (kept slot sn d retx count s).
Proof.
  intros Hi Hd Hl Hc. pose proof (zlen_nonneg d). unfold kept. destruct (am_mode s) eqn:Em.
  - set (s' := match retx with Some _ => s | None => _ end).
    assert (llc_inv s') as Hi' by (unfold s'; destruct retx; [done|]; destruct Hi; by constructor).
    assert (tx_ring s' = tx_ring s) as Hring by (unfold s'; by destruct retx).
    assert (sn_ring s' = sn_ring s) as Hsnr by (unfold s'; by destruct retx).
    assert (am_mode s' = true) as Em' by (unfold s'; by destruct retx).
    destruct Hi'. constructor; cbn; try done.
    + rewrite <- Hring. unfold kept_ring, zlen. by rewrite !length_alter.
    + change (am_mode (upd sn_ring _ _)) with (am_mode s'). rewrite Em', <- Hring. rewrite Em' in vi_elem0.
      unfold kept_ring. apply Forall_alter; [apply Forall_alter; [done|]|].
      * intros e _ He. pose proof (eo_pdu _ _ He) as [Hb|[? _]]; [|done]. by apply kept_elem_ok.
      * intros e _ []. constructor; cbn; try done. right. pose proof (slot_idx_lt slot). lia.
    + intros _. rewrite <- Hsnr. unfold zlen. rewrite length_alter. by apply vi_window0.
  - destruct Hi. constructor; cbn; try done.
    + unfold zlen. by rewrite length_alter.
    + apply Forall_alter; [done|]. intros e _ []. constructor; cbn; try done; lia.
Qed.

Lemma payload_size_loaded m c l b room h d m' :
  loaded m c l b room h d m' -> get_payload_size m' l = Ok (zlen d).
Proof.
  intros [Hv _ Hd _]. pose proof (hdr_len_of_range c). pose proof (zlen_nonneg d). unfold get_payload_size.
  destruct (holds_get _ _ _ (va_hdr _ _ _ _ _ _ Hv)) as (_ & _ & _ & ->). rewrite bind_ret_l.
  rewrite (view_header _ _ _ _ _ _ Hv). pose proof (va_room _ _ _ _ _ _ Hv).
  change (h_size (upd h_size _ h)) with (hdr_len_of c + zlen d).
  replace (hdr_len_of c + zlen d - hdr_len_of c) with (zlen d) by lia. by rewrite u16_id by ulia.
Qed.

(** The data is written into the buffer of its slot. *)
Lemma keep_write e1 id count d i j (ring : list tx_ring_elem_t) :
  ring !! i = Some e1 -> slot_buffer (te_pdcp_pdu e1) -> zlen d <= 1500 ->
  let e2 := e1 <| te_llc_tx_id := id |> <| te_retry_count := count |> <| te_acknowledged := false |> in
  let ring2 := alter (fun e => e <| sent_index := Z.of_nat i |>) j (<[i := e2]> ring) in
  exists e3, ring2 !! i = Some e3 /\ wr_n (te_pdcp_pdu e3) 0 d = Ok (splice (te_pdcp_pdu e3) 0 d) /\
    <[i := e3 <| te_pdcp_pdu := splice (te_pdcp_pdu e3) 0 d |> <| te_pdcp_pdu_size := zlen d |>]> ring2 =
    kept_ring i j id count d ring.
Proof.
  intros He [Hb _] Hl e2 ring2. unfold kept_ring. rewrite (alter_at (kept_elem id count d) ring i e1 He).
  pose proof (lookup_lt_Some _ _ _ He) as Hlt. unfold ring2.
  destruct (decide (i = j)) as [<-|Hne].
  - rewrite !list_alter_insert, list_lookup_insert_eq by done. eexists. split; [done|]. split.
    + apply wr_n_in; [lia|]. cbn. lia.
    + by rewrite list_insert_insert_eq.
  - rewrite list_lookup_alter_ne, list_lookup_insert_eq by done. exists e2. split; [done|]. split.
    + apply wr_n_in; [lia|]. cbn. lia.
    + set (f := fun e => e <| sent_index := Z.of_nat i |>). apply list_eq. intros k.
      destruct (decide (k = i)) as [->|Hk].
      * rewrite list_lookup_insert_eq by by rewrite length_alter, length_insert.
        by rewrite list_lookup_alter_ne, list_lookup_insert_eq by done.
      * rewrite list_lookup_insert_ne by done. destruct (decide (k = j)) as [->|].
        -- by rewrite !list_lookup_alter_eq, !list_lookup_insert_ne by done.
        -- by rewrite !list_lookup_alter_ne, !list_lookup_insert_ne by done.
Qed.

Lemma sn_index_at s sn :
  llc_inv s -> am_mode s = true -> is_u8 sn ->
  sn_ring_index sn s = Ok (Z.to_nat (sn mod window s)) /\
  exists x, sn_ring s !! Z.to_nat (sn mod window s) = Some x.
Proof.
  intros Hi Em Hs. pose proof (vi_window _ Hi Em) as Hw. fold (window s) in Hw. unfold sn_ring_index. fold (window s).
  rewrite (proj2 (Z.eqb_neq (window s) 0)) by lia. pose proof (Z.mod_le sn (window s) ltac:(ulia) ltac:(lia)) as Hle.
  pose proof (Z.mod_pos_bound sn (window s) ltac:(lia)) as Hb. split.
  - rewrite u8_id by ulia. done.
  - apply lookup_lt_is_Some_2. clear Hle. unfold zlen in Hw. revert Hb Hw. generalize (sn mod window s). intros; lia.
Qed.

Lemma keep_pdu_spec m' slot m c l b room h d retx count s :
  llc_inv s -> loaded m c l b room h d m' ->
  keep_pdu m' slot l retx count s = Ok (kept slot (h_sn h) d retx count s).
Proof.
  intros Hi Hl. pose proof (ld_view _ _ _ _ _ _ _ _ Hl) as Hv. pose proof (va_room _ _ _ _ _ _ Hv).
  pose proof (ld_fits _ _ _ _ _ _ _ _ Hl). unfold keep_pdu, kept. fold (window s).
  rewrite !(tx_ring_index_slot _ s Hi), slot_idx_u64. fold (check_idx slot s).
  destruct (ring_at s (check_idx slot s) Hi (slot_idx_lt _)) as (e0 & _ & -> & _). rewrite bind_ret_l.
  destruct (ring_at s (slot_idx slot) Hi (slot_idx_lt _)) as (e1 & He1 & -> & Hok). rewrite bind_ret_l.
  rewrite (payload_size_loaded _ _ _ _ _ _ _ _ Hl), bind_ret_l.
  destruct (am_mode s) eqn:Em; [|by rewrite (alter_at _ _ _ _ He1)].
  assert (slot_buffer (te_pdcp_pdu e1)) as Hb1 by (destruct (eo_pdu _ _ Hok) as [?|[? _]]; done).
  set (s' := match retx with Some _ => s | None => _ end).
  assert ((match retx with Some id => (id, s) | None => (ll_tx_id s, s <| ll_tx_id := u64 (ll_tx_id s + 1) |>) end)
    = (default (ll_tx_id s) retx, s')) as -> by by destruct retx.
  assert (tx_ring s' = tx_ring s) as Hr by (unfold s'; by destruct retx).
  assert (sn_ring s' = sn_ring s) as Hsr by (unfold s'; by destruct retx). rewrite Hr.
  set (id := default _ _).
  destruct (keep_write e1 id count d (slot_idx slot) (check_idx slot s) (tx_ring s) He1 Hb1 ltac:(lia)) as (e3 & He3 & Ew & Ering).
  rewrite (vec_at_Some _ _ _ He3), bind_ret_l, (view_payload _ _ _ _ _ _ Hv), bind_ret_l.
  pose proof (view_at_pos _ _ _ _ _ _ Hv). pose proof (hdr_len_of_range c). pose proof (zlen_nonneg d).
  rewrite rd_n_in, bind_ret_l by (pose proof (va_fit _ _ _ _ _ _ Hv); lia).
  rewrite (ld_data _ _ _ _ _ _ _ _ Hl), Ew, bind_ret_l, Ering.
  destruct (holds_get _ _ _ (va_hdr _ _ _ _ _ _ Hv)) as (-> & _). rewrite bind_ret_l.
  change (h_sn (upd h_size _ h)) with (h_sn h).
  assert (is_u8 (h_sn h)) as Hsn by (destruct (va_hdr _ _ _ _ _ _ Hv) as (? & _ & _ & _ & (Hu & _) & _); done).
  destruct (sn_index_at s (h_sn h) Hi Em Hsn) as (Ek & x & Hx). set (s2 := s' <| tx_ring := _ |>).
  assert (sn_ring_index (h_sn h) s2 = sn_ring_index (h_sn h) s) as -> by (unfold s2, s'; by destruct retx).
  rewrite Ek, bind_ret_l. assert (sn_ring s2 = sn_ring s) as -> by done.
  by rewrite (vec_at_Some _ _ _ Hx), bind_ret_l, (alter_at _ _ _ _ Hx).
Qed.

(** *** Sequence number and CRC *)

Lemma seal_view m c l b room h d :
  view_at m c l b room h -> h_size h = hdr_len_of c + zlen d -> zlen d <= room ->
  slice m (b + hdr_len_of c) (zlen d) = d ->
  exists m', (if c then put_crc m l else mret m) = Ok m' /\ view_at m' c l b room h /\
    same_outside b (hdr_len_of c) m m' /\ slice m' (b + hdr_len_of c) (zlen d) = d /\
    slice m' b (hdr_len_of c + zlen d) = llc_pdu c (h_sn h) (h_lcid h) (h_a h) d.
Proof.
  intros Hv Hsz Hd Hs. pose proof (view_at_pos _ _ _ _ _ _ Hv). pose proof (hdr_len_of_range c).
  pose proof (zlen_nonneg d). pose proof Hv as [Hm Hu Hb Hc Hh Hr Hf].
  destruct (seal_pdu m l h b c (zlen d)) as (m' & E & Hm' & Hh' & HO & Hs'); try done;
    [unfold hdr_len_of in *; lia..|].
  fold (hdr_len_of c) in HO. pose proof HO as [Hz _]. exists m'. split; [done|].
  split; [constructor; try done; congruence|]. split; [done|].
  split; [by rewrite (same_outside_slice _ _ _ _ _ _ HO) by lia|].
  replace (b + 3 + crc_len c) with (b + hdr_len_of c) in Hs' by (unfold hdr_len_of; lia). by rewrite Hsz, Hs in Hs'.
Qed.

Lemma seal_loaded m c l b room h d m2 sn :
  loaded m c l b room h d m2 -> is_u8 sn ->
  exists m3, (m ← set_SN m2 l sn; if c then put_crc m l else mret m) = Ok m3 /\
    loaded m c l b room (h <| h_sn := sn |>) d m3 /\
    slice m3 b (hdr_len_of c + zlen d) = llc_pdu c sn (h_lcid h) (h_a h) d.
Proof.
  intros [Hv HO Hd Hs] Hsn. pose proof (hdr_len_of_range c) as Hc. pose proof (va_room _ _ _ _ _ _ Hv).
  destruct (view_update m2 c l b room _ _ _ Hv (set_SN_updates m2 l _ sn (va_hdr _ _ _ _ _ _ Hv))) as (m3 & -> & Hv3 & HO3 & Hd3).
  rewrite bind_ret_l, u8_id in * by done.
  destruct (seal_view m3 c l b room _ d Hv3 eq_refl Hd (Hd3 d Hs)) as (m4 & E & Hv4 & HO4 & Hs4 & Hp4).
  exists m4. split; [done|]. split; [|done]. constructor; try done.
  eapply same_outside_trans; [exact HO|].
  eapply same_outside_trans; eapply same_outside_sub; [| |exact HO3| | |exact HO4]; lia.
Qed.

(** ** The abstract machine

    What a call does to the state of the LLC and of the PDCP, and the payload
    of the data PDU it sends. *)

Inductive sent := SNothing | SData (d : list Z) | SFailed.

Definition retx_data (r : retx_elem_t) : list Z := slice (rt_pdcp_pdu r) 0 (rt_pdcp_pdu_size r).

(** The queue without its front, the buffer of which is free again. *)
Definition retx_done (r : retx_elem_t) (rest : list retx_elem_t) (s : llc) : llc :=
  (free_tx_buffer (rt_pdcp_pdu r) s) <| to_retx_list := rest |>.

Section machine.
Context {P : Type} `{IpdcpLaws P}.

Inductive data_step (slot room : Z) (s : llc) (p : P) : sent -> llc -> P -> Prop :=
  (** nothing to send, or no room for what is to be sent again *)
  | DsIdle n p' : n = 0 \/ n = room /\ to_retx_list s = [] -> fetched n p [] p' ->
      data_step slot room s p SNothing s p'
  | DsNew d p' : to_retx_list s = [] -> fetched room p d p' -> 0 < zlen d <= room ->
      data_step slot room s p (SData d) (kept slot (sn_counter s) d None 0 (increment_sn s)) p'
  | DsAgain r rest p' : to_retx_list s = r :: rest -> rt_pdcp_pdu_size r <= room ->
      u64 (rt_retry_count r + 1) <= it_max_retx_count (ll_tx_config s) -> fetched 0 p [] p' ->
      data_step slot room s p (SData (retx_data r))
        (kept slot (sn_counter s) (retx_data r) (Some (rt_llc_tx_id r)) (u64 (rt_retry_count r + 1))
           (increment_sn (retx_done r rest s))) p'
  (** retries used up: the PDU is dropped and a new one takes its place *)
  | DsDrop r rest p' : to_retx_list s = r :: rest ->
      it_max_retx_count (ll_tx_config s) < u64 (rt_retry_count r + 1) ->
      it_allow_rlf (ll_tx_config s) = false -> fetched room p [] p' ->
      data_step slot room s p SNothing (s <| to_retx_list := rest |>) p'
  | DsDropNew r rest d p' : to_retx_list s = r :: rest ->
      it_max_retx_count (ll_tx_config s) < u64 (rt_retry_count r + 1) ->
      it_allow_rlf (ll_tx_config s) = false -> fetched room p d p' -> 0 < zlen d <= room ->
      data_step slot room s p (SData d)
        (kept slot (sn_counter s) d (Some (rt_llc_tx_id r)) (u64 (rt_retry_count r + 1))
           (increment_sn (s <| to_retx_list := rest |>))) p'
  | DsFailed r rest : to_retx_list s = r :: rest ->
      it_max_retx_count (ll_tx_config s) < u64 (rt_retry_count r + 1) ->
      it_allow_rlf (ll_tx_config s) = true ->
      data_step slot room s p SFailed
        ((s <| to_retx_list := rest |>) <| ll_rrc := ll_rrc s ++ [OnRlf (ll_lcid s)] |>) p.
End machine.

Lemma increment_sn_counter s : is_u8 (sn_counter s) -> sn_counter (increment_sn s) = u8 (sn_counter s + 1).
Proof.
  intros Hs. change (Z.land (sn_counter s + 1) 255 = u8 (sn_counter s + 1)).
  apply (Z.land_ones (sn_counter s + 1) 8). lia.
Qed.

Lemma increment_inv s : llc_inv s -> llc_inv (increment_sn s).
Proof.
  intros Hi. pose proof (increment_sn_counter s (vi_sn _ Hi)) as E. destruct Hi. constructor; try done.
  rewrite E. apply u8_range.
Qed.

Lemma retx_done_inv r rest s : llc_inv s -> to_retx_list s = r :: rest -> llc_inv (retx_done r rest s).
Proof.
  intros [] E. rewrite E in *. inversion vi_retx0; subst. constructor; try done; cbn.
  constructor; [|done]. by destruct H1.
Qed.
Lemma retx_drop_inv r rest s : llc_inv s -> to_retx_list s = r :: rest -> llc_inv (s <| to_retx_list := rest |>).
Proof. intros [] E. rewrite E in *. inversion vi_retx0; subst. by constructor. Qed.

(** ** The data PDU *)

(** What the call did to the memory and reported, besides its step. *)
Definition data_written (c : bool) (sn lcid b : Z) (info : tx_info_t) (m' : list Z) (info' : tx_info_t) (o : sent) : Prop :=
  match o with
  | SNothing => out_allocated info' = out_allocated info
  | SData d => out_allocated info' = out_allocated info + pdu_len c d /\ out_has_data_loaded info' = true /\
      slice m' b (pdu_len c d) = llc_pdu c sn lcid false d
  | SFailed => out_allocated info' = 0
  end.

Lemma decide_bool {A} (Q : Prop) `{Decision Q} (x y : A) : (if decide Q then x else y) = if bool_decide Q then x else y.
Proof. case_bool_decide; by destruct (decide Q). Qed.

Lemma bind_ext {A B} (r : res A) (f g : A -> res B) : (forall a, f a = g a) -> (r ≫= f) = (r ≫= g).
Proof. intros E. destruct r; cbn; [apply E|done..]. Qed.

Section data.
Context {P : Type} `{IpdcpLaws P}.

Lemma loaded_hdr m c l b room h d m1 : loaded m c l b room h d m1 -> is_u8 (h_sn h).
Proof. intros [Hv _ _ _]. by destruct (va_hdr _ _ _ _ _ _ Hv) as (? & _ & _ & _ & (? & _) & _). Qed.

(** With nothing loaded the call ends; otherwise the PDU is completed and kept. *)
Lemma finish_pdu_spec m c l b room h d m1 info info1 retx count s (p : P) :
  llc_inv s -> crc_on s = c -> loaded m c l b room h d m1 -> h_lcid h = ll_lcid s -> h_a h = false ->
  in_slot_number info1 = in_slot_number info -> out_has_data_loaded info1 = true ->
  0 <= out_allocated info -> is_u64 (out_allocated info + hdr_len_of c + room) ->
  out_allocated info1 = out_allocated info + zlen d ->
  exists m2 info2, 
    finish_pdu m1 info1 l (out_allocated info) retx count s p =
      Ok (m2, info2, if zlen d =? 0 then s else kept (in_slot_number info) (sn_counter s) d retx count (increment_sn s), p) /\
    bytes_ok m2 /\ same_outside b (hdr_len_of c + room) m m2 /\
    data_written c (sn_counter s) (ll_lcid s) b info m2 info2 (if zlen d =? 0 then SNothing else SData d).
Proof.
  intros Hi Hc Hl Hlc Ha Hslot Hld Ha0 Hu Hal. pose proof (zlen_nonneg d). pose proof (hdr_len_of_range c).
  pose proof (ld_fits _ _ _ _ _ _ _ _ Hl) as Hfit. pose proof (ld_view _ _ _ _ _ _ _ _ Hl) as Hv.
  unfold finish_pdu. rewrite Hal. destruct (Z.eqb_spec (zlen d) 0) as [Hd|Hd].
  { rewrite (proj2 (Z.eqb_eq _ _)) by lia. exists m1, info1. split; [done|]. split; [apply Hv|].
    split; [apply Hl|]. cbn. lia. }
  rewrite (proj2 (Z.eqb_neq _ _)) by lia. rewrite (view_header _ _ _ _ _ _ Hv).
  destruct (seal_loaded m c l b room h d m1 (sn_counter s) Hl (vi_sn _ Hi)) as (m2 & E & Hl2 & Hs2).
  rewrite <- bind_assoc. rewrite (bind_ext _ _ (fun m => if c then put_crc m l else mret m))
    by (intros; rewrite decide_bool; by rewrite <- Hc). rewrite E, bind_ret_l.
  change (in_slot_number (upd out_allocated _ info1)) with (in_slot_number info1). rewrite Hslot.
  rewrite (keep_pdu_spec m2 _ m c l b room _ d retx count (increment_sn s) (increment_inv s Hi) Hl2), bind_ret_l.
  eexists m2, _. split; [done|]. pose proof (ld_view _ _ _ _ _ _ _ _ Hl2) as Hv2.
  split; [apply Hv2|]. split; [apply Hl2|].
  cbn [data_written]. unfold pdu_len. fold (hdr_len_of c). rewrite <- Hlc. rewrite Ha in Hs2.
  split; [|split; [exact Hld|exact Hs2]].
  change (out_allocated (upd out_allocated _ _)) with (u64 (out_allocated info + zlen d + hdr_len_of c)).
  rewrite u64_id by ulia. lia.
Qed.

(** The result of a branch that loads [d] and finishes the PDU. *)
Definition data_done (c : bool) (slot b room : Z) (m : list Z) (info : tx_info_t) (s : llc) (p : P)
    (r : res (list Z * tx_info_t * llc * P)) : Prop :=
  exists o s' p' m' info', r = Ok (m', info', s', p') /\ data_step slot room s p o s' p' /\
    llc_inv s' /\ pdcp_ok p' /\ bytes_ok m' /\ same_outside b (hdr_len_of c + room) m m' /\
    data_written c (sn_counter s) (ll_lcid s) b info m' info' o.

Lemma load_new_spec m c l b room h info s0 s retx count p slot :
  llc_inv s -> crc_on s = c -> view_at m c l b room h -> h_lcid h = ll_lcid s -> h_a h = false ->
  offered info (b + hdr_len_of c) room -> is_u64 (out_allocated info + hdr_len_of c + room) -> is_u64 count ->
  pdcp_ok p -> in_slot_number info = slot ->
  sn_counter s0 = sn_counter s -> ll_lcid s0 = ll_lcid s ->
  (forall p', fetched room p [] p' -> data_step slot room s0 p SNothing s p') ->
  (forall d p', fetched room p d p' -> 0 < zlen d <= room ->
     data_step slot room s0 p (SData d) (kept slot (sn_counter s) d retx count (increment_sn s)) p') ->
  data_done c slot b room m info s0 p
    ('(m, info1, p) ← load_pdcp m info l p; finish_pdu m info1 l (out_allocated info) retx count s p).
Proof.
  intros Hi Hc Hv Hlc Ha Ho Hu Hcount Hp <- Es El Hidle Hnew.
  destruct (load_pdcp_spec m c l b room h info p Hv Ho Hp) as (m1 & k & av & p1 & m2 & E & Hp1 & E2 & Hl & Hk).
  set (d := slice m1 _ _) in *. rewrite E2, bind_ret_l. pose proof (ld_fits _ _ _ _ _ _ _ _ Hl) as Hfit.
  set (info1 := (info <| out_allocated := _ |>) <| out_tx_available := av |> <| out_has_data_loaded := true |>).
  destruct (finish_pdu_spec m c l b room h d m2 info info1 retx count s p1 Hi Hc Hl Hlc Ha)
    as (m3 & info2 & -> & Hm3 & HO & Hw); try done; [apply Ho|unfold info1, upd; cbn; lia|].
  assert (fetched room p d p1) as Hf.
  { exists m, info, m1, (info <| out_allocated := out_allocated info + k |> <| out_tx_available := av |>).
    pose proof Ho as (Hpd & _). pose proof (va_room _ _ _ _ _ _ Hv). rewrite Hpd.
    split; [apply (view_offer m c l b room h info room Hv Ho); lia|]. split; [done|]. split; [exact E|].
    rewrite Hk. done. }
  pose proof (zlen_nonneg d). pose proof (va_room _ _ _ _ _ _ Hv).
  assert (bytes_ok d) as Hdb by (rewrite <- (ld_data _ _ _ _ _ _ _ _ Hl); apply bytes_ok_slice, (ld_view _ _ _ _ _ _ _ _ Hl)).
  destruct (Z.eqb_spec (zlen d) 0) as [Hd|Hd].
  - exists SNothing, s, p1, m3, info2. rewrite Es, El. split; [done|]. split; [|done].
    apply Hidle. by destruct d.
  - exists (SData d), (kept (in_slot_number info) (sn_counter s) d retx count (increment_sn s)), p1, m3, info2.
    rewrite Es, El. split; [done|]. split; [apply Hnew; [done|lia]|]. split; [|done].
    apply kept_inv; try done; [by apply increment_inv|lia].
Qed.

Lemma load_again_spec m c l b room h info s r rest p slot :
  llc_inv s -> crc_on s = c -> view_at m c l b room h -> h_lcid h = ll_lcid s -> h_a h = false ->
  offered info (b + hdr_len_of c) room -> is_u64 (out_allocated info + hdr_len_of c + room) ->
  pdcp_ok p -> in_slot_number info = slot -> to_retx_list s = r :: rest -> rt_pdcp_pdu_size r <= room ->
  u64 (rt_retry_count r + 1) <= it_max_retx_count (ll_tx_config s) ->
  data_done c slot b room m info s p
    ('(m, info1, s, p) ← load_retx m info l r rest s p;
     finish_pdu m info1 l (out_allocated info) (Some (rt_llc_tx_id r)) (u64 (rt_retry_count r + 1)) s p).
Proof.
  intros Hi Hc Hv Hlc Ha Ho Hu Hp <- Er Hfit Hmax. pose proof (vi_retx _ Hi) as Hr. rewrite Er in Hr.
  inversion Hr as [|? ? Hr0 _]; subst. pose proof (ro_size _ Hr0) as Hsz.
  destruct (load_retx_spec m _ l b room h info r rest s p Hv Ho Hp Hr0 Hfit)
    as (m1 & info1 & p1 & E & Hp1 & Hf & Hl & Hk & Hal & Hslot & Hld).
  fold (retx_data r) in *. rewrite E, bind_ret_l. fold (retx_done r rest s). set (s1 := retx_done r rest s).
  assert (llc_inv s1) as Hi1 by by apply retx_done_inv.
  destruct (finish_pdu_spec m (crc_on s) l b room h (retx_data r) m1 info info1 (Some (rt_llc_tx_id r))
    (u64 (rt_retry_count r + 1)) s1 p1 Hi1) as (m3 & info2 & -> & Hm3 & HO & Hw); try done; [apply Ho|].
  destruct (Z.eqb_spec (zlen (retx_data r)) 0) as [|_]; [lia|].
  exists (SData (retx_data r)), (kept (in_slot_number info) (sn_counter s) (retx_data r) (Some (rt_llc_tx_id r))
    (u64 (rt_retry_count r + 1)) (increment_sn s1)), p1, m3, info2. split; [done|]. split.
  - by apply (DsAgain (in_slot_number info) room s p r rest p1).
  - split; [|done]. apply kept_inv; [by apply increment_inv| |lia|apply u64_range].
    rewrite <- (ld_data _ _ _ _ _ _ _ _ Hl). apply bytes_ok_slice, (ld_view _ _ _ _ _ _ _ _ Hl).
Qed.

Lemma write_data_pdu_spec m c l b room h info s p :
  llc_inv s -> crc_on s = c -> view_at m c l b room h -> pdu_size (out_pdu info) = hdr_len_of c + room ->
  0 <= out_allocated info -> is_u64 (out_allocated info + hdr_len_of c + room) -> pdcp_ok p ->
  data_done c (in_slot_number info) b room m info s p (write_data_pdu m info l s p).
Proof.
  intros Hi Hc Hv Hn Ha Hu Hp. pose proof (hdr_len_of_range c). pose proof (va_room _ _ _ _ _ _ Hv).
  pose proof (vi_lcid _ Hi) as Hlc. unfold write_data_pdu.
  destruct (view_update _ _ _ _ _ _ _ _ Hv (set_LCID_updates m l h (ll_lcid s) (va_hdr _ _ _ _ _ _ Hv))) as (m1 & -> & Hv1 & HO1 & _).
  rewrite bind_ret_l.
  destruct (view_update _ _ _ _ _ _ _ _ Hv1 (set_A_updates m1 l _ false (va_hdr _ _ _ _ _ _ Hv1))) as (m2 & -> & Hv2 & HO2 & _).
  rewrite bind_ret_l, (view_payload _ _ _ _ _ _ Hv2), bind_ret_l, (view_header _ _ _ _ _ _ Hv).
  rewrite Z.mod_small in Hv2 by lia. set (h2 := (h <| h_lcid := ll_lcid s |>) <| h_a := false |>) in *.
  set (info2 := set_out_size _ _).
  assert (out_pdu info2 = Pdu (b + hdr_len_of c) room) as Hpd.
  { unfold info2, set_out_size, set_out_base, upd. cbn. rewrite Hn. f_equal. ulia. }
  assert (offered info2 (b + hdr_len_of c) room) as Ho.
  { split; [done|]. change (out_allocated info2) with (out_allocated info). split; [done|ulia]. }
  assert (same_outside b (hdr_len_of c + room) m m2) as HO.
  { eapply same_outside_trans; (eapply same_outside_sub; [| |eassumption]); lia. }
  assert (forall r, data_done c (in_slot_number info) b room m2 info2 s p r ->
    data_done c (in_slot_number info) b room m info s p r) as Hback.
  { intros r (o & s' & p' & m' & info' & E & Hst & ? & ? & ? & HO' & Hw).
    exists o, s', p', m', info'. do 5 (split; [done|]). split; [by eapply same_outside_trans|]. done. }
  apply Hback. destruct (to_retx_list s) as [|r rest] eqn:Er.
  { apply (load_new_spec m2 c l b room h2); try done.
    - intros p' Hf. apply (DsIdle _ _ _ _ room); [by right|done].
    - intros d p' Hf Hd. by apply DsNew. }
  rewrite Hpd. cbn [pdu_size]. destruct (Z.ltb_spec room (rt_pdcp_pdu_size r)).
  { set (info3 := set_out_size 0 info2).
    destruct (pdcp_idle m2 c l b room h2 info3 p Hv2) as (m3 & av & p' & E & Hp' & Hf & Hm3 & HO3); [|done|].
    { split; [change (out_pdu info3) with (Pdu (pdu_base (out_pdu info2)) 0); by rewrite Hpd|].
      change (out_allocated info3) with (out_allocated info). split; [done|ulia]. }
    rewrite E, bind_ret_l. exists SNothing, s, p', m3. eexists. split; [done|].
    split; [apply (DsIdle _ _ _ _ 0); [by left|done]|]. do 3 (split; [done|]).
    split; [eapply same_outside_sub; [| |exact HO3]; lia|].
    cbn. lia. }
  destruct (Z.ltb_spec (it_max_retx_count (ll_tx_config s)) (u64 (rt_retry_count r + 1))) as [Hmax|Hmax].
  2:{ by apply (load_again_spec m2 c l b room h2). }
  assert (llc_inv (s <| to_retx_list := rest |>)) as Hi' by by eapply retx_drop_inv.
  destruct (it_allow_rlf (ll_tx_config (s <| to_retx_list := rest |>))) eqn:Erlf.
  { eexists SFailed, _, p, m2, _. split; [done|]. split; [by apply (DsFailed _ _ s p r rest)|].
    split; [by destruct Hi'|]. split; [done|]. split; [apply Hv2|]. split; done. }
  apply (load_new_spec m2 c l b room h2 info2 s (s <| to_retx_list := rest |>)); try done; [apply u64_range| |].
  - intros p' Hf. by apply (DsDrop _ _ s p r rest).
  - intros d p' Hf Hd. by apply (DsDropNew _ _ s p r rest).
Qed.
End data.

(** ** The PDU of acknowledgements *)

Definition ack_bytes (acks : list (Z * Z)) : list Z := concat (map (fun a => [u8 a.1; u8 a.2]) acks).
(** Those that fit into [n] bytes, and the others. *)
Definition acks_sent (n : Z) (acks : list (Z * Z)) : list (Z * Z) := take (Z.to_nat (n / 2)) acks.
Definition acks_left (n : Z) (acks : list (Z * Z)) : list (Z * Z) := drop (Z.to_nat (n / 2)) acks.

Lemma zlen_ack_bytes acks : zlen (ack_bytes acks) = 2 * zlen acks.
Proof.
  unfold ack_bytes. induction acks as [|a acks IH]; [done|]. cbn [map concat app]. rewrite !zlen_cons, IH. lia.
Qed.
Lemma ack_bytes_ok acks : bytes_ok (ack_bytes acks).
Proof.
  unfold ack_bytes. induction acks as [|a acks IH]; [constructor|]. cbn [map concat app].
  repeat constructor; try apply u8_range; done.
Qed.
Lemma zlen_acks_sent n acks : 0 <= n -> 2 * zlen (acks_sent n acks) <= n.
Proof. intros. unfold acks_sent, zlen. rewrite length_take. lia. Qed.

Lemma ack_loop_spec acks : forall m p k size,
  0 <= p -> 0 <= k -> is_u16 size -> p + 2 * k + size <= zlen m ->
  let A := acks_sent size acks in
  ack_loop acks m p k size =
    Ok (splice m (p + 2 * k) (ack_bytes A), acks_left size acks, k + zlen A, size - 2 * zlen A).
Proof.
  induction acks as [|[x y] acks IH]; intros m p k size Hp Hk Hs Hl A.
  - assert (A = []) as -> by apply take_nil. unfold acks_left. rewrite drop_nil. cbn [ack_bytes map concat].
    rewrite splice_nil, zlen_nil, Z.mul_0_r, Z.add_0_r, Z.sub_0_r. cbn [ack_loop]. by destruct (size <? 2).
  - cbn [ack_loop]. destruct (Z.ltb_spec size 2).
    { assert (A = []) as -> by (unfold A, acks_sent; by replace (Z.to_nat (size / 2)) with 0%nat by lia).
      unfold acks_left. replace (Z.to_nat (size / 2)) with 0%nat by lia. rewrite drop_0. change (ack_bytes []) with (@nil Z). rewrite splice_nil, zlen_nil.
      by rewrite Z.mul_0_r, Z.add_0_r, Z.sub_0_r. }
    assert (Z.to_nat (size / 2) = S (Z.to_nat ((size - 2) / 2))) as En by lia.
    assert (A = (x, y) :: acks_sent (size - 2) acks) as -> by (unfold A, acks_sent; by rewrite En).
    unfold acks_left. rewrite En. cbn [drop]. fold (acks_left (size - 2) acks).
    set (A' := acks_sent (size - 2) acks). pose proof (zlen_acks_sent (size - 2) acks ltac:(lia)) as HA. fold A' in HA.
    rewrite wr_in, bind_ret_l by lia. rewrite wr_in, bind_ret_l by (rewrite zlen_splice; zlia).
    rewrite u64_id by ulia. rewrite (IH _ p (k + 1) (size - 2)); try lia; [|ulia|rewrite !zlen_splice; try zlia].
    2:{ rewrite zlen_splice; zlia. }
    fold A'. pose proof (zlen_ack_bytes A').
    assert (splice (splice (splice m (p + 2 * k) [u8 x]) (p + 2 * k + 1) [u8 y]) (p + 2 * (k + 1)) (ack_bytes A') =
      splice m (p + 2 * k) (ack_bytes ((x, y) :: A'))) as ->.
    { assert (zlen [u8 x] = 1) as H1 by done. assert (zlen [u8 x; u8 y] = 2) as H2 by done.
      replace (p + 2 * k + 1) with (p + 2 * k + zlen [u8 x]) by lia. rewrite splice_app by (rewrite ?H1; zlia).
      change ([u8 x] ++ [u8 y]) with [u8 x; u8 y].
      replace (p + 2 * (k + 1)) with (p + 2 * k + zlen [u8 x; u8 y]) by lia. by rewrite splice_app by lia. }
    rewrite zlen_cons. do 2 f_equal; [f_equal; lia|lia].
Qed.

Lemma view_any m c l b room :
  bytes_ok m -> is_u64 (zlen m) -> llc_base l = Some b -> llc_crc_size l = crc_len c -> 0 <= b ->
  0 <= room <= 1500 -> b + hdr_len_of c + room <= zlen m -> exists h, view_at m c l b room h.
Proof.
  intros Hm Hu Hb Hc H0 Hr Hf. pose proof (hdr_len_of_range c).
  destruct (holds_any m l b Hm Hb H0 ltac:(lia)) as [h Hh]. by exists h.
Qed.

Lemma write_ack_pdu_spec m c l b room h info s :
  llc_inv s -> crc_on s = c -> view_at m c l b room h -> pdu_size (out_pdu info) = room ->
  0 <= out_allocated info -> is_u64 (out_allocated info + hdr_len_of c + room) ->
  let A := acks_sent room (to_ack_list s) in
  let n := pdu_len c (ack_bytes A) in
  exists m' info' l', write_ack_pdu m info l s = Ok (m', info', l', s <| to_ack_list := acks_left room (to_ack_list s) |>) /\
    out_pdu info' = Pdu (pdu_base (out_pdu info)) (hdr_len_of c + room - n) /\ out_allocated info' = out_allocated info + n /\
    in_slot_number info' = in_slot_number info /\ in_allow_data info' = in_allow_data info /\
    out_has_data_loaded info' = out_has_data_loaded info /\ llc_base l' = Some (b + n) /\ llc_crc_size l' = llc_crc_size l /\ bytes_ok m' /\
    same_outside b (hdr_len_of c + room) m m' /\ n <= hdr_len_of c + room /\
    slice m' b n = llc_pdu c 0 (ll_lcid s) true (ack_bytes A).
Proof.
  intros Hi Hc Hv Hn Ha Hu A n. pose proof (hdr_len_of_range c). pose proof Hv as [_ _ Hb _ _ Hr Hf].
  pose proof (view_at_pos _ _ _ _ _ _ Hv). pose proof (vi_lcid _ Hi) as Hlc.
  pose proof (zlen_acks_sent room (to_ack_list s) ltac:(lia)) as HA. fold A in HA.
  pose proof (zlen_ack_bytes A) as Hd. pose proof (zlen_nonneg A). set (d := ack_bytes A) in *.
  assert (n = hdr_len_of c + zlen d) as Hnd by done.
  unfold write_ack_pdu. rewrite (view_payload _ _ _ _ _ _ Hv), bind_ret_l, Hn.
  rewrite ack_loop_spec, bind_ret_l by (ulia || lia). fold A d. rewrite Z.mul_0_r, Z.add_0_r, Z.add_0_l.
  set (s1 := s <| to_ack_list := _ |>). replace (zlen A * 2) with (zlen d) by lia.
  destruct (load_size m (splice m (b + hdr_len_of c) d) c l b room h d Hv) as (m2 & -> & [Hv2 HO2 Hd2 Hs2]);
    [apply bytes_ok_splice; [apply Hv|apply ack_bytes_ok]|apply same_outside_splice; lia|lia|apply slice_splice_same; lia|].
  rewrite bind_ret_l.
  destruct (view_update _ _ _ _ _ _ _ _ Hv2 (set_SN_updates m2 l _ 0 (va_hdr _ _ _ _ _ _ Hv2))) as (m3 & -> & Hv3 & HO3 & Hd3).
  rewrite bind_ret_l.
  destruct (view_update _ _ _ _ _ _ _ _ Hv3 (set_A_updates m3 l _ true (va_hdr _ _ _ _ _ _ Hv3))) as (m4 & -> & Hv4 & HO4 & Hd4).
  rewrite bind_ret_l. change (ll_lcid s1) with (ll_lcid s).
  destruct (view_update _ _ _ _ _ _ _ _ Hv4 (set_LCID_updates m4 l _ (ll_lcid s) (va_hdr _ _ _ _ _ _ Hv4))) as (m5 & -> & Hv5 & HO5 & Hd5).
  rewrite bind_ret_l, Z.mod_small in * by lia. rewrite decide_bool.
  change (bool_decide (it_crc_type (ll_tx_config s1) = _)) with (crc_on s). rewrite Hc.
  destruct (seal_view m5 c l b room _ d Hv5 eq_refl Hd2) as (m6 & -> & Hv6 & HO6 & Hs6 & Hp6); [by apply Hd5, Hd4, Hd3|].
  rewrite bind_ret_l. destruct (holds_get _ _ _ (va_hdr _ _ _ _ _ _ Hv6)) as (_ & _ & _ & ->).
  rewrite bind_ret_l, Hb. cbn [deref]. unfold mret, res_ret. rewrite bind_ret_l.
  eexists m6, _, _. split; [done|]. change (h_size _) with (hdr_len_of c + zlen d). rewrite <- Hnd.
  split; [unfold set_out_size, upd; cbn [out_pdu pdu_base pdu_size eta eta_pdu eta_tx_info]; f_equal; lia|]. split; [cbn; rewrite u64_id by ulia; done|]. do 4 (split; [done|]). split; [done|].
  split; [apply Hv6|]. split; [|split; [lia|done]].
  eapply same_outside_trans; [exact HO2|].
  assert (forall a x, same_outside b (hdr_len_of c) a x -> same_outside b (hdr_len_of c + room) a x) as Hsub
    by (intros a x Hax; eapply same_outside_sub; [| |exact Hax]; lia).
  eauto using same_outside_trans.
Qed.

(** ** [on_tx] *)

(** Whether acknowledgements are sent in [n] bytes, their PDU, the state
    without them, and the room left for the payload of the data PDU. Without
    acknowledgements the header is taken off twice. *)
Definition with_acks (n : Z) (s : llc) : bool :=
  (hdr_len_of (crc_on s) <? n) && negb (zlen (to_ack_list s) =? 0).
Definition ack_pdu (n : Z) (s : llc) : list Z :=
  if with_acks n s
  then llc_pdu (crc_on s) 0 (ll_lcid s) true (ack_bytes (acks_sent (n - hdr_len_of (crc_on s)) (to_ack_list s)))
  else [].
Definition after_acks (n : Z) (s : llc) : llc :=
  if with_acks n s then s <| to_ack_list := acks_left (n - hdr_len_of (crc_on s)) (to_ack_list s) |> else s.
Definition data_room (n : Z) (s : llc) : Z :=
  n - hdr_len_of (crc_on s) - (if with_acks n s then zlen (ack_pdu n s) else hdr_len_of (crc_on s)).

(** What is put into the frame. *)
Definition tx_bytes (n : Z) (s : llc) (o : sent) : list Z :=
  ack_pdu n s ++
  match o with SData d => llc_pdu (crc_on s) (sn_counter s) (ll_lcid s) false d | _ => [] end.

Section on_tx.
Context {P : Type} `{IpdcpLaws P}.

(** What a call of [on_tx] that reached the LLC did. *)
Record tx_done (m : list Z) (info : tx_info_t) (s : llc) (p : P) (o : sent) (m' : list Z) (info' : tx_info_t)
    (s' : llc) (p' : P) : Prop := TxDone {
  td_step : data_step (in_slot_number info) (data_room (pdu_size (out_pdu info)) s)
              (after_acks (pdu_size (out_pdu info)) s) p o s' p';
  td_inv : llc_inv s' /\ pdcp_ok p' /\ bytes_ok m';
  td_outside : same_outside (pdu_base (out_pdu info)) (pdu_size (out_pdu info)) m m';
  td_not_allowed : in_allow_data info = false \/ data_room (pdu_size (out_pdu info)) s < 0 ->
    o = SNothing /\ out_has_data_loaded info' = out_has_data_loaded info;
  td_loaded d : o = SData d -> out_has_data_loaded info' = true;
  td_report :
    let bs := tx_bytes (pdu_size (out_pdu info)) s o in
    match o with
    | SFailed => out_allocated info' = 0
    | _ => out_allocated info' = out_allocated info + zlen bs /\ zlen bs <= pdu_size (out_pdu info) /\
        slice m' (pdu_base (out_pdu info)) (zlen bs) = bs
    end }.

Lemma inform_spec m info s p :
  pdcp_ok p -> tx_view_ok m (set_out_size 0 info) ->
  exists m' info' p', inform_pdcp m info s p = Ok (m', info', s, p') /\ pdcp_ok p' /\ fetched 0 p [] p' /\
    bytes_ok m' /\ same_outside (pdu_base (out_pdu info)) 0 m m' /\ out_allocated info' = out_allocated info /\
    out_has_data_loaded info' = out_has_data_loaded info.
Proof.
  intros Hp Ht. destruct (pdcp_no_space m (set_out_size 0 info) p Hp Ht eq_refl) as (m' & av & p' & E & ? & ? & ? & ?).
  unfold inform_pdcp. rewrite E, bind_ret_l. eexists m', _, p'. split; [done|]. do 4 (split; [done|]).
  split; [|done]. change (out_allocated info + 0 = out_allocated info). lia.
Qed.

Lemma same_outside_0 x b n m m' : same_outside x 0 m m' -> same_outside b n m m'.
Proof. intros [Hz Hk]. split; [done|]. intros k _. apply Hk. lia. Qed.

(** The data stage of [on_tx], with the view moved to [b]. *)
Lemma data_stage m c l b room info s p :
  llc_inv s -> crc_on s = c -> bytes_ok m -> is_u64 (zlen m) -> llc_base l = Some b -> llc_crc_size l = crc_len c ->
  0 <= b -> room <= 1500 -> 0 <= hdr_len_of c + room -> b + hdr_len_of c + room <= zlen m ->
  pdu_size (out_pdu info) = hdr_len_of c + room -> 0 <= pdu_base (out_pdu info) <= zlen m ->
  0 <= out_allocated info -> is_u64 (out_allocated info + hdr_len_of c + room) -> pdcp_ok p ->
  exists o s' p' m' info',
    (if (pdu_size (out_pdu info) <? get_header_size l) || negb (in_allow_data info)
     then inform_pdcp m info s p else write_data_pdu m info l s p) = Ok (m', info', s', p') /\
    data_step (in_slot_number info) room s p o s' p' /\ llc_inv s' /\ pdcp_ok p' /\ bytes_ok m' /\
    same_outside b (hdr_len_of c + room) m m' /\ data_written c (sn_counter s) (ll_lcid s) b info m' info' o /\
    (in_allow_data info = false \/ room < 0 -> o = SNothing /\ out_has_data_loaded info' = out_has_data_loaded info).
Proof.
  intros Hi Hc Hm Hu Hb Hcs Hb0 Hr Hr0 Hf Hn Hbase Ha Hau Hp. pose proof (hdr_len_of_range c).
  assert (get_header_size l = hdr_len_of c) as -> by (unfold get_header_size; rewrite Hcs; by destruct c).
  rewrite Hn. destruct ((hdr_len_of c + room <? hdr_len_of c) || negb (in_allow_data info)) eqn:E.
  - destruct (inform_spec m info s p Hp) as (m' & info' & p' & -> & Hp' & Hf' & Hm' & HO & Hal & Hld).
    { unfold tx_view_ok, view_ok. cbn. split_and!; try done; try lia. ulia. }
    exists SNothing, s, p', m', info'. split; [done|]. split; [apply (DsIdle _ _ _ _ 0); [by left|done]|].
    do 3 (split; [done|]). split; [by eapply same_outside_0|]. done.
  - apply orb_false_iff in E as [E1 E2]. apply Z.ltb_ge in E1.
    destruct (view_any m c l b room Hm Hu Hb Hcs) as [h Hv]; [done|lia|done|].
    destruct (write_data_pdu_spec m c l b room h info s p Hi Hc Hv Hn Ha Hau Hp)
      as (o & s' & p' & m' & info' & E & ? & ? & ? & ? & ? & ?).
    exists o, s', p', m', info'. do 7 (split; [done|]). intros [Hx|Hx]; [|lia]. by rewrite Hx in E2.
Qed.

Lemma data_step_fits slot room s p d s' p' :
  llc_inv s -> data_step slot room s p (SData d) s' p' -> zlen d <= room.
Proof.
  intros Hi Hst. inversion Hst as [|? ? ? ? Hd|r rest ? Er Hfit| |? ? ? ? ? ? ? ? Hd|]; subst; try lia.
  pose proof (vi_retx _ Hi) as Hr. rewrite Er in Hr. inversion Hr as [|? ? [[? _] Hs _] _]; subst.
  unfold retx_data. rewrite zlen_slice by lia. done.
Qed.

Lemma ack_pdu_len n s : with_acks n s = true ->
  zlen (ack_pdu n s) = pdu_len (crc_on s) (ack_bytes (acks_sent (n - hdr_len_of (crc_on s)) (to_ack_list s))).
Proof. intros E. unfold ack_pdu. rewrite E. apply zlen_llc_pdu. Qed.

Lemma after_acks_facts n s : llc_inv s -> llc_inv (after_acks n s) /\ crc_on (after_acks n s) = crc_on s /\
  sn_counter (after_acks n s) = sn_counter s /\ ll_lcid (after_acks n s) = ll_lcid s.
Proof.
  intros Hi. unfold after_acks. destruct (with_acks n s); [|done]. split; [|done]. destruct Hi. constructor; try done.
  by apply Forall_drop.
Qed.

(** The two PDUs of a call, one behind the other. *)
Lemma assemble m info s p m2 info2 o m' info' s' p' :
  let b := pdu_base (out_pdu info) in
  let n := pdu_size (out_pdu info) in
  let q := zlen (ack_pdu n s) in
  let c := crc_on s in
  llc_inv s -> 0 <= b -> same_outside b n m m2 -> slice m2 b q = ack_pdu n s ->
  out_allocated info2 = out_allocated info + q -> out_has_data_loaded info2 = out_has_data_loaded info ->
  in_allow_data info2 = in_allow_data info ->
  data_step (in_slot_number info) (data_room n s) (after_acks n s) p o s' p' ->
  llc_inv s' /\ pdcp_ok p' /\ bytes_ok m' ->
  same_outside (b + q) (hdr_len_of c + data_room n s) m2 m' -> q + hdr_len_of c + data_room n s <= n -> q <= n ->
  data_written c (sn_counter s) (ll_lcid s) (b + q) info2 m' info' o ->
  (in_allow_data info2 = false \/ data_room n s < 0 -> o = SNothing /\ out_has_data_loaded info' = out_has_data_loaded info2) ->
  tx_done m info s p o m' info' s' p'.
Proof.
  intros b n q c Hi Hb HO2 Hpre Hal Hld Hall Hst Hinv HO Hfit Hq Hw Hna.
  pose proof (zlen_nonneg (ack_pdu n s)) as Hq0. fold q in Hq0.
  assert (slice m' b q = ack_pdu n s) as Hpre' by (rewrite (same_outside_slice _ _ _ _ _ _ HO) by lia; done).
  constructor; try done.
  - eapply same_outside_trans; [exact HO2|]. eapply same_outside_sub; [| |exact HO]; fold b n; lia.
  - fold n. rewrite <- Hall, <- Hld. done.
  - intros d ->. apply Hw.
  - fold b n. unfold tx_bytes. destruct o as [|d|]; cbn [data_written] in Hw; [|destruct Hw as (Hw & _ & Hs)|done].
    + rewrite app_nil_r. fold q. split_and!; [lia|lia|done].
    + fold c. rewrite zlen_app, zlen_llc_pdu. fold q. destruct (after_acks_facts n s Hi) as (Hia & _).
      pose proof (data_step_fits _ _ _ _ _ _ _ Hia Hst) as Hd. pose proof (zlen_nonneg d). pose proof (hdr_len_of_range c).
      assert (pdu_len c d = hdr_len_of c + zlen d) as Hpl by done.
      split; [lia|]. split; [lia|]. rewrite slice_app by lia. by rewrite Hpre', Hs.
Qed.

Lemma llc_on_tx_spec m info s p :
  llc_inv s -> ll_tx_enabled s = true -> pdcp_ok p -> tx_view_ok m info -> pdu_size (out_pdu info) <= 1500 ->
  exists s1 o m' info' s' p', check_retransmit (in_slot_number info) s = Ok s1 /\
    llc_on_tx m info s p = Ok (m', info', s', p') /\ llc_inv s1 /\ tx_done m info s1 p o m' info' s' p'.
Proof.
  intros Hi Hon Hp Ht Hmax. unfold llc_on_tx. rewrite Hon. cbn [negb].
  destruct (check_retransmit_spec (in_slot_number info) s Hi) as (s1 & E1 & Hi1 & _).
  exists s1. rewrite E1, bind_ret_l. pose proof (hdr_len_of_range (crc_on s1)) as Hc.
  pose proof Ht as ((Hm & Hu & Hb & Hn & Hl) & Hn3 & Ha & Hau).
  set (b := pdu_base (out_pdu info)) in *. set (n := pdu_size (out_pdu info)) in *.
  rewrite (vi_crc _ Hi1). set (c := crc_on s1) in *. set (l := llc_make (Some b) n (crc_len c)).
  assert (get_header_size l = hdr_len_of c) as Hhs by by destruct c. rewrite Hhs.
  destruct (Z.leb_spec n (hdr_len_of c)) as [Hle|Hgt].
  { destruct (inform_spec m info s1 p Hp) as (m' & info' & p' & -> & Hp' & Hf & Hm' & HO & Hal & Hld).
    { unfold tx_view_ok, view_ok. cbn. fold b. split_and!; try done; try lia. ulia. }
    exists SNothing, m', info', s1, p'. split; [done|]. split; [done|]. split; [done|].
    assert (with_acks n s1 = false) as Ew by (unfold with_acks; fold c; by rewrite (proj2 (Z.ltb_ge _ _))).
    constructor; try done.
    - fold n. unfold after_acks. rewrite Ew. apply (DsIdle _ _ _ _ 0); [by left|done].
    - by eapply same_outside_0.
    - fold n. cbn zeta. unfold tx_bytes, ack_pdu. rewrite Ew. cbn. rewrite zlen_nil. split_and!; [lia|lia|done]. }
  assert (get_payload l = Ok (b + hdr_len_of c)) as -> by (unfold get_payload; by rewrite Hhs).
  rewrite bind_ret_l. set (info1 := set_out_size _ _).
  assert (out_pdu info1 = Pdu (b + hdr_len_of c) (n - hdr_len_of c)) as Hpd.
  { unfold info1. change (pdu_size (out_pdu (set_out_base _ info))) with n. rewrite u64_id by ulia. done. }
  assert ((hdr_len_of c <? n) = true) as Elt by by apply Z.ltb_lt.
  destruct (Z.eqb_spec (zlen (to_ack_list s1)) 0) as [Hz|Hz].
  - assert (with_acks n s1 = false) as Ew by (unfold with_acks; rewrite Hz; apply andb_false_r).
    assert (ack_pdu n s1 = []) as Eq by (unfold ack_pdu; by rewrite Ew).
    assert (data_room n s1 = n - hdr_len_of c - hdr_len_of c) as Er by (unfold data_room; by rewrite Ew).
    unfold mret, res_ret. rewrite bind_ret_l.
    destruct (data_stage m c l b (data_room n s1) info1 s1 p Hi1) as (o & s' & p' & m' & info' & E & Hst & Hi' & Hp' & Hm' & HO & Hw & Hna);
      try done; try lia; rewrite ?Hpd; cbn [pdu_size pdu_base]; try lia; [change (out_allocated info1) with (out_allocated info); ulia|].
    rewrite Hpd in E. exists o, m', info', s', p'. split; [done|]. split; [exact E|]. split; [done|].
    apply (assemble m info s1 p m info1); fold b n c; rewrite ?Eq, ?zlen_nil, ?Z.add_0_r; try done; try lia.
    unfold after_acks. by rewrite Ew.
  - assert (with_acks n s1 = true) as Ew
      by (unfold with_acks; fold c; rewrite Elt; by rewrite (proj2 (Z.eqb_neq _ _))).
    pose proof (ack_pdu_len n s1 Ew) as Eq. fold c in Eq.
    destruct (view_any m c l b (n - hdr_len_of c)) as [h Hv]; try done; try lia.
    destruct (write_ack_pdu_spec m c l b (n - hdr_len_of c) h info1 s1 Hi1 eq_refl Hv)
      as (m2 & info2 & l2 & -> & Hsz & Hal & Hslot & Hall & Hld & Hb2 & Hc2 & Hm2 & HO2 & Hq & Hs2);
      [by rewrite Hpd|done|change (out_allocated info1) with (out_allocated info); ulia|].
    rewrite bind_ret_l, <- Eq in *. set (q := zlen (ack_pdu n s1)) in *.
    assert (s1 <| to_ack_list := acks_left (n - hdr_len_of c) (to_ack_list s1) |> = after_acks n s1) as ->
      by (unfold after_acks; by rewrite Ew).
    destruct (after_acks_facts n s1 Hi1) as (Hi2 & Hc2' & Hsn2 & Hl2).
    pose proof (zlen_nonneg (ack_pdu n s1)) as Hq0. fold q in Hq0.
    assert (data_room n s1 = n - hdr_len_of c - q) as Er by (unfold data_room; by rewrite Ew).
    destruct (data_stage m2 c l2 (b + q) (data_room n s1) info2 (after_acks n s1) p Hi2 Hc2')
      as (o & s' & p' & m' & info' & E & Hst & Hi' & Hp' & Hm' & HO & Hw & Hna).
    all: try done; rewrite ?Hsz, ?Hal, ?Hpd; change (out_allocated info1) with (out_allocated info);
      cbn [pdu_size pdu_base]; try (pose proof HO2 as [Hz2 _]; lia || ulia).
    rewrite Hsn2, Hl2 in Hw. exists o, m', info', s', p'. split; [done|]. split; [rewrite Hsz in E; exact E|]. split; [done|].
    rewrite Hslot in Hst. apply (assemble m info s1 p m2 info2); fold b n c q; try done; try lia.
    + eapply same_outside_sub; [| |exact HO2]; lia.
    + rewrite Hs2. unfold ack_pdu. by rewrite Ew.
Qed.
End on_tx.

(** ** What a call leaves alone *)

Record same_config (s s' : llc) : Prop := SameConfig {
  sc_tx : ll_tx_enabled s' = ll_tx_enabled s /\ ll_tx_config s' = ll_tx_config s;
  sc_rx : ll_rx_enabled s' = ll_rx_enabled s /\ ll_rx_config s' = ll_rx_config s;
  sc_ring : zlen (sn_ring s') = zlen (sn_ring s);
  sc_lcid : ll_lcid s' = ll_lcid s }.

Lemma same_config_trans s1 s2 s3 : same_config s1 s2 -> same_config s2 s3 -> same_config s1 s3.
Proof. intros [[] [] ] [[] [] ]. constructor; [split|split| |]; congruence. Qed.

Lemma same_config_kept slot sn d retx count s : same_config s (kept slot sn d retx count s).
Proof.
  unfold kept. destruct (am_mode s); [|done]. destruct retx; (constructor; [done|done| |done]); cbn; unfold zlen;
    by rewrite length_alter.
Qed.

Section frame.
Context {P : Type} `{IpdcpLaws P}.

Lemma data_step_config slot room s p o s' p' : data_step slot room s p o s' p' ->
  same_config s s' /\ ll_rrc s' = ll_rrc s ++ (match o with SFailed => [OnRlf (ll_lcid s)] | _ => [] end).
Proof.
  assert (forall slot sn d retx count x, ll_rrc (kept slot sn d retx count x) = ll_rrc x) as Hk
    by (intros; unfold kept; destruct (am_mode x); [by destruct retx|done]).
  intros Hst. destruct Hst; rewrite ?Hk, ?app_nil_r; (split; [|done]); try done;
    (eapply same_config_trans; [|apply same_config_kept]); done.
Qed.

(** A call of [on_tx] leaves the configuration alone and asks the RRC for
    nothing but the failure. *)
Lemma llc_on_tx_config m info s p m' info' s' p' :
  llc_inv s -> pdcp_ok p -> tx_view_ok m info -> pdu_size (out_pdu info) <= 1500 ->
  llc_on_tx m info s p = Ok (m', info', s', p') ->
  llc_inv s' /\ pdcp_ok p' /\ same_config s s' /\
  (ll_rrc s' = ll_rrc s \/ ll_rrc s' = ll_rrc s ++ [OnRlf (ll_lcid s)]).
Proof.
  intros Hi Hp Hv Hn E. destruct (ll_tx_enabled s) eqn:Hon.
  2:{ unfold llc_on_tx in E. rewrite Hon in E. injection E as <- <- <- <-. split_and!; try done. by left. }
  destruct (llc_on_tx_spec m info s p Hi Hon Hp Hv Hn) as (s1 & o & m1 & i1 & s2 & p2 & E1 & E2 & Hi1 & Ht).
  rewrite E in E2. injection E2 as <- <- <- <-. destruct Ht as [Hst (Hi' & Hp' & _) _ _ _ _].
  split; [done|]. split; [done|]. destruct (data_step_config _ _ _ _ _ _ _ Hst) as [Hc Hr].
  destruct (check_retransmit_spec (in_slot_number info) s Hi) as (s1' & E1' & _ & Hd). rewrite E1 in E1'. injection E1' as <-.
  assert (same_config s s1 /\ ll_rrc s1 = ll_rrc s) as [Hc1 Hr1]
    by (destruct (due _ s) as [[i e]|]; [destruct Hd as (? & ? & ? & ->)|subst]; done).
  set (s3 := after_acks _ s1) in *. assert (same_config s1 s3 /\ ll_rrc s3 = ll_rrc s1) as [Hc2 Hr2]
    by (unfold s3, after_acks; by destruct (with_acks _ s1)).
  pose proof (same_config_trans _ _ _ Hc1 Hc2) as Hc3. split; [by eapply same_config_trans|].
  rewrite Hr, Hr2, Hr1, (sc_lcid _ _ Hc3). destruct o; rewrite ?app_nil_r; auto.
Qed.
End frame.
