(* ===== verification/LlcRx.v ===== *)
(** * The receive side of the LLC

    What [llc_on_rx] does with a PDU as [llc_on_tx] writes it: the payload
    goes to the PDCP unchanged and its sequence number is owed an
    acknowledgement, or the sequence numbers of an acknowledgement are
    looked up. *)

From S2P Require Import Prelude Mem SafeInt LlcFrame Crc LlcCrc Info Llc LlcTx.

(** ** A PDU in memory *)

(** The view [(b, n)] of [m] holds the PDU. *)
Record pdu_in (m : list Z) (b n : Z) (c : bool) (sn lcid : Z) (a : bool) (d : list Z) : Prop := PduIn {
  pi_bytes : bytes_ok m;
  pi_base : 0 <= b;
  pi_len : n = pdu_len c d;
  pi_short : n < 2048;
  pi_fit : b + n <= zlen m;
  pi_sn : is_u8 sn;
  pi_lcid : 0 <= lcid < 16;
  pi_pdu : slice m b n = llc_pdu c sn lcid a d }.

Definition rx_crc_on (s : llc) : bool := bool_decide (ir_crc_type (ll_rx_config s) = E_CRC_TYPE_CRC32_04C11DB7).

(** The memory as [on_rx] leaves it: the CRC is cleared. *)
Definition crc_cleared (c : bool) (m : list Z) (b : Z) : list Z := if c then splice m (b + 3) (replicate 4 0) else m.

Lemma crc32_range data : is_u32 (crc crc32_04C11DB7 data).
Proof. unfold crc, crc_t. cbn [crc_bits crc32_04C11DB7]. change (2 ^ 32) with 4294967296. ulia. Qed.

(** Reading a stored CRC. *)
Lemma load_crc m p x :
  is_u32 x -> 0 <= p -> p + 4 <= zlen m -> slice m p 4 = sf_image Little BEU32 (sf_make Little BEU32 x) ->
  sf_load Little BEU32 m p = Ok x.
Proof.
  intros Hx Hp Hl Hs. unfold sf_load. change (Z.of_nat (sf_bytes BEU32)) with 4.
  rewrite rd_n_in, bind_ret_l, Hs, sf_of_image_image by lia. unfold mret, res_ret. f_equal.
  apply sf_get_trunc_make. change (u32 x = x). by apply u32_id.
Qed.

Section pdu.
Context (m : list Z) (b n : Z) (c : bool) (sn lcid : Z) (a : bool) (d : list Z).
Hypothesis Hin : pdu_in m b n c sn lcid a d.

Let hdr : llc_hdr := LlcHdr sn lcid a n.

Lemma pdu_size_len : n = hdr_len_of c + zlen d.
Proof. apply (pi_len _ _ _ _ _ _ _ _ Hin). Qed.

Lemma pdu_hdr_ok : hdr_ok hdr.
Proof.
  pose proof pdu_size_len. pose proof (hdr_len_of_range c). pose proof (zlen_nonneg d). destruct Hin.
  unfold hdr_ok, hdr. cbn. split_and!; try done; lia.
Qed.

Lemma pdu_parts :
  slice m b 3 = hdr_bytes hdr /\
  (c = true -> slice m (b + 3) 4 = sf_image Little BEU32 (sf_make Little BEU32
     (crc crc32_04C11DB7 (hdr_bytes hdr ++ replicate 4 0 ++ d)))) /\
  slice m (b + hdr_len_of c) (zlen d) = d.
Proof.
  pose proof pdu_size_len as Hn. pose proof (zlen_nonneg d) as Hd. destruct Hin.
  unfold llc_pdu in pi_pdu0. rewrite <- pi_len0 in pi_pdu0. fold hdr in pi_pdu0.
  set (x := sf_image _ _ _) in *. assert (zlen x = 4) as Hx by apply (zlen_sf_image Little BEU32).
  assert (zlen (hdr_bytes hdr) = 3) as Hh by done.
  rewrite Hn in pi_pdu0. unfold hdr_len_of in pi_pdu0. rewrite <- Z.add_assoc, slice_app in pi_pdu0
    by (destruct c; cbn [crc_len]; lia).
  apply app_inj_1 in pi_pdu0 as [E1 E2]; [|pose proof (zlen_slice m b 3 pi_base0 ltac:(lia)) as E; unfold hdr_len_of in Hn;
    unfold zlen in *; destruct c; cbn [crc_len] in *; lia].
  split; [done|]. destruct c; cbn [crc_len] in *.
  - rewrite slice_app in E2 by lia. apply app_inj_1 in E2 as [E2 E3];
      [|pose proof (zlen_slice m (b + 3) 4 ltac:(lia) ltac:(lia)) as E; unfold hdr_len_of in Hn; cbn [crc_len] in Hn;
        unfold zlen in *; lia].
    split; [done|]. unfold hdr_len_of. cbn [crc_len]. by replace (b + (3 + 4)) with (b + 3 + 4) by lia.
  - split; [done|]. unfold hdr_len_of. cbn [crc_len app] in *. by replace (b + (3 + 0)) with (b + 3) by lia.
Qed.

Lemma pdu_holds l : llc_base l = Some b -> holds m l hdr.
Proof.
  intros Hb. exists b. pose proof pdu_parts as (H3 & _). pose proof pdu_size_len. pose proof (hdr_len_of_range c).
  pose proof (zlen_nonneg d). pose proof pdu_hdr_ok. destruct Hin. split_and!; try done; lia.
Qed.

Lemma pdu_cleared :
  let m' := crc_cleared c m b in
  bytes_ok m' /\ zlen m' = zlen m /\ slice m' (b + hdr_len_of c) (zlen d) = d /\
  (forall l, llc_base l = Some b -> holds m' l hdr) /\ (c = true -> slice m' b n = hdr_bytes hdr ++ replicate 4 0 ++ d).
Proof.
  pose proof pdu_parts as (H3 & _ & Hd). pose proof pdu_size_len as Hn. pose proof (zlen_nonneg d).
  assert (forall l, llc_base l = Some b -> holds m l hdr) as Hh by (intros; by apply pdu_holds).
  pose proof Hin as [Hm Hb _ _ Hf _ _ _]. unfold crc_cleared. destruct c; cbn zeta.
  - unfold hdr_len_of in *. cbn [crc_len] in *. assert (zlen (replicate 4 0) = 4) as Hz by done.
    split; [apply bytes_ok_splice; [done|repeat constructor; ulia]|]. split; [apply zlen_splice; lia|].
    split; [by rewrite slice_splice_after by lia|]. split.
    + intros l Hl. apply (holds_splice _ _ _ b); [by apply Hh|done|lia|lia].
    + intros _. rewrite Hn. replace (3 + 4 + zlen d) with (7 + zlen d) by lia. rewrite slice_middle by lia.
      rewrite H3. replace (b + 7) with (b + (3 + 4)) by lia. by rewrite Hd.
  - split; [done|]. split; [done|]. split; [done|]. done.
Qed.
End pdu.

(** ** What is done with it *)

Section rx.
Context {P : Type} `{Ipdcp P}.

(** The part of [on_rx] behind the check of the CRC. *)
Definition rx_accept (m : list Z) (b n : Z) (l : llc_t) (s : llc) (p : P) : res (list Z * llc * P) :=
  is_ack ← get_A m l;
  if is_ack : bool then
    acks ← get_payload l;
    payload_size ← get_payload_size m l;
    size ← get_SIZE m l;
    s ← ack_entries (Z.to_nat (payload_size / 2)) 0 m acks (get_header_size l) size s;
    mret (m, s, p)
  else
    sn ← get_SN m l;
    let s := if decide (ir_mode (ll_rx_config s) = E_TX_MODE_AM) then to_acknowledge sn s else s in
    p ← pdcp_on_rx m (b + get_header_size l) (u64 (n - get_header_size l)) p;
    mret (m, s, p).

Lemma llc_on_rx_accepts m b n c sn lcid a d s (p : P) :
  pdu_in m b n c sn lcid a d -> rx_crc_on s = c -> rx_crc_size s = crc_len c ->
  ll_rx_enabled s = true \/ ir_auto_init_on_rx (ll_rx_config s) = false ->
  llc_on_rx m b n s p = rx_accept (crc_cleared c m b) b n (llc_make (Some b) n (crc_len c)) s p.
Proof.
  intros Hin Hc Hcs Hon. unfold llc_on_rx.
  assert (negb (ll_rx_enabled s) && ir_auto_init_on_rx (ll_rx_config s) = false) as ->
    by (destruct Hon as [-> | ->]; [done|apply andb_false_r]).
  rewrite Hcs. set (l := llc_make (Some b) n (crc_len c)). assert (llc_base l = Some b) as Hb by done.
  pose proof (pdu_holds _ _ _ _ _ _ _ _ Hin l Hb) as Hh.
  destruct (holds_get _ _ _ Hh) as (_ & _ & _ & ->). rewrite bind_ret_l. cbn [h_size].
  rewrite (proj2 (Z.ltb_ge n n)) by lia. rewrite decide_bool. fold (rx_crc_on s). rewrite Hc.
  pose proof (pdu_parts _ _ _ _ _ _ _ _ Hin) as (_ & Hcrc & _).
  pose proof (pdu_cleared _ _ _ _ _ _ _ _ Hin) as (_ & _ & _ & Hh2 & Hdata). specialize (Hh2 l Hb).
  pose proof (pdu_size_len _ _ _ _ _ _ _ _ Hin) as Hn. pose proof (zlen_nonneg d).
  pose proof Hin as [_ Hb0 _ _ Hf _ _ _]. destruct c; [|done]. cbn [crc_cleared] in *.
  unfold hdr_len_of in Hn. cbn [crc_len] in Hn. specialize (Hcrc eq_refl). specialize (Hdata eq_refl).
  unfold get_CRC at 1. rewrite Hb. cbn [deref]. unfold mret, res_ret. rewrite !bind_ret_l.
  rewrite (load_crc m (b + 3) _ (crc32_range _)) by (done || lia). rewrite bind_ret_l.
  assert (sf_store Little BEU32 m (b + 3) 0 = Ok (splice m (b + 3) (replicate 4 0))) as ->
    by (unfold sf_store; change (sf_image _ _ _) with [0; 0; 0; 0]; rewrite wr_n_in; [done|lia|]; rewrite ?zlen_cons, zlen_nil; lia).
  rewrite bind_ret_l.
  destruct (holds_get _ _ _ Hh2) as (_ & _ & _ & ->). rewrite !bind_ret_l. cbn [h_size].
  rewrite rd_n_in by (rewrite ?zlen_splice; rewrite ?zlen_replicate; lia).
  rewrite !bind_ret_l, Hdata, Z.eqb_refl. done.
Qed.
End rx.

(** ** A data PDU *)

Definition rx_acknowledge (sn : Z) (s : llc) : llc :=
  if decide (ir_mode (ll_rx_config s) = E_TX_MODE_AM) then to_acknowledge sn s else s.

Definition listens (c : bool) (s : llc) : Prop :=
  rx_crc_on s = c /\ rx_crc_size s = crc_len c /\
  (ll_rx_enabled s = true \/ ir_auto_init_on_rx (ll_rx_config s) = false).

Lemma rx_data {P} `{Ipdcp P} m b n c sn lcid d s (p : P) :
  pdu_in m b n c sn lcid false d -> listens c s ->
  llc_on_rx m b n s p =
    (p ← pdcp_on_rx (crc_cleared c m b) (b + hdr_len_of c) (zlen d) p;
     mret (crc_cleared c m b, rx_acknowledge sn s, p)).
Proof.
  intros Hin (Hc & Hcs & Hon). rewrite (llc_on_rx_accepts m b n c sn lcid false d s p Hin Hc Hcs Hon).
  pose proof (pdu_cleared _ _ _ _ _ _ _ _ Hin) as (_ & _ & _ & Hh & _).
  set (l := llc_make (Some b) n (crc_len c)). specialize (Hh l eq_refl).
  unfold rx_accept. destruct (holds_get _ _ _ Hh) as (-> & _ & -> & _). rewrite bind_ret_l. cbn [h_a h_sn].
  rewrite bind_ret_l. assert (get_header_size l = hdr_len_of c) as -> by by destruct c.
  pose proof (pdu_size_len _ _ _ _ _ _ _ _ Hin) as Hn. pose proof (hdr_len_of_range c). pose proof (zlen_nonneg d).
  pose proof (pi_short _ _ _ _ _ _ _ _ Hin).
  replace (u64 (n - hdr_len_of c)) with (zlen d) by ulia. done.
Qed.

(** ** Acknowledgements *)

(** The sequence numbers a list of entries stands for. *)
Definition acked_sns (acks : list (Z * Z)) : list Z := concat (map (fun a => seqZ a.1 a.2) acks).

Fixpoint ack_all (sns : list Z) (s : llc) : res llc :=
  match sns with [] => mret s | sn :: sns => s ← ack_sn sn s; ack_all sns s end.

Lemma ack_all_app l1 l2 s : ack_all (l1 ++ l2) s = (s ← ack_all l1 s; ack_all l2 s).
Proof.
  revert s. induction l1 as [|x l1 IH]; intros s; [done|]. cbn [app ack_all]. rewrite bind_assoc.
  apply bind_ext. intros. apply IH.
Qed.

Lemma ack_run_all count sn s : 0 <= sn -> sn + Z.of_nat count <= 256 ->
  ack_run count sn s = ack_all (seqZ sn (Z.of_nat count)) s.
Proof.
  revert sn s. induction count as [|count IH]; intros sn s H0 Hc; [done|].
  rewrite seqZ_cons by lia. cbn [ack_run ack_all]. apply bind_ext. intros s'.
  replace (Z.pred (Z.of_nat (S count))) with (Z.of_nat count) by lia.
  destruct count as [|count]; [done|].
  assert (Z.land llc_sn_mask (sn + 1) = Z.succ sn) as ->.
  { unfold llc_sn_mask. rewrite Z.land_comm. change 255 with (Z.ones 8).
    rewrite Z.land_ones by lia. change (2 ^ 8) with 256. lia. }
  apply IH; lia.
Qed.

(** The loop over the entries, which lie in memory. *)
Lemma ack_entries_all A : forall i m acks hs size s,
  Forall ack_ok A -> Forall (fun a => a.2 <= 255) A -> bytes_ok m -> 0 <= acks -> 0 <= i ->
  acks + 2 * (i + zlen A) <= zlen m -> hs + 2 * (i + zlen A) <= size ->
  slice m (acks + 2 * i) (2 * zlen A) = ack_bytes A ->
  ack_entries (length A) i m acks hs size s = ack_all (acked_sns A) s.
Proof.
  induction A as [|[x y] A IH]; intros i m acks hs size s Hok Hcnt Hm Ha Hi Hl Hsz Hs; [done|].
  inversion Hok as [|? ? (Hx & Hy & Hxy) Hok']; subst. inversion Hcnt as [|? ? Hy' Hcnt']; subst. cbn [fst snd] in *.
  rewrite zlen_cons in *. pose proof (zlen_nonneg A).
  replace (2 * (1 + zlen A)) with (2 + 2 * zlen A) in Hs by lia. rewrite slice_app in Hs by lia.
  unfold ack_bytes in Hs. cbn [map concat] in Hs. fold (ack_bytes A) in Hs. cbn [fst snd] in Hs.
  apply app_inj_1 in Hs as [Hs1 Hs2]; [|pose proof (zlen_slice m (acks + 2 * i) 2 ltac:(lia) ltac:(lia)) as E;
    specialize (E ltac:(lia)); unfold zlen in E; cbn [length]; lia].
  rewrite u8_id in Hs1 by ulia. rewrite u8_id in Hs1 by ulia.
  cbn [length ack_entries]. rewrite (proj2 (Z.ltb_ge _ _)) by lia.
  assert (forall k v, [x; y] !! k = Some v -> rd m (acks + 2 * i + Z.of_nat k) = Ok v) as Hrd.
  { intros k v Hk. rewrite <- (rd_slice m (acks + 2 * i) 2) by (apply lookup_lt_Some in Hk; cbn in Hk; lia).
    rewrite Hs1. apply rd_Ok. split; [lia|]. by rewrite Nat2Z.id. }
  pose proof (Hrd 0%nat x eq_refl) as R0. rewrite Z.add_0_r in R0. rewrite R0, bind_ret_l.
  pose proof (Hrd 1%nat y eq_refl) as R1. change (Z.of_nat 1) with 1 in R1. rewrite R1, bind_ret_l.
  assert (Z.land x llc_sn_mask = x) as ->.
  { unfold llc_sn_mask. change 255 with (Z.ones 8). rewrite Z.land_ones by lia. change (2 ^ 8) with 256. lia. }
  rewrite ack_run_all by lia. rewrite Z2Nat.id by lia.
  unfold acked_sns. cbn [map concat fst snd]. fold (acked_sns A). rewrite ack_all_app. apply bind_ext. intros s'.
  apply IH; try done; try lia. by replace (acks + 2 * (i + 1)) with (acks + 2 * i + 2) by lia.
Qed.

Lemma rx_acks {P} `{Ipdcp P} m b n c lcid A s (p : P) :
  pdu_in m b n c 0 lcid true (ack_bytes A) -> listens c s ->
  Forall ack_ok A -> Forall (fun a => a.2 <= 255) A ->
  llc_on_rx m b n s p = (s ← ack_all (acked_sns A) s; mret (crc_cleared c m b, s, p)).
Proof.
  intros Hin (Hc & Hcs & Hon) Hok Hcnt.
  rewrite (llc_on_rx_accepts m b n c 0 lcid true _ s p Hin Hc Hcs Hon).
  pose proof (pdu_cleared _ _ _ _ _ _ _ _ Hin) as (Hm & Hz & Hd & Hh & _).
  set (l := llc_make (Some b) n (crc_len c)). specialize (Hh l eq_refl).
  set (m' := crc_cleared c m b) in *. pose proof (pdu_size_len _ _ _ _ _ _ _ _ Hin) as Hn.
  pose proof (hdr_len_of_range c). pose proof Hin as [_ Hb _ Hsh Hf _ _ _].
  rewrite zlen_ack_bytes in Hn, Hd. pose proof (zlen_nonneg A).
  assert (get_header_size l = hdr_len_of c) as Hhs by by destruct c.
  unfold rx_accept. destruct (holds_get _ _ _ Hh) as (_ & _ & -> & Hsize). rewrite bind_ret_l. cbn [h_a].
  assert (get_payload l = Ok (b + hdr_len_of c)) as -> by (unfold get_payload; by rewrite Hhs).
  rewrite bind_ret_l. unfold get_payload_size. rewrite Hsize, !bind_ret_l, Hhs. cbn [h_size].
  assert (Z.to_nat (u16 (n - hdr_len_of c) / 2) = length A) as Hlen.
  { replace (n - hdr_len_of c) with (2 * zlen A) by lia. unfold zlen in *. ulia. }
  rewrite Hlen.
  by rewrite (ack_entries_all A 0 m' (b + hdr_len_of c)) by (rewrite ?Z.mul_0_r, ?Z.add_0_r, ?Z.add_0_l; done || lia).
Qed.

(** What is owed: receiving [sn] adds it to what the list stands for. *)
Lemma to_acknowledge_sns sn s :
  llc_inv s -> is_u8 sn ->
  Permutation (acked_sns (to_ack_list (to_acknowledge sn s))) (acked_sns (to_ack_list s) ++ [sn]).
Proof.
  intros Hi Hs. pose proof (vi_acks _ Hi) as Ha. unfold to_acknowledge.
  destruct (to_ack_list s) as [|[x y] A] eqn:E; [done|]. inversion Ha as [|? ? (Hx & Hy & Hxy) _]; subst. cbn in Hx, Hy, Hxy.
  destruct (Z.eqb_spec (x + y) sn) as [<-|].
  - cbn. rewrite u64_id by ulia. rewrite seqZ_app by lia. rewrite <- !app_assoc. apply Permutation_app_head.
    rewrite seqZ_cons by lia. cbn. rewrite (seqZ_nil _ 0) by lia. cbn. apply Permutation_cons_append.
  - change (to_ack_list (upd to_ack_list _ s)) with (((x, y) :: A) ++ [(sn, 1)]).
    unfold acked_sns. rewrite map_app, concat_app. cbn. done.
Qed.

Lemma rx_acknowledge_inv sn s : llc_inv s -> is_u8 sn -> llc_inv (rx_acknowledge sn s).
Proof.
  intros Hi Hs. unfold rx_acknowledge. case_decide; [|done].
  assert (Forall ack_ok (to_ack_list (to_acknowledge sn s))) as Ha.
  { pose proof (vi_acks _ Hi) as Ha. unfold to_acknowledge.
    destruct (to_ack_list s) as [|[x y] A]; [repeat constructor; cbn; ulia|].
    inversion Ha as [|? ? (Hx & Hy & Hxy) HA]; subst. cbn in Hx, Hy, Hxy.
    destruct (Z.eqb_spec (x + y) sn) as [<-|].
    - constructor; [|done]. unfold ack_ok. cbn [fst snd]. rewrite u64_id by ulia. ulia.
    - change (Forall ack_ok (((x, y) :: A) ++ [(sn, 1)])). apply Forall_app_2; [by constructor|].
      repeat constructor; cbn; ulia. }
  assert (exists l, to_acknowledge sn s = s <| to_ack_list := l |>) as [l El].
  { unfold to_acknowledge. destruct (to_ack_list s) as [|[x y] A]; [eauto|]. destruct (_ =? _); eauto. }
  rewrite El in *. destruct Hi. by constructor.
Qed.

(** ** All that reception does to the LLC *)

Lemma lookup_alter_if {A} (f : A -> A) i (l : list A) k x :
  alter f i l !! k = Some x <-> exists y, l !! k = Some y /\ x = if decide (i = k) then f y else y.
Proof.
  rewrite list_lookup_alter. destruct (decide (i = k)) as [->|].
  - destruct (l !! k); cbn; split; [intros [= <-]; eauto|by intros (? & [= ->] & ->)|done|by intros (? & ? & ?)].
  - split; [eauto|by intros (? & ? & ->)].
Qed.

(** The slot [i] is acknowledged. *)
Definition mark (i : nat) (s : llc) : llc :=
  s <| tx_ring := alter (fun e => e <| te_acknowledged := true |>) i (tx_ring s) |>.

Lemma mark_lookup i s k e' : tx_ring (mark i s) !! k = Some e' <->
  exists e, tx_ring s !! k = Some e /\ e' = if decide (i = k) then e <| te_acknowledged := true |> else e.
Proof. apply lookup_alter_if. Qed.

Lemma mark_inv i s : llc_inv s -> llc_inv (mark i s).
Proof.
  intros Hi. pose proof (vi_elem _ Hi) as He. pose proof (vi_ring _ Hi) as Hr. destruct Hi. constructor; try done.
  - unfold zlen in *. cbn. by rewrite length_alter.
  - cbn. apply Forall_alter; [done|]. intros e _ []. by constructor.
Qed.

Lemma ack_sn_mark sn s s' : ack_sn sn s = Ok s' -> exists i e, tx_ring s !! i = Some e /\ s' = mark i s.
Proof.
  unfold ack_sn, vec_at. intros E. inv_res. destruct (sn_ring s !! _) as [x|]; [|done]. inv_res.
  destruct (tx_ring s !! tx_ring_index (ring_idx _) s) as [c|]; [|done]. inv_res.
  destruct (tx_ring s !! tx_ring_index (sent_index _) s) as [e|] eqn:He; [|done]. inv_res.
  eexists _, _. split; [exact He|]. unfold mark. by rewrite (alter_at _ _ _ _ He).
Qed.

Lemma ack_run_cases count sn s s' : ack_run count sn s = Ok s' -> exists sns, ack_all sns s = Ok s'.
Proof.
  revert sn s. induction count as [|count IH]; intros sn s E; [by exists []|]. cbn [ack_run] in E.
  apply bind_Ok in E as (s1 & E1 & E). destruct (IH _ _ E) as [sns Hs]. exists (sn :: sns). cbn [ack_all].
  by rewrite E1, bind_ret_l.
Qed.

Lemma ack_entries_cases n i m acks hs size s s' :
  ack_entries n i m acks hs size s = Ok s' -> exists sns, ack_all sns s = Ok s'.
Proof.
  revert i s. induction n as [|n IH]; intros i s E; [by exists []|]. cbn [ack_entries] in E.
  destruct (size <? _); [by exists []|].
  apply bind_Ok in E as (x & _ & E). apply bind_Ok in E as (y & _ & E). apply bind_Ok in E as (s1 & E1 & E).
  destruct (ack_run_cases _ _ _ _ E1) as [l1 H1]. destruct (IH _ _ E) as [l2 H2].
  exists (l1 ++ l2). by rewrite ack_all_app, H1, bind_ret_l.
Qed.

Lemma get_SN_range m l sn : get_SN m l = Ok sn -> is_u8 sn.
Proof. unfold get_SN, llc_get. intros E. inv_res. apply u8_range. Qed.

(** All that reception does to the LLC. *)
Lemma on_rx_cases {P} `{Ipdcp P} m b n s (p : P) m' s' p' :
  llc_on_rx m b n s p = Ok (m', s', p') ->
  s' = s \/
  ir_auto_init_on_rx (ll_rx_config s) = true /\ s' = s <| ll_rrc := ll_rrc s ++ [OnInit (ll_lcid s)] |> \/
  (exists sns, ack_all sns s = Ok s') \/ (exists sn, is_u8 sn /\ s' = rx_acknowledge sn s).
Proof.
  unfold llc_on_rx. destruct (_ && _) eqn:Ea.
  { intros [= <- <- <-]. right; left. by apply andb_true_iff in Ea as [_ ->]. }
  clear Ea. intros E. apply bind_Ok in E as (size & _ & E). destruct (n <? size); [injection E as <- <- <-; by left|].
  apply bind_Ok in E as ([[m1 x] y] & _ & E). destruct (negb _); [injection E as <- <- <-; by left|].
  apply bind_Ok in E as (a & _ & E). destruct a.
  - apply bind_Ok in E as (acks & _ & E). apply bind_Ok in E as (ps & _ & E). apply bind_Ok in E as (sz & _ & E).
    apply bind_Ok in E as (s1 & E1 & E). injection E as <- <- <-. do 2 right; left. by eapply ack_entries_cases.
  - apply bind_Ok in E as (sn & Hsn & E). apply bind_Ok in E as (p1 & _ & E). injection E as <- <- <-.
    do 3 right. exists sn. split; [by eapply get_SN_range|done].
Qed.

Lemma ack_all_inv sns s s' : llc_inv s -> ack_all sns s = Ok s' ->
  llc_inv s' /\ ll_rrc s' = ll_rrc s /\ ll_rx_config s' = ll_rx_config s.
Proof.
  revert s. induction sns as [|sn sns IH]; intros s Hi E; [by injection E as <-|]. cbn [ack_all] in E.
  apply bind_Ok in E as (s1 & E1 & E). destruct (ack_sn_mark _ _ _ E1) as (i & e & He & ->).
  exact (IH _ (mark_inv i s Hi) E).
Qed.

Lemma rx_acknowledge_eq sn s : exists l, rx_acknowledge sn s = s <| to_ack_list := l |>.
Proof.
  unfold rx_acknowledge, to_acknowledge. case_decide; [|exists (to_ack_list s); by destruct s].
  destruct (to_ack_list s) as [|[x y] A]; [by eexists|]. destruct (_ =? _); by eexists.
Qed.

Lemma on_rx_inv {P} `{Ipdcp P} m b n s (p : P) m' s' p' :
  llc_inv s -> llc_on_rx m b n s p = Ok (m', s', p') -> llc_inv s'.
Proof.
  intros Hi E. destruct (on_rx_cases _ _ _ _ _ _ _ _ E) as [->|[[_ ->]|[[sns Hs]|(sn & Hsn & ->)]]].
  - done.
  - destruct Hi. by constructor.
  - by eapply ack_all_inv.
  - by apply rx_acknowledge_inv.
Qed.
