(* ===== verification/LlcConf.v ===== *)
(** * Configuration of the LLC: what sets up the invariant

    The constructor, switching on and off, and the two [reconfigure] lead to
    states in which [llc_inv] holds, as long as the CRC is not switched off
    and the window does not grow beyond that of the constructor. *)

From S2P Require Import Prelude Mem SafeInt LlcFrame Crc LlcCrc Info PdcpTx PdcpRx Pdcp Llc LlcTx LlcRx.

Lemma elem_ok_false am e : elem_ok am e -> elem_ok false e.
Proof. intros []. constructor; try done. destruct eo_pdu as [?|[_ ?]]; auto. Qed.

(** A ring element as [set_tx_enabled] leaves it. *)
Definition elem_fresh (e : tx_ring_elem_t) : Prop :=
  elem_ok true e /\ te_acknowledged e = true /\ sent_index e = no_index.

Lemma renew_ring_spec ring : forall s,
  Forall (elem_ok false) ring -> Forall slot_buffer (tx_buffer_pool s) ->
  exists ring' pool, renew_ring ring s = (ring', s <| tx_buffer_pool := pool |>) /\
    Forall elem_fresh ring' /\ length ring' = length ring /\ Forall slot_buffer pool.
Proof.
  induction ring as [|e ring IH]; intros s Hr Hp; [exists [], (tx_buffer_pool s); split; [by destruct s|done]|].
  inversion Hr as [|? ? [Hx Hpdu Hs Hret _] Hr']; subst. cbn [renew_ring].
  assert (exists pool b, (match te_pdcp_pdu e with [] => allocate_tx_buffer s | b => (s, b) end) =
    (s <| tx_buffer_pool := pool |>, b) /\ slot_buffer b /\ Forall slot_buffer pool) as (pool & b & -> & Hb & Hpool).
  { assert (s = s <| tx_buffer_pool := tx_buffer_pool s |>) as Es by by destruct s.
    destruct (te_pdcp_pdu e) as [|x l] eqn:Ee.
    - unfold allocate_tx_buffer. destruct (tx_buffer_pool s) as [|b pool]; [|inversion Hp; subst; by exists pool, b].
      exists [], (replicate (Z.to_nat LLC_max_size) 0). split; [by rewrite <- Es|]. split; [apply slot_buffer_fresh|done].
    - exists (tx_buffer_pool s), (x :: l). split; [by rewrite <- Es|]. destruct Hpdu as [?|[_ ?]]; done. }
  destruct (IH (s <| tx_buffer_pool := pool |>)) as (ring' & pool' & -> & Hf & Hlen & Hp'); [exact Hr'|exact Hpool|].
  eexists _, pool'. split; [done|]. split; [|split; [cbn; by rewrite Hlen|done]]. constructor; [|done].
  split; [|done]. constructor; cbn; auto; done.
Qed.

Lemma free_retx_spec retx : forall s,
  Forall retx_ok retx -> Forall slot_buffer (tx_buffer_pool s) ->
  exists pool, free_retx retx s = s <| tx_buffer_pool := pool |> /\ Forall slot_buffer pool.
Proof.
  induction retx as [|r retx IH]; intros s Hr Hp; [exists (tx_buffer_pool s); split; [by destruct s|done]|].
  inversion Hr as [|? ? [Hb _ _] Hr']; subst. cbn [free_retx].
  destruct (zlen (rt_pdcp_pdu r) =? 0); [by apply IH|].
  destruct (IH (free_tx_buffer (rt_pdcp_pdu r) s) Hr') as (pool & -> & Hpool); [by constructor|]. by exists pool.
Qed.

(** The invariant, but for what [set_tx_enabled] puts right. *)
Record llc_pre (s : llc) : Prop := LlcPre {
  pv_lcid : 0 <= ll_lcid s < 16;
  pv_sn : is_u8 (sn_counter s);
  pv_crc : tx_crc_size s = crc_len (crc_on s);
  pv_ring : zlen (tx_ring s) = 1024;
  pv_elem : Forall (elem_ok false) (tx_ring s);
  pv_retx : Forall retx_ok (to_retx_list s);
  pv_pool : Forall slot_buffer (tx_buffer_pool s);
  pv_window : am_mode s = true -> 0 < it_arq_window_size (ll_tx_config s) <= zlen (sn_ring s) }.

Lemma llc_inv_pre s : llc_inv s -> llc_pre s.
Proof. intros []. constructor; try done. eapply Forall_impl; [|exact vi_elem]. intros. by eapply elem_ok_false. Qed.

Lemma set_tx_enabled_spec v s : llc_pre s ->
  let s' := set_tx_enabled v s in
  llc_inv s' /\ ll_tx_enabled s' = v /\ ll_tx_config s' = ll_tx_config s /\ sn_ring s' = sn_ring s /\
  to_retx_list s' = [] /\ to_ack_list s' = [] /\ ll_rrc s' = ll_rrc s /\ ll_rx_config s' = ll_rx_config s /\
  (am_mode s = true -> Forall elem_fresh (tx_ring s')).
Proof.
  intros Hpre. cbn zeta. pose proof (pv_elem _ Hpre) as He. pose proof (pv_pool _ Hpre) as Hpo.
  pose proof (pv_retx _ Hpre) as Hre. destruct Hpre. unfold set_tx_enabled. set (s0 := s <| ll_tx_enabled := v |>).
  change (am_mode s0) with (am_mode s). destruct (am_mode s) eqn:Em.
  - destruct (renew_ring_spec (tx_ring s0) s0) as (ring & pool & -> & Hf & Hlen & Hp); [exact He|exact Hpo|].
    destruct (free_retx_spec (to_retx_list s) ((s0 <| tx_buffer_pool := pool |>) <| tx_ring := ring |>))
      as (pool' & E & Hp'); [exact Hre|exact Hp|].
    change (to_retx_list (upd tx_ring _ _)) with (to_retx_list s). rewrite E. split; [|done].
    constructor; try done; cbn.
    + unfold zlen in *. rewrite Hlen. done.
    + change (am_mode _) with (am_mode s). rewrite Em. eapply Forall_impl; [|exact Hf]. by intros e [? _].
    + intros _. by apply pv_window0.
  - destruct (free_retx_spec (to_retx_list s) s0) as (pool' & E & Hp'); [exact Hre|exact Hpo|].
    change (to_retx_list s0) with (to_retx_list s). rewrite E. split; [|done]. constructor; try done; cbn.
    + change (am_mode _) with (am_mode s). by rewrite Em.
    + change (am_mode _) with (am_mode s). by rewrite Em.
Qed.

(** A configuration the object can take: the window fits the ring of sequence
    numbers, and the CRC stays on once it is. *)
Definition tx_config_ok (config : illc_tx_config) (s : llc) : Prop :=
  (it_mode config = E_TX_MODE_AM -> 0 < it_arq_window_size config <= zlen (sn_ring s)) /\
  (it_crc_type config = E_CRC_TYPE_CRC32_04C11DB7 \/ crc_on s = false).

Lemma configure_crc_size_spec s :
  exists a b, configure_crc_size s = (s <| tx_crc_size := a |>) <| rx_crc_size := b |> /\
    a = if crc_on s then 4 else tx_crc_size s.
Proof.
  unfold configure_crc_size, crc_on. rewrite !decide_bool. destruct (bool_decide (it_crc_type _ = _)) eqn:E1.
  - change (ll_rx_config (upd tx_crc_size _ s)) with (ll_rx_config s).
    destruct (bool_decide (ir_crc_type _ = _)); [by eexists 4, 4|]. exists 4, (rx_crc_size s). split; [by destruct s|done].
  - destruct (bool_decide (ir_crc_type _ = _)); [exists (tx_crc_size s), 4|exists (tx_crc_size s), (rx_crc_size s)];
      (split; [by destruct s|done]).
Qed.

Lemma reconfigure_tx_inv config s : llc_inv s -> tx_config_ok config s ->
  let s' := llc_reconfigure_tx config s in
  llc_inv s' /\ ll_tx_enabled s' = ll_tx_enabled s /\ ll_tx_config s' = config /\ sn_ring s' = sn_ring s /\
  ll_rrc s' = ll_rrc s /\ ll_rx_config s' = ll_rx_config s.
Proof.
  intros Hi [Hw Hc]. cbn zeta. unfold llc_reconfigure_tx.
  destruct (configure_crc_size_spec (s <| ll_tx_config := config |>)) as (a & b & -> & Ha).
  set (s1 := (_ <| tx_crc_size := a |>) <| rx_crc_size := b |>).
  assert (llc_pre s1) as Hpre.
  { pose proof (llc_inv_pre s Hi) as Hp0. pose proof (pv_crc _ Hp0) as Hcrc. destruct Hp0. constructor; try done.
    - change (a = crc_len (crc_on (s <| ll_tx_config := config |>))). rewrite Ha. unfold crc_on. cbn [ll_tx_config upd].
      destruct Hc as [Hc|Hc].
      + change (ll_tx_config (upd ll_tx_config _ s)) with config. by rewrite Hc.
      + change (tx_crc_size (upd ll_tx_config _ s)) with (tx_crc_size s). rewrite Hcrc, Hc. by case_bool_decide.
    - intros Em. apply Hw. unfold am_mode in Em. by apply bool_decide_eq_true in Em. }
  destruct (set_tx_enabled_spec (ll_tx_enabled s1) s1 Hpre) as (? & ? & ? & ? & _ & _ & ? & ? & _). done.
Qed.

Lemma reconfigure_rx_inv config s : llc_inv s -> llc_inv (llc_reconfigure_rx config s).
Proof.
  intros Hi. unfold llc_reconfigure_rx. set (c := config <| ir_auto_init_on_rx := _ |>).
  destruct (configure_crc_size_spec (s <| ll_rx_config := c |>)) as (a & b & -> & Ha). destruct Hi.
  constructor; try done. change (a = crc_len (crc_on s)). rewrite Ha. change (crc_on (upd ll_rx_config _ s)) with (crc_on s).
  by destruct (crc_on s).
Qed.

(** The constructor. *)
Definition llc_new_ok (lcid : Z) (tx : illc_tx_config) : Prop :=
  0 <= lcid < 16 /\ 0 <= it_arq_window_size tx /\ (it_mode tx = E_TX_MODE_AM -> 0 < it_arq_window_size tx).

Lemma llc_new_inv lcid tx rx : llc_new_ok lcid tx ->
  llc_inv (llc_new lcid tx rx) /\ ll_tx_config (llc_new lcid tx rx) = tx /\ ll_rrc (llc_new lcid tx rx) = [] /\
  ir_auto_init_on_rx (ll_rx_config (llc_new lcid tx rx)) = false.
Proof.
  intros (Hl & H0 & Hw). unfold llc_new. set (s0 := LLC lcid _ _ _ _ _ _ _ _ _ _ _ _ _ _).
  assert (llc_inv s0) as Hi.
  { constructor; try done.
    - apply Forall_replicate. constructor; cbn; auto; done. }
  destruct (reconfigure_tx_inv tx s0 Hi) as (Hi1 & _ & Hc1 & _ & Hr1 & Hx1).
  { split; [|by right]. intros Hm. specialize (Hw Hm). unfold s0. cbn [sn_ring]. rewrite zlen_replicate. lia. }
  set (s1 := llc_reconfigure_tx tx s0) in *. split; [by apply reconfigure_rx_inv|].
  unfold llc_reconfigure_rx. set (c := rx <| ir_auto_init_on_rx := _ |>).
  destruct (configure_crc_size_spec (s1 <| ll_rx_config := c |>)) as (a & b & -> & _).
  split; [exact Hc1|]. split; [exact Hr1|]. change (ir_auto_init_on_rx (ll_rx_config s1) = false). by rewrite Hx1.
Qed.

(** ** Reachable states *)

Section reach.
Context {P : Type} `{IpdcpLaws P}.

Inductive llc_reach : llc -> P -> Prop :=
  | lr_new lcid tx rx p : llc_new_ok lcid tx -> pdcp_ok p -> llc_reach (llc_new lcid tx rx) p
  | lr_tx_enabled v s p : llc_reach s p -> llc_reach (set_tx_enabled v s) p
  | lr_rx_enabled v s p : llc_reach s p -> llc_reach (set_rx_enabled v s) p
  | lr_reconfigure_tx config s p : llc_reach s p -> tx_config_ok config s -> llc_reach (llc_reconfigure_tx config s) p
  | lr_reconfigure_rx config s p : llc_reach s p -> llc_reach (llc_reconfigure_rx config s) p
  | lr_on_tx m info s p m' info' s' p' : llc_reach s p -> tx_view_ok m info -> pdu_size (out_pdu info) <= 1500 ->
      llc_on_tx m info s p = Ok (m', info', s', p') -> llc_reach s' p'
  | lr_on_rx m b n s p m' s' p' : llc_reach s p -> llc_on_rx m b n s p = Ok (m', s', p') -> pdcp_ok p' -> llc_reach s' p'.

Definition no_init (l : list rrc_call) : Prop := forall lcid, ~ In (OnInit lcid) l.

Lemma llc_reach_inv s p : llc_reach s p ->
  llc_inv s /\ pdcp_ok p /\ ir_auto_init_on_rx (ll_rx_config s) = false /\ no_init (ll_rrc s).
Proof.
  induction 1 as [lcid tx rx p Hn Hp|v s p _ (Hi & Hp & Ha & Hr)|v s p _ (Hi & Hp & Ha & Hr)|config s p _ (Hi & Hp & Ha & Hr) Hc
    |config s p _ (Hi & Hp & Ha & Hr)|m info s p m' info' s' p' _ (Hi & Hp & Ha & Hr) Hv Hn E
    |m b n s p m' s' p' _ (Hi & Hp & Ha & Hr) E Hp'].
  - destruct (llc_new_inv lcid tx rx Hn) as (Hi & _ & Hr & Ha). split_and!; try done. rewrite Hr. by intros ? [].
  - destruct (set_tx_enabled_spec v s (llc_inv_pre s Hi)) as (? & _ & _ & _ & _ & _ & Hr' & Hc' & _).
    rewrite Hr', Hc'. done.
  - split; [by destruct Hi|]. done.
  - destruct (reconfigure_tx_inv config s Hi Hc) as (? & _ & _ & _ & Hr' & Hc'). by rewrite Hr', Hc'.
  - split; [by apply reconfigure_rx_inv|]. split; [done|]. unfold llc_reconfigure_rx.
    destruct (configure_crc_size_spec (s <| ll_rx_config := config <| ir_auto_init_on_rx := ir_auto_init_on_rx (ll_rx_config s) |> |>))
      as (a & b & -> & _). done.
  - destruct (llc_on_tx_config m info s p m' info' s' p' Hi Hp Hv Hn E) as (Hi' & Hp' & [_ [_ Hc] _ _] & Hr').
    rewrite Hc. split_and!; try done. destruct Hr' as [-> | ->]; [done|]. intros k [Hk|[Hk|[]]]%in_app_or; [by apply (Hr k)|done].
  - assert (llc_inv s') as Hi' by by eapply on_rx_inv. split; [done|]. split; [done|].
    destruct (on_rx_cases _ _ _ _ _ _ _ _ E) as [->|[[Ha' _]|[[sns Hs]|(sn & _ & ->)]]].
    + done.
    + by rewrite Ha in Ha'.
    + destruct (ack_all_inv _ _ _ Hi Hs) as (_ & -> & ->). done.
    + destruct (rx_acknowledge_eq sn s) as [l ->]. done.
Qed.

(** ** Properties *)

(** C10: what one call of [on_tx] sends. In every reachable state of the LLC, a
    call with a view of up to 1500 bytes returns, keeps the state well formed
    and touches no byte outside the view. Behind one another it puts into the
    view the PDU of the acknowledgements that fit and, if data is allowed and
    there is room, one data PDU with the right header, sequence number and CRC;
    it reports their size. The data PDU, the state and the PDCP are those of
    one step of the abstract machine [data_step]: the PDU at the front of the
    queue again, or a new one from the PDCP. *)
Theorem llc_on_tx_sends m info s p :
  llc_reach s p -> ll_tx_enabled s = true -> tx_view_ok m info -> pdu_size (out_pdu info) <= 1500 ->
  exists s1 o m' info' s' p', check_retransmit (in_slot_number info) s = Ok s1 /\
    llc_on_tx m info s p = Ok (m', info', s', p') /\ tx_done m info s1 p o m' info' s' p'.
Proof.
  intros Hr Hon Hv Hn. destruct (llc_reach_inv s p Hr) as (Hi & Hp & _).
  destruct (llc_on_tx_spec m info s p Hi Hon Hp Hv Hn) as (s1 & o & m' & info' & s' & p' & ? & ? & _ & ?).
  by exists s1, o, m', info', s', p'.
Qed.

(** [auto_init_on_rx] has no effect: each [reconfigure] keeps the old value,
    and the constructor goes through it, so the flag is never set and the LLC
    never asks the RRC to set up the channel. *)
Theorem llc_auto_init_dead s p :
  llc_reach s p -> ir_auto_init_on_rx (ll_rx_config s) = false /\ no_init (ll_rrc s).
Proof. intros Hr. by destruct (llc_reach_inv s p Hr) as (_ & _ & ?). Qed.
End reach.

(** ** An example: an LLC in acknowledged mode with one frame in its PDCP *)

Definition llc_example_with (rlf : bool) (window max : Z) : llc :=
  set_tx_enabled true (llc_new 4 (IllcTx rlf E_TX_MODE_AM window max E_CRC_TYPE_CRC32_04C11DB7)
                         (IllcRx E_TX_MODE_AM E_CRC_TYPE_CRC32_04C11DB7 false)).
Definition llc_example_of (window : Z) : llc := llc_example_with false window 3.
Definition llc_example : llc := llc_example_of 8.
Definition pdcp_example : pdcp := Pdcp ptx_example (prx_new 4 (PrxConfig false true true 16)).
Definition view_example : tx_info_t := TxInfo 1 true false false (Pdu 0 60) 0.

Lemma pdcp_example_ok : pdcp_ok pdcp_example.
Proof. split; [exact ptx_example_inv|done]. Qed.
Lemma llc_example_of_facts window : 0 < window ->
  let s := llc_example_of window in
  llc_inv s /\ ll_tx_enabled s = true /\
  ll_tx_config s = IllcTx false E_TX_MODE_AM window 3 E_CRC_TYPE_CRC32_04C11DB7 /\
  Forall elem_fresh (tx_ring s).
Proof.
  intros Hw. cbn zeta. unfold llc_example_of, llc_example_with. set (tx := IllcTx _ _ _ _ _). set (s0 := llc_new _ _ _).
  destruct (llc_new_inv 4 tx (IllcRx E_TX_MODE_AM E_CRC_TYPE_CRC32_04C11DB7 false)) as (Hi & Hc & _);
    [cbn; split; [lia|]; cbn; lia|]. fold s0 in Hi, Hc.
  destruct (set_tx_enabled_spec true s0 (llc_inv_pre s0 Hi)) as (Hi1 & Hon & Hc1 & _ & _ & _ & _ & _ & Hf).
  split; [done|]. split; [done|]. split; [by rewrite Hc1|]. apply Hf. unfold am_mode. by rewrite Hc.
Qed.
Lemma llc_example_of_reach window : 0 < window -> llc_reach (llc_example_of window) pdcp_example.
Proof.
  intros Hw. apply (lr_tx_enabled true (llc_new _ _ _)), lr_new; [|exact pdcp_example_ok].
  split; [lia|]. cbn. split; [lia|]. intros _. lia.
Qed.
Lemma llc_example_facts :
  llc_inv llc_example /\ ll_tx_enabled llc_example = true /\
  ll_tx_config llc_example = IllcTx false E_TX_MODE_AM 8 3 E_CRC_TYPE_CRC32_04C11DB7 /\
  Forall elem_fresh (tx_ring llc_example).
Proof. exact (llc_example_of_facts 8 eq_refl). Qed.
Lemma llc_example_reach : llc_reach llc_example pdcp_example.
Proof. exact (llc_example_of_reach 8 eq_refl). Qed.
Lemma view_example_ok : tx_view_ok (replicate 60 0) view_example.
Proof. split_and!; [apply (view_replicate 60 0 60); ulia|cbn; ulia..]. Qed.

Lemma llc_on_tx_sends_witness :
  tx_view_ok (replicate 60 0) view_example /\
  exists s1 o m' info' s' p', check_retransmit 1 llc_example = Ok s1 /\
    llc_on_tx (replicate 60 0) view_example llc_example pdcp_example = Ok (m', info', s', p') /\
    tx_done (replicate 60 0) view_example s1 pdcp_example o m' info' s' p'.
Proof.
  split; [exact view_example_ok|]. change 1 with (in_slot_number view_example).
  generalize llc_example_reach, (proj1 (proj2 llc_example_facts)). generalize llc_example. intros s Hr Hon.
  apply (llc_on_tx_sends _ _ _ _ Hr Hon view_example_ok). vm_compute. congruence.
Defined.

Lemma llc_auto_init_dead_witness :
  ir_auto_init_on_rx (ll_rx_config (llc_reconfigure_rx (IllcRx E_TX_MODE_AM E_CRC_TYPE_NONE true) llc_example)) = false.
Proof.
  apply (llc_auto_init_dead _ pdcp_example), lr_reconfigure_rx, llc_example_reach.
Defined.
