(* ===== verification/LlcArq.v ===== *)
(** * Automatic repeat: no PDU is forgotten

    The data PDUs an LLC in acknowledged mode has taken from the PDCP are, at
    any time, in a slot of the ring and not acknowledged, or queued to be sent
    again, or gone: acknowledged, or dropped after too many retries. A PDU in
    a slot is checked within [arq_window_size] slots. *)

From Stdlib Require Import Permutation.
From S2P Require Import Prelude Mem SafeInt LlcFrame Crc LlcCrc Info Pdcp Llc LlcTx LlcRx LlcConf.

(** ** What is pending *)

Definition flight_of (e : tx_ring_elem_t) : list (list Z) :=
  if te_acknowledged e then [] else [retx_data (retx_of e)].
Definition flight (ring : list tx_ring_elem_t) : list (list Z) := concat (map flight_of ring).
Definition pending (s : llc) : list (list Z) := flight (tx_ring s) ++ map retx_data (to_retx_list s).

Lemma flight_insert ring i e e' : ring !! i = Some e ->
  Permutation (flight_of e ++ flight (<[i := e']> ring)) (flight_of e' ++ flight ring).
Proof.
  unfold flight. revert i. induction ring as [|x ring IH]; intros [|i] H; try done; cbn in *.
  - injection H as ->. rewrite !app_assoc. apply Permutation_app_tail, Permutation_app_comm.
  - rewrite (Permutation_app_swap_app (flight_of e)), (Permutation_app_swap_app (flight_of e')).
    apply Permutation_app_head. by apply IH.
Qed.

Lemma flight_alter_same f ring j : (forall e, flight_of (f e) = flight_of e) -> flight (alter f j ring) = flight ring.
Proof.
  intros Hf. unfold flight. f_equal. apply list_eq. intros k. rewrite !list_lookup_fmap.
  destruct (decide (j = k)) as [->|]; [rewrite list_lookup_alter_eq|by rewrite list_lookup_alter_ne].
  destruct (ring !! k); cbn; [by rewrite Hf|done].
Qed.

(** The slot that is filled must be free. *)
Lemma flight_kept i j id count d ring e :
  ring !! i = Some e -> te_acknowledged e = true ->
  Permutation (flight (kept_ring i j id count d ring)) (d :: flight ring).
Proof.
  intros He Ha. unfold kept_ring. rewrite flight_alter_same by done. rewrite (alter_at _ _ _ _ He).
  pose proof (flight_insert ring i e (kept_elem id count d e) He) as Hp.
  assert (flight_of e = []) as Ee by (unfold flight_of; by rewrite Ha). rewrite Ee in Hp. cbn [app] in Hp.
  rewrite Hp. assert (flight_of (kept_elem id count d e) = [d]) as ->; [|done].
  unfold flight_of, kept_elem, retx_data, retx_of. cbn. unfold slice, zlen.
  change (Z.to_nat 0) with 0%nat. by rewrite Nat2Z.id, drop_0, take_app_length.
Qed.

(** ** The invariant of the ring *)

(** The PDU in slot [i] was sent in slot [t], and the slot that checks it
    points to it. *)
Definition checked_by (s : llc) (t : Z) (i : nat) : Prop :=
  slot_idx t = i /\ exists c, tx_ring s !! slot_idx (t + window s) = Some c /\ sent_index c = Z.of_nat i.

Record arq_inv (now : Z) (sent_now : bool) (s : llc) : Prop := ArqInv {
  ai_llc : llc_inv s;
  ai_am : am_mode s = true;
  ai_window : 0 < window s < 1024;
  ai_checked i e : tx_ring s !! i = Some e -> te_acknowledged e = false ->
    exists t, now - window s < t <= now /\ checked_by s t i /\ (t = now -> sent_now = true) }.

Lemma slot_idx_inj t t' : - 1024 < t - t' < 1024 -> slot_idx t = slot_idx t' -> t = t'.
Proof. unfold slot_idx. intros. lia. Qed.

(** *** The check of a slot *)

Lemma due_at s t i e :
  llc_inv s -> am_mode s = true -> checked_by s t i -> tx_ring s !! i = Some e -> te_acknowledged e = false ->
  due (t + window s) s = Some (i, e).
Proof.
  intros Hi Hm (Hti & c & Hc & Hs) He Ha. unfold due. rewrite Hm. cbn [negb]. rewrite Hc. cbn [mbind option_bind].
  rewrite Hs. assert (slot_idx (Z.of_nat i) = i) as ->.
  { pose proof (slot_idx_lt t). unfold slot_idx in *. lia. }
  rewrite He. cbn [mbind option_bind]. by rewrite Ha.
Qed.

(** The state after the check: pending is the same, and the PDU that was due
    is in no slot any more. *)
Lemma check_pending slot s s' :
  llc_inv s -> am_mode s = true -> check_retransmit slot s = Ok s' ->
  Permutation (pending s') (pending s) /\ window s' = window s /\ am_mode s' = true /\
  to_ack_list s' = to_ack_list s /\ sn_counter s' = sn_counter s /\ sn_ring s' = sn_ring s /\
  (forall t i, checked_by s t i -> checked_by s' t i) /\
  (forall i e, tx_ring s' !! i = Some e -> te_acknowledged e = false ->
     tx_ring s !! i = Some e /\ due slot s <> Some (i, e)).
Proof.
  intros Hi Hm E. destruct (check_retransmit_spec slot s Hi) as (s1 & E1 & Hi1 & Hd).
  rewrite E1 in E. injection E as ->. destruct (due slot s) as [[i e]|] eqn:Edue.
  2:{ subst s'. by split_and!. }
  destruct Hd as (pool & b & Hb & ->).
  assert (tx_ring s !! i = Some e /\ te_acknowledged e = false) as [He Ha].
  { unfold due in Edue. rewrite Hm in Edue. cbn [negb] in Edue.
    destruct (tx_ring s !! slot_idx slot) as [this|]; [|done]. cbn [mbind option_bind] in Edue.
    destruct (tx_ring s !! slot_idx (sent_index this)) as [x|] eqn:Ex; [|done]. cbn [mbind option_bind] in Edue.
    destruct (te_acknowledged x) eqn:Ea; [done|]. injection Edue as <- <-. done. }
  set (e' := (e <| te_acknowledged := true |>) <| te_pdcp_pdu := b |>).
  split_and!; try done.
  - unfold pending. cbn. rewrite map_app, app_assoc. pose proof (flight_insert (tx_ring s) i e e' He) as Hp.
    assert (flight_of e = [retx_data (retx_of e)]) as Ee by (unfold flight_of; by rewrite Ha).
    rewrite Ee in Hp. cbn [app] in Hp. change (flight_of e') with (@nil (list Z)) in Hp. cbn [app map] in *.
    rewrite <- Permutation_cons_append, app_comm_cons. by apply Permutation_app_tail.
  - intros t j (Hti & c & Hc & Hs). split; [done|]. change (window _) with (window s). cbn.
    destruct (decide (slot_idx (t + window s) = i)) as [E|].
    + rewrite E, list_lookup_insert_eq by by eapply lookup_lt_Some. exists e'. split; [done|].
      rewrite E in Hc. assert (c = e) as -> by congruence. done.
    + rewrite list_lookup_insert_ne by done. by exists c.
  - intros j x Hj Hx. cbn in Hj. destruct (decide (i = j)) as [<-|].
    + rewrite list_lookup_insert_eq in Hj by by eapply lookup_lt_Some. injection Hj as <-. done.
    + rewrite list_lookup_insert_ne in Hj by done. split; [done|]. congruence.
Qed.

(** *** Sending *)

Lemma kept_ring_lookup i j id count d (ring : list tx_ring_elem_t) (k : nat) (e' : tx_ring_elem_t) :
  kept_ring i j id count d ring !! k = Some e' <-> exists e, ring !! k = Some e /\
    let x := if decide (i = k) then kept_elem id count d e else e in
    e' = if decide (j = k) then x <| sent_index := Z.of_nat i |> else x.
Proof.
  unfold kept_ring. rewrite lookup_alter_if. setoid_rewrite lookup_alter_if. split.
  - intros (x & (e & He & ->) & ->). by exists e.
  - intros (e & He & ->). eauto.
Qed.

(** The index of a slot after a send, and whether it is free. *)
Lemma kept_ring_elem i j id count d (ring : list tx_ring_elem_t) (k : nat) (e' : tx_ring_elem_t) :
  kept_ring i j id count d ring !! k = Some e' -> exists e, ring !! k = Some e /\
    te_acknowledged e' = (if decide (i = k) then false else te_acknowledged e).
Proof.
  intros (e & He & ->)%kept_ring_lookup. exists e. split; [done|]. cbn zeta. by destruct (decide (j = k)), (decide (i = k)).
Qed.
Lemma kept_ring_index i j id count d (ring : list tx_ring_elem_t) k e :
  ring !! k = Some e -> exists e', kept_ring i j id count d ring !! k = Some e' /\
    sent_index e' = (if decide (j = k) then Z.of_nat i else sent_index e).
Proof.
  intros He. eexists. split; [apply kept_ring_lookup; exists e; split; [done|reflexivity]|].
  by destruct (decide (j = k)), (decide (i = k)).
Qed.

Lemma kept_facts slot sn d retx count s :
  am_mode s = true ->
  let s' := kept slot sn d retx count s in
  tx_ring s' = kept_ring (slot_idx slot) (check_idx slot s) (default (ll_tx_id s) retx) count d (tx_ring s) /\
  to_retx_list s' = to_retx_list s /\ window s' = window s /\ am_mode s' = true.
Proof. intros Em. unfold kept. rewrite Em. by destruct retx. Qed.

Lemma kept_arq now sn d retx count s :
  arq_inv now false s -> bytes_ok d -> 0 < zlen d <= 1500 -> is_u64 count ->
  arq_inv now true (kept now sn d retx count s) /\
  Permutation (pending (kept now sn d retx count s)) (d :: pending s).
Proof.
  intros [Hi Hm Hw Hch] Hd Hl Hc. destruct (kept_facts now sn d retx count s Hm) as (Hr & Hq & Hwin & Hm').
  pose proof (slot_idx_lt now) as Hlt. pose proof (vi_ring _ Hi) as Hlen.
  destruct (ring_elem s (slot_idx now) Hi Hlt) as (e0 & He0 & _).
  assert (te_acknowledged e0 = true) as Ha0.
  { destruct (te_acknowledged e0) eqn:Ea; [done|]. destruct (Hch _ _ He0 Ea) as (t & Ht & (Hti & _) & Hn).
    assert (t = now) as -> by (apply slot_idx_inj; [lia|done]). by specialize (Hn eq_refl). }
  split; [|unfold pending; rewrite Hr, Hq, (flight_kept _ _ _ _ _ _ e0 He0 Ha0); done].
  constructor; rewrite ?Hwin; try done; [by apply kept_inv|].
  intros i e' He' Ha'. rewrite Hr in He'.
  destruct (kept_ring_elem _ _ _ _ _ _ _ _ He') as (e & He & Ha).
  rewrite Ha' in Ha. unfold checked_by. rewrite Hwin, Hr. destruct (decide (slot_idx now = i)) as [<-|Hne].
  - exists now. split; [lia|]. split; [|done]. split; [done|].
    destruct (ring_elem s (check_idx now s) Hi (slot_idx_lt _)) as (c & Hcx & _).
    destruct (kept_ring_index (slot_idx now) (check_idx now s) (default (ll_tx_id s) retx) count d _ _ _ Hcx)
      as (c' & Hc' & Hs'). exists c'. split; [exact Hc'|]. by rewrite decide_True in Hs' by done.
  - destruct (Hch i e He (eq_sym Ha)) as (t & Ht & (Hti & c & Hcx & Hs) & Hn). exists t.
    split; [done|]. split; [|done]. split; [done|].
    destruct (kept_ring_index (slot_idx now) (check_idx now s) (default (ll_tx_id s) retx) count d _ _ _ Hcx)
      as (c' & Hc' & Hs'). exists c'. split; [done|]. rewrite Hs'. rewrite decide_False; [done|].
    unfold check_idx. intros E. apply Hne. rewrite <- Hti. f_equal.
    assert (t + window s = now + window s) as Et by (apply slot_idx_inj; [lia|done]). lia.
Qed.

(** *** The data step *)

(** The PDUs that [p] handed over in a call: none or one. *)
Definition handed (d : list Z) : list (list Z) := match d with [] => [] | _ => [d] end.

Lemma arq_same_ring now b s s' :
  arq_inv now b s -> llc_inv s' -> tx_ring s' = tx_ring s -> ll_tx_config s' = ll_tx_config s -> arq_inv now b s'.
Proof.
  intros [Hi Hm Hw Hch] Hi' Hr Hc. assert (window s' = window s) as Hwin by (unfold window; by rewrite Hc).
  constructor; rewrite ?Hwin; try done; [unfold am_mode in *; by rewrite Hc|].
  intros i e He Ha. rewrite Hr in He. destruct (Hch i e He Ha) as (t & Ht & Hcb & Hn). exists t.
  split; [done|]. split; [|done]. unfold checked_by. by rewrite Hwin, Hr.
Qed.

Section step.
Context {P : Type} `{IpdcpLaws P}.

Definition is_data (o : sent) : bool := match o with SData _ => true | _ => false end.

(** What became of the PDUs: [d] came from the PDCP, [gone] was given up after
    too many retries. *)
Definition ledger (s : llc) (p : P) (s' : llc) (p' : P) : Prop :=
  exists d gone, (d = [] /\ p' = p \/ exists n, fetched n p d p') /\
    Permutation (gone ++ pending s') (handed d ++ pending s) /\
    (gone = [] \/ exists r rest, to_retx_list s = r :: rest /\ gone = [retx_data r] /\
       it_max_retx_count (ll_tx_config s) < u64 (rt_retry_count r + 1)).

Lemma fetched_bytes n p d p' : pdcp_ok p -> fetched n p d p' -> bytes_ok d /\ (n <= 1500 -> zlen d <= 1500).
Proof.
  intros Hp (m & info & m' & info' & Ht & Hn & E & Hal & Hd).
  destruct (pdcp_on_tx_ok m info p Hp Ht) as (m1 & k & av & p1 & E1 & _ & Hm & Hk & _).
  rewrite E in E1. injection E1 as -> -> ->. split; [rewrite Hd; by apply bytes_ok_slice|].
  change (out_allocated (upd out_tx_available _ _)) with (out_allocated info + k) in Hal. lia.
Qed.

(** A PDU leaves the queue. *)
Lemma pending_queue s r rest s' :
  to_retx_list s = r :: rest -> to_retx_list s' = rest -> tx_ring s' = tx_ring s ->
  Permutation (retx_data r :: pending s') (pending s).
Proof.
  intros Er Er' Hr. unfold pending. rewrite Er, Er', Hr. cbn [map]. apply Permutation_middle.
Qed.

Lemma handed_one d : 0 < zlen d -> handed d = [d].
Proof. by destruct d. Qed.

Lemma data_step_arq now room s p o s' p' :
  arq_inv now false s -> pdcp_ok p -> room <= 1500 -> data_step now room s p o s' p' ->
  arq_inv now (is_data o) s' /\ ledger s p s' p'.
Proof.
  intros Hi Hp Hroom Hst. pose proof (ai_llc _ _ _ Hi) as Hl.
  assert (forall s2, llc_inv s2 -> tx_ring s2 = tx_ring s -> ll_tx_config s2 = ll_tx_config s -> arq_inv now false s2)
    as Hsame by (intros; by eapply arq_same_ring).
  destruct Hst as [n p1 Hn Hf|d p1 Er Hf Hd|r rest p1 Er Hfit Hmax Hf|r rest p1 Er Hmax Hrlf Hf|r rest d p1 Er Hmax Hrlf Hf Hd|r rest Er Hmax Hrlf];
    cbn [is_data].
  - split; [done|]. exists [], []. split; [right; by exists n|]. split; [done|by left].
  - destruct (fetched_bytes _ _ _ _ Hp Hf) as [Hb _].
    destruct (kept_arq now (sn_counter s) d None 0 (increment_sn s)) as [Ha Hpe]; try done; [|lia|].
    { apply Hsame; [by apply increment_inv|done|done]. }
    split; [done|]. exists d, []. split; [right; by exists room|]. rewrite handed_one by lia. split; [done|by left].
  - pose proof (vi_retx _ Hl) as Hr. rewrite Er in Hr. inversion Hr as [|? ? [[Hz Hzb] Hsz _] _]; subst.
    assert (zlen (retx_data r) = rt_pdcp_pdu_size r) as Hzd by (unfold retx_data; apply zlen_slice; lia).
    destruct (kept_arq now (sn_counter s) (retx_data r) (Some (rt_llc_tx_id r)) (u64 (rt_retry_count r + 1))
      (increment_sn (retx_done r rest s))) as [Ha Hpe]; [|by apply bytes_ok_slice|lia|apply u64_range|].
    { apply Hsame; [apply increment_inv; by eapply retx_done_inv|done|done]. }
    split; [done|]. exists [], []. split; [right; by exists 0|]. split; [|by left]. cbn [app handed].
    rewrite Hpe. by apply (pending_queue s r rest).
  - split; [apply Hsame; [by eapply retx_drop_inv|done|done]|]. exists [], [retx_data r].
    split; [right; by exists room|]. split; [by apply (pending_queue s r rest)|]. right. by exists r, rest.
  - destruct (fetched_bytes _ _ _ _ Hp Hf) as [Hb _].
    destruct (kept_arq now (sn_counter s) d (Some (rt_llc_tx_id r)) (u64 (rt_retry_count r + 1))
      (increment_sn (s <| to_retx_list := rest |>))) as [Ha Hpe]; [|done|lia|apply u64_range|].
    { apply Hsame; [apply increment_inv; by eapply retx_drop_inv|done|done]. }
    split; [done|]. exists d, [retx_data r]. split; [right; by exists room|]. rewrite handed_one by lia.
    split; [|right; by exists r, rest]. rewrite Hpe. cbn [app]. rewrite perm_swap. apply perm_skip.
    by apply (pending_queue s r rest).
  - split; [apply Hsame; [|done|done]|].
    { pose proof (retx_drop_inv r rest s Hl Er) as Hd. destruct Hd. by constructor. }
    exists [], [retx_data r]. split; [by left|]. split; [by apply (pending_queue s r rest)|]. right. by exists r, rest.
Qed.

(** ** A call of [on_tx] *)

(** The check leaves what can be sent in the slot. *)
Lemma check_arq now b slot s s1 :
  arq_inv now b s -> slot = now + 1 \/ slot = now -> check_retransmit slot s = Ok s1 -> llc_inv s1 ->
  arq_inv slot (if decide (slot = now) then b else false) s1 /\ Permutation (pending s1) (pending s).
Proof.
  intros [Hi Hm Hw Hch] Hs E Hi1. destruct (check_pending slot s s1 Hi Hm E) as (Hp & Hwin & Hm1 & _ & _ & _ & Hcb & Hun).
  split; [|done]. constructor; rewrite ?Hwin; try done. intros i e He Ha. destruct (Hun i e He Ha) as [He0 Hdue].
  destruct (Hch i e He0 Ha) as (t & Ht & Hc & Hn). exists t.
  assert (t <> slot - window s) as Hne.
  { intros ->. apply Hdue. replace slot with (slot - window s + window s) at 1 by lia. by eapply due_at. }
  split; [lia|]. split; [by apply Hcb|]. intros ->. destruct Hs as [-> | ->]; [lia|]. rewrite decide_True by done. by apply Hn.
Qed.

Lemma arq_weaken now s b : arq_inv now false s -> arq_inv now b s.
Proof.
  intros [Hi Hm Hw Hch]. constructor; try done. intros i e He Ha. destruct (Hch i e He Ha) as (t & Ht & Hc & Hn).
  exists t. split; [done|]. split; [done|]. intros E. by specialize (Hn E).
Qed.

(** A step without data. *)
Lemma data_step_quiet now b room s p s' p' :
  arq_inv now b s -> data_step now room s p SNothing s' p' -> arq_inv now b s' /\ ledger s p s' p'.
Proof.
  intros Hi Hst. inversion Hst as [n p1 Hn Hf| | |r rest p1 Er Hmax Hrlf Hf| |]; subst.
  - split; [done|]. exists [], []. split; [right; by exists n|]. split; [done|by left].
  - split; [eapply arq_same_ring; [exact Hi|by eapply retx_drop_inv, Er; apply Hi|done|done]|].
    exists [], [retx_data r]. split; [right; by exists room|]. split; [by apply (pending_queue s r rest)|].
    right. by exists r, rest.
Qed.

(** Whether data was sent in the slot before the call. *)
Definition sent_before (now : Z) (sent_now : bool) (slot : Z) : bool := if decide (slot = now) then sent_now else false.

(** The call in steps: the check, the acknowledgements, the data. *)
Record call_steps (now : Z) (b : bool) (s : llc) (p : P) (info info' : tx_info_t) (s' : llc) (p' : P)
    (s1 x : llc) (o : sent) : Prop := CallSteps {
  cs_check : check_retransmit (in_slot_number info) s = Ok s1;
  cs_next : in_slot_number info = now + 1 \/ in_slot_number info = now;
  cs_inv : llc_inv s1 /\ llc_inv x;
  cs_acks : tx_ring x = tx_ring s1 /\ sn_ring x = sn_ring s1 /\ sn_counter x = sn_counter s1 /\
            to_retx_list x = to_retx_list s1 /\ ll_tx_config x = ll_tx_config s1;
  cs_data : exists room, room <= 1500 /\ data_step (in_slot_number info) room x p o s' p';
  cs_sent : sent_before now b (in_slot_number info) = true -> o = SNothing;
  cs_loaded : is_data o = true -> sent_after now b info info' = true;
  cs_again : sent_before now b (in_slot_number info) = true -> sent_after now b info info' = true;
  cs_pdcp : pdcp_ok p' }.

Lemma call_in_steps now b s p m info m' info' s' p' :
  llc_inv s -> ll_tx_enabled s = true -> pdcp_ok p -> call_ok now b m info ->
  llc_on_tx m info s p = Ok (m', info', s', p') ->
  exists s1 x o, call_steps now b s p info info' s' p' s1 x o.
Proof.
  intros Hl Hon Hp [Hv Hn Hs Hfl] E.
  destruct (llc_on_tx_spec m info s p Hl Hon Hp Hv Hn) as (s1 & o & m1 & i1 & s2 & p2 & E1 & E2 & Hi1 & Ht).
  rewrite E in E2. injection E2 as <- <- <- <-. destruct Ht as [Hst (_ & Hp' & _) _ Hna Hld _].
  set (n := pdu_size (out_pdu info)) in *. exists s1, (after_acks n s1), o. constructor; try done.
  - destruct Hs as [?|[? _]]; auto.
  - split; [done|]. by apply after_acks_facts.
  - unfold after_acks. by destruct (with_acks n s1).
  - exists (data_room n s1). split; [|done]. unfold data_room. pose proof (hdr_len_of_range (crc_on s1)).
    pose proof (zlen_nonneg (ack_pdu n s1)). destruct (with_acks n s1); lia.
  - unfold sent_before. case_decide as Hd; [|done]. intros ->. apply Hna. left. destruct Hs as [?|[_ Hx]]; [lia|by apply Hx].
  - destruct o as [|d|]; try done. intros _. unfold sent_after. by rewrite (Hld d eq_refl).
  - unfold sent_after, sent_before. intros ->. apply orb_true_r.
Qed.

Lemma call_arq now b s p m info m' info' s' p' :
  arq_inv now b s -> ll_tx_enabled s = true -> pdcp_ok p -> call_ok now b m info ->
  llc_on_tx m info s p = Ok (m', info', s', p') ->
  exists s1, check_retransmit (in_slot_number info) s = Ok s1 /\ llc_inv s1 /\
    Permutation (pending s1) (pending s) /\ ledger s1 p s' p' /\
    arq_inv (in_slot_number info) (sent_after now b info info') s' /\ pdcp_ok p'.
Proof.
  intros Hi Hon Hp Hc E.
  destruct (call_in_steps now b s p m info m' info' s' p' (ai_llc _ _ _ Hi) Hon Hp Hc E) as (s1 & x & o & Hcs).
  destruct Hcs as [E1 Hs' [Hi1 Hix] (Hr & _ & _ & Hq & Hcf) (room & Hroom & Hst) Hsent Hld Hagain Hp'].
  exists s1. split; [done|]. split; [done|].
  destruct (check_arq now b (in_slot_number info) s s1 Hi Hs' E1 Hi1) as [Ha1 Hp1]. split; [done|].
  fold (sent_before now b (in_slot_number info)) in Ha1.
  assert (arq_inv (in_slot_number info) (sent_before now b (in_slot_number info)) x) as Ha2 by by eapply arq_same_ring.
  assert (ledger x p s' p' -> ledger s1 p s' p') as Hback by (unfold ledger, pending; by rewrite Hr, Hq, Hcf).
  destruct (sent_before now b (in_slot_number info)) eqn:Eb.
  - rewrite (Hsent eq_refl) in Hst. rewrite (Hagain eq_refl).
    destruct (data_step_quiet _ _ _ _ _ _ _ Ha2 Hst) as [Ha3 Hl3]. auto.
  - destruct (data_step_arq _ _ _ _ _ _ _ Ha2 Hp Hroom Hst) as [Ha3 Hl3].
    split; [by apply Hback|]. split; [|done].
    destruct (is_data o); [by rewrite (Hld eq_refl)|by apply arq_weaken].
Qed.
End step.

(** ** Acknowledgements *)

Lemma mark_arq now b i s : arq_inv now b s -> arq_inv now b (mark i s).
Proof.
  intros [Hi Hm Hw Hch]. constructor; try done.
  - by apply mark_inv.
  - intros k e' (e & He & ->)%mark_lookup Ha. destruct (decide (i = k)); [done|].
    destruct (Hch k e He Ha) as (t & Ht & (Hti & c & Hc & Hs) & Hn). exists t. split; [done|]. split; [|done].
    split; [done|]. change (window (mark i s)) with (window s).
    eexists. split; [apply mark_lookup; exists c; split; [done|reflexivity]|]. by case_decide.
Qed.

(** What is given up is the PDU of the slot, if it was not acknowledged before. *)
Lemma mark_pending i s e : tx_ring s !! i = Some e ->
  Permutation (flight_of e ++ pending (mark i s)) (pending s).
Proof.
  intros He. unfold pending. change (to_retx_list (mark i s)) with (to_retx_list s).
  change (tx_ring (mark i s)) with (alter (fun e => e <| te_acknowledged := true |>) i (tx_ring s)).
  rewrite (alter_at _ _ _ _ He), app_assoc. apply Permutation_app_tail.
  pose proof (flight_insert (tx_ring s) i e (e <| te_acknowledged := true |>) He) as Hp. exact Hp.
Qed.

Lemma ack_all_arq sns now b s s' : arq_inv now b s -> ack_all sns s = Ok s' ->
  arq_inv now b s' /\ ll_tx_enabled s' = ll_tx_enabled s /\ exists gone, Permutation (gone ++ pending s') (pending s).
Proof.
  revert s. induction sns as [|sn sns IH]; intros s Hi E.
  - injection E as <-. split; [done|]. split; [done|]. by exists [].
  - cbn [ack_all] in E. apply bind_Ok in E as (s1 & E1 & E). destruct (ack_sn_mark _ _ _ E1) as (i & e & He & ->).
    destruct (IH _ (mark_arq now b i s Hi) E) as (Ha & Hen & gone & Hg). split; [done|]. split; [done|].
    exists (flight_of e ++ gone). rewrite <- app_assoc, Hg. by apply mark_pending.
Qed.

(** ** Reception *)

Lemma on_rx_arq {P} `{Ipdcp P} now c m b n s (p : P) m' s' p' :
  arq_inv now c s -> llc_on_rx m b n s p = Ok (m', s', p') ->
  arq_inv now c s' /\ ll_tx_enabled s' = ll_tx_enabled s /\ exists gone, Permutation (gone ++ pending s') (pending s).
Proof.
  intros Hi E. pose proof (ai_llc _ _ _ Hi) as Hl. destruct (on_rx_cases _ _ _ _ _ _ _ _ E) as [->|[[_ ->]|[[sns Hs]|(sn & Hsn & ->)]]].
  - split; [done|]. split; [done|by exists []].
  - split; [|split; [done|by exists []]]. eapply arq_same_ring; [exact Hi| |done|done]. destruct Hl. by constructor.
  - by eapply ack_all_arq.
  - destruct (rx_acknowledge_eq sn s) as [l El].
    pose proof (rx_acknowledge_inv sn s Hl Hsn) as Hl'. rewrite El in *.
    split; [by eapply arq_same_ring|]. split; [done|]. by exists [].
Qed.

(** ** Histories *)

Section history.
Context {P : Type} `{IpdcpLaws P}.

(** Calls of [on_tx], slot by slot, and received PDUs of any content, from the
    states [start]. *)
Inductive arq_from (start : Z -> bool -> llc -> P -> Prop) : Z -> bool -> llc -> P -> Prop :=
  | af_start now b s p : start now b s p -> arq_from start now b s p
  | af_tx now b s p m info m' info' s' p' : arq_from start now b s p -> call_ok now b m info ->
      llc_on_tx m info s p = Ok (m', info', s', p') ->
      arq_from start (in_slot_number info) (sent_after now b info info') s' p'
  | af_rx now b s p m a n m' s' p' : arq_from start now b s p ->
      llc_on_rx m a n s p = Ok (m', s', p') -> pdcp_ok p' -> arq_from start now b s' p'.

(** The LLC after it was switched on. *)
Record arq_start (now : Z) (b : bool) (s : llc) (p : P) : Prop := ArqStart {
  as_inv : llc_inv s;
  as_am : am_mode s = true;
  as_window : 0 < window s < 1024;
  as_enabled : ll_tx_enabled s = true;
  as_free : Forall (fun e => te_acknowledged e = true) (tx_ring s);
  as_pdcp : pdcp_ok p;
  as_sent : b = false }.

Definition arq_reach : Z -> bool -> llc -> P -> Prop := arq_from arq_start.

Definition arq_good (now : Z) (b : bool) (s : llc) (p : P) : Prop :=
  arq_inv now b s /\ ll_tx_enabled s = true /\ pdcp_ok p.

Lemma call_good now b s p m info m' info' s' p' :
  arq_good now b s p -> call_ok now b m info -> llc_on_tx m info s p = Ok (m', info', s', p') ->
  arq_good (in_slot_number info) (sent_after now b info info') s' p'.
Proof.
  intros (Ha & Hon & Hp) Hc E.
  destruct (call_arq now b s p m info m' info' s' p' Ha Hon Hp Hc E) as (s1 & _ & _ & _ & _ & Ha' & Hp').
  split; [done|]. split; [|done]. destruct Hc as [Hv Hn _ _].
  destruct (llc_on_tx_config m info s p m' info' s' p' (ai_llc _ _ _ Ha) Hp Hv Hn E) as (_ & _ & Hcf & _).
  by rewrite (proj1 (sc_tx _ _ Hcf)).
Qed.

Lemma arq_from_good (start : Z -> bool -> llc -> P -> Prop) now b s p :
  (forall now b s p, start now b s p -> arq_good now b s p) -> arq_from start now b s p -> arq_good now b s p.
Proof.
  intros Hst. induction 1 as [now b s p Hs|now b s p m info m' info' s' p' _ IH Hc E
    |now b s p m a n m' s' p' _ (Ha & Hon & Hp) E Hp'].
  - by apply Hst.
  - by eapply call_good.
  - destruct (on_rx_arq _ _ _ _ _ _ _ _ _ _ Ha E) as (Ha' & Hon' & _). split; [done|]. by rewrite Hon'.
Qed.

Lemma arq_reach_good now b s p : arq_reach now b s p -> arq_good now b s p.
Proof.
  apply arq_from_good. clear. intros now b s p [Hi Hm Hw Hon Hf Hp ->]. split; [|done]. constructor; try done.
  intros i e He Hx. rewrite Forall_lookup in Hf. by rewrite (Hf _ _ He) in Hx.
Qed.

(** ** Properties *)

(** C7: no PDU is lost without a trace, and none waits for ever. In every
    history of an LLC in acknowledged mode (a window below 1024, slots in
    order, data at most once a slot), every PDU in a slot of the ring that is
    not acknowledged was sent fewer than [arq_window_size] slots ago, and the
    slot that checks it points to it. In the next call the check of a slot moves
    the PDU that is due to the queue and loses none; after it, the PDUs in
    slots and queue are those from before with the one the PDCP handed over,
    but for at most one that is given up because its retries are used up. *)
Theorem llc_no_pdu_lost now b s p m info m' info' s' p' :
  arq_reach now b s p -> call_ok now b m info -> llc_on_tx m info s p = Ok (m', info', s', p') ->
  (forall i e, tx_ring s !! i = Some e -> te_acknowledged e = false ->
     exists t, now - window s < t <= now /\ checked_by s t i) /\
  exists s1, check_retransmit (in_slot_number info) s = Ok s1 /\
    (forall i e t, tx_ring s !! i = Some e -> te_acknowledged e = false -> checked_by s t i ->
       in_slot_number info = t + window s -> to_retx_list s1 = to_retx_list s ++ [retx_of e]) /\
    Permutation (pending s1) (pending s) /\ ledger s1 p s' p'.
Proof.
  intros Hr Hc E. destruct (arq_reach_good _ _ _ _ Hr) as (Ha & Hon & Hp). split.
  - intros i e He Hx. destruct (ai_checked _ _ _ Ha i e He Hx) as (t & Ht & Hcb & _). by exists t.
  - destruct (call_arq now b s p m info m' info' s' p' Ha Hon Hp Hc E) as (s1 & E1 & _ & Hp1 & Hl & _).
    exists s1. split; [done|]. split; [|done]. intros i e t He Hx Hcb Hs. pose proof (ai_llc _ _ _ Ha) as Hi.
    destruct (check_retransmit_spec (in_slot_number info) s Hi) as (s2 & E2 & _ & Hd). rewrite E1 in E2. injection E2 as <-.
    rewrite Hs, (due_at s t i e Hi (ai_am _ _ _ Ha) Hcb He Hx) in Hd. by destruct Hd as (? & ? & _ & ->).
Qed.
End history.

Lemma llc_example_of_start window now : 0 < window < 1024 ->
  arq_start now false (llc_example_of window) pdcp_example.
Proof.
  intros Hw. destruct (llc_example_of_facts window ltac:(lia)) as (Hi & Hon & Hc & Hf).
  revert Hi Hon Hc Hf. generalize (llc_example_of window). intros s Hi Hon Hc Hf.
  constructor; try done.
  - unfold am_mode. by rewrite Hc.
  - unfold LlcTx.window. by rewrite Hc.
  - eapply Forall_impl; [|exact Hf]. by intros e (_ & ? & _).
  - exact pdcp_example_ok.
Qed.
Lemma llc_example_start now : arq_start now false llc_example pdcp_example.
Proof. exact (llc_example_of_start 8 now (conj eq_refl eq_refl)). Qed.

Lemma view_example_call : call_ok 0 false (replicate 60 0) view_example.
Proof. constructor; [exact view_example_ok|cbn; lia|by left|done]. Qed.

Lemma llc_no_pdu_lost_witness :
  exists m' info' s' p', llc_on_tx (replicate 60 0) view_example llc_example pdcp_example = Ok (m', info', s', p') /\
  exists s1, check_retransmit 1 llc_example = Ok s1 /\ ledger s1 pdcp_example s' p'.
Proof.
  change 1 with (in_slot_number view_example). generalize (llc_example_start 0). generalize llc_example. intros s Hs.
  destruct (llc_on_tx_spec (replicate 60 0) view_example s pdcp_example (as_inv _ _ _ _ Hs) (as_enabled _ _ _ _ Hs)
    pdcp_example_ok view_example_ok ltac:(vm_compute; congruence)) as (_ & _ & m' & info' & s' & p' & _ & E & _).
  exists m', info', s', p'. split; [exact E|].
  destruct (llc_no_pdu_lost 0 false s pdcp_example (replicate 60 0) view_example m' info' s' p'
    (af_start _ _ _ _ _ Hs) view_example_call E) as (_ & s1 & E1 & _ & _ & Hl).
  exists s1. split; [exact E1|exact Hl].
Defined.
