(* ===== verification/LlcLink.v ===== *)
(** * Two LLCs: what one sends the other receives

    The PDUs [llc_on_tx] puts into a frame reach the PDCP and the lists of an
    LLC that runs [llc_on_rx] on them; and an acknowledgement that comes back
    in time frees the slot of the PDU it is for, and no other. *)

From S2P Require Import Prelude Mem SafeInt LlcFrame Crc LlcCrc Info PdcpTx PdcpRx Pdcp Llc LlcTx LlcRx LlcConf LlcArq.

(** ** Sequence numbers *)

(** The sequence number and the rings after a step. *)
Definition numbers_after (slot : Z) (s : llc) (o : sent) (s' : llc) : Prop :=
  match o with
  | SData d =>
    sn_counter s' = u8 (sn_counter s + 1) /\
    sn_ring s' = alter (fun e => e <| ring_idx := Z.of_nat (check_idx slot s) |>)
                   (Z.to_nat (sn_counter s mod window s)) (sn_ring s) /\
    exists id count, tx_ring s' = kept_ring (slot_idx slot) (check_idx slot s) id count d (tx_ring s)
  | _ => sn_counter s' = sn_counter s /\ sn_ring s' = sn_ring s /\ tx_ring s' = tx_ring s
  end.

Lemma kept_numbers slot sn d retx count x s :
  am_mode s = true -> is_u8 (sn_counter s) -> sn = sn_counter s ->
  ll_tx_config x = ll_tx_config s -> sn_counter x = sn_counter s -> sn_ring x = sn_ring s -> tx_ring x = tx_ring s ->
  numbers_after slot s (SData d) (kept slot sn d retx count (increment_sn x)).
Proof.
  intros Hm Hu -> Ec En Es Et. unfold kept. change (am_mode (increment_sn x)) with (am_mode x).
  assert (am_mode x = true) as -> by (unfold am_mode in *; by rewrite Ec).
  change (check_idx slot (increment_sn x)) with (check_idx slot x).
  change (window (increment_sn x)) with (window x). change (tx_ring (increment_sn x)) with (tx_ring x).
  assert (window x = window s) as Ew by (unfold window; by rewrite Ec).
  assert (check_idx slot x = check_idx slot s) as -> by (unfold check_idx; by rewrite Ew).
  pose proof (increment_sn_counter x) as E. rewrite En in E. rewrite Ew, Et.
  destruct retx as [id|]; (split; [by apply E|]; split; [cbn; by rewrite Es|]; eexists _, _; reflexivity).
Qed.

Lemma data_step_numbers {P} `{IpdcpLaws P} slot room s p o s' p' :
  am_mode s = true -> is_u8 (sn_counter s) -> data_step slot room s p o s' p' -> numbers_after slot s o s'.
Proof. intros Hm Hu Hst. destruct Hst; try done; by apply kept_numbers. Qed.

(** The PDU sent in slot [t] under [sn] can still be found by its number in
    slot [now]: one number was used per slot since. *)
Record numbered (t sn now : Z) (b : bool) (s : llc) : Prop := Numbered {
  nu_checked : checked_by s t (slot_idx t);
  nu_ring : exists x, sn_ring s !! Z.to_nat (sn mod window s) = Some x /\
              ring_idx x = Z.of_nat (slot_idx (t + window s));
  nu_count : exists k, 0 < k <= now - t + Z.b2z b /\ sn_counter s = u8 (sn + k) }.

(** In time: fewer than [arq_window_size] slots later, with a window [w] that
    divides the 256 sequence numbers. *)
Record in_time (t sn now w : Z) : Prop := InTime {
  it_now : t <= now < t + w;
  it_sn : is_u8 sn;
  it_divides : (w | 256) }.

Lemma numbered_same t sn now b s s' :
  numbered t sn now b s -> tx_ring s' = tx_ring s -> sn_ring s' = sn_ring s -> sn_counter s' = sn_counter s ->
  window s' = window s -> numbered t sn now b s'.
Proof. intros [Hc Hr Hk] E1 E2 E3 E4. constructor; unfold checked_by; rewrite ?E4, ?E1, ?E2, ?E3; done. Qed.

Lemma numbered_weaken t sn now b s : numbered t sn now false s -> numbered t sn now b s.
Proof. intros [Hc Hr (k & Hk & Ek)]. constructor; try done. exists k. split; [|done]. cbn in Hk. destruct b; cbn; lia. Qed.

(** Another number at most a window later has another place. *)
Lemma sn_place sn k w : is_u8 sn -> 0 < k < w -> (w | 256) ->
  Z.to_nat (sn mod w) <> Z.to_nat (u8 (sn + k) mod w).
Proof.
  intros Hs Hk Hq E. assert (u8 (sn + k) mod w = (sn + k) mod w) as E2 by (apply (Z.mod_mod_divide _ 256 _ Hq)).
  rewrite E2 in E. pose proof (Z.mod_pos_bound sn w ltac:(lia)). pose proof (Z.mod_pos_bound (sn + k) w ltac:(lia)).
  apply Z2Nat.inj in E; [|lia..].
  pose proof (Z.div_mod sn w ltac:(lia)) as D1. pose proof (Z.div_mod (sn + k) w ltac:(lia)) as D2. rewrite <- E in D2.
  revert D1 D2. clear - Hk. generalize (sn mod w), (sn / w), ((sn + k) / w). intros r a c D1 D2.
  destruct (Z.le_gt_cases c a); nia.
Qed.

Lemma numbered_step t sn now s o s' :
  in_time t sn now (window s) -> window s < 1024 -> t < now -> numbered t sn now false s ->
  numbers_after now s o s' -> window s' = window s -> numbered t sn now (is_data o) s'.
Proof.
  intros [Hn Hsn Hdiv] Hw Htn Hnu Hst Ew.
  destruct o as [|d|]; [destruct Hst as (? & ? & ?); by eapply numbered_same| |destruct Hst as (? & ? & ?); by eapply numbered_same].
  destruct Hst as (Hcnt & Hring & id & count & Htx). destruct Hnu as [[_ (c & Hc & Hs)] (x & Hx & Hxi) (k & Hk & Ek)].
  cbn [Z.b2z is_data] in *. constructor; unfold checked_by; rewrite ?Ew.
  - split; [done|]. rewrite Htx. destruct (kept_ring_index (slot_idx now) (check_idx now s) id count d _ _ _ Hc) as (c' & Hc' & Hs').
    exists c'. split; [done|]. rewrite Hs', decide_False; [done|]. unfold check_idx. intros E.
    assert (now + window s = t + window s) by (apply slot_idx_inj; [lia|done]). lia.
  - exists x. split; [|done]. rewrite Hring, list_lookup_alter_ne; [done|]. rewrite Ek.
    apply not_eq_sym, sn_place; [done|lia|done].
  - exists (k + 1). split; [cbn; lia|]. rewrite Hcnt, Ek. ulia.
Qed.

(** *** Along a history *)

Lemma numbered_mark t sn now b i s : numbered t sn now b s -> numbered t sn now b (mark i s).
Proof.
  intros [[Hi (c & Hc & Hs)] Hr Hk]. constructor; try done. split; [done|]. change (window (mark i s)) with (window s).
  eexists. split; [apply mark_lookup; exists c; split; [done|reflexivity]|]. by case_decide.
Qed.

Lemma numbered_ack_all sns t sn now b s s' : ack_all sns s = Ok s' ->
  window s' = window s /\ (numbered t sn now b s -> numbered t sn now b s').
Proof.
  revert s. induction sns as [|x sns IH]; intros s E; [by injection E as <-|]. cbn [ack_all] in E.
  apply bind_Ok in E as (s1 & E1 & E). destruct (ack_sn_mark _ _ _ E1) as (i & e & He & ->).
  destruct (IH _ E) as [Hw Hn]. split; [done|]. intros H. by apply Hn, numbered_mark.
Qed.

Section numbers.
Context {P : Type} `{IpdcpLaws P}.

Lemma numbered_rx t sn now b s m a n p m' s' p' : llc_on_rx m a n s p = Ok (m', s', p') ->
  window s' = window s /\ (numbered t sn now b s -> numbered t sn now b s').
Proof.
  intros E. destruct (on_rx_cases _ _ _ _ _ _ _ _ E) as [->|[[_ ->]|[[sns Hs]|(x & _ & ->)]]].
  - done.
  - split; [done|]. intros. by eapply numbered_same.
  - by eapply numbered_ack_all.
  - destruct (rx_acknowledge_eq x s) as [l ->]. split; [done|]. intros. by eapply numbered_same.
Qed.

Lemma numbered_check t sn now b slot s s1 :
  llc_inv s -> am_mode s = true -> slot = now + 1 \/ slot = now -> check_retransmit slot s = Ok s1 ->
  numbered t sn now b s -> numbered t sn slot (sent_before now b slot) s1 /\ window s1 = window s /\ am_mode s1 = true.
Proof.
  intros Hi Hm Hs E [Hc Hr (k & Hk & Ek)].
  destruct (check_pending slot s s1 Hi Hm E) as (_ & Hw & Hm1 & _ & En & Es & Hcb & _). split; [|done].
  constructor; rewrite ?Hw, ?En, ?Es; [by apply Hcb|done|]. exists k. split; [|done]. unfold sent_before.
  destruct Hs as [-> | ->]; [rewrite decide_False by lia|by rewrite decide_True]. cbn [Z.b2z]. destruct b; cbn in Hk; lia.
Qed.

(** The slot of the PDU is before [now], or its PDU was the one of [now]. *)
Definition origin_ok (t now : Z) (b : bool) : Prop := t <= now /\ (t = now -> b = true).

Lemma numbered_call t sn now b s p m info m' info' s' p' :
  arq_good now b s p -> call_ok now b m info -> llc_on_tx m info s p = Ok (m', info', s', p') ->
  in_time t sn (in_slot_number info) (window s) -> origin_ok t now b -> numbered t sn now b s ->
  numbered t sn (in_slot_number info) (sent_after now b info info') s' /\
  origin_ok t (in_slot_number info) (sent_after now b info info') /\ window s' = window s.
Proof.
  intros (Ha & Hon & Hp) Hc E Ht [Htn Htb] Hnu. pose proof (ai_window _ _ _ Ha) as Hw.
  destruct (call_in_steps now b s p m info m' info' s' p' (ai_llc _ _ _ Ha) Hon Hp Hc E) as (s1 & x & o & Hcs).
  destruct Hcs as [E1 Hs' [Hi1 Hix] (Hr & Hsr & Hcn & _ & Hcf) (room & _ & Hst) Hsent Hld Hagain _].
  destruct (numbered_check t sn now b _ s s1 (ai_llc _ _ _ Ha) (ai_am _ _ _ Ha) Hs' E1 Hnu) as (Hn1 & Hw1 & Hm1).
  assert (window x = window s /\ am_mode x = true) as [Hwx Hmx] by (unfold window, am_mode in *; by rewrite Hcf).
  assert (numbered t sn (in_slot_number info) (sent_before now b (in_slot_number info)) x) as Hnx
    by (eapply numbered_same; [exact Hn1|done..|congruence]).
  pose proof (data_step_numbers _ _ _ _ _ _ _ Hmx (vi_sn _ Hix) Hst) as Hna.
  destruct (data_step_config _ _ _ _ _ _ _ Hst) as [[[_ Hcf'] _ _ _] _].
  assert (window s' = window x) as Hw' by (unfold window; by rewrite Hcf').
  destruct (sent_before now b (in_slot_number info)) eqn:Eb.
  - rewrite (Hagain eq_refl). rewrite (Hsent eq_refl) in Hna. destruct Hna as (? & ? & ?).
    split; [by eapply numbered_same|]. split; [split; [lia|done]|congruence].
  - assert (t < in_slot_number info) as Hlt.
    { unfold sent_before in Eb. destruct Hs' as [?|Es]; [lia|]. rewrite decide_True in Eb by done. subst b.
      destruct (Z.eq_dec t now) as [->|]; [by specialize (Htb eq_refl)|lia]. }
    split; [|split; [split; [lia|lia]|congruence]].
    assert (numbered t sn (in_slot_number info) (is_data o) s') as Hs1
      by (eapply (numbered_step t sn _ x); rewrite ?Hwx; done || lia).
    destruct (is_data o); [by rewrite (Hld eq_refl)|by apply numbered_weaken].
Qed.

(** The histories from one state. *)
Definition exactly (now : Z) (b : bool) (s : llc) (p : P) : Z -> bool -> llc -> P -> Prop :=
  fun now' b' s' p' => now' = now /\ b' = b /\ s' = s /\ p' = p.

Lemma numbered_from t sn s0 p0 now b s p :
  is_u8 sn -> (window s0 | 256) -> arq_good t true s0 p0 -> numbered t sn t true s0 ->
  arq_from (exactly t true s0 p0) now b s p ->
  arq_good now b s p /\ t <= now /\ window s = window s0 /\
  (now < t + window s0 -> numbered t sn now b s /\ origin_ok t now b).
Proof.
  intros Hsn Hdiv Hg0 Hn0. induction 1 as [now b s p (-> & -> & -> & ->)|now b s p m info m' info' s' p' _ IH Hc E
    |now b s p m a n m' s' p' _ IH E Hp'].
  - split; [done|]. split; [lia|]. split; [done|]. intros _. split; [done|]. split; [lia|done].
  - destruct IH as (Hg & Ht & Hw & IH).
    assert (now <= in_slot_number info) as Hle by (destruct (co_slot _ _ _ _ Hc) as [?|[? _]]; lia).
    split; [by eapply call_good|]. split; [lia|]. split.
    + destruct Hg as (Ha & _ & Hp). destruct Hc as [Hv Hn _ _].
      destruct (llc_on_tx_config _ _ _ _ _ _ _ _ (ai_llc _ _ _ Ha) Hp Hv Hn E) as (_ & _ & [[_ Hcf] _ _ _] & _).
      rewrite <- Hw. unfold window. by rewrite Hcf.
    + intros Hlt. destruct IH as [Hn Ho]; [lia|].
      destruct (numbered_call t sn now b s p m info m' info' s' p') as (? & ? & _); try done.
      split; [rewrite Hw; lia|done|by rewrite Hw].
  - destruct IH as ((Ha & Hon & Hp) & Ht & Hw & IH).
    destruct (on_rx_arq _ _ _ _ _ _ _ _ _ _ Ha E) as (Ha' & Hon' & _).
    split; [split; [done|]; by rewrite Hon'|]. split; [done|].
    destruct (numbered_rx t sn now b _ _ _ _ _ _ _ _ E) as [Hw' Hn']. split; [congruence|].
    intros Hlt. destruct (IH Hlt) as [Hn Ho]. by split; [apply Hn'|].
Qed.

(** The call that sends the PDU. *)
Lemma numbered_sent now b s p m info m' info' s' p' :
  arq_good now b s p -> call_ok now b m info -> llc_on_tx m info s p = Ok (m', info', s', p') ->
  sn_counter s' <> sn_counter s ->
  numbered (in_slot_number info) (sn_counter s) (in_slot_number info) true s' /\
  sent_after now b info info' = true /\ window s' = window s /\ is_u8 (sn_counter s).
Proof.
  intros (Ha & Hon & Hp) Hc E Hne. pose proof (ai_llc _ _ _ Ha) as Hl.
  destruct (call_in_steps now b s p m info m' info' s' p' Hl Hon Hp Hc E) as (s1 & x & o & Hcs).
  destruct Hcs as [E1 Hs' [Hi1 Hix] (Hr & Hsr & Hcn & _ & Hcf) (room & _ & Hst) _ Hld _ _].
  destruct (check_pending _ s s1 Hl (ai_am _ _ _ Ha) E1) as (_ & Hw1 & Hm1 & _ & En & Es & _ & _).
  assert (window x = window s /\ am_mode x = true) as [Hwx Hmx] by (unfold window, am_mode in *; by rewrite Hcf).
  pose proof (data_step_numbers _ _ _ _ _ _ _ Hmx (vi_sn _ Hix) Hst) as Hna.
  destruct (data_step_config _ _ _ _ _ _ _ Hst) as [[[_ Hcf'] _ _ _] _].
  assert (window s' = window x) as Hw' by (unfold window; by rewrite Hcf').
  destruct o as [|d|]; [destruct Hna as (? & _ & _); congruence| |destruct Hna as (? & _ & _); congruence].
  destruct Hna as (Hcnt & Hring & id & count & Htx). rewrite Hcn, En in Hcnt, Hring.
  split; [|split; [by apply Hld|split; [congruence|apply (vi_sn _ Hl)]]]. constructor.
  - split; [done|]. rewrite Hw'. change (slot_idx (in_slot_number info + window x)) with (check_idx (in_slot_number info) x).
    destruct (ring_elem x (check_idx (in_slot_number info) x) Hix (slot_idx_lt _)) as (c & Hcx & _). rewrite Htx.
    destruct (kept_ring_index (slot_idx (in_slot_number info)) (check_idx (in_slot_number info) x) id count d _ _ _ Hcx)
      as (c' & Hc' & Hs2). exists c'. split; [done|]. by rewrite decide_True in Hs2.
  - rewrite Hw'. pose proof (vi_sn _ Hl) as Hu. rewrite <- En, <- Hcn in Hu |- *.
    destruct (sn_index_at x (sn_counter x) Hix Hmx Hu) as [_ [y Hy]].
    rewrite Hring, <- En, <- Hcn, list_lookup_alter_eq, Hy. by eexists.
  - exists 1. split; [cbn; lia|done].
Qed.
End numbers.

(** ** Acknowledgements that come back *)

Lemma ack_sn_at sn s (j i : nat) x c :
  llc_inv s -> am_mode s = true -> is_u8 sn ->
  sn_ring s !! Z.to_nat (sn mod window s) = Some x -> tx_ring_index (ring_idx x) s = j ->
  tx_ring s !! j = Some c -> tx_ring_index (sent_index c) s = i -> (i < 1024)%nat -> ack_sn sn s = Ok (mark i s).
Proof.
  intros Hi Hm Hs Hx Hj Hc Hsi Hlt. destruct (sn_index_at s sn Hi Hm Hs) as [Ek _]. unfold ack_sn.
  rewrite Ek, bind_ret_l, (vec_at_Some _ _ _ Hx), bind_ret_l, Hj, (vec_at_Some _ _ _ Hc), bind_ret_l, Hsi.
  destruct (ring_elem s i Hi Hlt) as (e & He & _). rewrite (vec_at_Some _ _ _ He), bind_ret_l.
  unfold mark. by rewrite (alter_at _ _ _ _ He).
Qed.

Lemma slot_idx_nat slot : slot_idx (Z.of_nat (slot_idx slot)) = slot_idx slot.
Proof. unfold slot_idx. lia. Qed.

(** The number of the PDU of slot [t] leads to that slot. *)
Lemma numbered_ack t sn now b s :
  llc_inv s -> am_mode s = true -> is_u8 sn -> numbered t sn now b s -> ack_sn sn s = Ok (mark (slot_idx t) s).
Proof.
  intros Hi Hm Hs [[_ (c & Hc & Hsc)] (x & Hx & Hxi) _].
  eapply (ack_sn_at sn s (slot_idx (t + window s))); try done.
  - by rewrite Hxi, (tx_ring_index_slot _ _ Hi), slot_idx_nat.
  - by rewrite Hsc, (tx_ring_index_slot _ _ Hi), slot_idx_nat.
  - apply slot_idx_lt.
Qed.

(** Every number leads to some slot. *)
Lemma ack_sn_total sn s : llc_inv s -> am_mode s = true -> is_u8 sn -> exists i, ack_sn sn s = Ok (mark i s).
Proof.
  intros Hi Hm Hs. destruct (sn_index_at s sn Hi Hm Hs) as [_ [x Hx]].
  destruct (ring_elem s (slot_idx (ring_idx x)) Hi (slot_idx_lt _)) as (c & Hc & _).
  exists (slot_idx (sent_index c)). exact (ack_sn_at sn s _ _ x c Hi Hm Hs Hx (tx_ring_index_slot _ _ Hi) Hc (tx_ring_index_slot _ _ Hi) (slot_idx_lt _)).
Qed.

(** The slot [i] is free. *)
Definition slot_free (i : nat) (s : llc) : Prop := exists e, tx_ring s !! i = Some e /\ te_acknowledged e = true.

Lemma mark_free i k s : slot_free k s -> slot_free k (mark i s).
Proof.
  intros (e & He & Ha). eexists. split; [apply mark_lookup; by exists e|]. by case_decide.
Qed.

Lemma ack_all_frees sns t sn now b : is_u8 sn -> Forall is_u8 sns -> forall s,
  llc_inv s -> am_mode s = true -> numbered t sn now b s -> sn ∈ sns \/ slot_free (slot_idx t) s ->
  exists s', ack_all sns s = Ok s' /\ slot_free (slot_idx t) s'.
Proof.
  intros Hsn. induction 1 as [|x sns Hx _ IH]; intros s Hi Hm Hn Hor.
  - exists s. split; [done|]. destruct Hor as [Hin|]; [by apply elem_of_nil in Hin|done].
  - cbn [ack_all]. destruct (decide (x = sn)) as [->|Hne].
    + rewrite (numbered_ack t sn now b s), bind_ret_l by done. apply IH; [by apply mark_inv|done|by apply numbered_mark|].
      right. destruct (ring_elem s (slot_idx t) Hi (slot_idx_lt _)) as (e & He & _).
      eexists. split; [apply mark_lookup; by exists e|]. by rewrite decide_True.
    + destruct (ack_sn_total x s Hi Hm Hx) as [i ->]. rewrite bind_ret_l.
      apply IH; [by apply mark_inv|done|by apply numbered_mark|]. destruct Hor as [Hin|Hf]; [left|right; by apply mark_free].
      apply elem_of_cons in Hin as [?|]; [congruence|done].
Qed.

Lemma acked_u8 A : Forall ack_ok A -> Forall is_u8 (acked_sns A).
Proof.
  induction 1 as [|[x y] A (Hx & Hy & Hxy) _ IH]; [constructor|]. cbn in Hx, Hy, Hxy.
  unfold acked_sns. cbn [map concat fst snd]. apply Forall_app. split; [|exact IH].
  apply Forall_seqZ. intros k Hk. ulia.
Qed.

(** Once the slot of a PDU is free, its check finds nothing. *)
Lemma free_not_due s t : llc_inv s -> am_mode s = true -> checked_by s t (slot_idx t) ->
  slot_free (slot_idx t) s -> due (t + window s) s = None.
Proof.
  intros Hi Hm (_ & c & Hc & Hsc) (e & He & Ha). unfold due. rewrite Hm. cbn [negb]. rewrite Hc. cbn [mbind option_bind].
  rewrite Hsc, slot_idx_nat, He. cbn [mbind option_bind]. by rewrite Ha.
Qed.

(** ** The frame on its way *)

(** The receiver has the bytes [bs] at [b2] of its buffer. *)
Record carried (bs m2 : list Z) (b2 : Z) : Prop := Carried {
  ca_bytes : bytes_ok m2;
  ca_base : 0 <= b2;
  ca_fit : b2 + zlen bs <= zlen m2;
  ca_slice : slice m2 b2 (zlen bs) = bs }.

Lemma carried_app bs1 bs2 m2 b2 : carried (bs1 ++ bs2) m2 b2 -> carried bs1 m2 b2 /\ carried bs2 m2 (b2 + zlen bs1).
Proof.
  intros [Hm Hb Hf Hs]. rewrite zlen_app in *. pose proof (zlen_nonneg bs1). pose proof (zlen_nonneg bs2).
  rewrite slice_app in Hs by lia. apply app_inj_1 in Hs as [H1 H2].
  - split; (constructor; [done|lia|lia|done]).
  - pose proof (zlen_slice m2 b2 (zlen bs1) ltac:(lia) ltac:(lia) ltac:(lia)) as E. unfold zlen in *. lia.
Qed.

Lemma carried_pdu c sn lcid a d m2 b2 :
  carried (llc_pdu c sn lcid a d) m2 b2 -> is_u8 sn -> 0 <= lcid < 16 -> pdu_len c d < 2048 ->
  pdu_in m2 b2 (pdu_len c d) c sn lcid a d.
Proof. intros [Hm Hb Hf Hs] Hsn Hl Hn. rewrite zlen_llc_pdu in *. by constructor. Qed.

Section link.
Context {P : Type} `{IpdcpLaws P} {Q : Type} `{Ipdcp Q}.

(** The two PDUs of a frame as the receiver sees them. *)
Lemma sent_pdus m info s p o m' info' s' p' m2 b2 :
  llc_inv s -> pdu_size (out_pdu info) <= 1500 -> tx_done m info s p o m' info' s' p' -> o <> SFailed ->
  let n := pdu_size (out_pdu info) in
  let A := acks_sent (n - hdr_len_of (crc_on s)) (to_ack_list s) in
  carried (slice m' (pdu_base (out_pdu info)) (out_allocated info' - out_allocated info)) m2 b2 ->
  (with_acks n s = true -> pdu_in m2 b2 (zlen (ack_pdu n s)) (crc_on s) 0 (ll_lcid s) true (ack_bytes A)) /\
  (forall d, o = SData d -> pdu_in m2 (b2 + zlen (ack_pdu n s)) (pdu_len (crc_on s) d) (crc_on s) (sn_counter s) (ll_lcid s) false d).
Proof.
  intros Hi Hn Hd Ho n A Hc. pose proof (td_report _ _ _ _ _ _ _ _ _ Hd) as Hrep. fold n in Hrep. cbn zeta in Hrep.
  set (bs := tx_bytes n s o) in *.
  assert (out_allocated info' = out_allocated info + zlen bs /\ zlen bs <= n /\ slice m' (pdu_base (out_pdu info)) (zlen bs) = bs)
    as (Ha & Hl & Hs) by by destruct o. clear Hrep.
  replace (out_allocated info' - out_allocated info) with (zlen bs) in Hc by lia. rewrite Hs in Hc.
  unfold bs, tx_bytes in Hc, Hl. rewrite zlen_app in Hl. apply carried_app in Hc as [Hc1 Hc2]. split.
  - unfold ack_pdu in *. intros Hw. rewrite Hw in *. fold A in Hl, Hc1 |- *. pose proof Hl as Hl'. rewrite zlen_llc_pdu in *.
    apply carried_pdu; [done|ulia|apply (vi_lcid _ Hi)|]. clear Hc2. destruct o as [|x|]; try (rewrite zlen_nil in Hl'; lia).
    pose proof (zlen_nonneg (llc_pdu (crc_on s) (sn_counter s) (ll_lcid s) false x)). lia.
  - intros d ->. pose proof (zlen_nonneg (ack_pdu n s)) as H0'. rewrite zlen_llc_pdu in Hl.
    apply carried_pdu; [done|apply (vi_sn _ Hi)|apply (vi_lcid _ Hi)|lia].
Qed.

Lemma acks_sent_ok k s : llc_inv s -> Forall ack_ok (acks_sent k (to_ack_list s)).
Proof. intros Hi. apply Forall_take, (vi_acks _ Hi). Qed.

(** The check changes nothing the header depends on. *)
Lemma check_header slot s s1 : llc_inv s -> check_retransmit slot s = Ok s1 ->
  crc_on s1 = crc_on s /\ sn_counter s1 = sn_counter s /\ to_ack_list s1 = to_ack_list s /\ ll_tx_config s1 = ll_tx_config s.
Proof.
  intros Hi E. destruct (check_retransmit_spec slot s Hi) as (s2 & E2 & _ & Hd). rewrite E in E2. injection E2 as <-.
  destruct (due slot s) as [[i e]|]; [by destruct Hd as (? & ? & _ & ->)|by subst].
Qed.

(** C9: the link. Whatever a reachable LLC writes into its view, another LLC with
    the same CRC setting that gets these bytes takes apart: the PDU of
    acknowledgements acknowledges exactly the sequence numbers of the entries
    that were taken from the list of the sender, one after the other; the data
    PDU hands exactly the bytes that the PDCP of the sender (or the queue) gave
    to the PDCP of the receiver, and its sequence number is owed an
    acknowledgement. (The count of an entry is one byte; 256 does not fit.) *)
Theorem llc_link m info s p m' info' s' p' :
  llc_reach s p -> ll_tx_enabled s = true -> tx_view_ok m info -> pdu_size (out_pdu info) <= 1500 ->
  llc_on_tx m info s p = Ok (m', info', s', p') ->
  let n := pdu_size (out_pdu info) in let c := crc_on s in
  exists s1 o, check_retransmit (in_slot_number info) s = Ok s1 /\
    data_step (in_slot_number info) (data_room n s1) (after_acks n s1) p o s' p' /\
    forall (r : llc) (q : Q) m2 b2, o <> SFailed -> listens c r ->
      carried (slice m' (pdu_base (out_pdu info)) (out_allocated info' - out_allocated info)) m2 b2 ->
      (with_acks n s1 = true -> Forall (fun a => a.2 <= 255) (to_ack_list s) ->
         llc_on_rx m2 b2 (zlen (ack_pdu n s1)) r q =
           (r' ← ack_all (acked_sns (acks_sent (n - hdr_len_of c) (to_ack_list s))) r; Ok (crc_cleared c m2 b2, r', q))) /\
      (forall d, o = SData d -> exists m3,
         slice m3 (b2 + zlen (ack_pdu n s1) + hdr_len_of c) (zlen d) = d /\
         llc_on_rx m2 (b2 + zlen (ack_pdu n s1)) (pdu_len c d) r q =
           (q' ← pdcp_on_rx m3 (b2 + zlen (ack_pdu n s1) + hdr_len_of c) (zlen d) q;
            Ok (m3, rx_acknowledge (sn_counter s) r, q'))).
Proof.
  intros Hr Hon Hv Hn E n c. destruct (llc_reach_inv s p Hr) as (Hi & Hp & _).
  destruct (llc_on_tx_spec m info s p Hi Hon Hp Hv Hn) as (s1 & o & m1 & i1 & s2 & p2 & E1 & E2 & Hi1 & Hd).
  rewrite E in E2. injection E2 as <- <- <- <-. exists s1, o. split; [done|]. split; [apply (td_step _ _ _ _ _ _ _ _ _ Hd)|].
  intros r q m2 b2 Ho Hl Hc. destruct (check_header _ _ _ Hi E1) as (Hcrc & Hsn & Hack & _).
  destruct (sent_pdus m info s1 p o m' info' s' p' m2 b2 Hi1 Hn Hd Ho Hc) as [Ha Hdata]. fold n in Ha, Hdata.
  rewrite Hcrc, Hsn, ?Hack in *. fold c in Ha, Hdata. split.
  - intros Hw Hcnt. rewrite (rx_acks _ _ _ _ _ _ _ q (Ha Hw) Hl); [done| |by apply Forall_take].
    rewrite <- Hack. by apply acks_sent_ok.
  - intros d Ed. specialize (Hdata d Ed). set (b3 := b2 + zlen (ack_pdu n s1)) in *.
    exists (crc_cleared c m2 b3). split; [apply (pdu_cleared _ _ _ _ _ _ _ _ Hdata)|].
    by rewrite (rx_data _ _ _ _ _ _ _ _ q Hdata Hl).
Qed.

(** C8: an acknowledgement in time frees the right slot. An LLC in acknowledged
    mode sends a data PDU in a slot; later, after calls of [on_tx] and received
    PDUs of any content, but before [arq_window_size] slots are over, it
    receives an acknowledgement with the sequence number of that PDU. If the
    window divides 256, that number leads to the slot of the PDU and no other,
    the slot is free afterwards, and its check will not queue the PDU again. *)
Theorem llc_ack_frees now b s p m info m1 info1 s1 p1 now2 b2 s2 p2 mr br n c lcid A :
  arq_reach now b s p -> call_ok now b m info -> llc_on_tx m info s p = Ok (m1, info1, s1, p1) ->
  sn_counter s1 <> sn_counter s -> (window s | 256) ->
  arq_from (exactly (in_slot_number info) true s1 p1) now2 b2 s2 p2 -> now2 < in_slot_number info + window s ->
  pdu_in mr br n c 0 lcid true (ack_bytes A) -> listens c s2 ->
  Forall ack_ok A -> Forall (fun a => a.2 <= 255) A -> sn_counter s ∈ acked_sns A ->
  let i := slot_idx (in_slot_number info) in
  ack_sn (sn_counter s) s2 = Ok (mark i s2) /\
  exists s3, llc_on_rx mr br n s2 p2 = Ok (crc_cleared c mr br, s3, p2) /\ slot_free i s3 /\
    due (in_slot_number info + window s) s3 = None.
Proof.
  intros Hr Hc E Hne Hdiv Hfrom Hlt Hin Hl Hok Hcnt Helem i.
  pose proof (arq_reach_good _ _ _ _ Hr) as Hg. pose proof (call_good _ _ _ _ _ _ _ _ _ _ Hg Hc E) as Hg1.
  destruct (numbered_sent now b s p m info m1 info1 s1 p1 Hg Hc E Hne) as (Hnu & Hsent & Hw & Hsn).
  rewrite Hsent in Hg1. rewrite <- Hw in *.
  destruct (numbered_from _ _ _ _ _ _ _ _ Hsn Hdiv Hg1 Hnu Hfrom) as ((Ha2 & _) & _ & Hw2 & Hn2).
  destruct (Hn2 Hlt) as [Hnum _]. pose proof (ai_llc _ _ _ Ha2) as Hi2. pose proof (ai_am _ _ _ Ha2) as Hm2.
  split; [by eapply numbered_ack|]. rewrite (rx_acks _ _ _ _ _ _ _ p2 Hin Hl Hok Hcnt).
  destruct (ack_all_frees (acked_sns A) _ _ _ _ Hsn (acked_u8 A Hok) s2 Hi2 Hm2 Hnum (or_introl Helem)) as (s3 & E3 & Hf).
  exists s3. rewrite E3. split; [done|]. split; [done|].
  destruct (numbered_ack_all _ (in_slot_number info) (sn_counter s) now2 b2 _ _ E3) as [Hw3 Hn3].
  rewrite <- Hw2, <- Hw3. apply free_not_due; [by apply (ack_all_inv _ _ _ Hi2 E3)| |apply (Hn3 Hnum)|done].
  by destruct (ack_all_arq _ _ _ _ _ Ha2 E3) as ([_ ? _ _] & _).
Qed.
End link.

(** ** An example: the frame of [pdcp_example] goes over and is acknowledged *)

Definition receiver_example : pdcp := Pdcp ptx_example (prx_set_enabled true (p_rx pdcp_example)).

(** What the receiver owes and has in its queue. *)
Example link_example :
  match llc_on_tx (replicate 60 0) view_example llc_example pdcp_example with
  | Ok (m, info, _, _) =>
    match llc_on_rx m 0 (out_allocated info) llc_example receiver_example with
    | Ok (_, r, q) => Some (to_ack_list r, to_rx_queue (p_rx q))
    | _ => None
    end
  | _ => None
  end = Some ([(0, 1)], [[1; 2; 3]]).
Proof. vm_compute. reflexivity. Qed.

Definition ack_example : list Z := llc_pdu true 0 4 true (ack_bytes [(0, 1)]).
Lemma ack_example_in : pdu_in ack_example 0 9 true 0 4 true (ack_bytes [(0, 1)]).
Proof.
  constructor; try (vm_compute; split; congruence); try (vm_compute; congruence); try reflexivity.
  apply (bool_decide_unpack _). vm_compute. exact I.
Qed.

Lemma llc_ack_frees_witness :
  exists m1 info1 s1 p1, llc_on_tx (replicate 60 0) view_example llc_example pdcp_example = Ok (m1, info1, s1, p1) /\
  exists m3 s3, llc_on_rx ack_example 0 9 s1 p1 = Ok (m3, s3, p1) /\ slot_free 1 s3.
Proof.
  assert (match llc_on_tx (replicate 60 0) view_example llc_example pdcp_example with
    | Ok (_, _, s, _) => (sn_counter s, rx_crc_on s, rx_crc_size s, ir_auto_init_on_rx (ll_rx_config s))
    | _ => (0, false, 0, true) end = (1, true, 4, false)) as Hf by (vm_compute; reflexivity).
  assert (sn_counter llc_example = 0) as H0 by (vm_compute; reflexivity).
  pose proof (af_start _ _ _ _ _ (llc_example_start 0)) as Hr.
  assert (window llc_example = 8) as Hw by (unfold window; by rewrite (proj1 (proj2 (proj2 llc_example_facts)))).
  revert Hf H0 Hr Hw. generalize llc_example. intros s Hf H0 Hr Hw.
  destruct (llc_on_tx (replicate 60 0) view_example s pdcp_example) as [[[[m1 info1] s1] p1]| | |] eqn:E; [|discriminate Hf..].
  injection Hf as Hcnt Hc Hcs Ha. exists m1, info1, s1, p1. split; [reflexivity|].
  destruct (llc_ack_frees 0 false s pdcp_example (replicate 60 0) view_example m1 info1 s1 p1 1 true s1 p1
    ack_example 0 9 true 4 [(0, 1)] Hr view_example_call E) as (_ & s3 & E3 & Hfree & _).
  - rewrite Hcnt, H0. discriminate.
  - rewrite Hw. exists 32. reflexivity.
  - apply af_start. unfold exactly. auto.
  - rewrite Hw. reflexivity.
  - exact ack_example_in.
  - split; [exact Hc|]. split; [exact Hcs|]. right. exact Ha.
  - repeat constructor; cbn; lia.
  - repeat constructor; cbn; lia.
  - rewrite H0. left.
  - exists (crc_cleared true ack_example 0), s3. split; [exact E3|exact Hfree].
Defined.

Lemma llc_link_witness :
  exists m' info' s' p', llc_on_tx (replicate 60 0) view_example llc_example pdcp_example = Ok (m', info', s', p') /\
  exists s1 o, check_retransmit 1 llc_example = Ok s1 /\
    data_step 1 (data_room 60 s1) (after_acks 60 s1) pdcp_example o s' p'.
Proof.
  change 1 with (in_slot_number view_example). change 60 with (pdu_size (out_pdu view_example)).
  generalize llc_example_reach, (proj1 (proj2 llc_example_facts)). generalize llc_example. intros s Hr Hon.
  destruct (llc_on_tx_spec (replicate 60 0) view_example s pdcp_example (proj1 (llc_reach_inv s _ Hr)) Hon
    pdcp_example_ok view_example_ok ltac:(vm_compute; congruence)) as (_ & _ & m' & info' & s' & p' & _ & E & _).
  exists m', info', s', p'. split; [exact E|].
  destruct (llc_link (Q := pdcp) (replicate 60 0) view_example s pdcp_example m' info' s' p' Hr Hon view_example_ok
    ltac:(vm_compute; congruence) E) as (s1 & o & E1 & Hd & _).
  exists s1, o. split; [exact E1|exact Hd].
Defined.
