(* ===== verification/LlcLimits.v ===== *)
(** * Where the automatic repeat of the LLC fails

    Behaviour of [LLC.cpp] at the edges of what [LlcArq] and [LlcLink] promise:
    acknowledgements to a channel without a window, a window that does not
    divide the sequence numbers, a slot that has never been checked, a dropped
    PDU, a failure reported together with acknowledgements, and a PDU too short
    for its CRC. *)

From S2P Require Import Prelude Mem SafeInt LlcFrame Crc LlcCrc Info PdcpTx PdcpRx Pdcp Llc LlcTx LlcRx LlcConf LlcArq LlcLink.

(** ** Acknowledgements for a channel without a window *)

(** A PDU with at least one entry, for an LLC that accepts it. *)
Record acks_in (m : list Z) (b n : Z) (c : bool) (lcid : Z) (A : list (Z * Z)) (s : llc) : Prop := AcksIn {
  an_pdu : pdu_in m b n c 0 lcid true (ack_bytes A);
  an_listens : listens c s;
  an_acks : Forall ack_ok A;
  an_counts : Forall (fun a => a.2 <= 255) A;
  an_some : A <> [] }.

(** A channel in transparent mode has [arq_window_size] 0, and [on_rx] does not
    look at the mode before it looks up an acknowledged sequence number: the
    remainder by zero is undefined, for any PDU with an entry. *)
Theorem llc_ack_div_zero {P} `{Ipdcp P} m b n c lcid A s (p : P) :
  acks_in m b n c lcid A s -> window s = 0 -> llc_on_rx m b n s p = Ub DivByZero.
Proof.
  intros [Hin Hl Hok Hcnt Hne] Hw. rewrite (rx_acks _ _ _ _ _ _ _ p Hin Hl Hok Hcnt).
  destruct A as [|[x y] A]; [done|]. inversion Hok as [|? ? (Hx & Hy & Hxy) _]; subst. cbn in Hx, Hy, Hxy.
  unfold acked_sns. cbn [map concat fst snd]. rewrite seqZ_cons by lia. cbn [app ack_all].
  unfold ack_sn, sn_ring_index. fold (window s). by rewrite Hw.
Qed.

Definition llc_tm_example : llc :=
  llc_new 4 (IllcTx false E_TX_MODE_TM 0 0 E_CRC_TYPE_NONE) (IllcRx E_TX_MODE_TM E_CRC_TYPE_CRC32_04C11DB7 false).

Lemma llc_ack_div_zero_witness : llc_on_rx ack_example 0 9 llc_tm_example pdcp_example = Ub DivByZero.
Proof.
  apply (llc_ack_div_zero ack_example 0 9 true 4 [(0, 1)]); [constructor|vm_compute; reflexivity].
  - exact ack_example_in.
  - split; [vm_compute; reflexivity|]. split; [vm_compute; reflexivity|]. right. vm_compute. reflexivity.
  - repeat constructor; cbn; lia.
  - repeat constructor; cbn; lia.
  - discriminate.
Defined.

(** ** A window that does not divide 256 *)

(** The last number of the first round that shares its place with number 0. *)
Definition old_number (w : Z) : Z := 256 - 256 mod w.

Lemma ack_sn_same sn sn' s : sn mod window s = sn' mod window s -> ack_sn sn s = ack_sn sn' s.
Proof. intros E. unfold ack_sn, sn_ring_index. fold (window s). by rewrite E. Qed.

(** With a window that does not divide 256 (such as 25, the default) the place
    of a sequence number is not its own for a whole window: an acknowledgement
    of a PDU sent fewer than [arq_window_size] numbers before number 0 frees
    the slot of number 0, which is then never sent again. *)
Theorem llc_ack_wrong_slot {P} `{IpdcpLaws P} now b s (p : P) m info m1 info1 s1 p1 :
  arq_reach now b s p -> call_ok now b m info -> llc_on_tx m info s p = Ok (m1, info1, s1, p1) ->
  sn_counter s1 <> sn_counter s -> sn_counter s = 0 -> window s < 256 -> ~ (window s | 256) ->
  let old := old_number (window s) in
  0 < 256 - old < window s /\ is_u8 old /\ ack_sn old s1 = Ok (mark (slot_idx (in_slot_number info)) s1).
Proof.
  intros Hr Hc E Hne Hsn0 Hlt Hdiv old. pose proof (arq_reach_good _ _ _ _ Hr) as Hg.
  pose proof (call_good _ _ _ _ _ _ _ _ _ _ Hg Hc E) as (Ha1 & _). destruct Hg as (Ha & Hon & Hp).
  pose proof (ai_window _ _ _ Ha) as Hw.
  destruct (numbered_sent now b s p m info m1 info1 s1 p1 (conj Ha (conj Hon Hp)) Hc E Hne) as (Hnu & _ & Hw1 & _).
  pose proof (Z.mod_pos_bound 256 (window s) ltac:(lia)) as Hb.
  assert (256 mod window s <> 0) as Hn0 by (intros E0; by apply Hdiv, Z.mod_divide; [lia|]).
  split; [unfold old, old_number; lia|]. split; [unfold old, old_number; ulia|]. rewrite (ack_sn_same old 0).
  - rewrite Hsn0 in Hnu. eapply numbered_ack; [apply Ha1|apply Ha1|ulia|exact Hnu].
  - rewrite Hw1, Z.mod_0_l by lia. unfold old, old_number. rewrite Zminus_mod_idemp_r, Z.sub_diag. apply Z.mod_0_l. lia.
Qed.

Lemma llc_ack_wrong_slot_witness :
  exists m1 info1 s1 p1, llc_on_tx (replicate 60 0) view_example (llc_example_of 25) pdcp_example = Ok (m1, info1, s1, p1) /\
    ack_sn 250 s1 = Ok (mark 1 s1).
Proof.
  assert (match llc_on_tx (replicate 60 0) view_example (llc_example_of 25) pdcp_example with
    | Ok (_, _, s, _) => sn_counter s | _ => 0 end = 1) as Hcnt by (vm_compute; reflexivity).
  assert (sn_counter (llc_example_of 25) = 0) as Hz by (vm_compute; reflexivity).
  pose proof (af_start _ _ _ _ _ (llc_example_of_start 25 0 (conj eq_refl eq_refl))) as Hr.
  assert (window (llc_example_of 25) = 25) as Hw
    by (unfold window; by rewrite (proj1 (proj2 (proj2 (llc_example_of_facts 25 eq_refl))))).
  revert Hcnt Hz Hr Hw. generalize (llc_example_of 25). intros s Hcnt Hz Hr Hw.
  destruct (llc_on_tx (replicate 60 0) view_example s pdcp_example) as [[[[m1 info1] s1] p1]| | |] eqn:E; [|discriminate Hcnt..].
  exists m1, info1, s1, p1. split; [reflexivity|].
  destruct (llc_ack_wrong_slot 0 false s pdcp_example (replicate 60 0) view_example m1 info1 s1 p1 Hr view_example_call E)
    as (_ & _ & E2).
  - rewrite Hcnt, Hz. discriminate.
  - exact Hz.
  - rewrite Hw. reflexivity.
  - rewrite Hw. intros [q Hq]. lia.
  - rewrite Hw in E2. exact E2.
Defined.

(** Calls of [on_tx] with a view of [n] bytes, one for each slot of the list. *)
Fixpoint tx_run (n : nat) (slots : list Z) (s : llc) (p : pdcp) : option (llc * pdcp * Z) :=
  match slots with
  | [] => Some (s, p, 0)
  | slot :: slots =>
    match llc_on_tx (replicate n 0) (TxInfo slot true false false (Pdu 0 (Z.of_nat n)) 0) s p with
    | Ok (_, info, s, p) =>
      match slots with [] => Some (s, p, out_allocated info) | _ => tx_run n slots s p end
    | _ => None
    end
  end.

(** ** A dropped PDU *)

(** The PDU that takes the place of one that is dropped after too many retries
    gets its number and its retry count: if it is not acknowledged it is
    dropped without having been sent again. *)
Theorem llc_retry_inherited {P} `{IpdcpLaws P} m info s (p : P) m' info' s' p' s1 r rest :
  llc_reach s p -> ll_tx_enabled s = true -> am_mode s = true -> tx_view_ok m info -> pdu_size (out_pdu info) <= 1500 ->
  llc_on_tx m info s p = Ok (m', info', s', p') -> check_retransmit (in_slot_number info) s = Ok s1 ->
  to_retx_list s1 = r :: rest -> it_max_retx_count (ll_tx_config s) < u64 (rt_retry_count r + 1) ->
  sn_counter s' <> sn_counter s ->
  exists e, tx_ring s' !! slot_idx (in_slot_number info) = Some e /\ te_llc_tx_id e = rt_llc_tx_id r /\
    te_acknowledged e = false /\ it_max_retx_count (ll_tx_config s') < te_retry_count e.
Proof.
  intros Hr Hon Hm Hv Hn E Ec Eq Hmax Hne. destruct (llc_reach_inv s p Hr) as (Hi & Hp & _).
  destruct (llc_on_tx_spec m info s p Hi Hon Hp Hv Hn) as (s2 & o & m1 & i1 & s3 & p3 & E1 & E2 & Hi1 & Hd).
  rewrite E in E2. injection E2 as <- <- <- <-. rewrite Ec in E1. injection E1 as <-.
  pose proof (td_step _ _ _ _ _ _ _ _ _ Hd) as Hst. set (n := pdu_size (out_pdu info)) in *.
  destruct (check_header _ _ _ Hi Ec) as (_ & Hsn & _ & Hcf).
  destruct (after_acks_facts n s1 Hi1) as (Hia & _).
  assert (sn_counter (after_acks n s1) = sn_counter s /\ to_retx_list (after_acks n s1) = r :: rest /\
    ll_tx_config (after_acks n s1) = ll_tx_config s) as (Hsx & Hqx & Hcx)
    by (rewrite <- Hsn, <- Hcf, <- Eq; unfold after_acks; by destruct (with_acks n s1)).
  set (x := after_acks n s1) in *. assert (am_mode x = true) as Hmx by (unfold am_mode in *; by rewrite Hcx).
  pose proof (data_step_config _ _ _ _ _ _ _ Hst) as ([[_ Hc'] _ _ _] & _). rewrite Hc', Hcx.
  inversion Hst as [? ? _ _|? ? Eq2|r2 rest2 ? Eq2 _ Hle|r2 rest2 ? Eq2|r2 rest2 d p1 Eq2 _ _ _ _|r2 rest2 Eq2]; subst.
  - congruence.
  - congruence.
  - rewrite Hqx in Eq2. injection Eq2 as <- <-. rewrite Hcx in Hle. lia.
  - exfalso. apply Hne. exact Hsx.
  - rewrite Hqx in Eq2. injection Eq2 as <- <-.
    destruct (ring_elem x (slot_idx (in_slot_number info)) Hia (slot_idx_lt _)) as (e & He & _).
    unfold kept. change (am_mode (increment_sn _)) with (am_mode x). rewrite Hmx.
    eexists. split; [apply kept_ring_lookup; exists e; split; [exact He|reflexivity]|].
    rewrite (decide_True (P := slot_idx (in_slot_number info) = slot_idx (in_slot_number info))) by done.
    destruct (decide (check_idx _ _ = _)); (split; [reflexivity|]; split; [reflexivity|exact Hmax]).
  - exfalso. apply Hne. exact Hsx.
Qed.

(** A window of one slot and no retries: the second PDU starts with a count of 1. *)
Example retry_inherited_run :
  match tx_run 22 [1; 2] (llc_example_with false 1 0) pdcp_example with
  | Some (s, _, _) =>
    (te_llc_tx_id <$> tx_ring s !! 2%nat, te_retry_count <$> tx_ring s !! 2%nat) = (Some 0, Some 1)
  | None => False
  end.
Proof. vm_compute. reflexivity. Qed.

(** ** A failure with acknowledgements in the frame *)

(** When the retries of a PDU are used up and the RRC is told, what was
    allocated is taken back, the PDU of acknowledgements with it; but the
    entries it held have left the list. The peer waits for them in vain. *)
Theorem llc_rlf_loses_acks {P} `{IpdcpLaws P} m info s (p : P) m' info' s' p' :
  llc_reach s p -> ll_tx_enabled s = true -> tx_view_ok m info -> pdu_size (out_pdu info) <= 1500 ->
  llc_on_tx m info s p = Ok (m', info', s', p') -> ll_rrc s' <> ll_rrc s ->
  let room := pdu_size (out_pdu info) - hdr_len_of (crc_on s) in
  ll_rrc s' = ll_rrc s ++ [OnRlf (ll_lcid s)] /\ out_allocated info' = 0 /\
  (0 < room -> to_ack_list s = acks_sent room (to_ack_list s) ++ to_ack_list s').
Proof.
  intros Hr Hon Hv Hn E Hne room. destruct (llc_reach_inv s p Hr) as (Hi & Hp & _).
  destruct (llc_on_tx_config m info s p m' info' s' p' Hi Hp Hv Hn E) as (_ & _ & _ & [?|Hrlf]); [done|]. split; [done|].
  destruct (llc_on_tx_spec m info s p Hi Hon Hp Hv Hn) as (s1 & o & m1 & i1 & s3 & p3 & E1 & E2 & Hi1 & Hd).
  rewrite E in E2. injection E2 as <- <- <- <-. set (n := pdu_size (out_pdu info)) in *.
  destruct (check_header _ _ _ Hi E1) as (Hcrc & _ & Hack & _).
  assert (ll_rrc (after_acks n s1) = ll_rrc s) as Hrx.
  { destruct (check_retransmit_spec (in_slot_number info) s Hi) as (s2 & E2 & _ & Hd2). rewrite E1 in E2. injection E2 as <-.
    assert (ll_rrc s1 = ll_rrc s) as <- by (destruct (due _ s) as [[i e]|]; [by destruct Hd2 as (? & ? & _ & ->)|by subst]).
    unfold after_acks. by destruct (with_acks n s1). }
  pose proof (data_step_config _ _ _ _ _ _ _ (td_step _ _ _ _ _ _ _ _ _ Hd)) as [_ Hrrc]. fold n in Hrrc. rewrite Hrx in Hrrc.
  destruct o as [|d|]; [by rewrite app_nil_r in Hrrc|by rewrite app_nil_r in Hrrc|].
  split; [exact (td_report _ _ _ _ _ _ _ _ _ Hd)|]. intros Hroom.
  pose proof (td_step _ _ _ _ _ _ _ _ _ Hd) as Hst. fold n in Hst.
  assert (to_ack_list s' = to_ack_list (after_acks n s1)) as -> by by inversion Hst.
  unfold after_acks, with_acks. rewrite Hcrc, Hack. rewrite (proj2 (Z.ltb_lt _ _)) by (unfold room in Hroom; lia). cbn [andb].
  destruct (to_ack_list s) as [|a A] eqn:EA; [rewrite zlen_nil; cbn [negb Z.eqb]; unfold acks_sent; by rewrite Hack, take_nil|].
  rewrite (proj2 (Z.eqb_neq _ 0)) by (rewrite zlen_cons; pose proof (zlen_nonneg A); lia). cbn [negb].
  symmetry. apply take_drop.
Qed.

Example rlf_run :
  match tx_run 22 [1] (llc_example_with true 1 0) pdcp_example with
  | Some (s, p, _) =>
    match tx_run 40 [2] (to_acknowledge 7 s) p with
    | Some (s, _, n) => (to_ack_list s, ll_rrc s, n) = ([], [OnRlf 4], 0)
    | None => False
    end
  | None => False
  end.
Proof. vm_compute. reflexivity. Qed.

(** ** A slot that has not been checked *)

(** The element of a slot for which no PDU is to be checked holds the index
    2^64 - 1, which the ring takes for slot 1023: a PDU sent in slot 1023 is
    queued again in the very next slot in which nothing is due, although its
    window has just begun. *)
Theorem llc_spurious_retransmit slot s c e :
  llc_inv s -> am_mode s = true -> tx_ring s !! slot_idx slot = Some c -> sent_index c = no_index ->
  tx_ring s !! 1023%nat = Some e -> te_acknowledged e = false ->
  exists s1, check_retransmit slot s = Ok s1 /\ to_retx_list s1 = to_retx_list s ++ [retx_of e].
Proof.
  intros Hi Hm Hc Hx He Ha. destruct (check_retransmit_spec slot s Hi) as (s1 & E1 & _ & Hd). exists s1. split; [done|].
  assert (due slot s = Some (1023%nat, e)) as Ed.
  { unfold due. rewrite Hm. cbn [negb]. rewrite Hc. cbn [mbind option_bind]. rewrite Hx.
    change (slot_idx no_index) with 1023%nat. rewrite He. cbn [mbind option_bind]. by rewrite Ha. }
  rewrite Ed in Hd. by destruct Hd as (pool & b & _ & ->).
Qed.

(** Sent in slot 1023 with a window of 8, queued in slot 1024. *)
Example spurious_run :
  match tx_run 22 [1023] llc_example pdcp_example with
  | Some (s, _, _) =>
    match check_retransmit 1024 s with Ok s1 => zlen (to_retx_list s1) = 1 | _ => False end
  | None => False
  end.
Proof. vm_compute. reflexivity. Qed.

(** A PDU of three bytes at [b], the header of which does not give the CRC that
    the four bytes behind it would have to be. *)
Record short_pdu (m : list Z) (b : Z) (h : llc_hdr) : Prop := ShortPdu {
  sp_holds : holds m (Llc (Some b) 3 4) h;
  sp_size : h_size h = 3;
  sp_room : b + 7 <= zlen m;
  sp_crc : exists x, sf_load Little BEU32 m (b + 3) = Ok x /\ crc crc32_04C11DB7 (hdr_bytes h) <> x }.

(** A short PDU damages the one behind it. [on_rx] clears the CRC field
    before it compares anything, also if the size of the PDU leaves no room for
    it: with a CRC expected, a received PDU of 3 bytes whose CRC is wrong makes
    the four bytes behind it zero, the header of the next PDU in the frame
    among them, and is dropped. *)
Theorem rx_short_pdu_clobbers {P} `{Ipdcp P} m b s (p : P) h :
  rx_crc_on s = true -> rx_crc_size s = 4 -> ll_rx_enabled s = true -> short_pdu m b h ->
  llc_on_rx m b 3 s p = Ok (splice m (b + 3) (replicate 4 0), s, p).
Proof.
  intros Hon Hcs Hen [Hh Hsz Hl (x & Hx & Hne)]. unfold llc_on_rx. rewrite Hen, Hcs. cbn [negb andb].
  change (llc_make (Some b) 3 4) with (Llc (Some b) 3 4). destruct (holds_get _ _ _ Hh) as (_ & _ & _ & Hs). rewrite Hs, bind_ret_l, Hsz.
  change (3 <? 3) with false. cbn iota. rewrite decide_True by by apply bool_decide_eq_true in Hon.
  change (get_CRC _) with (Ok (b + 3)). change (deref _) with (Ok b). rewrite bind_ret_l, Hx, bind_ret_l.
  pose proof Hh as (b0 & [= <-] & Hb & _ & Hok & Hbs). assert (zlen (replicate 4 0) = 4) as Hz by done.
  unfold sf_store. change (sf_image Little BEU32 _) with (replicate 4 0). rewrite wr_n_in, !bind_ret_l by lia.
  set (m' := splice m (b + 3) (replicate 4 0)).
  assert (holds m' (Llc (Some b) 3 4) h) as Hh'.
  { exists b. unfold m'. rewrite zlen_splice by lia. split_and!; try done; try lia.
    rewrite slice_splice_before by lia. exact Hbs. }
  destruct (holds_get _ _ _ Hh') as (_ & _ & _ & Hs'). rewrite Hs', bind_ret_l, Hsz.
  rewrite rd_n_in, bind_ret_l by (unfold m'; rewrite ?zlen_splice; lia).
  destruct Hh' as (b1 & [= <-] & _ & _ & _ & Hb1). rewrite Hb1, bind_ret_l.
  destruct (Z.eqb_spec (crc crc32_04C11DB7 (hdr_bytes h)) x); [done|]. done.
Qed.
Lemma rx_short_pdu_clobbers_witness :
  llc_on_rx [0; 64; 3; 1; 2; 3; 4] 0 3 (set_rx_enabled true llc_example) pdcp_example =
    Ok ([0; 64; 3; 0; 0; 0; 0], set_rx_enabled true llc_example, pdcp_example).
Proof.
  apply (rx_short_pdu_clobbers [0; 64; 3; 1; 2; 3; 4] 0 _ _ (LlcHdr 0 4 false 3)); try (vm_compute; reflexivity). constructor.
  - exists 0. repeat split; vm_compute; congruence.
  - reflexivity.
  - vm_compute. discriminate.
  - exists 0x1020304. split; [vm_compute; reflexivity|vm_compute; discriminate].
Defined.
