(* ===== verification/LlcUl.v ===== *)
(** * LLC uplink ([winject/src/llc/llc_ul.hpp], [.cpp])

    The transmit side of the link layer: it gives each PDU a sequence number,
    remembers the ones sent in acknowledged mode in a ring indexed by the slot
    in which they are checked, and retransmits those that were not
    acknowledged when their slot comes.

    A PDU is a view of a shared buffer ([bfc::shared_buffer_view]): the buffers
    live in a heap and a view names one, so a PDU kept for retransmission is
    the caller's buffer and not a copy of it. Moving a view copies it, as the
    class has no move constructor. *)

From stdpp Require Import gmap.
From S2P Require Import Prelude Mem SafeInt LlcFrame Crc LlcCrc.

(** ** Shared buffers *)

Abbreviation heap := (gmap Z (list Z)).

Record shared_view := SharedView { sv_buffer : option Z; sv_offset : Z; sv_size : Z }.
Definition sv_null : shared_view := SharedView None 0 0.

(** [data()] dereferences the shared pointer. *)
Definition sv_mem (h : heap) (v : shared_view) : res (list Z) :=
  match sv_buffer v with
  | None => Ub NullDeref
  | Some id => match h !! id with Some m => mret m | None => Ub OutOfBounds end
  end.

Definition sv_put (h : heap) (v : shared_view) (m : list Z) : heap :=
  match sv_buffer v with None => h | Some id => <[id := m]> h end.

(** ** Configuration and state *)

(** The enumerations are plain integers, which may hold other values. *)
Definition E_LLC_CRC_TYPE_NONE : Z := 0.
Definition E_LLC_CRC_TYPE_CRC32_04C11DB7 : Z := 1.
Definition E_LLC_TX_MODE_TM : Z := 0.
Definition E_LLC_TX_MODE_AM : Z := 1.

Record llc_ul_config_t := LlcUlConfig {
  lu_lcid : Z; crc_type : Z; mode : Z; tx_size : Z;
  min_recheck_slot_number : Z; max_recheck_slot_number : Z; max_retx_count : Z }.

Definition STATUS_BIT_SLOT_SKIPPED : Z := Z.shiftl 1 0.
Definition STATUS_BIT_DATA_PDU_ALLOCATED : Z := Z.shiftl 1 1.
Definition STATUS_BIT_WRITE_BUFFER_TOO_SMALL : Z := Z.shiftl 1 2.
Definition STATUS_BIT_INVALID_LLC_PDU : Z := Z.shiftl 1 3.
Definition STATUS_BIT_NO_TX_SLOT : Z := Z.shiftl 1 4.
Definition STATUS_BIT_NO_FREE_SN : Z := Z.shiftl 1 5.
Definition STATUS_BIT_INVALID_CONFIG : Z := Z.shiftl 1 6.
Definition STATUS_BIT_SN_LOST : Z := Z.shiftl 1 7.
Definition STATUS_BIT_SPURIOUS_ACK_SN : Z := Z.shiftl 1 8.
Definition STATUS_BIT_SPURIOUS_ACK_TX : Z := Z.shiftl 1 9.
Definition STATUS_BIT_SHOULD_NOT_HAPPEN : Z := Z.shiftl 1 63.

Record tx_elem_t := TxElem { acknowledged : bool; tx_sn : Z; tx_retry_count : Z; tx_pdu : shared_view }.
#[export] Instance eta_tx_elem : Eta tx_elem_t := fun e =>
  TxElem (acknowledged e) (tx_sn e) (tx_retry_count e) (tx_pdu e).
Definition tx_elem_init : tx_elem_t := TxElem true 0 0 sv_null.

Record sn_elem_t := SnElem { check_tx_slot_number : option Z }.

Record retx_elem_t := RetxElem { rx_retry_count : Z; rx_sn : Z; rx_pdu : shared_view }.

Record llc_ul_t := LlcUl {
  lu_config : llc_ul_config_t; lu_status : Z;
  current_slot_number : Z; sn_counter : Z;
  tx_ring : list tx_elem_t; sn_ring : list (option sn_elem_t); retx_list : list retx_elem_t;
  used_tx_slots : Z; pending_llc_pdu_count : Z }.
#[export] Instance eta_llc_ul : Eta llc_ul_t := fun s =>
  LlcUl (lu_config s) (lu_status s) (current_slot_number s) (sn_counter s)
    (tx_ring s) (sn_ring s) (retx_list s) (used_tx_slots s) (pending_llc_pdu_count s).

(** ** Helpers *)

Definition set_sbit (bit : Z) (s : llc_ul_t) : llc_ul_t :=
  s <| lu_status := Z.lor (lu_status s) bit |>.
Definition clear_sbit (bit : Z) (s : llc_ul_t) : llc_ul_t :=
  s <| lu_status := Z.land (lu_status s) (Z.lnot bit) |>.
Definition has_sbit (bit : Z) (s : llc_ul_t) : bool := bool_of_Z (Z.land (lu_status s) bit).

Definition crc_size (c : llc_ul_config_t) : Z :=
  if crc_type c =? E_LLC_CRC_TYPE_CRC32_04C11DB7 then 4 else 0.

Definition tx_ring_index (slot : Z) (s : llc_ul_t) : res nat :=
  let size := zlen (tx_ring s) in
  if size =? 0 then Ub DivByZero else mret (Z.to_nat (slot mod size)).

Definition sn_ring_index (sn : Z) (s : llc_ul_t) : res nat :=
  let size := zlen (sn_ring s) in
  if size =? 0 then Ub DivByZero else mret (Z.to_nat (Z.land sn llc_sn_mask mod size)).

Definition is_pow2_or_0 (n : Z) : bool := Z.land n (u64 (n - 1)) =? 0.

Definition validate_config (s : llc_ul_t) : llc_ul_t :=
  let c := lu_config s in
  let bad := set_sbit STATUS_BIT_INVALID_CONFIG in
  let s := if negb (mode c =? E_LLC_TX_MODE_TM) && negb (mode c =? E_LLC_TX_MODE_AM)
           then bad s else s in
  if negb (crc_type c =? E_LLC_CRC_TYPE_NONE) &&
     negb (crc_type c =? E_LLC_CRC_TYPE_CRC32_04C11DB7) then bad s else
  if (tx_size c =? 0) || negb (is_pow2_or_0 (tx_size c)) then bad s else
  if min_recheck_slot_number c =? 0 then bad s else
  if max_recheck_slot_number c =? 0 then bad s else
  if max_recheck_slot_number c <? min_recheck_slot_number c then bad s else
  if max_retx_count c =? 0 then bad s else s.

Definition llc_ul_reset (s : llc_ul_t) : llc_ul_t :=
  LlcUl (lu_config s) 0 0 0 (replicate (Z.to_nat (tx_size (lu_config s))) tx_elem_init)
    (replicate 256 None) [] 0 0.

Definition llc_ul (c : llc_ul_config_t) : llc_ul_t :=
  validate_config (llc_ul_reset (LlcUl c 0 0 0 [] [] [] 0 0)).

Definition llc_ul_reconfigure (c : llc_ul_config_t) (s : llc_ul_t) : llc_ul_t :=
  validate_config (llc_ul_reset (s <| lu_config := c |>)).

Definition get_free_tx_slot (s : llc_ul_t) : Z := zlen (tx_ring s) - used_tx_slots s.
Definition get_pending_llc_pdu_count (s : llc_ul_t) : Z := pending_llc_pdu_count s.

(** ** Operations *)

Definition update_current_slot_number (slot : Z) (s : llc_ul_t) : res (llc_ul_t * bool) :=
  if mode (lu_config s) =? E_LLC_TX_MODE_TM then mret (s, true) else
  if negb (slot =? u64 (current_slot_number s + 1))
  then mret (set_sbit STATUS_BIT_SLOT_SKIPPED s, false) else
  let s := clear_sbit STATUS_BIT_DATA_PDU_ALLOCATED s in
  let s := s <| current_slot_number := slot |> in
  i ← tx_ring_index slot s;
  old_slot ← vec_at (tx_ring s) i;
  if acknowledged old_slot then mret (s, true) else
  let s := s <| tx_ring := <[i := old_slot <| acknowledged := true |>]> (tx_ring s) |>
             <| used_tx_slots := used_tx_slots s - 1 |> in
  k ← sn_ring_index (tx_sn old_slot) s;
  sn_elem ← vec_at (sn_ring s) k;
  let s := clear_sbit STATUS_BIT_SPURIOUS_ACK_SN (clear_sbit STATUS_BIT_SHOULD_NOT_HAPPEN s) in
  match sn_elem with
  | None => mret (set_sbit (Z.lor STATUS_BIT_SPURIOUS_ACK_SN STATUS_BIT_SHOULD_NOT_HAPPEN) s, false)
  | Some _ =>
    mret (s <| sn_ring := <[k := Some (SnElem None)]> (sn_ring s) |>
            <| retx_list := retx_list s ++
                 [RetxElem (tx_retry_count old_slot) (tx_sn old_slot) (tx_pdu old_slot)] |>, true)
  end.

Definition acknowledge (sn : Z) (s : llc_ul_t) : res (llc_ul_t * bool) :=
  let s := clear_sbit STATUS_BIT_SHOULD_NOT_HAPPEN
             (clear_sbit STATUS_BIT_SPURIOUS_ACK_TX (clear_sbit STATUS_BIT_SPURIOUS_ACK_SN s)) in
  k ← sn_ring_index sn s;
  sn_elem ← vec_at (sn_ring s) k;
  match sn_elem with
  | None => mret (set_sbit STATUS_BIT_SPURIOUS_ACK_SN s, false)
  | Some e =>
    match check_tx_slot_number e with
    | None =>
      match list_find (fun x => rx_sn x = sn) (retx_list s) with
      | Some (j, _) =>
        mret (s <| retx_list := delete j (retx_list s) |>
                <| sn_ring := <[k := None]> (sn_ring s) |>
                <| pending_llc_pdu_count := pending_llc_pdu_count s - 1 |>, true)
      | None => mret (set_sbit (Z.lor STATUS_BIT_SPURIOUS_ACK_SN STATUS_BIT_SHOULD_NOT_HAPPEN) s, false)
      end
    | Some slot =>
      i ← tx_ring_index slot s;
      tx_elem ← vec_at (tx_ring s) i;
      if negb (acknowledged tx_elem) then
        mret (s <| tx_ring := <[i := tx_elem <| acknowledged := true |>]> (tx_ring s) |>
                <| pending_llc_pdu_count := pending_llc_pdu_count s - 1 |>
                <| used_tx_slots := used_tx_slots s - 1 |>
                <| sn_ring := <[k := None]> (sn_ring s) |>, true)
      else mret (set_sbit STATUS_BIT_SPURIOUS_ACK_TX s, false)
    end
  end.

Definition recheck_slot_size (retry_count : Z) (c : llc_ul_config_t) : res Z :=
  if max_retx_count c =? 0 then Ub DivByZero else
  mret (u64 (min_recheck_slot_number c +
    u64 (retry_count * u64 (max_recheck_slot_number c - min_recheck_slot_number c)) / max_retx_count c)).

(** The search of [enqueue_tx_check] for a free slot, at most [tx_size] steps. *)
Fixpoint find_tx_slot (n : nat) (check_slot_number : Z) (s : llc_ul_t) : res (option (Z * nat)) :=
  match n with
  | O => mret None
  | S n =>
    i ← tx_ring_index check_slot_number s;
    check_slot ← vec_at (tx_ring s) i;
    if negb (acknowledged check_slot) then find_tx_slot n (u64 (check_slot_number + 1)) s
    else mret (Some (check_slot_number, i))
  end.

Definition enqueue_tx_check (llc_pdu : shared_view) (sn retry_count : Z) (s : llc_ul_t)
    : res (llc_ul_t * option Z) :=
  let s := clear_sbit STATUS_BIT_NO_TX_SLOT s in
  r ← recheck_slot_size retry_count (lu_config s);
  found ← find_tx_slot (Z.to_nat (tx_size (lu_config s))) (u64 (current_slot_number s + r)) s;
  match found with
  | Some (slot, i) =>
    mret (s <| tx_ring := <[i := TxElem false sn retry_count llc_pdu]> (tx_ring s) |>
            <| used_tx_slots := used_tx_slots s + 1 |>, Some slot)
  | None => mret (set_sbit STATUS_BIT_NO_TX_SLOT s, None)
  end.

Definition get_retransmission_size (s : llc_ul_t) : Z :=
  match retx_list s with [] => 0 | e :: _ => sv_size (rx_pdu e) end.

(** [write_retransmission_pdu] into the view [(b, n)] of the memory [m]. *)
Definition write_retransmission_pdu (h : heap) (m : list Z) (b n : Z) (s : llc_ul_t)
    : res (list Z * llc_ul_t * Z) :=
  if has_sbit STATUS_BIT_DATA_PDU_ALLOCATED s then mret (m, s, 0) else
  if mode (lu_config s) =? E_LLC_TX_MODE_TM then mret (m, s, 0) else
  let size := get_retransmission_size s in
  if size =? 0 then mret (m, s, 0) else
  let s := clear_sbit STATUS_BIT_WRITE_BUFFER_TOO_SMALL s in
  if n <? size then mret (m, set_sbit STATUS_BIT_WRITE_BUFFER_TOO_SMALL s, 0) else
  match retx_list s with
  | [] => Ub EmptyFront
  | e :: rest =>
    k ← sn_ring_index (rx_sn e) s;
    sn_elem ← vec_at (sn_ring s) k;
    let s := clear_sbit STATUS_BIT_SHOULD_NOT_HAPPEN (clear_sbit STATUS_BIT_SPURIOUS_ACK_SN s) in
    match sn_elem with
    | None =>
      mret (m, (set_sbit (Z.lor STATUS_BIT_SPURIOUS_ACK_SN STATUS_BIT_SHOULD_NOT_HAPPEN) s)
                 <| retx_list := rest |>
                 <| pending_llc_pdu_count := pending_llc_pdu_count s - 1 |>, 0)
    | Some _ =>
      let s := clear_sbit STATUS_BIT_SN_LOST s in
      if max_retx_count (lu_config s) <=? rx_retry_count e then
        mret (m, (set_sbit STATUS_BIT_SN_LOST s)
                   <| sn_ring := <[k := None]> (sn_ring s) |>
                   <| retx_list := rest |>
                   <| pending_llc_pdu_count := pending_llc_pdu_count s - 1 |>, 0)
      else
        src ← sv_mem h (rx_pdu e);
        bs ← rd_n src (sv_offset (rx_pdu e)) size;
        m ← wr_n m b bs;
        '(s, r) ← enqueue_tx_check (rx_pdu e) (rx_sn e) (u64 (rx_retry_count e + 1)) s;
        match r with
        | None => mret (m, s, 0)
        | Some slot =>
          let s := s <| sn_ring := <[k := Some (SnElem (Some slot))]> (sn_ring s) |>
                     <| retx_list := rest |> in
          mret (m, set_sbit STATUS_BIT_DATA_PDU_ALLOCATED s, size)
        end
    end
  end.

Definition get_llc_header_size (s : llc_ul_t) : Z := get_header_size (llc_null (crc_size (lu_config s))).

(** The view of a PDU as an LLC frame. *)
Definition llc_of (v : shared_view) (s : llc_ul_t) : llc_t :=
  llc_make (Some (sv_offset v)) (sv_size v) (crc_size (lu_config s)).

Definition prepare_llc_pdu (h : heap) (buffer : shared_view) (is_ack : bool) (s : llc_ul_t)
    : res (heap * option llc_t) :=
  m ← sv_mem h buffer;
  let rv := llc_of buffer s in
  if negb (llc_is_header_valid rv) then mret (h, None) else
  m ← set_LCID m rv (lu_lcid (lu_config s));
  m ← set_SN m rv (sn_counter s);
  m ← set_A m rv is_ack;
  mret (sv_put h buffer m, Some rv).

(** The CRC of the whole PDU, computed with the CRC field zero. *)
Definition fill_crc (m : list Z) (llc : llc_t) (crc_sz : Z) : res (list Z) :=
  p ← get_CRC llc;
  m ← wr_n m p (replicate (Z.to_nat crc_sz) 0);
  base ← deref (llc_base llc);
  sz ← get_SIZE m llc;
  data ← rd_n m base sz;
  let crc_actual := sf_image Little BEU32 (sf_make Little BEU32 (crc crc32_04C11DB7 data)) in
  wr_n m p (take (Z.to_nat (Z.min crc_sz 4)) crc_actual).

Definition write_llc_pdu (h : heap) (target : shared_view) (s : llc_ul_t)
    : res (heap * llc_ul_t * Z) :=
  if has_sbit STATUS_BIT_DATA_PDU_ALLOCATED s then mret (h, s, 0) else
  m ← sv_mem h target;
  let llc := llc_of target s in
  k ← sn_ring_index (sn_counter s) s;
  sn_elem ← vec_at (sn_ring s) k;
  let am := mode (lu_config s) =? E_LLC_TX_MODE_AM in
  is_ack ← (if am then get_A m llc else mret false);
  let data := am && negb is_ack in
  let s := if data then clear_sbit STATUS_BIT_NO_FREE_SN s else s in
  if data && bool_decide (is_Some sn_elem) then mret (h, set_sbit STATUS_BIT_NO_FREE_SN s, 0) else
  let s := clear_sbit STATUS_BIT_INVALID_LLC_PDU s in
  valid ← llc_is_valid m llc;
  if negb valid then mret (h, set_sbit STATUS_BIT_INVALID_LLC_PDU s, 0) else
  is_ack ← get_A m llc;
  m ← set_SN m llc (if is_ack : bool then 0 else sn_counter s);
  m ← (if bool_of_Z (crc_size (lu_config s)) then fill_crc m llc (crc_size (lu_config s)) else mret m);
  let h := sv_put h target m in
  is_ack ← get_A m llc;
  if am && negb is_ack then
    '(s, r) ← enqueue_tx_check target (sn_counter s) 0 s;
    match r with
    | None => mret (h, s, 0)
    | Some slot =>
      let s := s <| sn_ring := <[k := Some (SnElem (Some slot))]> (sn_ring s) |>
                 <| sn_counter := u8 (sn_counter s + 1) |>
                 <| pending_llc_pdu_count := pending_llc_pdu_count s + 1 |> in
      let s := set_sbit STATUS_BIT_DATA_PDU_ALLOCATED s in
      size ← get_SIZE m llc;
      mret (h, s, size)
    end
  else
    let s := s <| sn_counter := u8 (sn_counter s + 1) |> in
    size ← get_SIZE m llc;
    mret (h, s, size).

(** ** The bookkeeping invariant

    Each outstanding sequence number is in exactly one of two places: in the
    slot of the ring where it will be checked, or in the queue of PDUs that
    wait for retransmission. *)

Fixpoint unacked (l : list tx_elem_t) : Z :=
  match l with [] => 0 | e :: l => Z_of_bool (negb (acknowledged e)) + unacked l end.

Record book (N : Z) (tx : list tx_elem_t) (sns : list (option sn_elem_t)) (rx : list retx_elem_t)
    (R : Z) : Prop := Book {
  bk_tx : zlen tx = N;
  bk_sns : length sns = 256%nat;
  bk_tx_sn : forall i e, tx !! i = Some e -> acknowledged e = false ->
    is_u8 (tx_sn e) /\ 0 <= tx_retry_count e <= R /\ exists slot, 0 <= slot /\
    sns !! Z.to_nat (tx_sn e) = Some (Some (SnElem (Some slot))) /\ Z.to_nat (slot mod N) = i;
  bk_sn_tx : forall k slot, sns !! k = Some (Some (SnElem (Some slot))) -> 0 <= slot /\
    exists e, tx !! Z.to_nat (slot mod N) = Some e /\ acknowledged e = false /\ tx_sn e = Z.of_nat k;
  bk_rx_sn : forall e, e ∈ rx -> is_u8 (rx_sn e) /\ 0 <= rx_retry_count e <= R /\
    sns !! Z.to_nat (rx_sn e) = Some (Some (SnElem None));
  bk_sn_rx : forall k, sns !! k = Some (Some (SnElem None)) -> Z.of_nat k ∈ map rx_sn rx;
  bk_nodup : NoDup (map rx_sn rx) }.

Lemma unacked_insert tx i e e' :
  tx !! i = Some e ->
  unacked (<[i := e']> tx) =
    unacked tx - Z_of_bool (negb (acknowledged e)) + Z_of_bool (negb (acknowledged e')).
Proof.
  revert i. induction tx as [|x tx IH]; intros [|i] H; try done; simpl in *.
  - injection H as ->. lia.
  - rewrite (IH i) by done. lia.
Qed.

Lemma unacked_range tx : 0 <= unacked tx <= zlen tx.
Proof.
  induction tx as [|e tx IH]; rewrite ?zlen_cons; simpl; [done|].
  destruct (acknowledged e); simpl; lia.
Qed.

Lemma unacked_full tx : unacked tx = zlen tx -> forall i e, tx !! i = Some e -> acknowledged e = false.
Proof.
  induction tx as [|x tx IH]; rewrite ?zlen_cons; intros H i e Hi; [done|]. simpl in H.
  pose proof (unacked_range tx). destruct (acknowledged x) eqn:E; simpl in H; [lia|].
  destruct i as [|i]; [by injection Hi as <-|]. apply (IH ltac:(lia) i e Hi).
Qed.

Section Book.
Context (N R : Z) (tx : list tx_elem_t) (sns : list (option sn_elem_t)) (rx : list retx_elem_t).
Context (HN : 0 < N) (B : book N tx sns rx R).

Lemma slot_lt slot : (Z.to_nat (slot mod N) < length tx)%nat.
Proof. pose proof (Z.mod_pos_bound slot N HN). pose proof (bk_tx _ _ _ _ _ B). zlia. Qed.

(** The check of a slot whose PDU was not acknowledged. *)
Lemma book_park i e :
  tx !! i = Some e -> acknowledged e = false ->
  book N (<[i := e <| acknowledged := true |>]> tx) (<[Z.to_nat (tx_sn e) := Some (SnElem None)]> sns)
    (rx ++ [RetxElem (tx_retry_count e) (tx_sn e) (tx_pdu e)]) R.
Proof.
  intros Hi He. pose proof B as [B1 B2 B3 B4 B5 B6 B7].
  destruct (B3 i e Hi He) as (Hsn & Hr & slot & Hs0 & Hslot & Hidx).
  pose proof (lookup_lt_Some _ _ _ Hi) as Hlt.
  assert (Z.to_nat (tx_sn e) < length sns)%nat as Hk by ulia.
  assert (tx_sn e ∉ map rx_sn rx) as Hnin.
  { intros Hin. apply list_elem_of_fmap in Hin as (x & Ex & Hx). destruct (B5 x Hx) as (_ & _ & H).
    rewrite <- Ex in H. congruence. }
  constructor.
  - unfold zlen. by rewrite length_insert.
  - by rewrite length_insert.
  - intros j x Hj Hx. destruct (decide (j = i)) as [->|Hne].
    { rewrite list_lookup_insert_eq in Hj by done. by injection Hj as <-. }
    rewrite list_lookup_insert_ne in Hj by done.
    destruct (B3 j x Hj Hx) as (H1 & H1' & slot' & H2 & H3 & H4). split; [done|]. split; [done|].
    exists slot'. split; [done|]. split; [|done]. rewrite list_lookup_insert_ne; [done|].
    intros E. apply Hne. rewrite <- E, Hslot in H3. injection H3 as <-. congruence.
  - intros k slot' Hk'. destruct (decide (k = Z.to_nat (tx_sn e))) as [->|Hne].
    { rewrite list_lookup_insert_eq in Hk' by done. discriminate. }
    rewrite list_lookup_insert_ne in Hk' by done. destruct (B4 k slot' Hk') as (H0 & x & H1 & H2 & H3).
    split; [done|]. exists x. split; [|done]. rewrite list_lookup_insert_ne; [done|].
    intros E. rewrite <- E in H1. apply Hne. rewrite Hi in H1. injection H1 as <-. ulia.
  - intros x [Hx| ->%list_elem_of_singleton]%elem_of_app.
    + destruct (B5 x Hx) as (H1 & H1' & H2). split; [done|]. split; [done|].
      rewrite list_lookup_insert_ne; [done|].
      intros E. apply Hnin. apply list_elem_of_fmap. exists x. split; [ulia|done].
    + cbn. split; [done|]. split; [done|]. by rewrite list_lookup_insert_eq.
  - intros k Hk'. rewrite map_app. apply elem_of_app.
    destruct (decide (k = Z.to_nat (tx_sn e))) as [->|Hne].
    + right. apply list_elem_of_singleton. cbn. ulia.
    + left. rewrite list_lookup_insert_ne in Hk' by done. by apply B6.
  - rewrite map_app. apply list.NoDup_app. split; [done|]. split; [|apply NoDup_singleton].
    intros x Hx Hx'. apply list_elem_of_singleton in Hx'. cbn in Hx'. congruence.
Qed.

(** The acknowledgement of a PDU in the ring. *)
Lemma book_ack_tx i e :
  tx !! i = Some e -> acknowledged e = false ->
  book N (<[i := e <| acknowledged := true |>]> tx) (<[Z.to_nat (tx_sn e) := None]> sns) rx R.
Proof.
  intros Hi He. pose proof B as [B1 B2 B3 B4 B5 B6 B7].
  destruct (B3 i e Hi He) as (Hsn & Hr & slot & Hs0 & Hslot & Hidx).
  pose proof (lookup_lt_Some _ _ _ Hi) as Hlt.
  assert (Z.to_nat (tx_sn e) < length sns)%nat as Hk by ulia.
  constructor; try done.
  - unfold zlen. by rewrite length_insert.
  - by rewrite length_insert.
  - intros j x Hj Hx. destruct (decide (j = i)) as [->|Hne].
    { rewrite list_lookup_insert_eq in Hj by done. by injection Hj as <-. }
    rewrite list_lookup_insert_ne in Hj by done.
    destruct (B3 j x Hj Hx) as (H1 & H1' & slot' & H2 & H3 & H4). split; [done|]. split; [done|].
    exists slot'. split; [done|]. split; [|done]. rewrite list_lookup_insert_ne; [done|].
    intros E. apply Hne. rewrite <- E, Hslot in H3. injection H3 as <-. congruence.
  - intros k slot' Hk'. destruct (decide (k = Z.to_nat (tx_sn e))) as [->|Hne].
    { rewrite list_lookup_insert_eq in Hk' by done. discriminate. }
    rewrite list_lookup_insert_ne in Hk' by done. destruct (B4 k slot' Hk') as (H0 & x & H1 & H2 & H3).
    split; [done|]. exists x. split; [|done]. rewrite list_lookup_insert_ne; [done|].
    intros E. rewrite <- E in H1. apply Hne. rewrite Hi in H1. injection H1 as <-. ulia.
  - intros x Hx. destruct (B5 x Hx) as (H1 & H1' & H2). split; [done|]. split; [done|].
    rewrite list_lookup_insert_ne; [done|].
    intros E. rewrite <- E in H2. congruence.
  - intros k Hk'. destruct (decide (k = Z.to_nat (tx_sn e))) as [->|Hne].
    { rewrite list_lookup_insert_eq in Hk' by done. discriminate. }
    rewrite list_lookup_insert_ne in Hk' by done. by apply B6.
Qed.

(** The removal of a PDU from the retransmission queue. *)
Lemma book_ack_rx j e :
  rx !! j = Some e -> book N tx (<[Z.to_nat (rx_sn e) := None]> sns) (delete j rx) R.
Proof.
  intros Hj. pose proof B as [B1 B2 B3 B4 B5 B6 B7].
  assert (e ∈ rx) as Hin by (by eapply list_elem_of_lookup_2).
  destruct (B5 e Hin) as (Hsn & Hr & Hs).
  assert (Z.to_nat (rx_sn e) < length sns)%nat as Hk by ulia.
  assert (map rx_sn rx ≡ₚ rx_sn e :: map rx_sn (delete j rx)) as HP.
  { rewrite (delete_Permutation rx j e Hj) at 1. done. }
  pose proof B7 as B7'. rewrite HP in B7'. apply list.NoDup_cons in B7' as [Hnin Hnd].
  constructor; try done.
  - by rewrite length_insert.
  - intros i x Hi Hx. destruct (B3 i x Hi Hx) as (H1 & H1' & slot & H2 & H3 & H4).
    split; [done|]. split; [done|]. exists slot. split; [done|]. split; [|done].
    rewrite list_lookup_insert_ne; [done|]. intros E. rewrite E in Hs. congruence.
  - intros k slot Hk'. destruct (decide (k = Z.to_nat (rx_sn e))) as [->|Hne].
    { rewrite list_lookup_insert_eq in Hk' by done. discriminate. }
    rewrite list_lookup_insert_ne in Hk' by done. by apply B4.
  - intros x Hx.
    assert (x ∈ rx) as Hx' by (rewrite (delete_Permutation rx j e Hj); by apply list_elem_of_further).
    destruct (B5 x Hx') as (H1 & H1' & H2). split; [done|]. split; [done|].
    rewrite list_lookup_insert_ne; [done|]. intros E. apply Hnin.
    apply list_elem_of_fmap. exists x. split; [ulia|done].
  - intros k Hk'. destruct (decide (k = Z.to_nat (rx_sn e))) as [->|Hne].
    { rewrite list_lookup_insert_eq in Hk' by done. discriminate. }
    rewrite list_lookup_insert_ne in Hk' by done. apply B6 in Hk'. rewrite HP in Hk'.
    apply elem_of_cons in Hk' as [?|?]; [|done]. exfalso. ulia.
Qed.

(** A PDU put into a free slot under a free sequence number. *)
Lemma book_send slot i e sn r pdu :
  tx !! i = Some e -> acknowledged e = true -> 0 <= slot -> Z.to_nat (slot mod N) = i ->
  is_u8 sn -> sns !! Z.to_nat sn = Some None -> 0 <= r <= R ->
  book N (<[i := TxElem false sn r pdu]> tx) (<[Z.to_nat sn := Some (SnElem (Some slot))]> sns) rx R.
Proof.
  intros Hi He Hslot Hidx Hsn Hfree Hr. pose proof B as [B1 B2 B3 B4 B5 B6 B7].
  pose proof (lookup_lt_Some _ _ _ Hi) as Hlt. pose proof (lookup_lt_Some _ _ _ Hfree) as Hk.
  constructor; try done.
  - unfold zlen. by rewrite length_insert.
  - by rewrite length_insert.
  - intros j x Hj Hx. destruct (decide (j = i)) as [->|Hne].
    { rewrite list_lookup_insert_eq in Hj by done. injection Hj as <-. cbn.
      split; [done|]. split; [done|]. exists slot. rewrite list_lookup_insert_eq by done. done. }
    rewrite list_lookup_insert_ne in Hj by done.
    destruct (B3 j x Hj Hx) as (H1 & H1' & slot' & H2 & H3 & H4). split; [done|]. split; [done|].
    exists slot'. split; [done|]. split; [|done]. rewrite list_lookup_insert_ne; [done|].
    intros E. rewrite E in Hfree. congruence.
  - intros k slot' Hk'. destruct (decide (k = Z.to_nat sn)) as [->|Hne].
    { rewrite list_lookup_insert_eq in Hk' by done. injection Hk' as <-. split; [done|].
      rewrite Hidx. eexists. rewrite list_lookup_insert_eq by done. split; [done|]. cbn. split; [done|ulia]. }
    rewrite list_lookup_insert_ne in Hk' by done. destruct (B4 k slot' Hk') as (H0 & x & H1 & H2 & H3).
    split; [done|]. exists x. split; [|done]. rewrite list_lookup_insert_ne; [done|].
    intros E. rewrite E in Hi. congruence.
  - intros x Hx. destruct (B5 x Hx) as (H1 & H1' & H2). split; [done|]. split; [done|].
    rewrite list_lookup_insert_ne; [done|]. intros E. rewrite E in Hfree. congruence.
  - intros k Hk'. destruct (decide (k = Z.to_nat sn)) as [->|Hne].
    { rewrite list_lookup_insert_eq in Hk' by done. discriminate. }
    rewrite list_lookup_insert_ne in Hk' by done. by apply B6.
Qed.
End Book.

Lemma book_init N R : 0 <= N -> book N (replicate (Z.to_nat N) tx_elem_init) (replicate 256 None) [] R.
Proof.
  intros HN. constructor; try done.
  - rewrite zlen_replicate. lia.
  - intros i e [-> _]%lookup_replicate_1. done.
  - intros k slot [? _]%lookup_replicate_1. done.
  - intros e H. by apply elem_of_nil in H.
  - intros k [? _]%lookup_replicate_1. done.
  - constructor.
Qed.

(** ** Lemmas on the operations *)

Record valid_cfg (c : llc_ul_config_t) : Prop := ValidCfg {
  vc_mode : mode c = E_LLC_TX_MODE_TM \/ mode c = E_LLC_TX_MODE_AM;
  vc_crc : crc_type c = E_LLC_CRC_TYPE_NONE \/ crc_type c = E_LLC_CRC_TYPE_CRC32_04C11DB7;
  vc_size : exists k, 0 <= k < 64 /\ tx_size c = 2 ^ k;
  vc_recheck : 0 < min_recheck_slot_number c <= max_recheck_slot_number c;
  vc_retx : 0 < max_retx_count c < 18446744073709551615 }.

(** The alarms: status bits that mean the bookkeeping went wrong. *)
Definition no_alarm (st : Z) : Prop := Z.testbit st 63 = false /\ Z.testbit st 9 = false.

Record lu_inv (s : llc_ul_t) : Prop := LuInv {
  li_cfg : valid_cfg (lu_config s);
  li_book : book (tx_size (lu_config s)) (tx_ring s) (sn_ring s) (retx_list s) (max_retx_count (lu_config s));
  li_used : used_tx_slots s = unacked (tx_ring s);
  li_pending : pending_llc_pdu_count s = unacked (tx_ring s) + zlen (retx_list s);
  li_sn : is_u8 (sn_counter s);
  li_alarm : no_alarm (lu_status s) }.

Lemma no_alarm_set st bit :
  no_alarm st -> Z.testbit bit 63 = false -> Z.testbit bit 9 = false -> no_alarm (Z.lor st bit).
Proof. intros [H1 H2] H3 H4. split; by rewrite Z.lor_spec, ?H1, ?H2, ?H3, ?H4. Qed.
Lemma no_alarm_clear st bit : no_alarm st -> no_alarm (Z.land st bit).
Proof. intros [H1 H2]. split; by rewrite Z.land_spec, ?H1, ?H2. Qed.
Lemma has_set_sbit bit s : bit <> 0 -> has_sbit bit (set_sbit bit s) = true.
Proof.
  intros Hb. unfold has_sbit, set_sbit, upd, bool_of_Z. cbn [lu_status].
  rewrite Z.land_lor_distr_l, Z.land_diag. destruct (Z.eqb_spec (Z.lor (Z.land (lu_status s) bit) bit) 0) as [E|]; [|done].
  apply Z.lor_eq_0_iff in E as [_ E]. done.
Qed.

Ltac alarm :=
  cbn [lu_status]; repeat first
    [ assumption | apply no_alarm_clear | apply no_alarm_set; [|reflexivity|reflexivity] ].


Lemma cfg_size_pos c : valid_cfg c -> 0 < tx_size c.
Proof. intros [_ _ (k & Hk & ->) _ _]. apply Z.pow_pos_nonneg; lia. Qed.

(** A power of two divides 2^64, so slot numbers wrap around with the ring. *)
Lemma cfg_size_wrap c x : valid_cfg c -> u64 x mod tx_size c = x mod tx_size c.
Proof.
  intros [_ _ (k & Hk & ->) _ _]. unfold u64.
  change 18446744073709551616 with (2 ^ 64). replace 64 with ((64 - k) + k) by lia.
  rewrite Z.pow_add_r by lia. rewrite Z.mul_comm.
  rewrite Z.rem_mul_r by (try apply Z.pow_pos_nonneg; try apply Z.pow_nonzero; lia).
  rewrite Z.mul_comm, Z.mod_add by (apply Z.pow_nonzero; lia).
  apply Z.mod_mod, Z.pow_nonzero; lia.
Qed.

Lemma sn_index s sn : lu_inv s -> is_u8 sn -> sn_ring_index sn s = Ok (Z.to_nat sn).
Proof.
  intros Hs Hsn. unfold sn_ring_index. pose proof (bk_sns _ _ _ _ _ (li_book _ Hs)) as Hl.
  assert (zlen (sn_ring s) = 256) as -> by (unfold zlen; lia). simpl.
  unfold llc_sn_mask. change 255 with (Z.ones 8). rewrite Z.land_ones by lia.
  change (2 ^ 8) with 256. unfold mret, res_ret. do 2 f_equal. ulia.
Qed.

Lemma sn_at s sn : lu_inv s -> is_u8 sn ->
  exists x, sn_ring s !! Z.to_nat sn = Some x /\ vec_at (sn_ring s) (Z.to_nat sn) = Ok x.
Proof.
  intros Hs Hsn. pose proof (bk_sns _ _ _ _ _ (li_book _ Hs)) as Hl.
  destruct (lookup_lt_is_Some_2 (sn_ring s) (Z.to_nat sn)) as [x Hx]; [ulia|].
  exists x. split; [done|]. unfold vec_at. by rewrite Hx.
Qed.

Lemma tx_index_ring tx s slot : lu_inv s -> tx_ring s = tx ->
  tx_ring_index slot s = Ok (Z.to_nat (slot mod tx_size (lu_config s))).
Proof.
  intros Hs <-. unfold tx_ring_index. rewrite (bk_tx _ _ _ _ _ (li_book _ Hs)).
  pose proof (cfg_size_pos _ (li_cfg _ Hs)). by rewrite (proj2 (Z.eqb_neq _ 0)) by lia.
Qed.

(** The invariant does not look at the clean bits of the status, nor at the
    current slot. *)
Lemma lu_inv_status s st : lu_inv s -> no_alarm st -> lu_inv (s <| lu_status := st |>).
Proof. intros []. by constructor. Qed.
Lemma lu_inv_slot s n : lu_inv s -> lu_inv (s <| current_slot_number := n |>).
Proof. intros []. by constructor. Qed.

Lemma lu_inv_init c st cur sc tx sns rx u p :
  valid_cfg c -> lu_inv (llc_ul_reset (LlcUl c st cur sc tx sns rx u p)).
Proof.
  intros Hc. pose proof (cfg_size_pos c Hc). constructor; cbn; try done.
  - apply book_init. lia.
  - induction (Z.to_nat (tx_size c)); simpl; [done|]. done.
  - induction (Z.to_nat (tx_size c)); simpl; [done|]. done.
Qed.

Lemma validate_valid s : valid_cfg (lu_config s) -> validate_config s = s.
Proof.
  intros Hc. pose proof (cfg_size_pos _ Hc). destruct Hc as [Hm Hcr (k & Hk & Hsz) Hr Hx].
  unfold validate_config. set (c := lu_config s) in *.
  assert (is_pow2_or_0 (tx_size c) = true) as ->.
  { unfold is_pow2_or_0. rewrite Hsz. apply Z.eqb_eq.
    assert (2 ^ k < 2 ^ 64) by (apply Z.pow_lt_mono_r; lia).
    assert (0 < 2 ^ k) by (apply Z.pow_pos_nonneg; lia).
    change (2 ^ 64) with 18446744073709551616 in *.
    rewrite u64_id by ulia. rewrite Z.sub_1_r, <- Z.ones_equiv, Z.land_ones by lia.
    apply Z.mod_same. lia. }
  rewrite (proj2 (Z.eqb_neq (tx_size c) 0)), (proj2 (Z.eqb_neq (min_recheck_slot_number c) 0)),
    (proj2 (Z.eqb_neq (max_recheck_slot_number c) 0)), (proj2 (Z.eqb_neq (max_retx_count c) 0)),
    (proj2 (Z.ltb_ge (max_recheck_slot_number c) _)) by lia.
  destruct Hm as [-> | ->], Hcr as [-> | ->]; done.
Qed.

(** *** [update_current_slot_number] and [acknowledge] *)

Lemma update_slot_inv slot s :
  lu_inv s ->
  exists s' b, update_current_slot_number slot s = Ok (s', b) /\ lu_inv s' /\
    lu_config s' = lu_config s /\ pending_llc_pdu_count s' = pending_llc_pdu_count s /\
    sn_counter s' = sn_counter s /\
    (b = true <-> mode (lu_config s) = E_LLC_TX_MODE_TM \/ slot = u64 (current_slot_number s + 1)) /\
    (forall e, e ∈ retx_list s' -> e ∈ retx_list s \/
       exists x, x ∈ tx_ring s /\ acknowledged x = false /\ rx_pdu e = tx_pdu x) /\
    (forall e, e ∈ tx_ring s' -> acknowledged e = false -> e ∈ tx_ring s).
Proof.
  intros Hs. pose proof (cfg_size_pos _ (li_cfg _ Hs)) as HN. unfold update_current_slot_number.
  destruct (Z.eqb_spec (mode (lu_config s)) E_LLC_TX_MODE_TM) as [Hm|Hm].
  { exists s, true. split_and!; try done; [tauto|by left]. }
  destruct (Z.eqb_spec slot (u64 (current_slot_number s + 1))) as [->|Hne]; cbn [negb].
  2:{ eexists _, false. split; [done|]. split; [apply lu_inv_status; [done|]; apply no_alarm_set; [apply (li_alarm _ Hs)|done|done]|].
      split_and!; try done; [split; [done|tauto]|by left]. }
  set (slot := u64 _). set (s1 := (clear_sbit _ s) <| current_slot_number := slot |>).
  assert (lu_inv s1) as Hs1.
  { apply lu_inv_slot, lu_inv_status; [done|]. apply no_alarm_clear, (li_alarm _ Hs). }
  rewrite (tx_index_ring (tx_ring s) s1) by done. rewrite bind_ret_l.
  change (lu_config s1) with (lu_config s). set (i := Z.to_nat (slot mod _)).
  assert (i < length (tx_ring s))%nat as Hi.
  { pose proof (bk_tx _ _ _ _ _ (li_book _ Hs)). pose proof (Z.mod_pos_bound slot _ HN). unfold i. zlia. }
  destruct (lookup_lt_is_Some_2 _ _ Hi) as [e He]. change (tx_ring s1) with (tx_ring s).
  rewrite (vec_at_Some _ _ _ He), bind_ret_l.
  destruct (acknowledged e) eqn:Ea.
  { exists s1, true. split; [done|]. split; [done|]. split_and!; try done; [tauto|by left]. }
  pose proof (li_book _ Hs) as HB. destruct (bk_tx_sn _ _ _ _ _ HB i e He Ea) as (Hsn & Hr & k & _ & Hk & _).
  pose proof Hs as [Hc _ Hu Hp Hsc Hal].
  match goal with |- context [sn_ring_index ?sn ?x] => assert (sn_ring_index sn x = Ok (Z.to_nat sn)) as -> by (apply (sn_index s); done) end.
  rewrite bind_ret_l. match goal with |- context [vec_at ?l ?j] => change l with (sn_ring s) end.
  rewrite (vec_at_Some _ _ _ Hk), bind_ret_l. eexists _, true. split; [reflexivity|].
  split; [constructor; cbn; try done|split_and!; cbn; try done].
  - by apply book_park.
  - rewrite (unacked_insert _ _ e _ He), Ea, Hu. cbn. lia.
  - rewrite (unacked_insert _ _ e _ He), Ea, Hp, zlen_app. cbn. change (zlen [_]) with 1. lia.
  - alarm.
  - tauto.
  - intros x [Hx| ->%list_elem_of_singleton]%elem_of_app; [by left|right]. exists e.
    split_and!; try done. by eapply list_elem_of_lookup_2.
  - intros x Hx Hxa. apply list_elem_of_lookup in Hx as [j Hj].
    destruct (decide (j = i)) as [->|Hne].
    + rewrite list_lookup_insert_eq in Hj by done. by injection Hj as <-.
    + rewrite list_lookup_insert_ne in Hj by done. by eapply list_elem_of_lookup_2.
Qed.

(** A sequence number sent and not yet acknowledged or given up. *)
Definition outstanding (sn : Z) (s : llc_ul_t) : Prop := exists e, sn_ring s !! Z.to_nat sn = Some (Some e).

Lemma sn_cleared s s' sn :
  lu_inv s -> is_u8 sn -> sn_ring s' = <[Z.to_nat sn := None]> (sn_ring s) ->
  forall k, is_u8 k -> (outstanding k s' <-> outstanding k s /\ k <> sn).
Proof.
  intros Hs Hsn E k Hk. unfold outstanding. rewrite E. pose proof (bk_sns _ _ _ _ _ (li_book _ Hs)) as Hl.
  destruct (decide (k = sn)) as [->|Hne].
  - rewrite list_lookup_insert_eq by ulia. split; [by intros [? ?]|tauto].
  - rewrite list_lookup_insert_ne by ulia. tauto.
Qed.

Lemma list_find_rx s sn :
  lu_inv s -> is_u8 sn -> sn_ring s !! Z.to_nat sn = Some (Some (SnElem None)) ->
  exists j e, list_find (fun x => rx_sn x = sn) (retx_list s) = Some (j, e) /\
    retx_list s !! j = Some e /\ rx_sn e = sn.
Proof.
  intros Hs Hsn Hk. pose proof (bk_sn_rx _ _ _ _ _ (li_book _ Hs) _ Hk) as Hin.
  apply list_elem_of_fmap in Hin as (e & He & Hin).
  destruct (list_find_elem_of (fun x => rx_sn x = sn) (retx_list s) e Hin) as [[j x] Hf]; [ulia|].
  exists j, x. split; [done|]. apply list_find_Some in Hf as (H1 & H2 & _). done.
Qed.

Lemma acknowledge_inv sn s :
  lu_inv s -> is_u8 sn ->
  exists s' b, acknowledge sn s = Ok (s', b) /\ lu_inv s' /\ lu_config s' = lu_config s /\
    (b = true <-> outstanding sn s) /\
    (forall k, is_u8 k -> (outstanding k s' <-> outstanding k s /\ k <> sn)) /\
    pending_llc_pdu_count s' = pending_llc_pdu_count s - Z_of_bool b /\
    sn_counter s' = sn_counter s /\ current_slot_number s' = current_slot_number s /\
    (forall e, e ∈ retx_list s' -> e ∈ retx_list s) /\
    (forall e, e ∈ tx_ring s' -> acknowledged e = false -> e ∈ tx_ring s).
Proof.
  intros Hs Hsn. pose proof (cfg_size_pos _ (li_cfg _ Hs)) as HN. unfold acknowledge.
  set (s1 := clear_sbit _ _). assert (lu_inv s1) as Hs1.
  { repeat (apply lu_inv_status; [|repeat apply no_alarm_clear; apply (li_alarm _ Hs)]). done. }
  assert (forall st, no_alarm st -> lu_inv (s1 <| lu_status := st |>)) as Hst by (intros; by apply lu_inv_status).
  rewrite (sn_index s1 sn Hs1 Hsn), bind_ret_l. destruct (sn_at s1 sn Hs1 Hsn) as (x & Hx & ->).
  rewrite bind_ret_l. change (sn_ring s1) with (sn_ring s) in Hx.
  assert (x = None -> forall k, is_u8 k -> outstanding k s <-> outstanding k s /\ k <> sn) as Hfree.
  { intros -> k Hk. split; [|tauto]. intros [e He]. split; [by exists e|]. intros ->. congruence. }
  pose proof (li_book _ Hs) as HB. pose proof Hs as [Hc _ Hu Hp Hsc Hal].
  destruct x as [[[slot|]]|]; cbn [check_tx_slot_number].
  - rewrite (tx_index_ring (tx_ring s) s1) by done. rewrite bind_ret_l. change (lu_config s1) with (lu_config s).
    destruct (bk_sn_tx _ _ _ _ _ HB _ _ Hx) as (Hs0 & e & He & Hea & Hesn).
    change (tx_ring s1) with (tx_ring s). rewrite (vec_at_Some _ _ _ He), bind_ret_l, Hea. cbn [negb].
    assert (tx_sn e = sn) as Hes by ulia.
    eexists _, true. split; [reflexivity|]. split; [|split; [done|]].
    + constructor; cbn; try done.
      * rewrite <- Hes at 1. by apply book_ack_tx.
      * rewrite (unacked_insert _ _ e _ He), Hea, Hu. cbn. lia.
      * rewrite (unacked_insert _ _ e _ He), Hea, Hp. cbn. lia.
      * alarm.
    + split; [split; [by exists (SnElem (Some slot))|done]|]. split; [by apply sn_cleared|].
      split_and!; try done. intros y Hy Hya. apply list_elem_of_lookup in Hy as [j Hj].
      cbn in Hj. destruct (decide (j = Z.to_nat (slot mod tx_size (lu_config s)))) as [->|Hne].
      * rewrite list_lookup_insert_eq in Hj by (by eapply lookup_lt_Some). by injection Hj as <-.
      * rewrite list_lookup_insert_ne in Hj by done. by eapply list_elem_of_lookup_2.
  - change (retx_list s1) with (retx_list s).
    destruct (list_find_rx s sn Hs Hsn Hx) as (j & e & -> & Hj & Hes).
    eexists _, true. split; [reflexivity|]. split; [|split; [done|]].
    + constructor; cbn; try done.
      * rewrite <- Hes. by apply book_ack_rx.
      * rewrite Hp, (zlen_delete _ _ _ Hj). lia.
      * alarm.
    + split; [split; [by exists (SnElem None)|done]|]. split; [by apply sn_cleared|].
      split_and!; try done. intros y Hy. cbn in Hy. rewrite (delete_Permutation _ _ _ Hj).
      by apply list_elem_of_further.
  - eexists _, false. split; [reflexivity|]. split; [apply Hst; alarm; apply Hal|].
    split; [done|]. split; [split; [done|]|].
    + intros [e He]. congruence.
    + split; [by apply Hfree|]. split_and!; try done. cbn. lia.
Qed.

(** A status bit is a bit of the status. *)
Lemma has_sbit_bit k s : 0 <= k -> has_sbit (Z.shiftl 1 k) s = Z.testbit (lu_status s) k.
Proof.
  intros Hk. unfold has_sbit, bool_of_Z. rewrite Z.shiftl_1_l.
  destruct (Z.testbit (lu_status s) k) eqn:Ht.
  - destruct (Z.eqb_spec (Z.land (lu_status s) (2 ^ k)) 0) as [E|]; [|done].
    apply (f_equal (fun x => Z.testbit x k)) in E. by rewrite Z.land_spec, Ht, Z.pow2_bits_true, Z.bits_0 in E by done.
  - assert (Z.land (lu_status s) (2 ^ k) = 0) as ->; [|done]. apply Z.bits_inj'. intros i Hi.
    rewrite Z.land_spec, Z.bits_0. destruct (decide (i = k)) as [->|]; [by rewrite Ht|].
    rewrite Z.pow2_bits_false by lia. by rewrite andb_false_r.
Qed.

(** Every acknowledgement that is refused is one of an unknown number: the
    alarm for one that came twice has no occasion. *)
Lemma acknowledge_status sn s s' b : lu_inv s -> is_u8 sn -> acknowledge sn s = Ok (s', b) ->
  has_sbit STATUS_BIT_SPURIOUS_ACK_SN s' = negb b /\ has_sbit STATUS_BIT_SPURIOUS_ACK_TX s' = false.
Proof.
  intros Hs Hsn E. destruct (acknowledge_inv sn s Hs Hsn) as (s1 & b1 & E1 & Hs1 & _).
  rewrite E in E1. injection E1 as <- <-. destruct (li_alarm _ Hs1) as [_ H9].
  unfold STATUS_BIT_SPURIOUS_ACK_SN, STATUS_BIT_SPURIOUS_ACK_TX. rewrite !has_sbit_bit, H9 by lia. split; [|done].
  unfold acknowledge in E. set (s0 := clear_sbit _ _) in E.
  assert (Z.testbit (lu_status s0) 8 = false) as H8.
  { unfold s0, clear_sbit, upd. cbn [lu_status]. rewrite !Z.land_spec. cbn. by rewrite ?andb_false_r. }
  assert (forall bit, Z.testbit (lu_status (set_sbit bit s0)) 8 = Z.testbit bit 8) as Hset.
  { intros bit. unfold set_sbit, upd. cbn [lu_status]. by rewrite Z.lor_spec, H8. }
  apply bind_Ok in E as (k & _ & E). apply bind_Ok in E as (x & _ & E).
  destruct x as [[[slot|]]|]; cbn [check_tx_slot_number] in E.
  - apply bind_Ok in E as (i & _ & E). apply bind_Ok in E as (e & _ & E). destruct (acknowledged e); cbn [negb] in E.
    + injection E as <- <-. unfold set_sbit, upd in H9. cbn [lu_status] in H9. by rewrite Z.lor_spec, orb_true_r in H9.
    + by injection E as <- <-.
  - destruct (list_find _ _) as [[j e]|]; injection E as <- <-; [done|by rewrite Hset].
  - injection E as <- <-. by rewrite Hset.
Qed.

Lemma acknowledge_twice s : lu_inv s -> forall sn, is_u8 sn -> exists s' b s'',
  acknowledge sn s = Ok (s', b) /\ (b = true <-> outstanding sn s) /\
  has_sbit STATUS_BIT_SPURIOUS_ACK_SN s' = negb b /\ has_sbit STATUS_BIT_SPURIOUS_ACK_TX s' = false /\
  acknowledge sn s' = Ok (s'', false) /\
  has_sbit STATUS_BIT_SPURIOUS_ACK_SN s'' = true /\ has_sbit STATUS_BIT_SPURIOUS_ACK_TX s'' = false.
Proof.
  intros Hs sn Hsn. destruct (acknowledge_inv sn s Hs Hsn) as (s' & b & E & Hs' & _ & Hb & Ho & _).
  destruct (acknowledge_inv sn s' Hs' Hsn) as (s'' & b' & E' & _ & _ & Hb' & _).
  destruct b'; [exfalso; pose proof (proj1 Hb' eq_refl) as Hx; by apply Ho in Hx as [_ ?]|]. exists s', b, s''.
  destruct (acknowledge_status _ _ _ _ Hs Hsn E), (acknowledge_status _ _ _ _ Hs' Hsn E'). split_and!; done.
Qed.

(** *** [enqueue_tx_check] *)

Lemma unacked_all tx : (forall i e, tx !! i = Some e -> acknowledged e = false) -> unacked tx = zlen tx.
Proof.
  induction tx as [|x tx IH]; rewrite ?zlen_cons; intros H; [done|]. simpl.
  rewrite (H 0%nat x eq_refl), IH; [done|]. intros i e Hi. by apply (H (S i)).
Qed.

Lemma find_tx_slot_spec n start s :
  lu_inv s -> 0 <= start ->
  let N := tx_size (lu_config s) in
  (exists slot e, find_tx_slot n start s = Ok (Some (slot, Z.to_nat (slot mod N))) /\ 0 <= slot /\
     tx_ring s !! Z.to_nat (slot mod N) = Some e /\ acknowledged e = true) \/
  (find_tx_slot n start s = Ok None /\
   forall j, (j < n)%nat -> exists e, tx_ring s !! Z.to_nat ((start + Z.of_nat j) mod N) = Some e /\
     acknowledged e = false).
Proof.
  intros Hs Hst N. pose proof (cfg_size_pos _ (li_cfg _ Hs)) as HN. fold N in HN. revert start Hst.
  induction n as [|n IH]; intros start Hst; [right; split; [done|lia]|].
  cbn [find_tx_slot]. rewrite (tx_index_ring (tx_ring s) s) by done. rewrite bind_ret_l. fold N.
  assert (Z.to_nat (start mod N) < length (tx_ring s))%nat as Hi.
  { pose proof (bk_tx _ _ _ _ _ (li_book _ Hs)) as Ht. fold N in Ht.
    pose proof (Z.mod_pos_bound start _ HN). zlia. }
  destruct (lookup_lt_is_Some_2 _ _ Hi) as [e He]. rewrite (vec_at_Some _ _ _ He), bind_ret_l.
  destruct (acknowledged e) eqn:Ea; cbn [negb].
  { left. exists start, e. done. }
  destruct (IH (u64 (start + 1))) as [IHs|[E H]]; [ulia|by left|right].
  split; [done|]. intros [|j] Hj.
  - exists e. split; [|done]. by rewrite Z.add_0_r.
  - destruct (H j ltac:(lia)) as (e' & He' & Hea'). exists e'. split; [|done].
    rewrite <- He'. do 2 f_equal. rewrite <- Z.add_mod_idemp_l by lia.
    rewrite <- (Z.add_mod_idemp_l (u64 _)) by lia. unfold N. rewrite cfg_size_wrap by apply (li_cfg _ Hs).
    rewrite !Z.add_mod_idemp_l by lia. f_equal. lia.
Qed.

Lemma recheck_Ok r c : valid_cfg c -> exists d, recheck_slot_size r c = Ok d /\ 0 <= d.
Proof.
  intros []. unfold recheck_slot_size. rewrite (proj2 (Z.eqb_neq _ 0)) by lia.
  eexists. split; [reflexivity|]. ulia.
Qed.

(** A PDU finds a slot unless every slot of the ring is in use. *)
Lemma enqueue_spec pdu sn r s :
  lu_inv s ->
  let N := tx_size (lu_config s) in
  (exists slot e, 0 <= slot /\ tx_ring s !! Z.to_nat (slot mod N) = Some e /\ acknowledged e = true /\
     enqueue_tx_check pdu sn r s =
       Ok ((clear_sbit STATUS_BIT_NO_TX_SLOT s)
             <| tx_ring := <[Z.to_nat (slot mod N) := TxElem false sn r pdu]> (tx_ring s) |>
             <| used_tx_slots := used_tx_slots s + 1 |>, Some slot)) \/
  (enqueue_tx_check pdu sn r s =
     Ok (set_sbit STATUS_BIT_NO_TX_SLOT (clear_sbit STATUS_BIT_NO_TX_SLOT s), None) /\
   get_free_tx_slot s = 0).
Proof.
  intros Hs N. pose proof (cfg_size_pos _ (li_cfg _ Hs)) as HN. fold N in HN.
  unfold enqueue_tx_check. set (s1 := clear_sbit _ s).
  assert (lu_inv s1) as Hs1 by (apply lu_inv_status; [done|]; apply no_alarm_clear, (li_alarm _ Hs)).
  change (lu_config s1) with (lu_config s).
  destruct (recheck_Ok r (lu_config s) (li_cfg _ Hs)) as (d & -> & Hd). rewrite bind_ret_l.
  destruct (find_tx_slot_spec (Z.to_nat (tx_size (lu_config s))) (u64 (current_slot_number s1 + d)) s1 Hs1)
    as [(slot & e & E & Hsl & He & Hea)|[E H]]; [ulia| |].
  - rewrite E, bind_ret_l. left. exists slot, e. split_and!; try done.
  - rewrite E, bind_ret_l. right. split; [done|].
    pose proof (bk_tx _ _ _ _ _ (li_book _ Hs)) as Ht. fold N in Ht.
    unfold get_free_tx_slot. rewrite (li_used _ Hs), unacked_all; [lia|].
    intros i x Hi. change (lu_config s1) with (lu_config s) in H. fold N in H.
    change (tx_ring s1) with (tx_ring s) in H.
    set (st := u64 _) in H. pose proof (lookup_lt_Some _ _ _ Hi) as Hlt.
    pose proof (Z.mod_pos_bound (Z.of_nat i - st) N HN) as Hb.
    destruct (H (Z.to_nat ((Z.of_nat i - st) mod N))) as (e & He & Hea); [lia|].
    rewrite Z2Nat.id, Z.add_mod_idemp_r in He by lia.
    replace (st + (Z.of_nat i - st)) with (Z.of_nat i) in He by lia.
    rewrite Z.mod_small, Nat2Z.id in He by (unfold zlen in *; lia). congruence.
Qed.

(** *** PDUs in the heap *)

Definition view_in (h : heap) (v : shared_view) : Prop :=
  exists id m, sv_buffer v = Some id /\ h !! id = Some m /\ bytes_ok m /\
    0 <= sv_offset v /\ 0 <= sv_size v /\ sv_offset v + sv_size v <= zlen m.

(** The buffers of the PDUs kept for retransmission are there. *)
Definition pdus_in (h : heap) (s : llc_ul_t) : Prop :=
  (forall e, e ∈ tx_ring s -> acknowledged e = false -> view_in h (tx_pdu e)) /\
  (forall e, e ∈ retx_list s -> view_in h (rx_pdu e)).

(** Buffers are never freed nor resized; their contents may change. *)
Definition heap_le (h h' : heap) : Prop :=
  forall id m, h !! id = Some m -> bytes_ok m -> exists m', h' !! id = Some m' /\ bytes_ok m' /\ zlen m' = zlen m.

Lemma view_in_le h h' v : heap_le h h' -> view_in h v -> view_in h' v.
Proof.
  intros Hle (id & m & E1 & E2 & Hb & H0 & H1 & H2). destruct (Hle id m E2 Hb) as (m' & E3 & Hb' & Hz).
  exists id, m'. split_and!; try done; lia.
Qed.

Lemma pdus_in_le h h' s : heap_le h h' -> pdus_in h s -> pdus_in h' s.
Proof. intros Hle [H1 H2]. split; eauto using view_in_le. Qed.

Lemma view_in_mem h v : view_in h v ->
  exists m, sv_mem h v = Ok m /\ bytes_ok m /\ 0 <= sv_offset v /\ 0 <= sv_size v /\
    sv_offset v + sv_size v <= zlen m /\
    forall m', bytes_ok m' -> zlen m' = zlen m -> heap_le h (sv_put h v m').
Proof.
  intros (id & m & E1 & E2 & Hb & H0 & H1 & H2). exists m. unfold sv_mem, sv_put. rewrite E1, E2.
  split; [done|]. do 4 (split; [done|]). intros m' Hb' Hz id' m0 Hm0 Hbm0.
  destruct (decide (id' = id)) as [->|Hne].
  - exists m'. rewrite lookup_insert_eq. split_and!; [done|done|congruence].
  - exists m0. by rewrite lookup_insert_ne.
Qed.

(** *** [write_retransmission_pdu] *)

Lemma retx_head_gone s e rest st :
  lu_inv s -> retx_list s = e :: rest -> no_alarm st ->
  lu_inv (s <| lu_status := st |> <| sn_ring := <[Z.to_nat (rx_sn e) := None]> (sn_ring s) |>
            <| retx_list := rest |> <| pending_llc_pdu_count := pending_llc_pdu_count s - 1 |>).
Proof.
  intros Hs He Hst. pose proof Hs as [Hc HB Hu Hp Hsc Hal]. rewrite He in *.
  constructor; cbn; try done.
  - apply (book_ack_rx _ _ _ _ _ HB 0 e). done.
  - rewrite Hp, zlen_cons. lia.
Qed.

Lemma write_retx_inv h m b n s :
  lu_inv s -> pdus_in h s -> 0 <= b -> b + n <= zlen m ->
  exists m' s' w, write_retransmission_pdu h m b n s = Ok (m', s', w) /\ lu_inv s' /\ pdus_in h s' /\
    lu_config s' = lu_config s /\ zlen m' = zlen m /\
    (w = 0 \/ exists e rest, retx_list s = e :: rest /\ w = sv_size (rx_pdu e) /\ 0 < w <= n /\
       rx_retry_count e < max_retx_count (lu_config s) /\
       (exists src, sv_mem h (rx_pdu e) = Ok src /\ m' = splice m b (slice src (sv_offset (rx_pdu e)) w)) /\
       retx_list s' = rest /\ pending_llc_pdu_count s' = pending_llc_pdu_count s /\
       outstanding (rx_sn e) s' /\ has_sbit STATUS_BIT_DATA_PDU_ALLOCATED s' = true).
Proof.
  intros Hs Hpd Hb Hn. unfold write_retransmission_pdu.
  assert (forall st, no_alarm st -> lu_inv (s <| lu_status := st |>) /\ pdus_in h (s <| lu_status := st |>)) as Hst
    by (intros; split; [by apply lu_inv_status|done]).
  pose proof (li_alarm _ Hs) as Hal.
  destruct (has_sbit _ s); [exists m, s, 0; split_and!; auto|].
  destruct (_ =? E_LLC_TX_MODE_TM); [exists m, s, 0; split_and!; auto|].
  unfold get_retransmission_size. destruct (retx_list s) as [|e rest] eqn:Er; [exists m, s, 0; split_and!; auto|].
  destruct (Z.eqb_spec (sv_size (rx_pdu e)) 0); [exists m, s, 0; split_and!; auto|].
  set (s1 := clear_sbit _ s).
  destruct (Z.ltb_spec n (sv_size (rx_pdu e))).
  { eexists m, _, 0. split; [done|]. destruct (Hst (Z.lor (lu_status s1) STATUS_BIT_WRITE_BUFFER_TOO_SMALL)); [alarm|].
    split_and!; auto. }
  change (retx_list s1) with (retx_list s). rewrite Er.
  assert (lu_inv s1) as Hs1 by (apply lu_inv_status; [done|]; alarm).
  destruct (bk_rx_sn _ _ _ _ _ (li_book _ Hs) e) as (Hsn & Hrc & Hk); [rewrite Er; apply list_elem_of_here|].
  rewrite (sn_index s1 _ Hs1 Hsn), bind_ret_l. change (sn_ring s1) with (sn_ring s).
  rewrite (vec_at_Some _ _ _ Hk), bind_ret_l. set (s2 := clear_sbit STATUS_BIT_SN_LOST _).
  change (lu_config s2) with (lu_config s).
  assert (no_alarm (lu_status s2)) as Hal2 by (unfold s2, s1, clear_sbit, upd; alarm).
  destruct Hpd as [Hp1 Hp2].
  destruct (Z.leb_spec (max_retx_count (lu_config s)) (rx_retry_count e)) as [Hge|Hlt].
  { eexists m, _, 0. split; [reflexivity|]. split.
    - eapply (retx_head_gone s); [done|done|]. apply no_alarm_set; [done|reflexivity|reflexivity].
    - split; [|split_and!; try done; by left]. split; [done|]. intros x Hx. apply Hp2.
      rewrite Er. by apply list_elem_of_further. }
  destruct (view_in_mem h (rx_pdu e)) as (src & E1 & Hbs & Ho & Hsz & Hfit & _).
  { apply Hp2. rewrite Er. apply list_elem_of_here. }
  rewrite E1, bind_ret_l, rd_n_in by lia. rewrite bind_ret_l.
  assert (zlen (slice src (sv_offset (rx_pdu e)) (sv_size (rx_pdu e))) = sv_size (rx_pdu e)) as Hz
    by (apply zlen_slice; lia).
  rewrite wr_n_in by lia. rewrite bind_ret_l.
  set (m' := splice m b _). assert (zlen m' = zlen m) as Hzm by (apply zlen_splice; lia).
  assert (lu_inv s2) as Hs2 by (apply (lu_inv_status s); done).
  rewrite (u64_id (rx_retry_count e + 1)) by (destruct (li_cfg _ Hs); ulia).
  destruct (enqueue_spec (rx_pdu e) (rx_sn e) (rx_retry_count e + 1) s2 Hs2)
    as [(slot & x & Hsl & Hx & Hxa & ->)|[-> _]]; rewrite bind_ret_l.
  2:{ eexists m', _, 0. split; [reflexivity|]. split; [|split_and!; auto; by split].
      apply (lu_inv_status s2); [done|]. apply no_alarm_set; [|done|done]. by apply no_alarm_clear. }
  change (lu_config s2) with (lu_config s) in *. change (tx_ring s2) with (tx_ring s) in *.
  eexists m', _, (sv_size (rx_pdu e)). split; [reflexivity|]. split; [|split].
  - pose proof Hs as [Hc HB Hu Hpe Hsc _]. rewrite Er in HB, Hpe.
    constructor; unfold set_sbit, upd; cbn; try done.
    + pose proof (book_ack_rx _ _ _ _ _ HB 0 e eq_refl) as HB'. cbn [delete list_delete] in HB'.
      rewrite <- (list_insert_insert_eq (sn_ring s) (Z.to_nat (rx_sn e)) _ None).
      eapply book_send; try done; [by apply cfg_size_pos| |lia].
      apply list_lookup_insert_eq. pose proof (bk_sns _ _ _ _ _ HB). ulia.
    + rewrite (unacked_insert _ _ x _ Hx), Hxa, Hu. cbn. lia.
    + rewrite (unacked_insert _ _ x _ Hx), Hxa, Hpe, zlen_cons. cbn. lia.
    + apply no_alarm_set; [by apply no_alarm_clear|done|done].
  - split; cbn.
    + intros y Hy Hya. apply list_elem_of_lookup in Hy as [j Hj].
      destruct (decide (j = Z.to_nat (slot mod tx_size (lu_config s)))) as [->|Hne].
      * rewrite list_lookup_insert_eq in Hj by (by eapply lookup_lt_Some). injection Hj as <-.
        apply Hp2. rewrite Er. apply list_elem_of_here.
      * rewrite list_lookup_insert_ne in Hj by done. apply Hp1; [by eapply list_elem_of_lookup_2|done].
    + intros y Hy. apply Hp2. rewrite Er. by apply list_elem_of_further.
  - split; [done|]. split; [done|]. right. exists e, rest. split; [done|]. split; [done|].
    split; [lia|]. split; [done|]. split; [by exists src|]. split; [done|]. split; [done|]. split.
    + exists (SnElem (Some slot)). cbn. apply list_lookup_insert_eq.
      pose proof (bk_sns _ _ _ _ _ (li_book _ Hs)). ulia.
    + by apply has_set_sbit.
Qed.

(** *** [write_llc_pdu] *)

Lemma fill_crc_spec m l off h :
  bytes_ok m -> holds m l h -> llc_base l = Some off -> off + 7 <= zlen m -> off + h_size h <= zlen m ->
  exists m', fill_crc m l 4 = Ok m' /\ bytes_ok m' /\ zlen m' = zlen m /\ holds m' l h /\
    crc_ok m' off (h_size h).
Proof.
  intros Hm Hh Hb H7 Hsz. change (fill_crc m l 4) with (put_crc m l).
  rewrite (put_crc_spec m l off h) by done. eexists. split; [done|]. by apply put_crc_facts.
Qed.

(** What the caller hands over: a view that holds a header and the CRC. *)
Definition pdu_view (h : heap) (v : shared_view) (s : llc_ul_t) : Prop :=
  view_in h v /\ 3 + crc_size (lu_config s) <= sv_size v < 65536.

Lemma crc_size_cases c : crc_size c = 0 \/ crc_size c = 4.
Proof. unfold crc_size. destruct (_ =? _); auto. Qed.

(** The PDU after the sequence number and the CRC have been filled in. *)
Lemma seal_spec m v s hdr sn :
  bytes_ok m -> holds m (llc_of v s) hdr -> 0 <= sv_offset v -> is_u8 sn ->
  sv_offset v + sv_size v <= zlen m -> 3 + crc_size (lu_config s) <= sv_size v -> h_size hdr <= sv_size v ->
  let c := crc_size (lu_config s) in
  exists m', (m ← set_SN m (llc_of v s) sn;
              if bool_of_Z c then fill_crc m (llc_of v s) c else mret m) = Ok m' /\
    bytes_ok m' /\ zlen m' = zlen m /\ holds m' (llc_of v s) (hdr <| h_sn := sn |>) /\
    (c = 4 -> crc_ok m' (sv_offset v) (h_size hdr)).
Proof.
  intros Hm Hh Ho Hsn Hfit Hc Hsz c.
  destruct (set_SN_updates m (llc_of v s) hdr sn Hh) as (m1 & E1 & Hh1 & Hz1 & Hfr).
  rewrite (u8_id sn Hsn) in Hh1. rewrite E1, bind_ret_l.
  assert (bytes_ok m1) as Hm1.
  { unfold set_SN, llc_set in E1. cbn [llc_base llc_of llc_make deref] in E1. rewrite bind_ret_l in E1.
    inv_res. apply wr_n_Ok in E1 as [_ ->]. apply bytes_ok_splice; [done|]. apply Forall_singleton, u8_range. }
  destruct (crc_size_cases (lu_config s)) as [E|E]; unfold c; rewrite E in *.
  - exists m1. split; [done|]. split_and!; try done.
  - change (bool_of_Z 4) with true. cbn [negb].
    destruct (fill_crc_spec m1 (llc_of v s) (sv_offset v) _ Hm1 Hh1 eq_refl) as (m2 & E2 & ? & ? & ? & ?);
      [lia|simpl; lia|]. exists m2. split_and!; try done; lia.
Qed.

Lemma sv_mem_put h v m m' : sv_mem h v = Ok m -> sv_mem (sv_put h v m') v = Ok m'.
Proof.
  unfold sv_mem, sv_put. destruct (sv_buffer v); [|done]. intros _. by rewrite lookup_insert_eq.
Qed.

Lemma write_llc_pdu_inv h t s :
  lu_inv s -> pdus_in h s -> pdu_view h t s ->
  exists h' s' w, write_llc_pdu h t s = Ok (h', s', w) /\
    lu_inv s' /\ pdus_in h' s' /\ heap_le h h' /\ lu_config s' = lu_config s /\
    (w = 0 \/
     exists m m' hdr, sv_mem h t = Ok m /\ holds m (llc_of t s) hdr /\
       sv_mem h' t = Ok m' /\ w = h_size hdr /\ w <= sv_size t /\
       holds m' (llc_of t s) (hdr <| h_sn := if h_a hdr then 0 else sn_counter s |>) /\
       (crc_size (lu_config s) = 4 -> crc_ok m' (sv_offset t) w) /\
       sn_counter s' = u8 (sn_counter s + 1) /\
       (mode (lu_config s) = E_LLC_TX_MODE_AM -> h_a hdr = false ->
        ~ outstanding (sn_counter s) s /\ outstanding (sn_counter s) s' /\
        pending_llc_pdu_count s' = pending_llc_pdu_count s + 1 /\
        has_sbit STATUS_BIT_DATA_PDU_ALLOCATED s' = true)).
Proof.
  intros Hs Hpd [Hv Hsz]. pose proof (li_alarm _ Hs) as Hal. pose proof (li_sn _ Hs) as Hsn.
  assert (heap_le h h) as Hrefl by (intros id m0 Hm0 Hb0; by exists m0).
  assert (forall st, no_alarm st -> lu_inv (s <| lu_status := st |>) /\ pdus_in h (s <| lu_status := st |>)) as Hst
    by (intros; split; [by apply lu_inv_status|done]).
  unfold write_llc_pdu. destruct (has_sbit _ s); [exists h, s, 0; split_and!; auto|].
  destruct (view_in_mem h t Hv) as (m & Em & Hmb & Ho & Hn & Hfit & Hput). rewrite Em, bind_ret_l.
  rewrite (sn_index s _ Hs Hsn), bind_ret_l. destruct (sn_at s _ Hs Hsn) as (x & Hx & ->). rewrite bind_ret_l.
  assert (3 <= sv_size t) as H3 by (destruct (crc_size_cases (lu_config s)) as [E|E]; rewrite E in Hsz; lia).
  destruct (holds_any m (llc_of t s) (sv_offset t) Hmb eq_refl Ho ltac:(lia)) as [hdr Hh].
  pose proof (holds_get _ _ _ Hh) as (_ & _ & GA & GS). rewrite GA.
  set (am := mode (lu_config s) =? E_LLC_TX_MODE_AM).
  assert ((if am then Ok (h_a hdr) else mret false) = Ok (am && h_a hdr)) as -> by by destruct am.
  rewrite bind_ret_l. set (data := am && negb (am && h_a hdr)).
  assert (data = am && negb (h_a hdr)) as Hdata by (unfold data; by destruct am).
  set (s1 := if data then _ else s).
  assert (exists st, s1 = s <| lu_status := st |> /\ no_alarm st) as (st1 & -> & Hst1).
  { unfold s1. destruct data; [eexists; split; [reflexivity|by alarm]|].
    exists (lu_status s). split; [by destruct s|done]. }
  destruct (data && bool_decide (is_Some x)) eqn:Ebusy.
  { eexists h, _, 0. split; [reflexivity|]. destruct (Hst (Z.lor st1 STATUS_BIT_NO_FREE_SN)); [by alarm|].
    split_and!; auto. }
  set (st2 := Z.land st1 (Z.lnot STATUS_BIT_INVALID_LLC_PDU)).
  change (clear_sbit STATUS_BIT_INVALID_LLC_PDU (s <| lu_status := st1 |>)) with (s <| lu_status := st2 |>).
  assert (no_alarm st2) as Hst2 by (by apply no_alarm_clear).
  unfold llc_is_valid. rewrite GS, bind_ret_l. change (llc_max_size (llc_of t s)) with (u16 (sv_size t)).
  rewrite u16_id by ulia. unfold mret, res_ret. rewrite bind_ret_l.
  destruct (Z.leb_spec (h_size hdr) (sv_size t)) as [Hle|Hgt]; cbn [negb].
  2:{ eexists h, _, 0. split; [reflexivity|]. destruct (Hst (Z.lor st2 STATUS_BIT_INVALID_LLC_PDU)); [by alarm|].
      split_and!; auto. }
  rewrite bind_ret_l. change (lu_config (s <| lu_status := st2 |>)) with (lu_config s).
  change (sn_counter (s <| lu_status := st2 |>)) with (sn_counter s).
  set (sn := if h_a hdr then 0 else sn_counter s).
  assert (is_u8 sn) as Hsn' by (unfold sn; destruct (h_a hdr); [ulia|done]).
  destruct (seal_spec m t s hdr sn Hmb Hh Ho Hsn' Hfit ltac:(lia) Hle) as (m' & Eseal & Hmb' & Hzm & Hh' & Hcrc).
  rewrite <- bind_assoc. unfold mret, res_ret in Eseal. rewrite Eseal, bind_ret_l. clear Eseal.
  pose proof (holds_get _ _ _ Hh') as (_ & _ & GA' & GS'). cbn [h_a h_size upd] in GA', GS'.
  rewrite GA', bind_ret_l. specialize (Hput m' Hmb' Hzm). set (h' := sv_put h t m') in *.
  change (h_a (hdr <| h_sn := sn |>)) with (h_a hdr) in *. rewrite <- Hdata.
  assert (sv_mem h' t = Ok m') as Em' by (by eapply sv_mem_put).
  pose proof (pdus_in_le h h' s Hput Hpd) as Hpd'.
  change (h_size (hdr <| h_sn := sn |>)) with (h_size hdr) in *.
  set (s2 := s <| lu_status := st2 |>) in *.
  assert (lu_inv s2) as Hs2 by by apply lu_inv_status.
  destruct data eqn:Ed.
  - symmetry in Hdata. apply andb_prop in Hdata as [Ham Hna]. apply Z.eqb_eq in Ham.
    cbn [andb] in Ebusy. apply bool_decide_eq_false in Ebusy.
    assert (x = None) as -> by (destruct x; [exfalso; eauto|done]).
    destruct (enqueue_spec t (sn_counter s) 0 s2 Hs2) as [(slot & e & Hsl & He & Hea & ->)|[-> _]];
      rewrite bind_ret_l.
    2:{ eexists h', _, 0. split; [reflexivity|]. split; [|split_and!; auto].
        apply (lu_inv_status s2); [done|]. apply no_alarm_set; [by apply no_alarm_clear|done|done]. }
    change (lu_config s2) with (lu_config s) in *. change (tx_ring s2) with (tx_ring s) in *.
    rewrite GS', bind_ret_l.
    eexists h', _, (h_size hdr). split; [reflexivity|]. pose proof Hs as [Hc HB Hu Hp _ _].
    pose proof (bk_sns _ _ _ _ _ HB) as Hl.
    split; [|split; [|split; [done|split; [done|right]]]].
    + constructor; unfold set_sbit, upd; cbn; try done.
      * eapply book_send; try done; [by apply cfg_size_pos|destruct Hc; lia].
      * rewrite (unacked_insert _ _ e _ He), Hea, Hu. cbn. lia.
      * rewrite (unacked_insert _ _ e _ He), Hea, Hp. cbn. lia.
      * apply u8_range.
      * apply no_alarm_set; [by apply no_alarm_clear|done|done].
    + destruct Hpd' as [Hp1 Hp2]. split; cbn; [|done]. intros y Hy Hya.
      apply list_elem_of_lookup in Hy as [j Hj].
      destruct (decide (j = Z.to_nat (slot mod tx_size (lu_config s)))) as [->|Hne].
      * rewrite list_lookup_insert_eq in Hj by (by eapply lookup_lt_Some). injection Hj as <-.
        by apply (view_in_le h).
      * rewrite list_lookup_insert_ne in Hj by done. apply Hp1; [by eapply list_elem_of_lookup_2|done].
    + exists m, m', hdr. split_and!; try done.
      intros _ _. split_and!; [| |done|by apply has_set_sbit].
      * intros [y Hy]. congruence.
      * exists (SnElem (Some slot)). cbn. apply list_lookup_insert_eq. ulia.
  - rewrite GS', bind_ret_l. eexists h', _, (h_size hdr). split; [reflexivity|].
    split; [|split; [|split; [done|split; [done|right]]]].
    + destruct Hs2. constructor; try done. apply u8_range.
    + done.
    + exists m, m', hdr. split_and!; try done.
      intros Ham Hna. exfalso. unfold am in Hdata. rewrite Ham, Z.eqb_refl, Hna in Hdata. discriminate.
Qed.

Lemma prepare_inv h t a s :
  lu_inv s -> view_in h t -> sv_size t < 65536 ->
  exists h' r, prepare_llc_pdu h t a s = Ok (h', r) /\ heap_le h h' /\
    (r = None <-> sv_size t < 3 + crc_size (lu_config s)) /\
    (forall l, r = Some l -> l = llc_of t s /\ exists m' hdr, sv_mem h' t = Ok m' /\ holds m' l hdr /\
       h_sn hdr = sn_counter s /\ h_lcid hdr = lu_lcid (lu_config s) mod 16 /\ h_a hdr = a).
Proof.
  intros Hs Hv Hsz. destruct (view_in_mem h t Hv) as (m & Em & Hmb & Ho & Hn & Hfit & Hput).
  unfold prepare_llc_pdu. rewrite Em, bind_ret_l. unfold llc_is_header_valid.
  change (llc_max_size (llc_of t s)) with (u16 (sv_size t)). rewrite u16_id by ulia.
  assert (get_header_size (llc_of t s) = 3 + crc_size (lu_config s)) as ->.
  { unfold get_header_size. cbn [llc_of llc_make llc_crc_size].
    destruct (crc_size_cases (lu_config s)) as [-> | ->]; done. }
  destruct (Z.leb_spec (3 + crc_size (lu_config s)) (sv_size t)) as [Hle|Hgt]; cbn [negb].
  2:{ exists h, None. split; [done|]. split; [intros id m0 Hm0 Hb0; by exists m0|]. split; [done|done]. }
  destruct (crc_size_cases (lu_config s)) as [E|E]; rewrite E in *.
  all: destruct (holds_any m (llc_of t s) (sv_offset t) Hmb eq_refl Ho ltac:(lia)) as [hdr Hh];
    destruct (set_LCID_updates m (llc_of t s) hdr (lu_lcid (lu_config s)) Hh) as (m1 & E1 & Hh1 & Hz1 & _);
    destruct (set_SN_updates m1 (llc_of t s) _ (sn_counter s) Hh1) as (m2 & E2 & Hh2 & Hz2 & _);
    destruct (set_A_updates m2 (llc_of t s) _ a Hh2) as (m3 & E3 & Hh3 & Hz3 & _);
    rewrite E1, bind_ret_l, E2, bind_ret_l, E3, bind_ret_l;
    assert (forall x y i k sh w, bytes_ok x -> llc_set x (llc_of t s) i k sh w = Ok y -> bytes_ok y) as HB
      by (intros x y i k sh w Hx Ey; unfold llc_set in Ey; cbn [llc_base llc_of llc_make deref] in Ey;
          rewrite bind_ret_l in Ey; inv_res; apply wr_n_Ok in Ey as [_ ->];
          apply bytes_ok_splice; [done|]; apply Forall_singleton, u8_range);
    assert (bytes_ok m3) as Hb3 by (eapply HB; [|exact E3]; eapply HB; [|exact E2]; eapply HB; [|exact E1]; done);
    (eexists _, (Some _); split; [reflexivity|]; split; [apply Hput; [done|lia]|];
     split; [split; [done|lia]|]; intros l [= <-]; split; [done|]; exists m3; eexists;
     split; [by eapply sv_mem_put|]; split; [exact Hh3|]; cbn; rewrite u8_id by apply (li_sn _ Hs); done).
Qed.

(** ** The uplink as a system of its operations *)

(** One call of the interface, or a write of the application to its buffers. *)
Inductive lu_step : heap * llc_ul_t -> heap * llc_ul_t -> Prop :=
  | LuSlot h s slot s' b : update_current_slot_number slot s = Ok (s', b) -> lu_step (h, s) (h, s')
  | LuAck h s sn s' b : is_u8 sn -> acknowledge sn s = Ok (s', b) -> lu_step (h, s) (h, s')
  | LuRetx h s m b n m' s' w : 0 <= b -> b + n <= zlen m ->
      write_retransmission_pdu h m b n s = Ok (m', s', w) -> lu_step (h, s) (h, s')
  | LuPrepare h s t a h' r : view_in h t -> sv_size t < 65536 ->
      prepare_llc_pdu h t a s = Ok (h', r) -> lu_step (h, s) (h', s)
  | LuWrite h s t h' s' w : pdu_view h t s -> write_llc_pdu h t s = Ok (h', s', w) ->
      lu_step (h, s) (h', s')
  | LuReconfigure h s c : valid_cfg c -> lu_step (h, s) (h, llc_ul_reconfigure c s)
  | LuReset h s : lu_step (h, s) (h, llc_ul_reset s)
  | LuHeap h h' s : heap_le h h' -> lu_step (h, s) (h', s).

Inductive lu_reachable : heap * llc_ul_t -> Prop :=
  | LuInit h c : valid_cfg c -> lu_reachable (h, llc_ul c)
  | LuStep x y : lu_reachable x -> lu_step x y -> lu_reachable y.

Lemma pdus_in_reset h s : pdus_in h (llc_ul_reset s).
Proof.
  split; cbn.
  - intros e He. apply list_elem_of_lookup in He as [i Hi]. by apply lookup_replicate_1 in Hi as [-> _].
  - intros e He. by apply elem_of_nil in He.
Qed.

Lemma reset_inv s : valid_cfg (lu_config s) -> lu_inv (llc_ul_reset s).
Proof. intros Hc. destruct s. by apply lu_inv_init. Qed.

Lemma lu_reachable_inv x : lu_reachable x -> lu_inv x.2 /\ pdus_in x.1 x.2.
Proof.
  induction 1 as [h c Hc|x y _ [IH1 IH2] Hst].
  { unfold llc_ul. rewrite validate_valid by done. split; [by apply reset_inv|apply pdus_in_reset]. }
  destruct Hst as [h s slot s' b E|h s sn s' b Hsn E|h s m b n m' s' w Hb Hn E|h s t a h' r Hv Hsz E
    |h s t h' s' w Hv E|h s c Hc|h s|h h' s Hle]; cbn [fst snd] in *.
  - destruct (update_slot_inv slot s IH1) as (s1 & b1 & E1 & H1 & _ & _ & _ & _ & Hrx & Htx).
    rewrite E in E1. injection E1 as <- <-. split; [done|]. destruct IH2 as [P1 P2]. split; [auto|].
    intros e He. destruct (Hrx e He) as [?|(x & Hx & Hxa & ->)]; auto.
  - destruct (acknowledge_inv sn s IH1 Hsn) as (s1 & b1 & E1 & H1 & _ & _ & _ & _ & _ & _ & Hrx & Htx).
    rewrite E in E1. injection E1 as <- <-. split; [done|]. destruct IH2 as [P1 P2]. split; auto.
  - destruct (write_retx_inv h m b n s IH1 IH2 Hb Hn) as (m1 & s1 & w1 & E1 & H1 & H2 & _).
    rewrite E in E1. by injection E1 as <- <- <-.
  - destruct (prepare_inv h t a s IH1 Hv Hsz) as (h1 & r1 & E1 & Hle & _).
    rewrite E in E1. injection E1 as <- <-. split; [done|]. by apply (pdus_in_le h).
  - destruct (write_llc_pdu_inv h t s IH1 IH2 Hv) as (h1 & s1 & w1 & E1 & H1 & H2 & _).
    rewrite E in E1. by injection E1 as <- <- <-.
  - unfold llc_ul_reconfigure. rewrite validate_valid by done. split; [by apply reset_inv|apply pdus_in_reset].
  - split; [apply reset_inv, (li_cfg _ IH1)|apply pdus_in_reset].
  - split; [done|]. by apply (pdus_in_le h).
Qed.

(** ** Properties *)

(** C11: in every state the uplink can reach under a valid configuration its
    bookkeeping is consistent. The alarms SHOULD_NOT_HAPPEN and SPURIOUS_ACK_TX
    have never been raised; the free slots are the slots that hold no PDU; the
    pending PDUs are those in slots and those waiting for retransmission; a
    sequence number is outstanding exactly if it is that of a PDU in a slot or
    in the queue; no PDU was retransmitted more than [max_retx_count] times. An
    acknowledgement is accepted exactly if its number is outstanding; one that
    comes twice is refused as that of an unknown number (SPURIOUS_ACK_SN), not,
    as the comments say, as that of a PDU already acknowledged
    (SPURIOUS_ACK_TX). *)
Theorem llc_ul_consistent h s :
  lu_reachable (h, s) ->
  has_sbit STATUS_BIT_SHOULD_NOT_HAPPEN s = false /\ has_sbit STATUS_BIT_SPURIOUS_ACK_TX s = false /\
  0 <= get_free_tx_slot s <= tx_size (lu_config s) /\
  get_free_tx_slot s = tx_size (lu_config s) - unacked (tx_ring s) /\
  get_pending_llc_pdu_count s = unacked (tx_ring s) + zlen (retx_list s) /\
  (forall sn, is_u8 sn -> (outstanding sn s <->
     (exists e, e ∈ tx_ring s /\ acknowledged e = false /\ tx_sn e = sn) \/
     (exists e, e ∈ retx_list s /\ rx_sn e = sn))) /\
  NoDup (map rx_sn (retx_list s)) /\
  (forall e, e ∈ retx_list s -> 0 <= rx_retry_count e <= max_retx_count (lu_config s)) /\
  (forall sn, is_u8 sn -> exists s' b s'', acknowledge sn s = Ok (s', b) /\ (b = true <-> outstanding sn s) /\
     has_sbit STATUS_BIT_SPURIOUS_ACK_SN s' = negb b /\ has_sbit STATUS_BIT_SPURIOUS_ACK_TX s' = false /\
     acknowledge sn s' = Ok (s'', false) /\
     has_sbit STATUS_BIT_SPURIOUS_ACK_SN s'' = true /\ has_sbit STATUS_BIT_SPURIOUS_ACK_TX s'' = false).
Proof.
  intros HR. destruct (lu_reachable_inv _ HR) as [Hs _]. cbn in Hs. clear HR.
  pose proof Hs as [Hc HB Hu Hp Hsc [Ha1 Ha2]]. pose proof HB as [B1 B2 B3 B4 B5 B6 B7].
  pose proof (unacked_range (tx_ring s)). unfold get_free_tx_slot, get_pending_llc_pdu_count.
  unfold STATUS_BIT_SHOULD_NOT_HAPPEN, STATUS_BIT_SPURIOUS_ACK_TX at 1. rewrite !has_sbit_bit, Ha1, Ha2 by lia.
  split; [done|]. split; [done|]. rewrite B1, Hu. split; [lia|].
  split; [done|]. split; [done|]. split; [|split; [done|split; [intros e He; by apply B5|by apply acknowledge_twice]]].
  intros sn Hsn. split.
  - intros [[[slot|]] He].
    + left. destruct (B4 _ _ He) as (_ & e & H1 & H2 & H3). exists e.
      split; [by eapply list_elem_of_lookup_2|]. split; [done|ulia].
    + right. apply B6 in He. apply list_elem_of_fmap in He as (e & H1 & H2). exists e. split; [done|ulia].
  - intros [(e & He & Hea & <-)|(e & He & <-)].
    + apply list_elem_of_lookup in He as [i Hi]. destruct (B3 i e Hi Hea) as (_ & _ & slot & _ & H1 & _).
      by eexists.
    + destruct (B5 e He) as (_ & _ & H1). by eexists.
Qed.

(** A configuration with a ring of four slots, two retransmissions and the
    CRC, and a buffer with a PDU of nine bytes. *)
Definition ex_cfg : llc_ul_config_t := LlcUlConfig 5 1 1 4 1 3 2.
Definition ex_heap : heap := {[ 0 := [0; 0x50; 9; 0; 0; 0; 0; 0xAA; 0xBB; 0] ]}.
Definition ex_view : shared_view := SharedView (Some 0) 0 9.

Lemma ex_cfg_valid : valid_cfg ex_cfg.
Proof.
  constructor; cbn; try lia; [by right|by right|]. exists 2. split; [lia|done].
Qed.

Lemma ex_heap_view s : lu_config s = ex_cfg -> pdu_view ex_heap ex_view s.
Proof.
  intros E. unfold pdu_view. rewrite E. split; [|cbn; lia].
  exists 0. eexists. split; [reflexivity|]. split; [reflexivity|].
  split; [repeat constructor; ulia|]. vm_compute. repeat split; congruence.
Qed.

Lemma ex_pdus_in h : pdus_in h (llc_ul ex_cfg).
Proof. unfold llc_ul. rewrite validate_valid by apply ex_cfg_valid. apply pdus_in_reset. Qed.

Lemma ex_inv : lu_inv (llc_ul ex_cfg).
Proof. unfold llc_ul. rewrite validate_valid by apply ex_cfg_valid. apply reset_inv, ex_cfg_valid. Qed.

(** The PDU of the example was sent, and its slot came before an
    acknowledgement: it waits for its retransmission. *)
Lemma ex_parked : exists h s, lu_reachable (h, s) /\ map rx_sn (retx_list s) = [0] /\ unacked (tx_ring s) = 0 /\ outstanding 0 s.
Proof.
  assert (exists h1 s1 s2, write_llc_pdu ex_heap ex_view (llc_ul ex_cfg) = Ok (h1, s1, 9) /\
    update_current_slot_number 1 s1 = Ok (s2, true) /\ map rx_sn (retx_list s2) = [0] /\ unacked (tx_ring s2) = 0 /\ outstanding 0 s2)
    as (h & s1 & s & E1 & E2 & H).
  { do 3 eexists. split; [vm_compute; reflexivity|]. split; [vm_compute; reflexivity|].
    split; [vm_compute; reflexivity|]. split; [vm_compute; reflexivity|]. eexists. vm_compute. reflexivity. }
  exists h, s. split; [|exact H]. eapply LuStep; [|eapply LuSlot; exact E2].
  eapply LuStep; [apply (LuInit ex_heap ex_cfg), ex_cfg_valid|]. eapply LuWrite; [|exact E1]. by apply ex_heap_view.
Qed.

(** Its acknowledgement comes twice. *)
Lemma llc_ul_consistent_witness : exists h s s' s'', lu_reachable (h, s) /\
  get_pending_llc_pdu_count s = 1 /\ get_free_tx_slot s = tx_size (lu_config s) /\
  acknowledge 0 s = Ok (s', true) /\ acknowledge 0 s' = Ok (s'', false) /\
  has_sbit STATUS_BIT_SPURIOUS_ACK_SN s'' = true /\ has_sbit STATUS_BIT_SPURIOUS_ACK_TX s'' = false.
Proof.
  destruct ex_parked as (h & s & HR & Hz & Hu & Ho).
  destruct (llc_ul_consistent h s HR) as (_ & _ & _ & Hfree & Hp & _ & _ & _ & Ha).
  destruct (Ha 0 ltac:(ulia)) as (s' & b & s'' & E & Hb & _ & _ & E' & H8 & H9).
  exists h, s, s', s''. split; [exact HR|]. split; [|split; [lia|]].
  - rewrite Hp, Hu. apply (f_equal length) in Hz. rewrite length_map in Hz. unfold zlen. rewrite Hz. reflexivity.
  - apply Hb in Ho as ->. split_and!; assumption.
Defined.

(** An acknowledgement is accepted exactly if its sequence number is
    outstanding; it then removes that number, and no other, from the
    outstanding ones, wherever its PDU is, and one from the pending count. A
    duplicate or unknown acknowledgement is refused and changes neither. *)
Theorem acknowledge_exact h s sn :
  lu_reachable (h, s) -> is_u8 sn ->
  exists s' b, acknowledge sn s = Ok (s', b) /\ (b = true <-> outstanding sn s) /\
    (forall k, is_u8 k -> (outstanding k s' <-> outstanding k s /\ k <> sn)) /\
    get_pending_llc_pdu_count s' = get_pending_llc_pdu_count s - Z_of_bool b /\
    exists s'', acknowledge sn s' = Ok (s'', false).
Proof.
  intros HR Hsn. destruct (lu_reachable_inv _ HR) as [Hs _].
  destruct (acknowledge_inv sn s Hs Hsn) as (s' & b & E & Hs' & _ & Hb & Ho & Hp & _).
  exists s', b. do 4 (split; [done|]).
  destruct (acknowledge_inv sn s' Hs' Hsn) as (s'' & b' & E' & _ & _ & Hb' & _).
  exists s''. destruct b'; [|done]. exfalso. pose proof (proj1 Hb' eq_refl) as Hx.
  by apply Ho in Hx as [_ ?].
Qed.

Lemma acknowledge_exact_witness :
  exists h' s' s'', write_llc_pdu ex_heap ex_view (llc_ul ex_cfg) = Ok (h', s', 9) /\
    lu_reachable (h', s') /\ acknowledge 0 s' = Ok (s'', true) /\ pending_llc_pdu_count s'' = 0.
Proof.
  destruct (write_llc_pdu ex_heap ex_view (llc_ul ex_cfg)) as [[[h' s'] w]| | |] eqn:E;
    [|vm_compute in E; discriminate E..].
  assert (lu_reachable (h', s')) as HR.
  { eapply LuStep; [apply (LuInit ex_heap ex_cfg), ex_cfg_valid|]. eapply LuWrite; [|exact E].
    by apply ex_heap_view. }
  destruct (acknowledge_exact h' s' 0 HR) as (s'' & b & Ea & Hb & _ & Hp & _); [ulia|].
  exists h', s', s''. vm_compute in E. injection E as <- <- <-. split; [reflexivity|]. split; [exact HR|].
  assert (b = true) as -> by (apply Hb; eexists; reflexivity).
  split; [exact Ea|exact Hp].
Defined.

(** [write_llc_pdu] is memory safe on any view that holds a header, and
    when it accepts a PDU the frame in the buffer is well-formed: it carries
    the next sequence number (0 for an acknowledgement PDU), the other header
    fields are as they were, and with the CRC enabled the CRC field is the
    CRC-32 of the PDU taken with that field zero. In acknowledged mode a data
    PDU is sent only under a sequence number that is not outstanding, which
    becomes outstanding, and no second data PDU is sent in the same slot. *)
Theorem write_llc_pdu_frame h t s :
  lu_reachable (h, s) -> pdu_view h t s ->
  exists h' s' w, write_llc_pdu h t s = Ok (h', s', w) /\
    (w = 0 \/
     exists m m' hdr, sv_mem h t = Ok m /\ holds m (llc_of t s) hdr /\
       sv_mem h' t = Ok m' /\ w = h_size hdr /\ w <= sv_size t /\
       holds m' (llc_of t s) (hdr <| h_sn := if h_a hdr then 0 else sn_counter s |>) /\
       (crc_size (lu_config s) = 4 -> crc_ok m' (sv_offset t) w) /\
       sn_counter s' = u8 (sn_counter s + 1) /\
       (mode (lu_config s) = E_LLC_TX_MODE_AM -> h_a hdr = false ->
        ~ outstanding (sn_counter s) s /\ outstanding (sn_counter s) s' /\
        pending_llc_pdu_count s' = pending_llc_pdu_count s + 1 /\
        forall h2 t2, write_llc_pdu h2 t2 s' = Ok (h2, s', 0))).
Proof.
  intros HR Hv. destruct (lu_reachable_inv _ HR) as [Hs Hpd].
  destruct (write_llc_pdu_inv h t s Hs Hpd Hv) as (h' & s' & w & E & _ & _ & _ & _ & H).
  exists h', s', w. split; [done|]. destruct H as [?|(m & m' & hdr & H1 & H2 & H3 & H4 & H5 & H6 & H7 & H8 & H9)];
    [by left|right]. exists m, m', hdr. split_and!; try done.
  intros Ham Hna. destruct (H9 Ham Hna) as (K1 & K2 & K3 & K4). split_and!; try done.
  intros h2 t2. unfold write_llc_pdu. by rewrite K4.
Qed.

Lemma write_llc_pdu_frame_witness :
  lu_reachable (ex_heap, llc_ul ex_cfg) /\ pdu_view ex_heap ex_view (llc_ul ex_cfg) /\
  exists h' s' w, write_llc_pdu ex_heap ex_view (llc_ul ex_cfg) = Ok (h', s', w).
Proof.
  assert (lu_reachable (ex_heap, llc_ul ex_cfg)) as HR by (apply LuInit, ex_cfg_valid).
  assert (pdu_view ex_heap ex_view (llc_ul ex_cfg)) as HV by (apply ex_heap_view; reflexivity).
  split; [exact HR|]. split; [exact HV|].
  destruct (write_llc_pdu_frame _ _ _ HR HV) as (h' & s' & w & E & _). exists h', s', w. exact E.
Defined.

(** The run of the example: the PDU gets sequence number 0 and its CRC, is
    sent again twice from the caller's buffer when its slot comes, and is
    given up after the second retransmission. *)
Example ex_run :
  (x ← write_llc_pdu ex_heap ex_view (llc_ul ex_cfg);
   let '(h, s, w) := x in
   s1 ← update_current_slot_number 1 s; r1 ← write_retransmission_pdu h (replicate 9 0) 0 9 s1.1;
   s2 ← update_current_slot_number 2 r1.1.2; s3 ← update_current_slot_number 3 s2.1;
   r3 ← write_retransmission_pdu h (replicate 9 0) 0 9 s3.1;
   s4 ← update_current_slot_number 4 r3.1.2; s5 ← update_current_slot_number 5 s4.1;
   s6 ← update_current_slot_number 6 s5.1;
   r6 ← write_retransmission_pdu h (replicate 9 0) 0 9 s6.1;
   mret (w, [r1.2; r3.2; r6.2], r1.1.1, get_pending_llc_pdu_count r3.1.2,
         get_pending_llc_pdu_count r6.1.2, has_sbit STATUS_BIT_SN_LOST r6.1.2)) =
  Ok (9, [9; 9; 0], [0; 80; 9; 49; 182; 101; 130; 170; 187], 1, 0, true).
Proof. vm_compute. reflexivity. Qed.

(** [write_retransmission_pdu] is memory safe whatever is queued, and
    writes nothing or exactly the PDU at the head of the queue, as its buffer
    is at that moment; the PDU then stays outstanding under its sequence
    number, leaves the queue and takes the slot's place for data. A PDU that
    has used up its retransmissions is not sent again. *)
Theorem retransmission_exact h m b n s :
  lu_reachable (h, s) -> 0 <= b -> b + n <= zlen m ->
  exists m' s' w, write_retransmission_pdu h m b n s = Ok (m', s', w) /\ zlen m' = zlen m /\
    (w = 0 \/ exists e rest src, retx_list s = e :: rest /\ w = sv_size (rx_pdu e) /\ 0 < w <= n /\
       rx_retry_count e < max_retx_count (lu_config s) /\
       sv_mem h (rx_pdu e) = Ok src /\ m' = splice m b (slice src (sv_offset (rx_pdu e)) w) /\
       retx_list s' = rest /\ get_pending_llc_pdu_count s' = get_pending_llc_pdu_count s /\
       outstanding (rx_sn e) s' /\ forall h2 t2, write_llc_pdu h2 t2 s' = Ok (h2, s', 0)).
Proof.
  intros HR Hb Hn. destruct (lu_reachable_inv _ HR) as [Hs Hpd].
  destruct (write_retx_inv h m b n s Hs Hpd Hb Hn) as (m' & s' & w & E & _ & _ & _ & Hz & H).
  exists m', s', w. split; [done|]. split; [done|].
  destruct H as [?|(e & rest & H1 & H2 & H3 & H4 & (src & H5 & H6) & H7 & H8 & H9 & H10)]; [by left|right].
  exists e, rest, src. split_and!; try done; try lia. intros h2 t2. unfold write_llc_pdu. by rewrite H10.
Qed.

Lemma retransmission_exact_witness :
  lu_reachable (ex_heap, llc_ul ex_cfg) /\
  exists m' s' w, write_retransmission_pdu ex_heap (replicate 9 0) 0 9 (llc_ul ex_cfg) = Ok (m', s', w).
Proof.
  assert (lu_reachable (ex_heap, llc_ul ex_cfg)) as HR by (apply LuInit, ex_cfg_valid). split; [exact HR|].
  destruct (retransmission_exact ex_heap (replicate 9 0) 0 9 _ HR) as (m' & s' & w & E & _);
    [lia|vm_compute; congruence|]. exists m', s', w. exact E.
Defined.

(** No PDU is forgotten. When the slot in which a PDU is to be checked
    comes and the PDU was not acknowledged, it goes to the end of the
    retransmission queue and stays outstanding; in every other case the queue
    is left alone. A slot number other than the next one is refused. *)
Theorem slot_check_requeues h s slot :
  lu_reachable (h, s) -> mode (lu_config s) = E_LLC_TX_MODE_AM ->
  exists s', update_current_slot_number slot s = Ok (s', slot =? u64 (current_slot_number s + 1)) /\
    get_pending_llc_pdu_count s' = get_pending_llc_pdu_count s /\
    (slot <> u64 (current_slot_number s + 1) ->
      s' = set_sbit STATUS_BIT_SLOT_SKIPPED s) /\
    (slot = u64 (current_slot_number s + 1) ->
      exists e, tx_ring s !! Z.to_nat (slot mod tx_size (lu_config s)) = Some e /\
        current_slot_number s' = slot /\
        (acknowledged e = true -> retx_list s' = retx_list s /\ tx_ring s' = tx_ring s) /\
        (acknowledged e = false ->
           retx_list s' = retx_list s ++ [RetxElem (tx_retry_count e) (tx_sn e) (tx_pdu e)] /\
           outstanding (tx_sn e) s' /\ get_free_tx_slot s' = get_free_tx_slot s + 1)).
Proof.
  intros HR Hm. destruct (lu_reachable_inv _ HR) as [Hs Hpd]. cbn in Hs.
  destruct (update_slot_inv slot s Hs) as (s' & b & E & Hs' & Hcfg & Hp & _ & Hb & _).
  assert (b = (slot =? u64 (current_slot_number s + 1))) as ->.
  { destruct (Z.eqb_spec slot (u64 (current_slot_number s + 1))) as [Hx|Hx]; destruct b; try done.
    - exfalso. assert (false = true) by (apply Hb; by right). done.
    - destruct (proj1 Hb eq_refl) as [Ht|?]; [|done]. rewrite Ht in Hm. discriminate. }
  exists s'. split; [done|]. split; [done|]. unfold update_current_slot_number in E.
  rewrite Hm in E. change (E_LLC_TX_MODE_AM =? E_LLC_TX_MODE_TM) with false in E.
  split; intros Hslot.
  - rewrite (proj2 (Z.eqb_neq _ _) Hslot) in E. cbn [negb] in E. by injection E as <-.
  - rewrite <- Hslot, Z.eqb_refl in E. cbn [negb] in E.
    pose proof (cfg_size_pos _ (li_cfg _ Hs)) as HN. pose proof (li_book _ Hs) as HB.
    assert (Z.to_nat (slot mod tx_size (lu_config s)) < length (tx_ring s))%nat as Hi.
    { pose proof (bk_tx _ _ _ _ _ HB). pose proof (Z.mod_pos_bound slot _ HN). zlia. }
    destruct (lookup_lt_is_Some_2 _ _ Hi) as [e He]. exists e. split; [done|].
    set (s1 := (clear_sbit _ s) <| current_slot_number := slot |>) in E.
    assert (lu_inv s1) as Hs1 by (apply lu_inv_slot, lu_inv_status; [done|]; apply no_alarm_clear, (li_alarm _ Hs)).
    rewrite (tx_index_ring (tx_ring s) s1), bind_ret_l in E by done.
    change (tx_ring s1) with (tx_ring s) in E. change (lu_config s1) with (lu_config s) in E.
    rewrite (vec_at_Some _ _ _ He), bind_ret_l in E. destruct (acknowledged e) eqn:Ea.
    { injection E as <-. split; [done|]. split; done. }
    destruct (bk_tx_sn _ _ _ _ _ HB _ e He Ea) as (Hsn & Hr & k & _ & Hk & _).
    match type of E with context [sn_ring_index ?sn ?x] =>
      assert (sn_ring_index sn x = Ok (Z.to_nat sn)) as EK by (apply (sn_index s); done); rewrite EK in E end.
    rewrite bind_ret_l in E.
    match type of E with context [vec_at ?l ?j] => change l with (sn_ring s) in E end.
    rewrite (vec_at_Some _ _ _ Hk), bind_ret_l in E. injection E as <-. cbn.
    split; [done|]. split; [done|]. intros _. split; [done|]. split.
    + exists (SnElem None). cbn. apply list_lookup_insert_eq. pose proof (bk_sns _ _ _ _ _ HB). ulia.
    + unfold get_free_tx_slot. cbn. unfold zlen. rewrite length_insert. lia.
Qed.

Lemma slot_check_requeues_witness :
  lu_reachable (ex_heap, llc_ul ex_cfg) /\
  exists s', update_current_slot_number 1 (llc_ul ex_cfg) = Ok (s', true).
Proof.
  assert (lu_reachable (ex_heap, llc_ul ex_cfg)) as HR by (apply LuInit, ex_cfg_valid). split; [exact HR|].
  destruct (slot_check_requeues ex_heap (llc_ul ex_cfg) 1 HR) as (s' & E & _); [reflexivity|].
  exists s'. exact E.
Defined.
