(* ===== verification/FecFrame.v ===== *)
(** * FEC frame ([winject/src/frames/basic_fec.hpp], [.cpp])

    The outermost frame of a transmission: a type byte and, unless the type is
    NONE, the number N of code words, their redundancy and their data. The view
    keeps pointers into the buffer; a pointer that was never set is null. The
    state of the view outlives its scans, so [init] and [rescan] take it as it
    is and return it. *)

From S2P Require Import Prelude Mem SafeChecker.

(** [fec_type_e] ([winject/src/info_defs.hpp]) *)
Definition E_FEC_TYPE_NONE : Z := 0.
Definition E_FEC_TYPE_RS_255_247 : Z := 1.
Definition E_FEC_TYPE_RS_255_239 : Z := 2.
Definition E_FEC_TYPE_RS_255_223 : Z := 3.
Definition E_FEC_TYPE_RS_255_191 : Z := 4.
Definition E_FEC_TYPE_RS_255_127 : Z := 5.

Record fec_t := Fec {
  f_base : Z; f_max_size : Z; fec_d_sz : Z; fec_r_sz : Z;
  fec_type : ptr; f_n : ptr; data_blocks : ptr; redu_blocks : ptr; is_valid_ : bool }.
#[export] Instance eta_fec : Eta fec_t := fun f =>
  Fec (f_base f) (f_max_size f) (fec_d_sz f) (fec_r_sz f) (fec_type f) (f_n f) (data_blocks f)
    (redu_blocks f) (is_valid_ f).
#[export] Instance fec_t_dec : EqDecision fec_t. Proof. solve_decision. Defined.

(** [max_size] is an [llc_sz_t]. *)
Definition fec_make (base size : Z) : fec_t := Fec base (u16 size) 0 0 None None None None false.

(** [reset] keeps the base and the size. *)
Definition fec_reset (f : fec_t) : fec_t := Fec (f_base f) (f_max_size f) 0 0 None None None None false.

(** Data and redundancy bytes per code word of a type; other types leave them. *)
Definition fec_sizes (ft : Z) (old : Z * Z) : Z * Z :=
  if E_FEC_TYPE_RS_255_247 =? ft then (247, 255 - 247)
  else if E_FEC_TYPE_RS_255_239 =? ft then (239, 255 - 239)
  else if E_FEC_TYPE_RS_255_223 =? ft then (223, 255 - 223)
  else if E_FEC_TYPE_RS_255_191 =? ft then (191, 255 - 191)
  else if E_FEC_TYPE_RS_255_127 =? ft then (127, 255 - 127)
  else old.

(** The second half of [rescan]: the blocks, from the byte [*n]. *)
Definition fec_blocks (m : list Z) (c : checker) (ft : Z) (f : fec_t) : res fec_t :=
  let '(d_sz, r_sz) := fec_sizes ft (fec_d_sz f, fec_r_sz f) in
  let f := (f <| fec_d_sz := d_sz |>) <| fec_r_sz := r_sz |> in
  pn ← deref (f_n f);
  n ← rd m pn;
  let '(p, c, v) := sc_get_n (n * fec_r_sz f) c (is_valid_ f) in
  let f := (f <| redu_blocks := p |>) <| is_valid_ := v |> in
  if negb (is_valid_ f) then mret f else
  n ← rd m pn;
  let '(p, c, v) := sc_get_n (n * fec_d_sz f) c (is_valid_ f) in
  mret ((f <| data_blocks := p |>) <| is_valid_ := v |>).

Definition fec_rescan (m : list Z) (f : fec_t) : res fec_t :=
  let f := f <| is_valid_ := true |> in
  let c := safe_checker (f_base f) (f_base f + f_max_size f) in
  let '(p, c, v) := sc_get 1 c (is_valid_ f) in
  let f := (f <| fec_type := p |>) <| is_valid_ := v |> in
  if negb (is_valid_ f) then mret (fec_reset f) else
  pt ← deref (fec_type f);
  ft ← rd m pt;
  if negb (ft =? E_FEC_TYPE_NONE) then
    let '(p, c, v) := sc_get 1 c (is_valid_ f) in
    let f := (f <| f_n := p |>) <| is_valid_ := v |> in
    if negb (is_valid_ f) then mret f else fec_blocks m c ft f
  else fec_blocks m c ft f.

Definition fec_init (m : list Z) (f : fec_t) (fec n_ : Z) : res (list Z * fec_t) :=
  let f := f <| is_valid_ := true |> in
  let c := safe_checker (f_base f) (f_base f + f_max_size f) in
  let '(p, c, v) := sc_get 1 c (is_valid_ f) in
  let f := (f <| fec_type := p |>) <| is_valid_ := v |> in
  if negb (is_valid_ f) then mret (m, f) else
  pt ← deref (fec_type f);
  m ← wr m pt (u8 fec);
  f ← fec_rescan m f;
  match f_n f with
  | Some pn => m ← wr m pn (u8 n_); mret (m, f)
  | None => mret (m, f)
  end.

Definition get_FEC_TYPE (m : list Z) (f : fec_t) : res Z := p ← deref (fec_type f); rd m p.
Definition get_N (m : list Z) (f : fec_t) : res Z := p ← deref (f_n f); rd m p.
Definition get_data_sz (m : list Z) (f : fec_t) : res Z := n ← get_N m f; mret (u64 (n * fec_d_sz f)).
Definition get_redu_sz (m : list Z) (f : fec_t) : res Z := n ← get_N m f; mret (u64 (n * fec_r_sz f)).

(** ** Layout *)

(** The data bytes per code word of the five Reed-Solomon types. *)
Definition rs_data (ft : Z) : Z :=
  if ft =? 1 then 247 else if ft =? 2 then 239 else if ft =? 3 then 223 else if ft =? 4 then 191 else 127.

Lemma fec_sizes_rs ft old : 1 <= ft <= 5 -> fec_sizes ft old = (rs_data ft, 255 - rs_data ft).
Proof.
  intros H. assert (ft = 1 \/ ft = 2 \/ ft = 3 \/ ft = 4 \/ ft = 5) as [-> |[-> |[-> |[-> | ->]]]] by lia; reflexivity.
Qed.

Lemma rs_data_range ft : 127 <= rs_data ft <= 247.
Proof. unfold rs_data. case_Z; lia. Qed.

(** The view after a scan of a frame of type [ft] with [n] code words. *)
Definition fec_scanned (b size ft n : Z) : fec_t :=
  Fec b size (rs_data ft) (255 - rs_data ft) (Some b) (Some (b + 1))
    (Some (b + 2 + n * (255 - rs_data ft))) (Some (b + 2)) true.

Lemma rd_Ok_range m i b : rd m i = Ok b -> 0 <= i < zlen m.
Proof. intros (H1 & H2)%rd_Ok. apply lookup_lt_Some in H2. unfold zlen. lia. Qed.

Ltac fec_step := unfold upd; cbn [f_base f_max_size fec_d_sz fec_r_sz fec_type f_n data_blocks redu_blocks
  is_valid_ negb deref fst snd sc_start sc_current sc_end].

(** Any earlier scan of the view does not matter to a scan that succeeds. *)
Lemma fec_rescan_rs m f ft n :
  1 <= ft <= 5 -> is_u8 n -> 0 <= f_base f -> 2 + 255 * n <= f_max_size f ->
  rd m (f_base f) = Ok ft -> rd m (f_base f + 1) = Ok n ->
  fec_rescan m f = Ok (fec_scanned (f_base f) (f_max_size f) ft n).
Proof.
  intros Hft Hn Hb Hs Ht Hr. pose proof (rs_data_range ft) as Hd. unfold is_u8 in Hn.
  unfold fec_rescan, safe_checker. fec_step. rewrite sc_get_fits by lia. fec_step.
  rewrite bind_ret_l, Ht, bind_ret_l.
  destruct (Z.eqb_spec ft E_FEC_TYPE_NONE) as [E|_]; [unfold E_FEC_TYPE_NONE in E; lia|]. cbn [negb].
  rewrite sc_get_fits by lia. fec_step. unfold fec_blocks.
  rewrite fec_sizes_rs by done. fec_step. rewrite bind_ret_l, Hr, bind_ret_l.
  unfold sc_get_n. fec_step. destruct (Z.ltb_spec (f_base f + f_max_size f) (f_base f + 1 + 1 + n * (255 - rs_data ft))); [nia|].
  fec_step. rewrite bind_ret_l.
  match goal with |- context [?a <? ?x] => destruct (Z.ltb_spec a x) end; [nia|].
  fec_step. unfold fec_scanned. do 3 f_equal; lia || (f_equal; lia).
Qed.

(** A scan that fails leaves the pointers it had not reached as they were. *)
Lemma fec_rescan_short m f ft n :
  1 <= ft <= 5 -> is_u8 n -> 0 <= f_base f -> 0 < f_max_size f < 2 + 255 * n ->
  rd m (f_base f) = Ok ft -> rd m (f_base f + 1) = Ok n ->
  exists f', fec_rescan m f = Ok f' /\ is_valid_ f' = false /\
    (f_n f' = None \/ f_n f' = Some (f_base f + 1) /\ fec_d_sz f' = rs_data ft /\
      (data_blocks f' = data_blocks f \/ data_blocks f' = None)).
Proof.
  intros Hft Hn Hb Hs Ht Hr. pose proof (rs_data_range ft) as Hd. unfold is_u8 in Hn.
  unfold fec_rescan, safe_checker. fec_step. rewrite sc_get_fits by lia. fec_step.
  rewrite bind_ret_l, Ht, bind_ret_l.
  destruct (Z.eqb_spec ft E_FEC_TYPE_NONE) as [E|_]; [unfold E_FEC_TYPE_NONE in E; lia|]. cbn [negb].
  unfold sc_get. fec_step. destruct (Z.ltb_spec (f_base f + f_max_size f) (f_base f + 1 + 1)).
  { fec_step. eexists. split; [reflexivity|]. fec_step. split; [done|]. tauto. }
  fec_step. unfold fec_blocks. rewrite fec_sizes_rs by done. fec_step. rewrite bind_ret_l, Hr, bind_ret_l.
  unfold sc_get_n. fec_step. match goal with |- context [?a <? ?x] => destruct (Z.ltb_spec a x) end.
  { fec_step. eexists. split; [reflexivity|]. fec_step. split; [done|]. tauto. }
  fec_step. rewrite bind_ret_l. match goal with |- context [?a <? ?x] => destruct (Z.ltb_spec a x) end; [|nia].
  fec_step. eexists. split; [reflexivity|]. fec_step. split; [done|]. tauto.
Qed.

(** C33: the scan of a Reed-Solomon frame. It is valid exactly if the 255 bytes
    of each of its N code words and the two bytes before them fit the view;
    then the redundancy and after it the data of all code words follow the
    header, and both lie in the view. *)
Theorem fec_rescan_layout m f ft n :
  1 <= ft <= 5 -> is_u8 n -> 0 <= f_base f -> 0 < f_max_size f ->
  rd m (f_base f) = Ok ft -> rd m (f_base f + 1) = Ok n ->
  exists f', fec_rescan m f = Ok f' /\
    is_valid_ f' = (2 + 255 * n <=? f_max_size f) /\
    (is_valid_ f' = true ->
      get_FEC_TYPE m f' = Ok ft /\ get_N m f' = Ok n /\
      exists redu data, redu_blocks f' = Some redu /\ data_blocks f' = Some data /\
        redu = f_base f + 2 /\ get_redu_sz m f' = Ok (data - redu) /\
        get_data_sz m f' = Ok (f_base f + 2 + 255 * n - data) /\
        f_base f + 2 + 255 * n <= f_base f + f_max_size f).
Proof.
  intros Hft Hn Hb Hs Ht Hr. destruct (Z.leb_spec (2 + 255 * n) (f_max_size f)) as [Hl|Hl].
  - rewrite (fec_rescan_rs m f ft n) by done. eexists. split; [reflexivity|]. split; [done|]. intros _.
    unfold get_FEC_TYPE, get_N, get_redu_sz, get_data_sz, get_N, fec_scanned. fec_step.
    rewrite !bind_ret_l, Ht, Hr, !bind_ret_l. split; [done|]. split; [done|].
    pose proof (rs_data_range ft) as Hd. unfold is_u8 in Hn.
    eexists _, _. split; [reflexivity|]. split; [reflexivity|]. split; [done|].
    split; [|split; [|lia]]; unfold mret, res_ret; f_equal; rewrite u64_id by (unfold is_u64; nia); lia.
  - destruct (fec_rescan_short m f ft n) as (f' & E & Hv & _); try done. exists f'.
    split; [done|]. rewrite Hv. split; done.
Qed.

Definition fec_example : list Z := [4; 1] ++ replicate 255 9.

Lemma fec_rescan_layout_witness :
  exists f', fec_rescan fec_example (fec_make 0 257) = Ok f' /\ is_valid_ f' = true.
Proof.
  destruct (fec_rescan_layout fec_example (fec_make 0 257) 4 1) as (f' & E & Hv & _);
    [lia|ulia|done|done|vm_compute; reflexivity|vm_compute; reflexivity|].
  exists f'. split; [exact E|exact Hv].
Defined.

(** A frame without FEC cannot be scanned or initialised through a fresh
    view: its number of code words, which it does not have, is read through a
    null pointer. This is the frame the scheduler starts every slot with. *)
Lemma fec_none_null_deref m b size :
  0 <= b -> 0 < u16 size -> b < zlen m ->
  (rd m b = Ok E_FEC_TYPE_NONE -> fec_rescan m (fec_make b size) = Ub NullDeref) /\
  forall n_, fec_init m (fec_make b size) E_FEC_TYPE_NONE n_ = Ub NullDeref.
Proof.
  intros Hb Hs Hm.
  assert (forall m f, rd m b = Ok E_FEC_TYPE_NONE -> f_base f = b -> f_max_size f = u16 size -> f_n f = None ->
    fec_rescan m f = Ub NullDeref) as H.
  { intros m' f Hr E1 E2 E3. unfold fec_rescan, safe_checker. fec_step. rewrite E1, E2, sc_get_fits by lia. fec_step.
    rewrite bind_ret_l, Hr, bind_ret_l. change (negb (E_FEC_TYPE_NONE =? E_FEC_TYPE_NONE)) with false. cbv iota.
    unfold fec_blocks. change (fec_sizes E_FEC_TYPE_NONE ?x) with x. fec_step. by rewrite E3. }
  split; [intros; by apply H|]. intros n_. unfold fec_init, safe_checker. fec_step. unfold fec_make. fec_step.
  rewrite sc_get_fits by lia. fec_step. rewrite bind_ret_l.
  rewrite wr_in, bind_ret_l by lia. rewrite H; try done. by rewrite rd_wr, decide_True by lia.
Qed.

(** [init] lays the blocks out by the number of code words the buffer held
    before, and stores the new one only then. A frame initialised in a cleared
    buffer therefore has its data where a scan of the finished frame finds the
    redundancy, unless it has no code words. *)
Theorem fec_init_stale_layout m b size ft n :
  1 <= ft <= 5 -> is_u8 n -> 0 <= b -> 2 + 255 * n <= u16 size -> b + 1 < zlen m -> rd m (b + 1) = Ok 0 ->
  exists m' f, fec_init m (fec_make b size) ft n = Ok (m', f) /\ is_valid_ f = true /\
    data_blocks f = Some (b + 2) /\ redu_blocks f = Some (b + 2) /\ get_N m' f = Ok n /\
    exists f2, fec_rescan m' f = Ok f2 /\ is_valid_ f2 = true /\
      redu_blocks f2 = Some (b + 2) /\ data_blocks f2 = Some (b + 2 + n * (255 - rs_data ft)).
Proof.
  intros Hft Hn Hb Hs Hm Hr. unfold is_u8 in Hn.
  unfold fec_init, safe_checker, fec_make. fec_step. rewrite sc_get_fits by lia. fec_step. rewrite bind_ret_l.
  rewrite wr_in, bind_ret_l by lia. rewrite u8_id by ulia.
  set (m1 := splice m b [ft]). assert (zlen m1 = zlen m) as L1 by (apply zlen_splice; zlia).
  assert (forall j, 0 <= j -> rd m1 j = if decide (j = b) then Ok ft else rd m j) as R1 by (intros; apply rd_wr; lia).
  rewrite (fec_rescan_rs m1 _ ft 0); fec_step; try done; try lia; cycle 1.
  { by rewrite R1, decide_True by lia. } { rewrite R1, decide_False by lia. exact Hr. }
  rewrite bind_ret_l. unfold fec_scanned. fec_step.
  rewrite wr_in, bind_ret_l by lia. rewrite u8_id by ulia.
  set (m2 := splice m1 (b + 1) [n]).
  assert (forall j, 0 <= j -> rd m2 j = if decide (j = b + 1) then Ok n else rd m1 j) as R2 by (intros; apply rd_wr; lia).
  eexists _, _. split; [reflexivity|]. fec_step. split; [done|].
  split; [f_equal; lia|]. split; [done|]. split.
  { unfold get_N. fec_step. by rewrite bind_ret_l, R2, decide_True by lia. }
  rewrite (fec_rescan_rs m2 _ ft n); fec_step; try done; try lia; cycle 1.
  { by rewrite R2, decide_False, R1, decide_True by lia. } { by rewrite R2, decide_True by lia. }
  eexists. split; [reflexivity|]. unfold fec_scanned. fec_step. done.
Qed.

Lemma fec_init_stale_layout_witness :
  exists m' f, fec_init (replicate 300 0) (fec_make 0 300) 2 1 = Ok (m', f) /\ is_valid_ f = true.
Proof.
  destruct (fec_init_stale_layout (replicate 300 0) 0 300 2 1) as (m' & f & E & V & _);
    [lia|ulia|lia|vm_compute; discriminate|vm_compute; reflexivity|vm_compute; reflexivity|].
  exists m', f. split; [exact E|exact V].
Defined.
