(* ===== verification/Ticker.v ===== *)
(** * The thread of the scheduler ([winject/src/TxScheduler.hpp])

    [run_ticker], [stop], and the lock that [tick] and the configuring calls
    share, as the steps of two threads: the ticker and the caller of the
    scheduler's methods. What [tick] does while it has the lock is in
    [TxScheduler]; here it is one step, and so is its wait for the next slot. *)

From stdpp Require Import relations.
From S2P Require Import Prelude.

(** ** The threads *)

(** Where the ticker is: not joinable; created; at the test of the loop; at the
    lock; with the lock; in [tick_wait]; ended, but not joined. *)
Inductive ticker_pc := TNone | TStart | TTest | TLock | TBody | TWait | TDone.

(** Where the caller is: outside; in [add_llc], [remove_llc] or [reconfigure] of
    a channel, at the lock and with it; in [stop], before the flag is cleared
    and at [join]; in [reconfigure] of the frame, at the lock, before the flag
    is cleared, at [join], and before [schedule_tick]. *)
Inductive caller_pc := CIdle | OLock | OBody | SStop | SJoin | RLock | RStop | RJoin | RStart.

Inductive who := ByTicker | ByCaller.

Record threads := Threads { flag : bool; this_mutex : option who; tpc : ticker_pc; cpc : caller_pc }.

(** Joining: the thread has ended, or there is none. *)
Definition joined (t : ticker_pc) : Prop := t = TDone \/ t = TNone.

Inductive step : threads -> threads -> Prop :=
  (* run_ticker and tick *)
  | t_start b m c : step (Threads b m TStart c) (Threads true m TTest c)
  | t_enter m c : step (Threads true m TTest c) (Threads true m TLock c)
  | t_exit m c : step (Threads false m TTest c) (Threads false m TDone c)
  | t_lock b c : step (Threads b None TLock c) (Threads b (Some ByTicker) TBody c)
  | t_unlock b m c : step (Threads b m TBody c) (Threads b None TWait c)
  | t_wait b m c : step (Threads b m TWait c) (Threads b m TTest c)
  (* add_llc, remove_llc, reconfigure of a channel *)
  | c_op b m t : step (Threads b m t CIdle) (Threads b m t OLock)
  | c_op_lock b t : step (Threads b None t OLock) (Threads b (Some ByCaller) t OBody)
  | c_op_unlock b m t : step (Threads b m t OBody) (Threads b None t CIdle)
  (* stop *)
  | c_stop b m t : step (Threads b m t CIdle) (Threads b m t SStop)
  | c_stop_flag b m t : step (Threads b m t SStop) (Threads false m t SJoin)
  | c_stop_join b m t : joined t -> step (Threads b m t SJoin) (Threads b m TNone CIdle)
  (* reconfigure of the frame *)
  | c_reconf b m t : step (Threads b m t CIdle) (Threads b m t RLock)
  | c_reconf_lock b t : step (Threads b None t RLock) (Threads b (Some ByCaller) t RStop)
  | c_reconf_flag b m t : step (Threads b m t RStop) (Threads false m t RJoin)
  | c_reconf_join b m t : joined t -> step (Threads b m t RJoin) (Threads b m TNone RStart)
  | c_reconf_start b m : step (Threads b m TNone RStart) (Threads b None TStart CIdle).

Definition threads_init : threads := Threads false None TNone CIdle.
Definition reachable (s : threads) : Prop := rtc step threads_init s.

(** ** The lock *)

Definition caller_locks (c : caller_pc) : bool := match c with OBody | RStop | RJoin | RStart => true | _ => false end.

(** Who is where the lock is needed. *)
Definition holder (t : ticker_pc) (c : caller_pc) : option who :=
  match t with TBody => Some ByTicker | _ => if caller_locks c then Some ByCaller else None end.

(** The lock is held by the one who is where it is needed, and by no other; and
    no thread is created while there is one. *)
Record threads_inv (s : threads) : Prop := ThreadsInv {
  ti_mutex : this_mutex s = holder (tpc s) (cpc s);
  ti_apart : tpc s = TBody -> caller_locks (cpc s) = false;
  ti_start : cpc s = RStart -> tpc s = TNone }.

Lemma step_inv s s' : step s s' -> threads_inv s -> threads_inv s'.
Proof.
  intros Hs [Ha Hb Hc]. destruct Hs; repeat match goal with
    | H : joined _ |- _ => destruct H as [-> | ->]
    | t : ticker_pc |- _ => destruct t
    | c : caller_pc |- _ => destruct c
    end; cbn in *; constructor; cbn; try done; try congruence;
    try (by specialize (Hb eq_refl)); by specialize (Hc eq_refl).
Qed.
Lemma reachable_inv s : reachable s -> threads_inv s.
Proof.
  intros Hr. unfold reachable in Hr. assert (threads_inv threads_init) as Hi by (by constructor).
  induction Hr as [|s s1 s2 Hs _ IH]; [done|]. by apply IH, (step_inv s).
Qed.

(** ** Stopping *)

Ltac run_step := match goal with
  | H : nsteps _ _ _ _ |- _ => inversion H; subst; clear H
  | H : step _ _ |- _ => inversion H; subst; clear H
  | H : joined _ |- _ => destruct H; try done
  end.

(** How many steps of its turn the ticker has left, when the flag is cleared. *)
Definition turn_left (t : ticker_pc) : nat :=
  match t with TLock => 4 | TBody => 3 | TWait => 2 | TTest => 1 | _ => 0 end.

(** C24: [stop] returns, if the ticker has started. When [stop] has cleared the
    flag and waits at [join] for a ticker that had passed its own assignment to
    the flag, then the ticker finishes the turn it is in, and after so many
    steps and one for the join the threads are, whatever happens, in the one
    state where the caller is out of [stop] and there is no ticker. *)
Theorem stop_returns s : reachable s -> cpc s = SJoin -> flag s = false -> tpc s <> TStart ->
  forall s', nsteps step (S (turn_left (tpc s))) s s' <-> s' = Threads false None TNone CIdle.
Proof.
  intros Hr Hc Hf Ht s'. pose proof (ti_mutex _ (reachable_inv s Hr)) as Hm. destruct s as [b m t c]. cbn in *. subst b c.
  destruct t; try done; cbn in *; subst m; split.
  all: try (intros ->; repeat (econstructor; [constructor; (done || (by left) || (by right))|]); constructor).
  all: intros Hn; repeat run_step; done.
Qed.

(** The first configuration creates the ticker. *)
Lemma reachable_created : reachable (Threads false None TStart CIdle).
Proof.
  unfold reachable, threads_init. eapply rtc_l; [apply c_reconf|]. eapply rtc_l; [apply c_reconf_lock|].
  eapply rtc_l; [apply c_reconf_flag|]. eapply rtc_l; [apply c_reconf_join; by right|]. eapply rtc_l; [apply c_reconf_start|]. reflexivity.
Qed.

(** The states in which a [stop] waits for a ticker that runs on. *)
Definition lost (s : threads) : Prop :=
  cpc s = SJoin /\ flag s = true /\ (tpc s = TTest \/ tpc s = TLock \/ tpc s = TBody \/ tpc s = TWait).

Lemma lost_step s s' : lost s -> step s s' -> lost s'.
Proof.
  destruct s as [b m t c]. intros (Hc & Hf & Ht) Hs. cbn in *. subst.
  inversion Hs; subst; unfold lost; cbn; try tauto.
  match goal with H : joined _ |- _ => destruct H as [-> | ->] end; intuition discriminate.
Qed.

(** [stop] can be lost. The ticker sets the flag itself when it starts. If
    [stop] is called between [schedule_tick] and that, then the assignment of
    the ticker comes after the one of [stop]: the ticker runs on, and [stop]
    never returns. *)
Theorem stop_lost : exists s, reachable s /\ cpc s = SJoin /\
  forall s', rtc step s s' -> cpc s' = SJoin /\ flag s' = true /\ exists s'', step s' s''.
Proof.
  assert (reachable (Threads true None TTest SJoin)) as Hr.
  { unfold reachable. etransitivity; [apply reachable_created|]. eapply rtc_l; [apply c_stop|]. eapply rtc_l; [apply c_stop_flag|].
    eapply rtc_l; [apply t_start|]. reflexivity. }
  exists (Threads true None TTest SJoin). split; [done|]. split; [done|]. intros s' Hs.
  assert (reachable s') as Hi%reachable_inv by (unfold reachable in *; by etransitivity).
  assert (lost s') as Hl.
  { assert (lost (Threads true None TTest SJoin)) as H0 by (split_and!; try done; by left). clear Hr Hi.
    induction Hs as [|s s1 s2 H1 _ IH]; [done|]. by apply IH, (lost_step s). }
  destruct s' as [b m t c], Hl as (Hc & Hf & Ht), Hi as [Hm _ _]. cbn in *. subst. split; [done|]. split; [done|].
  by destruct Ht as [-> |[-> |[-> | ->]]]; eexists; constructor.
Qed.

(** A second configuration of the frame can stop both threads for good. It
    joins the ticker with the lock that [tick] needs: if the ticker is at the
    lock then, neither can go on. *)
Theorem reconfigure_deadlock : exists s, reachable s /\ cpc s = RJoin /\ forall s', ~ step s s'.
Proof.
  exists (Threads false (Some ByCaller) TLock RJoin). split; [|split; [done|]].
  - unfold reachable. etransitivity; [apply reachable_created|]. eapply rtc_l; [apply t_start|]. eapply rtc_l; [apply t_enter|].
    eapply rtc_l; [apply c_reconf|]. eapply rtc_l; [apply c_reconf_lock|]. eapply rtc_l; [apply c_reconf_flag|]. reflexivity.
  - intros s' Hs. inversion Hs; subst. match goal with H : joined _ |- _ => destruct H end; done.
Qed.

Lemma stop_returns_witness :
  reachable (Threads false None TLock SJoin) /\
  forall s', nsteps step 5 (Threads false None TLock SJoin) s' <-> s' = Threads false None TNone CIdle.
Proof.
  assert (reachable (Threads false None TLock SJoin)) as Hr.
  { unfold reachable. etransitivity; [apply reachable_created|]. eapply rtc_l; [apply t_start|]. eapply rtc_l; [apply t_enter|].
    eapply rtc_l; [apply c_stop|]. eapply rtc_l; [apply c_stop_flag|]. reflexivity. }
  split; [exact Hr|]. apply (stop_returns (Threads false None TLock SJoin) Hr); [reflexivity|reflexivity|discriminate].
Defined.
