(* ===== verification/TxScheduler.v ===== *)
(** * Transmission scheduler ([winject/src/TxScheduler.hpp])

    Every slot the scheduler fills one frame: it first lets each LLC write
    what is not data (acknowledgements) and say whether it has data, then
    shares the rest of the frame among those that have, by deficit round-robin.

    The LLCs are reached through [ILLC::on_tx]. They are the environment [E]
    here, with one operation [on_tx]; [IllcLaws] states what the scheduler
    relies on. The order that [std::sort] gives to equal elements is
    unspecified: sorting is an argument with the standard's guarantee,
    [StdSort]. *)

From Stdlib Require Import Sorting.Permutation Sorted.
From S2P Require Import Prelude Mem SafeChecker FecFrame Info.

(** ** Interfaces *)

(** [on_tx] of one of the LLCs, on the memory of the frame. *)
Class Illc (E : Type) := on_tx : Z -> list Z -> tx_info_t -> E -> res (list Z * tx_info_t * E).

(** What can be said of the LLCs: [llc_at e llc now b] holds if the last call
    of the LLC was for slot [now], in which it has sent data ([b]) or not;
    [llc_writes] holds of the bytes that it may write in a call. *)
Class IllcSpec (E : Type) := {
  llc_at : E -> Z -> Z -> bool -> Prop;
  llc_writes : Z -> list Z -> Prop }.

(** A call writes only inside the view, reports how much, loads data only if
    allowed, and changes no other LLC. *)
Record call_done {E} `{IllcSpec E} (llc now : Z) (b : bool) (m : list Z) (info : tx_info_t) (e : E)
    (m' : list Z) (info' : tx_info_t) (e' : E) : Prop := CallDone {
  cd_bytes : bytes_ok m';
  cd_outside : same_outside (pdu_base (out_pdu info)) (pdu_size (out_pdu info)) m m';
  cd_alloc : 0 <= out_allocated info' <= pdu_size (out_pdu info);
  cd_data : in_allow_data info = false -> out_has_data_loaded info' = false;
  cd_writes : llc_writes llc (slice m' (pdu_base (out_pdu info)) (out_allocated info'));
  cd_at : llc_at e' llc (in_slot_number info) (sent_after now b info info');
  cd_others l t c : l <> llc -> llc_at e l t c -> llc_at e' l t c }.

Class IllcLaws (E : Type) `{Illc E, !IllcSpec E} : Prop :=
  on_tx_ok llc now b m info e : llc_at e llc now b -> call_ok now b m info -> out_allocated info = 0 ->
    exists m' info' e', on_tx llc m info e = Ok (m', info', e') /\ call_done llc now b m info e m' info' e'.

Record scheduling_ctx_t := SchedCtx {
  s_llc : option Z; deficit : Z; quanta : Z; nd_gpdu_max_size : Z; current_alloc : Z;
  has_schedulable : bool; has_data_allocated : bool }.
#[export] Instance eta_sched : Eta scheduling_ctx_t := fun c =>
  SchedCtx (s_llc c) (deficit c) (quanta c) (nd_gpdu_max_size c) (current_alloc c) (has_schedulable c)
    (has_data_allocated c).
Definition sched_init : scheduling_ctx_t := SchedCtx None 0 0 0 0 false false.

(** [operator>] compares these. *)
Definition sched_key (c : scheduling_ctx_t) : Z := u64 (deficit c * Z_of_bool (negb (has_data_allocated c))).

(** The elements of [schedules_cache] are pointers into [schedules_info]: indices. *)
Definition key_at (infos : list scheduling_ctx_t) (i : nat) : Z := default 0 (sched_key <$> infos !! i).
Class StdSort := std_sort : (nat -> Z) -> list nat -> list nat.
Class StdSortLaws `{StdSort} := {
  std_sort_perm key l : Permutation l (std_sort key l);
  std_sort_sorted key l : StronglySorted (fun i j => key j <= key i) (std_sort key l) }.

(** The share of an LLC; an element without one has none. *)
Definition quantum_ok (c : scheduling_ctx_t) : Prop := 0 <= quanta c < 2 ^ 40 /\ (is_Some (s_llc c) -> 0 < quanta c).

Lemma quantum_ok_same c d : s_llc d = s_llc c -> quanta d = quanta c -> quantum_ok c -> quantum_ok d.
Proof. unfold quantum_ok. by intros -> ->. Qed.

(** ** State *)

Record txs_t := Txs {
  slot_number : Z; fec_type_cfg : Z; slot_interval_us : Z; frame_payload_size : Z;
  schedules_info : list scheduling_ctx_t;
  llcs : list (option Z);
  schedules_cache : list nat;
  txs_buffer : Z; txs_buffer_size : Z; txs_header_size : Z;
  ticker_running : bool }.
#[export] Instance eta_txs : Eta txs_t := fun s =>
  Txs (slot_number s) (fec_type_cfg s) (slot_interval_us s) (frame_payload_size s) (schedules_info s) (llcs s)
    (schedules_cache s) (txs_buffer s) (txs_buffer_size s) (txs_header_size s) (ticker_running s).

(** ** Configuration *)

(** [std::vector::resize] to a larger size *)
Definition vec_resize {A} (n : nat) (d : A) (l : list A) : list A := take n l ++ replicate (n - length l) d.

Definition add_llc (lcid : Z) (llc : Z) (s : txs_t) : txs_t :=
  if zlen (llcs s) <=? lcid then
    let n := Z.to_nat (lcid + 1) in
    let s := s <| llcs := <[Z.to_nat lcid := Some llc]> (vec_resize n None (llcs s)) |> in
    s <| schedules_info := <[Z.to_nat lcid := sched_init <| s_llc := Some llc |>]>
                             (vec_resize n sched_init (schedules_info s)) |>
  else s.

Definition remove_llc (lcid : Z) (s : txs_t) : res txs_t :=
  if (zlen (llcs s) <=? lcid) || (zlen (schedules_info s) <=? lcid) then Ub OutOfBounds else
  let s := s <| llcs := <[Z.to_nat lcid := None]> (llcs s) |> in
  mret (s <| schedules_info := <[Z.to_nat lcid := sched_init]> (schedules_info s) |>).

(** The three [reconfigure]: of the frame, of one LLC's share, of the buffer.
    Starting and joining the ticker thread is left out. *)
Definition txs_reconfigure_frame (interval fec payload : Z) (s : txs_t) : txs_t :=
  let s := s <| fec_type_cfg := fec |> in
  let s := s <| ticker_running := false |> in
  let s := s <| slot_interval_us := interval |> in
  let s := s <| frame_payload_size := payload |> in
  s <| ticker_running := true |>.
Definition txs_reconfigure_llc (lcid q nd : Z) (s : txs_t) : res txs_t :=
  match schedules_info s !! Z.to_nat lcid with
  | None => Throw StdOutOfRange
  | Some c => mret (s <| schedules_info :=
      <[Z.to_nat lcid := (c <| quanta := q |>) <| nd_gpdu_max_size := nd |>]> (schedules_info s) |>)
  end.
Definition txs_reconfigure_buffer (buf size header : Z) (s : txs_t) : txs_t :=
  ((s <| txs_buffer := buf |>) <| txs_buffer_size := size |>) <| txs_header_size := header |>.

(** ** One slot *)

(** A call of [on_tx]: of which LLC, whether data was allowed, where it was to
    write and how much it was offered, how much and what it wrote, whether it
    has data to send and whether it loaded some. *)
Record call_t := Call {
  c_idx : nat; c_llc : Z; c_allow : bool; c_base : Z; c_size : Z; c_alloc : Z; c_bytes : list Z;
  c_avail : bool; c_data : bool }.

Section slot.
Context {E : Type} `{Illc E} `{StdSort}.
Variable slot : Z.

(** What changes while the frame is filled; [calls] records the calls of [on_tx]. *)
Record fill_t := Fill {
  infos : list scheduling_ctx_t; cache : list nat; mem : list Z; env : E; cursor : Z; remaining : Z;
  calls : list call_t }.

Definition call_llc (i : nat) (llc : Z) (allow : bool) (size : Z) (f : fill_t) : res (fill_t * tx_info_t) :=
  let tx_info := TxInfo slot allow false false (Pdu (cursor f) size) 0 in
  '(m, o, e) ← on_tx llc (mem f) tx_info (env f);
  let call := Call i llc (in_allow_data tx_info) (pdu_base (out_pdu tx_info)) (pdu_size (out_pdu tx_info))
                (out_allocated o) (slice m (cursor f) (out_allocated o)) (out_tx_available o) (out_has_data_loaded o) in
  mret (Fill (infos f) (cache f) m e (cursor f + out_allocated o) (u64 (remaining f - out_allocated o))
     (calls f ++ [call]), o).

Definition set_info (i : nat) (c : scheduling_ctx_t) (f : fill_t) : fill_t :=
  Fill (<[i := c]> (infos f)) (cache f) (mem f) (env f) (cursor f) (remaining f) (calls f).
Definition set_cache (l : list nat) (f : fill_t) : fill_t :=
  Fill (infos f) l (mem f) (env f) (cursor f) (remaining f) (calls f).

(** The probing of one LLC. *)
Definition probe_one (i : nat) (llc : Z) (c : scheduling_ctx_t) (f : fill_t) : res fill_t :=
  '(f, o) ← call_llc i llc false (Z.min (remaining f) (nd_gpdu_max_size c)) f;
  let c := (c <| has_schedulable := out_tx_available o |>) <| has_data_allocated := out_has_data_loaded o |> in
  if has_schedulable c then
    let f := set_info i c f in mret (set_cache (cache f ++ [i]) f)
  else mret (set_info i (c <| deficit := u64 (deficit c * 8) / 10 |>) f).

(** [llcs] and [schedules_info] have the same length. *)
Fixpoint probe (i : nat) (ls : list (option Z)) (f : fill_t) : res fill_t :=
  match ls with
  | [] => mret f
  | None :: ls => probe (S i) ls f
  | Some llc :: ls =>
    match infos f !! i with
    | None => Ub OutOfBounds
    | Some c => f ← probe_one i llc c f; probe (S i) ls f
    end
  end.

Definition add_quanta (f : fill_t) : fill_t :=
  Fill (foldl (fun l i => alter (fun c => c <| deficit := u64 (deficit c + quanta c) |>) i l) (infos f) (cache f))
    (cache f) (mem f) (env f) (cursor f) (remaining f) (calls f).

(** The [for] loop of one round; it stops at an element that has its data. *)
Fixpoint serve (order : list nat) (count maxq : Z) (f : fill_t) : res (fill_t * Z * Z) :=
  match order with
  | [] => mret (f, count, maxq)
  | i :: order =>
    match infos f !! i with
    | None => Ub OutOfBounds
    | Some c =>
      if has_data_allocated c then mret (f, count, maxq) else
      let count := count + 1 in
      let maxq := Z.max maxq (deficit c) in
      match s_llc c with
      | None => Ub NullDeref
      | Some llc =>
        '(f, o) ← call_llc i llc true (Z.min (remaining f) (deficit c)) f;
        let c := (c <| has_data_allocated := out_has_data_loaded o |>) <| current_alloc := out_allocated o |> in
        serve order count maxq (set_info i c f)
      end
    end
  end.

Fixpoint rounds (fuel : nat) (f : fill_t) : res fill_t :=
  if remaining f =? 0 then mret f else
  match fuel with
  | O => NoFuel
  | S fuel =>
    let f := add_quanta f in
    let order := std_sort (key_at (infos f)) (cache f) in
    let f := set_cache order f in
    '(f, count, maxq) ← serve order 0 0 f;
    if (remaining f <? maxq) || (count =? 0) then mret f else rounds fuel f
  end.

(** What was sent is paid for. *)
Definition settle (f : fill_t) : fill_t :=
  Fill (foldl (fun l i => alter (fun c =>
          if has_data_allocated c
          then (c <| deficit := u64 (deficit c - current_alloc c) |>) <| current_alloc := 0 |> else c) i l)
          (infos f) (cache f))
    (cache f) (mem f) (env f) (cursor f) (remaining f) (calls f).

(** [tick] between the set-up of the FEC frame and the transmission. *)
Definition fill_slot (fuel : nat) (ls : list (option Z)) (f : fill_t) : res fill_t :=
  f ← probe 0 ls (set_cache [] f);
  f ← rounds fuel f;
  mret (settle f).

End slot.
#[global] Arguments fill_t : clear implicits.

(** [tick], without the wait: the frame sent is the result, if there is one. *)
Definition txs_tick {E} `{Illc E} `{StdSort} (fuel : nat) (m : list Z) (e : E) (s : txs_t)
    : res (list Z * E * txs_t * option Z) :=
  let s := s <| slot_number := u64 (slot_number s + 1) |> in
  let cursor := txs_buffer s + txs_header_size s in
  '(m, fec_frame) ← fec_init m (fec_make cursor (frame_payload_size s)) 0 0;
  sz ← get_data_sz m fec_frame;
  cursor ← deref (data_blocks fec_frame);
  f ← fill_slot (slot_number s) fuel (llcs s) (Fill (schedules_info s) [] m e cursor sz []);
  let s := (s <| schedules_info := infos f |>) <| schedules_cache := cache f |> in
  let send_size := u64 (frame_payload_size s - remaining f) in
  mret (mem f, env f, s, if 1 <? send_size then Some send_size else None).

(** ** The frame is packed *)

(** The calls wrote one after the other, from [a] to [b]. *)
Fixpoint packed (a b : Z) (l : list call_t) : Prop :=
  match l with
  | [] => a = b
  | c :: l => c_base c = a /\ 0 <= c_alloc c /\ packed (a + c_alloc c) b l
  end.

Lemma packed_app a b c l : packed a b l -> c_base c = b -> 0 <= c_alloc c -> packed a (b + c_alloc c) (l ++ [c]).
Proof.
  revert a. induction l as [|x l IH]; intros a; simpl.
  - intros -> -> ?. done.
  - intros (? & ? & ?) ? ?. split_and!; [done|done|]. by apply IH.
Qed.

(** The LLCs that loaded data in a slot, and those that were called. *)
Definition loaded (l : list call_t) : list nat := map c_idx (filter (fun c => c_data c = true) l).
Definition called (l : list call_t) : list nat := map c_idx l.

Lemma loaded_snoc l c i : i ∈ loaded (l ++ [c]) <-> i ∈ loaded l \/ c_data c = true /\ i = c_idx c.
Proof.
  unfold loaded. rewrite list.filter_app, map_app, elem_of_app, filter_cons, filter_nil. destruct (decide (c_data c = true)).
  - cbn [map]. rewrite list_elem_of_singleton. tauto.
  - cbn [map]. rewrite elem_of_nil. tauto.
Qed.
Lemma called_snoc l c i : i ∈ called (l ++ [c]) <-> i ∈ called l \/ i = c_idx c.
Proof. unfold called. rewrite map_app, elem_of_app. cbn [map]. by rewrite list_elem_of_singleton. Qed.
Lemma loaded_called l i : i ∈ loaded l -> i ∈ called l.
Proof.
  unfold loaded, called. induction l as [|c l IH]; [done|]. rewrite filter_cons. cbn [map].
  destruct (decide _); cbn [map]; rewrite ?elem_of_cons; tauto.
Qed.

(** ** The account of a slot

    What the scheduler promises, without its state: the calls of a slot as
    deficit round-robin would make them. *)

(** What the calls allocated, and what the LLC [i] sent as data. *)
Definition used (l : list call_t) : Z := foldr (fun c n => c_alloc c + n) 0 l.
Definition sent (i : nat) (l : list call_t) : Z :=
  foldr (fun c n => (if c_data c && (c_idx c =? i)%nat then c_alloc c else 0) + n) 0 l.

Lemma filter_ext_in {A} (P Q : A -> Prop) `{!forall x, Decision (P x), !forall x, Decision (Q x)} (l : list A) :
  (forall x, x ∈ l -> P x <-> Q x) -> filter P l = filter Q l.
Proof.
  induction l as [|x l IH]; intros He; [done|]. rewrite !filter_cons, IH by (intros; apply He; by right).
  pose proof (He x ltac:(by left)). destruct (decide (P x)), (decide (Q x)); tauto.
Qed.

Lemma filter_none {A} (P : A -> Prop) `{!forall x, Decision (P x)} (l : list A) : (forall x, x ∈ l -> ~ P x) -> filter P l = [].
Proof.
  induction l as [|x l IH]; intros He; [done|]. rewrite filter_cons, IH by (intros; apply He; by right).
  by rewrite decide_False by (apply He; by left).
Qed.

Section account.
(** The data area; the quantum and the LLC of an element; the elements that
    have data to send. *)
Variables (a R : Z) (q : nat -> Z) (who : nat -> option Z) (sched : list nat).

Definition share (d : nat -> Z) (c : call_t) : Prop :=
  c_allow c = true /\ who (c_idx c) = Some (c_llc c) /\ c_size c = Z.min (a + R - c_base c) (d (c_idx c)).

(** In a round every LLC that has not yet loaded data is called once, those
    with the largest deficit [d] first, and offered its deficit of what is left
    of the area. *)
Record round (d : nat -> Z) (before r : list call_t) : Prop := Round {
  rd_who : Permutation (filter (fun i => i ∉ loaded before) sched) (called r);
  rd_order : StronglySorted (fun c c' => d (c_idx c') <= d (c_idx c)) r;
  rd_share : Forall (share d) r }.

(** After a round the slot is over if nobody was called, or someone's deficit
    is more than what is left. *)
Definition over (d : nat -> Z) (before r : list call_t) : Prop :=
  r = [] \/ exists c, c ∈ r /\ R - used (before ++ r) < d (c_idx c).

(** The rounds of a slot, in each of which the deficits grow by the quanta. *)
Definition add_q (d : nat -> Z) (i : nat) : Z := d i + q i.
Inductive drr (d : nat -> Z) (before : list call_t) : list (list call_t) -> Prop :=
| drr_full : R - used before = 0 -> drr d before []
| drr_last r : R - used before <> 0 -> round (add_q d) before r -> over (add_q d) before r -> drr d before [r]
| drr_more r rs : R - used before <> 0 -> round (add_q d) before r -> ~ over (add_q d) before r ->
    drr (add_q d) (before ++ r) rs -> drr d before (r :: rs).
End account.

Lemma used_app l k : used (l ++ k) = used l + used k.
Proof. unfold used. induction l as [|c l IH]; cbn [app foldr]; lia. Qed.
Lemma sent_app i l k : sent i (l ++ k) = sent i l + sent i k.
Proof. unfold sent. induction l as [|c l IH]; cbn [app foldr]; [lia|]. rewrite IH. lia. Qed.
Lemma sent_none i l : i ∉ loaded l -> sent i l = 0.
Proof.
  unfold loaded. induction l as [|c l IH]; [done|]. rewrite filter_cons. cbn [sent foldr]. fold (sent i l).
  destruct (decide (c_data c = true)) as [Hd|Hd]; cbn [map].
  - intros (Hne & Hni)%not_elem_of_cons. rewrite IH, (proj2 (Nat.eqb_neq _ _)) by done. by rewrite andb_false_r.
  - intros Hni. rewrite IH by done. by destruct (c_data c).
Qed.
Lemma packed_used p n l : packed p n l -> n = p + used l.
Proof. revert p. induction l as [|c l IH]; intros p; cbn [packed used foldr]; [lia|]. intros (_ & _ & ->%IH). unfold used. lia. Qed.

Lemma packed_sizes p n l : packed p n l -> Forall (fun c => c_alloc c <= c_size c) l -> Forall (fun c => 0 <= c_alloc c <= c_size c) l.
Proof. revert p. induction l as [|c l IH]; intros p; [constructor|]. intros (_ & ? & ?) [? ?]%list.Forall_cons. constructor; [lia|by eapply IH]. Qed.

(** The calls of the probing: of the LLCs there are, in their order. *)
Fixpoint present (i : nat) (ls : list (option Z)) : list (nat * Z) :=
  match ls with
  | [] => []
  | None :: ls => present (S i) ls
  | Some llc :: ls => (i, llc) :: present (S i) ls
  end.
Definition probe_call (a R : Z) (nd : nat -> Z) (p : nat * Z) (c : call_t) : Prop :=
  (c_idx c, c_llc c) = p /\ c_allow c = false /\ c_data c = false /\ c_size c = Z.min (a + R - c_base c) (nd p.1).

Lemma present_ge i ls p : p ∈ present i ls -> (i <= p.1)%nat.
Proof.
  revert i. induction ls as [|[llc|] ls IH]; intros i; cbn [present]; [by intros ?%elem_of_nil| |].
  - intros [->|Hp]%elem_of_cons; [done|]. apply IH in Hp. lia.
  - intros Hp%IH. lia.
Qed.
Lemma present_lookup i ls j llc : ls !! j = Some (Some llc) -> ((i + j)%nat, llc) ∈ present i ls.
Proof.
  revert i j. induction ls as [|[l|] ls IH]; intros i [|j]; cbn [present]; try done.
  - intros [= ->]. rewrite Nat.add_0_r. by left.
  - intros Hj. right. replace (i + S j)%nat with (S i + j)%nat by lia. by apply IH.
  - intros Hj. replace (i + S j)%nat with (S i + j)%nat by lia. by apply IH.
Qed.
Lemma present_elem i ls p : p ∈ present i ls -> exists j, p.1 = (i + j)%nat /\ ls !! j = Some (Some p.2).
Proof.
  revert i. induction ls as [|[llc|] ls IH]; intros i; cbn [present]; [by intros ?%elem_of_nil| |].
  - intros [->|(j & -> & Hj)%IH]%elem_of_cons; [exists 0%nat; split; [cbn; lia|done]|]. exists (S j). split; [lia|done].
  - intros (j & -> & Hj)%IH. exists (S j). split; [lia|done].
Qed.
Lemma probe_called a R nd ps l : Forall2 (probe_call a R nd) ps l -> called l = map fst ps.
Proof. unfold called. induction 1 as [|p c ps l (Hp & _) _ IH]; [done|]. cbn [map]. by rewrite IH, <- Hp. Qed.
Lemma probe_none_loaded a R nd ps l : Forall2 (probe_call a R nd) ps l -> loaded l = [].
Proof.
  unfold loaded. induction 1 as [|p c ps l (_ & _ & Hd & _) _ IH]; [done|]. rewrite filter_cons.
  by rewrite decide_False by congruence.
Qed.
Lemma probe_call_ext a R nd nd' ps l : (forall p, p ∈ ps -> nd p.1 = nd' p.1) ->
  Forall2 (probe_call a R nd) ps l -> Forall2 (probe_call a R nd') ps l.
Proof.
  intros He. induction 1 as [|p c ps l (A1 & A2 & A3 & A4) _ IH]; constructor.
  - split_and!; try done. rewrite A4, He by (by left). done.
  - apply IH. intros p' Hp. apply He. by right.
Qed.
Definition with_data (l : list call_t) : list nat := map c_idx (filter (fun c => c_avail c = true) l).

Section laws.
Context {E : Type} `{HE : Illc E} `{HSp : !IllcSpec E} `{HL : !IllcLaws E} `{HS : StdSort} `{!StdSortLaws}.
(** The slot, and the region of the memory [m0] that is to be filled. *)
Variables (slot a R : Z) (m0 : list Z).
Hypothesis HR : 0 <= R <= 1500.
Implicit Types f : fill_t E.

(** The LLC [llc] of the element [i]: it was last called in the slot before, or
    in this slot, in which it has sent data or not. *)
Definition at_slot (l : list call_t) (i : nat) (llc : Z) (e : E) : Prop :=
  exists now b, llc_at e llc now b /\
    if decide (i ∈ called l) then now = slot /\ b = bool_decide (i ∈ loaded l) else now = slot - 1.

(** The region in memory: outside it nothing changes, and its front is what
    the calls wrote. *)
Record region (m : list Z) (n : Z) (l : list call_t) : Prop := Region {
  rg_bytes : bytes_ok m;
  rg_base : 0 <= a;
  rg_fit : a + R <= zlen m;
  rg_size : is_u64 (zlen m);
  rg_outside : same_outside a R m0 m;
  rg_content : slice m a n = concat (map c_bytes l);
  rg_written : Forall (fun c => zlen (c_bytes c) = c_alloc c /\ llc_writes (c_llc c) (c_bytes c) /\ c_alloc c <= c_size c) l }.

(** The invariant of a slot: the calls are packed; what they left is what
    remains; no LLC loaded data twice, and those that did are marked; the
    elements of the cache are LLCs; deficits are at most [D]. *)
Record fill_inv (D : Z) f : Prop := FillInv {
  fi_packed : packed a (cursor f) (calls f);
  fi_rest : cursor f + remaining f = a + R;
  fi_range : 0 <= remaining f <= R;
  fi_region : region (mem f) (cursor f - a) (calls f);
  fi_loaded : NoDup (loaded (calls f));
  fi_marked i : i ∈ loaded (calls f) -> exists c, infos f !! i = Some c /\ has_data_allocated c = true;
  fi_cache i : i ∈ cache f -> exists c llc, infos f !! i = Some c /\ s_llc c = Some llc;
  fi_nodup : NoDup (cache f);
  fi_paid i c : i ∈ cache f -> infos f !! i = Some c -> has_data_allocated c = true ->
    0 <= current_alloc c <= deficit c;
  fi_deficit i c : infos f !! i = Some c -> 0 <= deficit c <= D /\ quantum_ok c /\ 0 <= nd_gpdu_max_size c;
  fi_distinct i j c d llc : infos f !! i = Some c -> infos f !! j = Some d ->
    s_llc c = Some llc -> s_llc d = Some llc -> i = j;
  fi_at i c llc : infos f !! i = Some c -> s_llc c = Some llc -> at_slot (calls f) i llc (env f) }.

(** A call as the LLC sees it. *)
Lemma call_region m n l info :
  region m n l -> 0 <= n -> n + pdu_size (out_pdu info) <= R -> 0 <= pdu_size (out_pdu info) ->
  pdu_base (out_pdu info) = a + n -> out_allocated info = 0 -> tx_view_ok m info.
Proof.
  intros [Hm Ha Hf Hu _ _ _] Hn Hs H0 Hb Hal. unfold tx_view_ok, view_ok. rewrite Hb, Hal.
  split_and!; try done; try lia. ulia.
Qed.

Lemma region_call m m' n l llc k bs c :
  region m n l -> 0 <= n -> 0 <= k -> n + k <= R -> same_outside (a + n) (R - n) m m' -> bytes_ok m' ->
  bs = slice m' (a + n) k -> llc_writes llc bs -> c_llc c = llc -> c_alloc c = k -> c_alloc c <= c_size c -> c_bytes c = bs ->
  region m' (n + k) (l ++ [c]).
Proof.
  intros [Hm Ha Hf Hu HO Hc Hw] Hn Hk Hnk HO' Hm' Hbs Hwr Hcl Hca Hsz Hcb. pose proof HO' as [Hz _].
  constructor; try done; rewrite ?Hz; try done.
  - eapply same_outside_trans; [exact HO|]. eapply same_outside_sub; [| |exact HO']; lia.
  - rewrite slice_app, map_app, concat_app, <- Hc by lia. cbn [map concat]. rewrite app_nil_r, Hcb, Hbs.
    f_equal. by rewrite (same_outside_slice _ _ _ _ _ _ HO') by lia.
  - apply Forall_app. split; [done|]. constructor; [|done]. rewrite Hcb, Hcl. split_and!; try done.
    rewrite Hbs, Hca. apply zlen_slice; lia.
Qed.

Lemma loaded_once l c : NoDup (loaded l) -> c_idx c ∉ loaded l -> NoDup (loaded (l ++ [c])).
Proof.
  intros Hn Hni. unfold loaded. rewrite list.filter_app, map_app, filter_cons, filter_nil. apply list.NoDup_app.
  split; [done|]. destruct (decide (c_data c = true)); cbn [map]; split; try apply NoDup_singleton; try constructor.
  - by intros j Hj ->%list_elem_of_singleton.
  - by intros j _ ?%elem_of_nil.
Qed.

(** The LLC that was called, and the others. *)
Lemma at_slot_self l c llc e now b info o :
  (if decide (c_idx c ∈ called l) then now = slot /\ b = bool_decide (c_idx c ∈ loaded l) else now = slot - 1) ->
  c_idx c ∉ loaded l -> in_slot_number info = slot -> c_data c = out_has_data_loaded o ->
  llc_at e llc slot (sent_after now b info o) -> at_slot (l ++ [c]) (c_idx c) llc e.
Proof.
  intros Hnow Hni Hs Hd Hat. exists slot, (sent_after now b info o). split; [done|].
  rewrite decide_True by (apply called_snoc; by right). split; [done|]. apply Bool.eq_iff_eq_true.
  rewrite bool_decide_eq_true, loaded_snoc, Hd. unfold sent_after. rewrite Hs.
  destruct (decide (c_idx c ∈ called l)) in Hnow.
  - destruct Hnow as [-> ->]. rewrite decide_True, bool_decide_false, orb_false_r by done. tauto.
  - rewrite decide_False, orb_false_r by lia. tauto.
Qed.

Lemma at_slot_other l c j llc e e' : j <> c_idx c -> (forall t b, llc_at e llc t b -> llc_at e' llc t b) ->
  at_slot l j llc e -> at_slot (l ++ [c]) j llc e'.
Proof.
  intros Hj He (nj & bj & Haj & Hnj). exists nj, bj. split; [by apply He|].
  assert (j ∈ called (l ++ [c]) <-> j ∈ called l) as Hc by (rewrite called_snoc; tauto).
  rewrite (decide_ext _ _ _ _ Hc). case_decide; [|done]. destruct Hnj as [-> ->]. split; [done|].
  apply bool_decide_ext. rewrite loaded_snoc. tauto.
Qed.

Lemma call_llc_inv D i llc c allow size f :
  fill_inv D f -> 0 <= size <= remaining f -> infos f !! i = Some c -> s_llc c = Some llc -> i ∉ loaded (calls f) ->
  exists f' o call, call_llc slot i llc allow size f = Ok (f', o) /\
  0 <= out_allocated o <= size /\ (allow = false -> out_has_data_loaded o = false) /\
  infos f' = infos f /\ cache f' = cache f /\ remaining f' = remaining f - out_allocated o /\
  calls f' = calls f ++ [call] /\
  (exists bs, call = Call i llc allow (cursor f) size (out_allocated o) bs (out_tx_available o) (out_has_data_loaded o)) /\
  forall c', s_llc c' = s_llc c -> 0 <= deficit c' <= D -> quanta c' = quanta c ->
    nd_gpdu_max_size c' = nd_gpdu_max_size c -> has_data_allocated c' = out_has_data_loaded o ->
    (out_has_data_loaded o = true -> current_alloc c' = out_allocated o /\ out_allocated o <= deficit c') ->
    fill_inv D (set_info i c' f').
Proof.
  intros Hf Hs Hi Hl Hni. pose proof Hf as [P1 P2 P3 P4 P5 P6 P7 P8 P9 P10 P11 P12].
  set (info := TxInfo slot allow false false (Pdu (cursor f) size) 0).
  destruct (P12 i c llc Hi Hl) as (now & b & Hat & Hnow).
  assert (0 <= cursor f - a) as Hcur by lia.
  assert (tx_view_ok (mem f) info) as Hv by (eapply (call_region _ (cursor f - a)); try exact P4; cbn; lia).
  assert (call_ok now b (mem f) info) as Hcall.
  { constructor; [done|cbn; lia| |done]. unfold slot_rule. cbn. case_decide; [right|left; lia].
    destruct Hnow as [-> ->]. split; [done|]. intros Hb. by apply bool_decide_eq_true in Hb. }
  destruct (on_tx_ok llc now b (mem f) info (env f) Hat Hcall eq_refl) as (m' & o & e' & Eo & [Hm' HO Hal Hdat Hwr Hat' Hoth]).
  cbn [out_pdu pdu_base pdu_size in_allow_data in_slot_number info] in HO, Hal, Hdat, Hwr, Hat'.
  unfold call_llc. cbv zeta. fold info. rewrite Eo, bind_ret_l. eexists _, o, _. split; [reflexivity|].
  cbn [infos cache calls remaining]. rewrite u64_id by ulia. split_and!; try done; try lia; [by eexists|].
  intros c' Hl' Hdef Hq Hn Hdata Hcur'. assert (i < length (infos f))%nat as Hlen by (by apply lookup_lt_Some in Hi).
  set (call := Call i llc allow (cursor f) size (out_allocated o) (slice m' (cursor f) (out_allocated o)) (out_tx_available o) (out_has_data_loaded o)).
  assert (forall j d, <[i := c']> (infos f) !! j = Some d -> exists d0, infos f !! j = Some d0 /\ s_llc d = s_llc d0 /\
    (j = i -> d = c') /\ (j <> i -> d = d0)) as Hins.
  { intros j d. destruct (decide (j = i)) as [->|].
    - rewrite list_lookup_insert_eq by lia. intros [= <-]. by exists c.
    - rewrite list_lookup_insert_ne by done. intros Hd. by exists d. }
  unfold set_info. constructor; cbn [infos cache mem env cursor remaining calls].
  - apply (packed_app _ _ call); [done|done|cbn; lia].
  - lia.
  - lia.
  - replace (cursor f + out_allocated o - a) with (cursor f - a + out_allocated o) by lia.
    eapply (region_call (mem f) m' _ _ llc); try exact P4; try lia; try done.
    + replace (a + (cursor f - a)) with (cursor f) by lia. eapply same_outside_sub; [| |exact HO]; lia.
    + by replace (a + (cursor f - a)) with (cursor f) by lia.
    + cbn. lia.
    + cbn. by replace (a + (cursor f - a)) with (cursor f) by lia.
  - by apply loaded_once.
  - intros j [Hj|[Hd ->]]%loaded_snoc.
    + destruct (decide (j = i)) as [->|]; [done|]. rewrite list_lookup_insert_ne by done. by apply P6.
    + exists c'. cbn [c_idx call c_data] in *. rewrite list_lookup_insert_eq by lia. by rewrite Hdata.
  - intros j Hj. destruct (P7 _ Hj) as (x & l & Hx & Hl2). destruct (decide (j = i)) as [->|].
    + exists c', l. rewrite list_lookup_insert_eq by lia. split; [done|]. congruence.
    + exists x, l. by rewrite list_lookup_insert_ne.
  - done.
  - intros j x Hj Hx Hxd. destruct (Hins j x Hx) as (x0 & Hx0 & _ & He & Hne). destruct (decide (j = i)) as [->|Hji].
    + rewrite (He eq_refl) in *. rewrite Hdata in Hxd. destruct (Hcur' Hxd) as (-> & ?). lia.
    + rewrite (Hne Hji) in *. by apply (P9 j).
  - intros j x Hx. destruct (Hins j x Hx) as (x0 & Hx0 & _ & He & Hne). destruct (decide (j = i)) as [->|Hji].
    + rewrite (He eq_refl), Hn. destruct (P10 _ _ Hi) as (_ & ? & ?). split; [done|]. split; [|done].
      by apply (quantum_ok_same c).
    + rewrite (Hne Hji). by eapply P10.
  - intros j k x y l Hx Hy Hlx Hly. destruct (Hins j x Hx) as (x0 & Hx0 & Ex & _). destruct (Hins k y Hy) as (y0 & Hy0 & Ey & _).
    apply (P11 j k x0 y0 l Hx0 Hy0); congruence.
  - intros j x l Hx Hlx. destruct (Hins j x Hx) as (x0 & Hx0 & Ex & _). destruct (decide (j = i)) as [->|Hji].
    + assert (l = llc) as -> by congruence. by apply (at_slot_self _ call llc e' now b info o).
    + apply (at_slot_other _ call _ _ (env f)); [done| |apply (P12 j x0); congruence]. intros t b'. apply Hoth.
      intros ->. apply Hji. by apply (P11 j i x0 c llc); congruence.
Qed.

Lemma fill_inv_cache D f l :
  fill_inv D f -> NoDup l -> (forall i, i ∈ l -> exists c llc, infos f !! i = Some c /\ s_llc c = Some llc) ->
  (forall i c, i ∈ l -> infos f !! i = Some c -> has_data_allocated c = true -> 0 <= current_alloc c <= deficit c) ->
  fill_inv D (set_cache l f).
Proof. intros [P1 P2 P3 P4 P5 P6 P7 P8 P9 P10 P11 P12] Hn Hl Hp. by constructor. Qed.

Lemma fill_inv_snoc D f i c llc :
  fill_inv D f -> i ∉ cache f -> infos f !! i = Some c -> s_llc c = Some llc -> has_data_allocated c = false ->
  fill_inv D (set_cache (cache f ++ [i]) f).
Proof.
  intros Hf Hn Hi Hl Hd. apply fill_inv_cache; [done| | |].
  - apply list.NoDup_app. split; [apply Hf|]. split; [|apply NoDup_singleton].
    intros j Hj Hj2. apply list_elem_of_singleton in Hj2 as ->. done.
  - intros j [Hj|Hj]%elem_of_app; [by apply (fi_cache _ _ Hf)|]. apply list_elem_of_singleton in Hj as ->. eauto.
  - intros j x [Hj|Hj]%elem_of_app Hx Hxd; [by apply (fi_paid _ _ Hf j)|]. apply list_elem_of_singleton in Hj as ->. congruence.
Qed.

Lemma fill_inv_order D f order : fill_inv D f -> Permutation (cache f) order -> fill_inv D (set_cache order f).
Proof.
  intros Hf Hp. apply fill_inv_cache; [done| | |].
  - rewrite <- Hp. apply Hf.
  - intros i Hi. apply (fi_cache _ _ Hf). by rewrite Hp.
  - intros i c Hi. apply (fi_paid _ _ Hf). by rewrite Hp.
Qed.

Definition consistent (infos : list scheduling_ctx_t) (i : nat) (ls : list (option Z)) : Prop :=
  forall j llc, ls !! j = Some (Some llc) -> exists c, infos !! (i + j)%nat = Some c /\ s_llc c = Some llc.

(** What the probing does to the elements: those without data lose a fifth of
    their deficit. *)
Definition probed (infos infos' : list scheduling_ctx_t) (new : list call_t) : Prop :=
  forall j c, infos !! j = Some c -> exists c', infos' !! j = Some c' /\ s_llc c' = s_llc c /\ quanta c' = quanta c /\
    (j ∉ called new -> c' = c) /\
    forall call, call ∈ new -> c_idx call = j -> has_schedulable c' = c_avail call /\ has_data_allocated c' = false /\
      deficit c' = if c_avail call then deficit c else deficit c * 8 / 10.

Definition nd_at (infos : list scheduling_ctx_t) (i : nat) : Z := default 0 (nd_gpdu_max_size <$> infos !! i).

Lemma probe_one_inv D f i llc c :
  fill_inv D f -> D < 2 ^ 60 -> infos f !! i = Some c -> s_llc c = Some llc -> loaded (calls f) = [] -> i ∉ cache f ->
  exists f' call, probe_one slot i llc c f = Ok f' /\
  fill_inv D f' /\ calls f' = calls f ++ [call] /\ probe_call a R (nd_at (infos f)) (i, llc) call /\
  cache f' = cache f ++ with_data [call] /\
  (forall j, j <> i -> infos f' !! j = infos f !! j) /\ probed (infos f) (infos f') [call].
Proof.
  intros Hf HD Hi Hl Hnd Hc. unfold probe_one.
  pose proof (fi_deficit _ _ Hf i c Hi) as (Hd & _ & Hn). pose proof (fi_range _ _ Hf) as Hr.
  destruct (call_llc_inv D i llc c false (Z.min (remaining f) (nd_gpdu_max_size c)) f)
    as (f1 & o & call & -> & Ha & Hno & Ei & Ec & _ & El & (bs & Ecall) & Hinv); try done;
    [lia|rewrite Hnd; apply not_elem_of_nil|].
  specialize (Hno eq_refl). rewrite bind_ret_l.
  set (c1 := c <| has_schedulable := out_tx_available o |> <| has_data_allocated := out_has_data_loaded o |>).
  assert (i < length (infos f))%nat as Hlen by (by apply lookup_lt_Some in Hi).
  assert (probe_call a R (nd_at (infos f)) (i, llc) call) as Hcall.
  { pose proof (fi_rest _ _ Hf). rewrite Ecall. unfold probe_call, nd_at. cbn [fst c_idx c_llc c_allow c_data c_size c_base].
    rewrite Hi, Hno. cbn. split_and!; try done. f_equal. lia. }
  assert (forall x, s_llc x = s_llc c -> quanta x = quanta c -> has_schedulable x = out_tx_available o -> has_data_allocated x = false ->
    deficit x = (if out_tx_available o then deficit c else deficit c * 8 / 10) -> probed (infos f) (<[i := x]> (infos f)) [call]) as Hprobed.
  { intros x X1 X2 X3 X4 X5 j y Hy. destruct (decide (j = i)) as [->|Hne].
    - assert (y = c) as -> by congruence. exists x. rewrite list_lookup_insert_eq by done. split_and!; try done.
      + intros Hin. destruct Hin. rewrite Ecall. by left.
      + intros k ->%list_elem_of_singleton _. by rewrite Ecall.
    - exists y. rewrite list_lookup_insert_ne by done. split_and!; try done. intros k ->%list_elem_of_singleton. by rewrite Ecall. }
  assert (has_schedulable c1 = out_tx_available o) as E1 by done.
  assert (with_data [call] = if out_tx_available o then [i] else []) as E2.
  { unfold with_data. rewrite filter_cons, filter_nil, Ecall. cbn [c_avail]. by destruct (out_tx_available o). }
  rewrite E1. destruct (out_tx_available o) eqn:Eav.
  - assert (fill_inv D (set_info i c1 f1)) as H1 by (apply Hinv; try done; by rewrite Hno).
    eexists _, call. split; [reflexivity|]. cbn [infos cache calls set_info set_cache]. rewrite E2.
    split_and!; try done.
    + apply (fill_inv_snoc D _ i c1 llc H1); [cbn; congruence|by cbn; rewrite Ei, list_lookup_insert_eq|done|done].
    + cbn. by rewrite Ec.
    + intros j Hj. cbn. by rewrite Ei, list_lookup_insert_ne.
    + cbn. rewrite Ei. by apply Hprobed.
  - assert (u64 (deficit c1 * 8) / 10 = deficit c * 8 / 10) as Hdd.
    { change (deficit c1) with (deficit c). rewrite u64_id by ulia. done. }
    eexists _, call. split; [reflexivity|]. cbn [infos cache calls set_info set_cache]. rewrite E2.
    rewrite app_nil_r. split_and!; try done.
    + apply Hinv; try done; [unfold upd at 1 2; cbn [deficit]; rewrite Hdd; lia|by rewrite Hno].
    + intros j Hj. by rewrite Ei, list_lookup_insert_ne.
    + rewrite Ei. by apply Hprobed.
Qed.

Lemma probed_nil l : probed l l [].
Proof. intros j c Hc. exists c. split_and!; try done. by intros call ?%elem_of_nil. Qed.

(** Two parts of the probing, of different elements. *)
Lemma probed_cons l1 l2 l3 call new :
  probed l1 l2 [call] -> probed l2 l3 new -> c_idx call ∉ called new -> probed l1 l3 (call :: new).
Proof.
  intros H1 H2 Hn j c Hc. destruct (H1 j c Hc) as (c2 & Hc2 & A1 & A2 & A3 & A4).
  destruct (H2 j c2 Hc2) as (c3 & Hc3 & B1 & B2 & B3 & B4). exists c3. split_and!; try congruence.
  - intros (Hj1 & Hj2)%not_elem_of_cons. rewrite B3 by done. apply A3. by intros ->%list_elem_of_singleton.
  - intros k [->|Hk]%elem_of_cons Hkj.
    + rewrite B3 by congruence. apply A4; [by left|done].
    + assert (j ∈ called new) as Hjn by (subst j; by apply list_elem_of_fmap_2).
      rewrite <- A3 by (intros ->%list_elem_of_singleton; done). by apply B4.
Qed.

Lemma probe_inv D ls : forall i f,
  fill_inv D f -> D < 2 ^ 60 -> consistent (infos f) i ls -> loaded (calls f) = [] ->
  (forall j, j ∈ cache f -> (j < i)%nat) ->
  exists f' new, probe slot i ls f = Ok f' /\ fill_inv D f' /\ calls f' = calls f ++ new /\
    Forall2 (probe_call a R (nd_at (infos f))) (present i ls) new /\
    cache f' = cache f ++ with_data new /\ probed (infos f) (infos f') new.
Proof.
  induction ls as [|[llc|] ls IH]; intros i f Hf HD Hcons Hnd Hlt; cbn [probe present].
  - exists f, []. rewrite !app_nil_r. split_and!; try done. apply probed_nil.
  - destruct (Hcons 0%nat llc eq_refl) as (c & Hc & Hl). rewrite Nat.add_0_r in Hc. rewrite Hc.
    assert (i ∉ cache f) as Hni by (intros Hin; apply Hlt in Hin; lia).
    destruct (probe_one_inv D f i llc c Hf HD Hc Hl Hnd Hni) as (f1 & call & -> & H1 & H2 & H3 & H4 & H5 & H6).
    rewrite bind_ret_l. destruct (IH (S i) f1) as (f' & new & E' & I1 & I2 & I3 & I4 & I5); try done.
    + intros j x Hj. destruct (Hcons (S j) x Hj) as (y & Hy & Hy2). exists y. split; [|done].
      rewrite H5 by lia. rewrite <- Hy. f_equal. lia.
    + unfold loaded in *. rewrite H2, list.filter_app, map_app, Hnd, filter_cons, filter_nil.
      rewrite decide_False by (destruct H3 as (_ & _ & -> & _); done). done.
    + intros j. rewrite H4. unfold with_data. intros [Hj%Hlt|Hj]%elem_of_app; [lia|].
      apply list_elem_of_fmap in Hj as (k & -> & (_ & ->%list_elem_of_singleton)%list_elem_of_filter).
      destruct H3 as ([= -> _] & _). lia.
    + exists f', (call :: new). split_and!; try done.
      * by rewrite I2, H2, <- app_assoc.
      * constructor; [done|]. eapply probe_call_ext; [|exact I3]. intros p Hp%present_ge. unfold nd_at. by rewrite H5 by lia.
      * rewrite I4, H4, <- app_assoc. f_equal. unfold with_data. by rewrite <- map_app, <- list.filter_app.
      * eapply probed_cons; [exact H6|exact I5|]. rewrite (probe_called _ _ _ _ _ I3). destruct H3 as ([= -> _] & _).
        intros ([j l] & Ej & Hp)%list_elem_of_fmap. apply present_ge in Hp. cbn in *. lia.
  - destruct (IH (S i) f) as (f' & new & E' & I1 & I2 & I3 & I4 & I5); try done.
    + intros j x Hj. destruct (Hcons (S j) x Hj) as (y & Hy & Hy2). exists y. split; [|done]. rewrite <- Hy. f_equal. lia.
    + intros j Hj. apply Hlt in Hj. lia.
    + by exists f', new.
Qed.

(** The LLCs that were offered space for data. *)
Definition offered (l : list call_t) : list nat := map c_idx (filter (fun c => c_allow c = true) l).

Lemma offered_app l k : offered (l ++ k) = offered l ++ offered k.
Proof. unfold offered. by rewrite list.filter_app, map_app. Qed.

(** Behind an element that has its data all others have theirs. *)
Lemma sorted_data D f i order c :
  fill_inv D f -> D < 2 ^ 62 -> StronglySorted (fun i j => key_at (infos f) j <= key_at (infos f) i) (i :: order) ->
  infos f !! i = Some c -> has_data_allocated c = true ->
  forall j x, j ∈ i :: order -> infos f !! j = Some x -> 0 < deficit x -> has_data_allocated x = true.
Proof.
  intros Hf HD Hsort Hi Hdata j x Hj Hx Hp. apply not_false_is_true. intros Hxd.
  apply StronglySorted_inv in Hsort as (_ & Hs). rewrite list.Forall_forall in Hs.
  apply elem_of_cons in Hj as [->|Hj]; [congruence|].
  destruct (fi_deficit _ _ Hf j x Hx) as (Hd & _).
  specialize (Hs j Hj). unfold key_at in Hs. rewrite Hx, Hi in Hs. cbn in Hs.
  unfold sched_key in Hs. rewrite Hdata, Hxd in Hs. cbn [negb Z_of_bool] in Hs. revert Hs.
  rewrite Z.mul_1_r, Z.mul_0_r, !u64_id by ulia. lia.
Qed.

(** What the elements that are called for data have sent in this slot. *)
Definition accounted f : Prop := forall i c, i ∈ cache f -> infos f !! i = Some c -> has_data_allocated c = true ->
  i ∈ loaded (calls f) /\ current_alloc c = sent i (calls f).

(** The deficits of the cache, and what the elements keep. *)
Definition books (d q : nat -> Z) (who : nat -> option Z) f : Prop := forall i c, i ∈ cache f -> infos f !! i = Some c ->
  deficit c = d i /\ quanta c = q i /\ s_llc c = who i.

(** A part of the slot in which the elements of the cache get [n] quanta. *)
Definition grown (n : Z) f f' : Prop := forall i c, infos f !! i = Some c ->
  exists c', infos f' !! i = Some c' /\ s_llc c' = s_llc c /\ quanta c' = quanta c /\
    deficit c' = deficit c + if decide (i ∈ cache f) then n * quanta c else 0.

Lemma grown_refl f : grown 0 f f.
Proof. intros i c Hc. exists c. split_and!; try done. destruct (decide _); lia. Qed.

Lemma grown_trans n n' f1 f2 f3 : grown n f1 f2 -> grown n' f2 f3 -> Permutation (cache f1) (cache f2) -> grown (n + n') f1 f3.
Proof.
  intros H1 H2 Hp i c Hc. destruct (H1 i c Hc) as (c2 & Hc2 & A1 & A2 & A3). destruct (H2 i c2 Hc2) as (c3 & Hc3 & B1 & B2 & B3).
  exists c3. split_and!; try congruence. rewrite B3, A3, A2.
  assert (i ∈ cache f1 <-> i ∈ cache f2) as Hi by (by rewrite Hp). destruct (decide (i ∈ cache f1)), (decide (i ∈ cache f2)); tauto || ring.
Qed.

Lemma grown_books D n d d' q who f f' :
  fill_inv D f -> books d q who f -> grown n f f' -> Permutation (cache f) (cache f') ->
  (forall i, d' i = d i + n * q i) -> books d' q who f'.
Proof.
  intros Hf Hb Hg Hp Hd i c' Hi Hc'. rewrite <- Hp in Hi. destruct (fi_cache _ _ Hf i Hi) as (c & _ & Hc & _).
  destruct (Hg i c Hc) as (x & Hx & B1 & B2 & Hdx). destruct (Hb i c Hi Hc) as (A1 & A2 & A3).
  assert (x = c') as -> by congruence. rewrite decide_True in Hdx by done. rewrite Hd. split_and!; congruence.
Qed.

Lemma accounted_call i c' f f1 call :
  accounted f -> infos f1 = infos f -> cache f1 = cache f -> calls f1 = calls f ++ [call] -> c_idx call = i ->
  has_data_allocated c' = c_data call -> (c_data call = true -> current_alloc c' = c_alloc call) -> i ∉ loaded (calls f) ->
  accounted (set_info i c' f1).
Proof.
  intros Ha Ei Ec El Hi Hd Hal Hni j c. cbn [cache infos calls set_info]. rewrite Ei, Ec, El. intros Hj Hc Hcd.
  rewrite loaded_snoc, sent_app. cbn [sent foldr]. rewrite Z.add_0_r. destruct (decide (j = i)) as [->|Hne].
  - assert (c = c') as ->.
    { destruct (decide (i < length (infos f))%nat); [rewrite list_lookup_insert_eq in Hc by done; congruence|].
      rewrite list_insert_ge in Hc by lia. apply lookup_lt_Some in Hc. lia. }
    rewrite Hcd in Hd. rewrite <- Hd, Hi, Nat.eqb_refl in *. cbn [andb]. rewrite sent_none by done. split; [by right|]. by rewrite Hal.
  - rewrite list_lookup_insert_ne in Hc by done. destruct (Ha j c Hj Hc Hcd) as (? & ->). split; [by left|].
    rewrite (proj2 (Nat.eqb_neq _ _)) by congruence. rewrite andb_false_r. lia.
Qed.

Lemma unserved D f i c : fill_inv D f -> accounted f -> i ∈ cache f -> infos f !! i = Some c ->
  has_data_allocated c = false <-> i ∉ loaded (calls f).
Proof.
  intros Hf Ha Hi Hc. split.
  - intros Hd Hin. destruct (fi_marked _ _ Hf i Hin) as (x & Hx & Hx2). congruence.
  - intros Hni. apply not_true_is_false. intros Hd. by destruct (Ha i c Hi Hc Hd).
Qed.

Lemma key_fresh D f i c : fill_inv D f -> D < 2 ^ 62 -> infos f !! i = Some c -> has_data_allocated c = false ->
  key_at (infos f) i = deficit c.
Proof.
  intros Hf HD Hc Hd. destruct (fi_deficit _ _ Hf i c Hc) as (Hr & _). unfold key_at. rewrite Hc. cbn. unfold sched_key.
  rewrite Hd. cbn [negb Z_of_bool]. rewrite Z.mul_1_r. apply u64_id. ulia.
Qed.

(** Behind an element with data nobody is served; a call changes only the
    element called; those behind it in the order have smaller deficits. *)
Lemma served_nobody D d q who f i (order : list nat) c :
  fill_inv D f -> D < 2 ^ 62 -> accounted f -> books d q who f -> (forall j, j ∈ i :: order -> j ∈ cache f) ->
  (forall j, j ∈ i :: order -> 0 < d j) -> StronglySorted (fun i j => key_at (infos f) j <= key_at (infos f) i) (i :: order) ->
  infos f !! i = Some c -> has_data_allocated c = true -> filter (fun j => j ∉ loaded (calls f)) (i :: order) = [].
Proof.
  intros Hf HD Ha Hb Hc Hpos Hsort Hi Hdata. pose proof (sorted_data D f i order c Hf HD Hsort Hi Hdata) as Hall.
  apply filter_none. intros j Hj Hnl. destruct (fi_cache _ _ Hf j (Hc j Hj)) as (x & _ & Hx & _).
  destruct (Hb j x (Hc j Hj) Hx) as (Ed & _). apply (unserved D f j x) in Hnl; [|by auto..].
  by rewrite (Hall j x Hj Hx ltac:(rewrite Ed; auto)) in Hnl.
Qed.

Lemma served_others l call (order : list nat) : c_idx call ∉ order ->
  filter (fun j => j ∉ loaded (l ++ [call])) order = filter (fun j => j ∉ loaded l) order.
Proof.
  intros Hn. apply filter_ext_in. intros j Hj. rewrite loaded_snoc.
  assert (j <> c_idx call) by (by intros ->). tauto.
Qed.

Lemma served_order D d q who f i (order : list nat) c new :
  fill_inv D f -> D < 2 ^ 62 -> accounted f -> books d q who f -> (forall j, j ∈ i :: order -> j ∈ cache f) ->
  Forall (fun j => key_at (infos f) j <= key_at (infos f) i) order -> infos f !! i = Some c -> has_data_allocated c = false ->
  called new = filter (fun j => j ∉ loaded (calls f)) order -> Forall (fun k => d (c_idx k) <= d i) new.
Proof.
  intros Hf HD Ha Hb Hc Hs Hi Hdata Hnew. apply list.Forall_forall. intros k Hk. rewrite list.Forall_forall in Hs.
  assert (c_idx k ∈ called new) as Hk2 by by apply list_elem_of_fmap_2.
  rewrite Hnew in Hk2. apply list_elem_of_filter in Hk2 as (Hk2 & Hk3). pose proof (Hc (c_idx k) ltac:(by right)) as Hkc.
  destruct (fi_cache _ _ Hf _ Hkc) as (x & _ & Hx & _). destruct (Hb _ x Hkc Hx) as (Ed & _).
  destruct (Hb i c (Hc i ltac:(by left)) Hi) as (Ei & _). specialize (Hs _ Hk3). cbn in Hs.
  rewrite (key_fresh D f i c) in Hs by done.
  rewrite (key_fresh D f _ x), Ed in Hs by (try done; by apply (unserved D f (c_idx k) x)). by rewrite <- Ei.
Qed.

(** One round: the elements without data are served in the order of the keys. *)
Lemma serve_inv D d q who order : forall f count maxq,
  fill_inv D f -> D < 2 ^ 62 -> accounted f -> books d q who f -> NoDup order -> (forall i, i ∈ order -> i ∈ cache f) ->
  (forall i, i ∈ order -> 0 < d i) -> StronglySorted (fun i j => key_at (infos f) j <= key_at (infos f) i) order ->
  exists f' new maxq', serve slot order count maxq f = Ok (f', count + zlen new, maxq') /\
    fill_inv D f' /\ accounted f' /\ cache f' = cache f /\ grown 0 f f' /\ calls f' = calls f ++ new /\
    called new = filter (fun i => i ∉ loaded (calls f)) order /\ Forall (share a R who d) new /\
    StronglySorted (fun c c' => d (c_idx c') <= d (c_idx c)) new /\
    (forall r, r < maxq' <-> r < maxq \/ exists c, c ∈ new /\ r < d (c_idx c)).
Proof.
  induction order as [|i order IH]; intros f count maxq Hf HD Hacc Hb Hnd Hc Hpos Hsort; cbn [serve].
  - exists f, [], maxq. rewrite app_nil_r, zlen_nil, Z.add_0_r. split_and!; try done; [apply grown_refl|constructor|].
    intros r. split; [by left|]. by intros [?|(c & ?%elem_of_nil & _)].
  - assert (i ∈ cache f) as Hic by (apply Hc; by left).
    destruct (fi_cache _ _ Hf i Hic) as (c & llc & Hi & Hl). rewrite Hi. destruct (Hb i c Hic Hi) as (Bd & Bq & Bw).
    destruct (has_data_allocated c) eqn:Hdata.
    { exists f, [], maxq. rewrite app_nil_r, zlen_nil, Z.add_0_r. split_and!; try done; [apply grown_refl| |constructor|].
      - symmetry. by apply (served_nobody D d q who f i order c).
      - intros r. split; [by left|]. by intros [?|(x & ?%elem_of_nil & _)]. }
    rewrite Hl. pose proof (fi_range _ _ Hf) as Hr. destruct (fi_deficit _ _ Hf i c Hi) as (Hd & Hq & Hn).
    assert (i ∉ loaded (calls f)) as Hni by by apply (unserved D f i c).
    destruct (call_llc_inv D i llc c true (Z.min (remaining f) (deficit c)) f)
      as (f1 & o & call & -> & Ha & _ & Ei & Ec & Er & El & (bs & Ecall) & Hinv); try done; [lia|]. rewrite bind_ret_l.
    set (c1 := c <| has_data_allocated := out_has_data_loaded o |> <| current_alloc := out_allocated o |>).
    assert (fill_inv D (set_info i c1 f1)) as H1.
    { apply Hinv; try done. intros _. split; [done|]. change (deficit c1) with (deficit c). lia. }
    assert (i < length (infos f))%nat as Hlen by (by apply lookup_lt_Some in Hi).
    apply list.NoDup_cons in Hnd as (Hnin & Hnd). apply StronglySorted_inv in Hsort as (Hsort & Hs).
    assert (forall j, j <> i -> infos (set_info i c1 f1) !! j = infos f !! j) as Hsame
      by (intros j Hj; cbn [infos set_info]; by rewrite Ei, list_lookup_insert_ne).
    assert (infos (set_info i c1 f1) !! i = Some c1) as Hsi by (cbn [infos set_info]; by rewrite Ei, list_lookup_insert_eq).
    assert (cache (set_info i c1 f1) = cache f) as Ec1 by done.
    assert (forall j, j ∈ order -> j <> i) as Hne by (by intros j Hj ->).
    assert (calls (set_info i c1 f1) = calls f ++ [call]) as El1 by done.
    assert (c_idx call = i) as Eci by (by rewrite Ecall).
    destruct (IH (set_info i c1 f1) (count + 1) (Z.max maxq (deficit c)))
      as (f' & new & maxq' & E1 & E2 & E3 & E4 & E5 & E6 & E7 & E8 & E9 & E10); try done.
    { apply (accounted_call i c1 f f1 call); try done; by rewrite Ecall. }
    { intros j x Hj Hx. rewrite Ec1 in Hj. destruct (decide (j = i)) as [->|]; [|rewrite Hsame in Hx by done; by apply Hb].
      rewrite Hsi in Hx. injection Hx as <-. by apply (Hb i c). }
    { intros j Hj. rewrite Ec1. apply Hc. by right. }
    { intros j Hj. apply Hpos. by right. }
    { clear -Hsort Hsame Hne. induction Hsort as [|j l Hsort IH Hall]; constructor.
      - apply IH. intros k Hk. apply Hne. by right.
      - rewrite list.Forall_forall in *. intros k Hk. unfold key_at. rewrite !Hsame by (apply Hne; first [by left|by right]).
        by apply Hall. }
    rewrite El1 in E6, E7. rewrite served_others in E7 by by rewrite Eci.
    exists f', (call :: new), maxq'. rewrite E1, zlen_cons. split_and!; try done.
    + do 3 f_equal. lia.
    + congruence.
    + intros j x Hx. destruct (E5 j (if decide (j = i) then c1 else x)) as (y & Hy & Y1 & Y2 & Y3).
      { destruct (decide (j = i)) as [->|]; [done|by rewrite Hsame]. }
      exists y. rewrite Ec1 in Y3. destruct (decide (j = i)) as [->|]; [|done].
      assert (x = c) as -> by congruence. done.
    + by rewrite E6, <- app_assoc.
    + rewrite filter_cons, decide_True by done. unfold called in *. cbn [map]. by rewrite Eci, E7.
    + constructor; [|done]. unfold share. rewrite Ecall. cbn [c_allow c_idx c_llc c_size c_base].
      pose proof (fi_rest _ _ Hf). rewrite <- Bw, <- Bd. split_and!; try done. f_equal. lia.
    + constructor; [done|]. rewrite Eci. by apply (served_order D d q who f i order c).
    + intros r. rewrite E10, Bd. split.
      * intros [Hm|(x & Hx & Hx2)]; [|right; exists x; split; [by right|done]].
        destruct (decide (r < maxq)); [by left|]. right. exists call. split; [by left|]. rewrite Eci. lia.
      * intros [Hm|(x & [->|Hx]%elem_of_cons & Hx2)]; [left; lia|left; rewrite Eci in Hx2; lia|right; by exists x].
Qed.

(** Updating the elements of a duplicate-free list of indices. *)
Lemma foldl_alter_lookup (g : scheduling_ctx_t -> scheduling_ctx_t) (js : list nat) : forall (l : list scheduling_ctx_t) (i : nat), NoDup js ->
  foldl (fun l i => alter g i l) l js !! i = if decide (i ∈ js) then g <$> l !! i else l !! i.
Proof.
  induction js as [|j js IH]; intros l i Hnd; cbn [foldl].
  - by rewrite decide_False by apply not_elem_of_nil.
  - apply list.NoDup_cons in Hnd as (Hj & Hnd). rewrite IH by done. destruct (decide (i = j)) as [->|Hne].
    + rewrite decide_False by done. rewrite decide_True by by left. apply list_lookup_alter_eq.
    + rewrite list_lookup_alter_ne by done. destruct (decide (i ∈ js)) as [Hin|Hin].
      * by rewrite decide_True by by right.
      * rewrite decide_False; [done|]. by intros [?|?]%elem_of_cons.
Qed.

(** A change of the elements of the cache. *)
Definition alter_cache (g : scheduling_ctx_t -> scheduling_ctx_t) (f : fill_t E) : fill_t E :=
  Fill (foldl (fun l i => alter g i l) (infos f) (cache f)) (cache f) (mem f) (env f) (cursor f) (remaining f) (calls f).

Lemma altered_llcs g (js : list nat) : (forall c, s_llc (g c) = s_llc c) -> forall l : list scheduling_ctx_t,
  s_llc <$> foldl (fun l i => alter g i l) l js = s_llc <$> l.
Proof.
  intros Hg. induction js as [|j js IH]; intros l; [done|]. cbn [foldl]. rewrite IH. apply list_eq. intros i.
  rewrite !list_lookup_fmap. destruct (decide (i = j)) as [->|Hne].
  - rewrite list_lookup_alter_eq. destruct (l !! j); cbn; [by rewrite Hg|done].
  - by rewrite list_lookup_alter_ne.
Qed.

Lemma altered_inv D D' g f :
  fill_inv D f -> D <= D' ->
  (forall c, s_llc (g c) = s_llc c /\ has_data_allocated (g c) = has_data_allocated c /\ quanta (g c) = quanta c /\
    nd_gpdu_max_size (g c) = nd_gpdu_max_size c) ->
  (forall c, 0 <= deficit c <= D -> quantum_ok c ->
    (has_data_allocated c = true -> 0 <= current_alloc c <= deficit c) ->
    0 <= deficit (g c) <= D' /\ (has_data_allocated c = true -> 0 <= current_alloc (g c) <= deficit (g c))) ->
  fill_inv D' (alter_cache g f).
Proof.
  intros [P1 P2 P3 P4 P5 P6 P7 P8 P9 P10 P11 P12] HD Hg Hd.
  pose proof (fun i => foldl_alter_lookup g (cache f) (infos f) i P8) as Hl.
  assert (forall i x, infos (alter_cache g f) !! i = Some x -> exists c, infos f !! i = Some c /\ s_llc x = s_llc c /\
    x = if decide (i ∈ cache f) then g c else c) as Hx.
  { intros i x. cbn [infos alter_cache]. rewrite Hl. destruct (infos f !! i) as [c|]; [|by destruct (decide _)].
    destruct (decide _); intros [= <-]; exists c; [destruct (Hg c)|]; done. }
  assert (forall i c, infos f !! i = Some c -> infos (alter_cache g f) !! i = Some (if decide (i ∈ cache f) then g c else c)) as Hx'.
  { intros i c Hc. cbn [infos alter_cache]. rewrite Hl, Hc. by destruct (decide _). }
  constructor; try done.
  - intros i Hi. destruct (P6 i Hi) as (c & Hc & Hdc). eexists. split; [by apply Hx'|]. destruct (Hg c) as (_ & Eg & _).
    destruct (decide _); congruence.
  - intros i Hi. destruct (P7 i Hi) as (c & llc & Hc & Hlc). eexists _, llc. split; [by apply Hx'|].
    destruct (Hg c) as (Eg & _). destruct (decide _); congruence.
  - intros i x Hi Hxi Hxd. destruct (Hx i x Hxi) as (c & Hc & _ & ->). cbn [cache alter_cache] in Hi.
    rewrite decide_True in Hxd |- * by done. destruct (P10 i c Hc) as (? & ? & ?). destruct (Hg c) as (_ & Eg & _).
    rewrite Eg in Hxd. apply Hd; try done. intros. by apply (P9 i).
  - intros i x Hxi. destruct (Hx i x Hxi) as (c & Hc & _ & ->). destruct (P10 i c Hc) as (? & ? & ?). destruct (Hg c) as (Es & _ & Eq & En).
    destruct (decide _) as [Hin|]; [|split; [lia|done]]. rewrite En. split; [apply Hd; try done; intros; by apply (P9 i)|].
    split; [by apply (quantum_ok_same c)|done].
  - intros i j x y l Hxi Hyj Hlx Hly. destruct (Hx i x Hxi) as (c & Hc & Ec & _). destruct (Hx j y Hyj) as (d & Hdj & Ed & _).
    apply (P11 i j c d l); congruence.
  - intros i x l Hxi Hlx. destruct (Hx i x Hxi) as (c & Hc & Ec & _). apply (P12 i c); congruence.
Qed.

Lemma add_quanta_inv D f :
  fill_inv D f -> D + 2 ^ 40 < 2 ^ 63 ->
  fill_inv (D + 2 ^ 40) (add_quanta f) /\ grown 1 f (add_quanta f) /\ (accounted f -> accounted (add_quanta f)).
Proof.
  intros Hf HD. set (g := fun c => c <| deficit := u64 (deficit c + quanta c) |>).
  assert (forall c, 0 <= deficit c <= D -> quantum_ok c -> deficit (g c) = deficit c + quanta c) as Hg
    by (intros c Hd [Hq _]; unfold g, upd; cbn [deficit]; apply u64_id; ulia).
  assert (forall i, infos (add_quanta f) !! i = if decide (i ∈ cache f) then g <$> infos f !! i else infos f !! i) as Hl
    by (intros i; apply foldl_alter_lookup, Hf).
  split_and!.
  - apply (altered_inv D _ g f Hf); [lia|done|]. intros c Hd Hq Hp. rewrite (Hg c Hd Hq). destruct Hq as [Hq _]. split; [lia|].
    intros Hcd. specialize (Hp Hcd). change (current_alloc (g c)) with (current_alloc c). lia.
  - intros i c Hc. destruct (fi_deficit _ _ Hf i c Hc) as (Hd & Hq & _). rewrite Hl, Hc.
    destruct (decide (i ∈ cache f)); [exists (g c)|exists c]; split_and!; try done; [rewrite Hg by done|]; lia.
  - intros Ha i c Hi. cbn [cache add_quanta] in Hi. rewrite Hl, decide_True by done. destruct (infos f !! i) as [c0|] eqn:Hc; [|done].
    intros [= <-]. by apply (Ha i c0).
Qed.

Lemma fill_inv_mono D D' f : D <= D' -> fill_inv D f -> fill_inv D' f.
Proof. intros Hle [P1 P2 P3 P4 P5 P6 P7 P8 P9 P10 P11 P12]. constructor; try done. intros i c Hi. apply P10 in Hi as (? & ? & ?). split; [lia|done]. Qed.

Section rounds.
Variables (q : nat -> Z) (who : nat -> option Z) (sched : list nat).

Lemma left_used D f : fill_inv D f -> remaining f = R - used (calls f).
Proof. intros Hf. pose proof (fi_rest _ _ Hf). pose proof (packed_used _ _ _ (fi_packed _ _ Hf)). lia. Qed.

(** One turn of the loop. *)
Lemma round_inv D d f :
  fill_inv D f -> 0 <= D -> D + 2 ^ 40 < 2 ^ 62 -> accounted f -> books d q who f -> Permutation sched (cache f) ->
  (forall i, i ∈ cache f -> 0 < add_q q d i) ->
  let f1 := add_quanta f in let order := std_sort (key_at (infos f1)) (cache f1) in
  exists f' maxq new, serve slot order 0 0 (set_cache order f1) = Ok (f', zlen new, maxq) /\
    fill_inv (D + 2 ^ 40) f' /\ accounted f' /\ grown 1 f f' /\ Permutation (cache f) (cache f') /\
    calls f' = calls f ++ new /\ round a R who sched (add_q q d) (calls f) new /\
    ((remaining f' <? maxq) || (zlen new =? 0) = true <-> over R (add_q q d) (calls f) new).
Proof.
  intros Hf HD0 HD Hacc Hb Hsc Hpos f1 order. destruct (add_quanta_inv D f Hf ltac:(lia)) as (Hf1 & Hg1 & Hacc1). fold f1 in Hf1, Hg1, Hacc1.
  assert (Permutation (cache f) order) as Hperm by apply (std_sort_perm (key_at (infos f1)) (cache f1)).
  assert (books (add_q q d) q who f1) as Hb1.
  { apply (grown_books D 1 d _ q who f f1); try done. intros i. unfold add_q. lia. }
  destruct (serve_inv (D + 2 ^ 40) (add_q q d) q who order (set_cache order f1) 0 0)
    as (f' & new & maxq & Es & Hf' & Ha' & Ec & Hg & En & Hw & Hs & Hso & Hm); try done.
  - by apply fill_inv_order.
  - intros i c Hi. cbn [cache set_cache] in Hi. rewrite <- Hperm in Hi. by apply (Hacc1 Hacc).
  - intros i c Hi. cbn [cache set_cache] in Hi. rewrite <- Hperm in Hi. by apply Hb1.
  - rewrite <- Hperm. apply Hf.
  - intros i Hi. rewrite <- Hperm in Hi. by apply Hpos.
  - apply (std_sort_sorted (key_at (infos f1)) (cache f1)).
  - exists f', maxq, new. split; [exact Es|]. cbn [cache calls set_cache] in *. split_and!; try done.
    + change 1 with (1 + 0). apply (grown_trans 1 0 f (set_cache order f1)); [exact Hg1|exact Hg|exact Hperm].
    + by rewrite Ec.
    + constructor; [|done..]. rewrite Hw. apply filter_Permutation. by rewrite Hsc.
    + pose proof (fi_range _ _ Hf') as Hr. rewrite (left_used _ _ Hf'), En in Hr |- *.
      change (calls f1) with (calls f) in *. rewrite orb_true_iff, Z.ltb_lt, Hm, Z.eqb_eq. unfold over. split.
      * intros [[?|?]|Hz]; [lia|by right|left]. destruct new; [done|]. rewrite zlen_cons in Hz. pose proof (zlen_nonneg new). lia.
      * intros [->|?]; [by right|by left; right].
Qed.

Lemma rounds_inv fuel : forall D k d f,
  fill_inv D f -> 0 <= D -> D + Z.of_nat fuel * 2 ^ 40 < 2 ^ 62 -> accounted f -> books d q who f -> Permutation sched (cache f) ->
  0 <= k <= remaining f -> R < k + Z.of_nat fuel -> (forall i, i ∈ cache f -> k <= d i) ->
  exists f' rs, rounds slot fuel f = Ok f' /\ fill_inv (D + Z.of_nat fuel * 2 ^ 40) f' /\ accounted f' /\
    grown (zlen rs) f f' /\ Permutation (cache f) (cache f') /\ calls f' = calls f ++ concat rs /\
    drr a R q who sched d (calls f) rs.
Proof.
  induction fuel as [|fuel IH]; intros D k d f Hf HD0 HD Hacc Hb Hsc Hk Hfuel Hdef.
  - pose proof (fi_range _ _ Hf). lia.
  - cbn [rounds]. pose proof (left_used _ _ Hf) as Hleft. destruct (Z.eqb_spec (remaining f) 0) as [Hz|Hz].
    { exists f, []. cbn [concat]. rewrite app_nil_r. split_and!; try done; [eapply fill_inv_mono; [|exact Hf]; lia|apply grown_refl|].
      constructor. lia. }
    assert (forall i, i ∈ cache f -> k + 1 <= add_q q d i) as Hpos.
    { intros i Hi. destruct (fi_cache _ _ Hf i Hi) as (c & llc & Hc & Hl). destruct (Hb i c Hi Hc) as (_ & Eq & _).
      destruct (fi_deficit _ _ Hf i c Hc) as (_ & (_ & Hq) & _). specialize (Hq (mk_is_Some _ _ Hl)). specialize (Hdef i Hi).
      unfold add_q. lia. }
    destruct (round_inv D d f Hf HD0 ltac:(lia) Hacc Hb Hsc) as (f' & maxq & new & Es & Hf' & Ha' & Hg & Hp & En & Hr & Hover).
    { intros i Hi. specialize (Hpos i Hi). lia. }
    cbn zeta in Es. rewrite Es, bind_ret_l. destruct ((remaining f' <? maxq) || (zlen new =? 0)).
    + exists f', [new]. cbn [concat]. rewrite app_nil_r. split_and!; try done; [eapply fill_inv_mono; [|exact Hf']; lia|].
      apply drr_last; [lia|done|by apply Hover].
    + assert (~ over R (add_q q d) (calls f) new) as Hgo by (by intros ?%Hover).
      assert (k + 1 <= remaining f') as Hk'.
      { destruct new as [|c new]; [destruct Hgo; by left|]. destruct (decide (k + 1 <= remaining f')) as [|Hlt]; [done|]. destruct Hgo. right.
        exists c. split; [by left|]. rewrite <- En, <- (left_used _ _ Hf').
        assert (c_idx c ∈ filter (fun i => i ∉ loaded (calls f)) sched) as (_ & Hin)%list_elem_of_filter
          by (rewrite (rd_who _ _ _ _ _ _ _ Hr); by left).
        rewrite Hsc in Hin. specialize (Hpos _ Hin). lia. }
      destruct (IH (D + 2 ^ 40) (k + 1) (add_q q d) f') as (f2 & rs & E2 & Hf2 & Ha2 & Hg2 & Hp2 & En2 & Hd2); try done; try lia.
      * apply (grown_books D 1 d _ q who f f'); try done. intros i. unfold add_q. lia.
      * by rewrite Hsc.
      * intros i Hi. rewrite <- Hp in Hi. exact (Hpos i Hi).
      * exists f2, (new :: rs). cbn [concat]. split_and!; try done.
        -- eapply fill_inv_mono; [|exact Hf2]; lia.
        -- rewrite zlen_cons. eapply grown_trans; [exact Hg|exact Hg2|done].
        -- by rewrite Hp.
        -- by rewrite En2, En, <- app_assoc.
        -- rewrite En in Hd2. apply drr_more; [lia|done..].
Qed.
End rounds.
End laws.

(** ** A whole slot *)

(** The state in which a slot may start. *)
Record sched_ok (infos : list scheduling_ctx_t) (ls : list (option Z)) : Prop := SchedOk {
  so_consistent : consistent infos 0 ls;
  so_shares : Forall (fun c => 0 <= deficit c < 2 ^ 40 /\ quantum_ok c /\ 0 <= nd_gpdu_max_size c) infos;
  so_distinct i j c d llc : infos !! i = Some c -> infos !! j = Some d ->
    s_llc c = Some llc -> s_llc d = Some llc -> i = j }.

(** The region to fill, and LLCs that were last called in the slot before. *)
Record slot_ok {E} `{IllcSpec E} (slot a R : Z) (m : list Z) (e : E) (infos : list scheduling_ctx_t) : Prop := SlotOk {
  sl_view : view_ok m a R;
  sl_size : R <= 1500;
  sl_at i c llc : infos !! i = Some c -> s_llc c = Some llc -> exists b, llc_at e llc (slot - 1) b }.

(** The elements at the start of the slot. *)
Definition deficit_at (infos : list scheduling_ctx_t) (i : nat) : Z := default 0 (deficit <$> infos !! i).
Definition quanta_at (infos : list scheduling_ctx_t) (i : nat) : Z := default 0 (quanta <$> infos !! i).
Definition who_at (infos : list scheduling_ctx_t) (i : nat) : option Z := infos !! i ≫= s_llc.

(** The deficit after a slot of [n] rounds: of an LLC with data, the quanta of
    the rounds are added and what it sent is taken off; of one without, a fifth
    is lost; the others keep it. *)
Record deficit_after (n : Z) (probes all : list call_t) (i : nat) (d q d' : Z) : Prop := DeficitAfter {
  da_sched : i ∈ with_data probes -> d' = d + n * q - sent i all;
  da_idle c : c ∈ probes -> c_idx c = i -> c_avail c = false -> d' = d * 8 / 10;
  da_absent : i ∉ called probes -> d' = d;
  da_range : 0 <= d' }.

(** What a slot did: [g] is the state after the probing, [f] the one at the end. *)
Record slot_done {E} `{IllcSpec E} (slot a R : Z) (m0 : list Z) (ls : list (option Z)) (infos0 : list scheduling_ctx_t)
    (g f : fill_t E) : Prop := SlotDone {
  sd_packed : packed a (cursor f) (calls f);
  sd_rest : cursor f + remaining f = a + R /\ 0 <= remaining f;
  sd_outside : same_outside a R m0 (mem f);
  sd_content : slice (mem f) a (cursor f - a) = concat (map c_bytes (calls f));
  sd_written : Forall (fun c => llc_writes (c_llc c) (c_bytes c)) (calls f);
  sd_fits : Forall (fun c => 0 <= c_alloc c <= c_size c) (calls f);
  sd_once : NoDup (loaded (calls f));
  sd_probes : Forall2 (probe_call a R (nd_at infos0)) (present 0 ls) (calls g);
  sd_account : exists rs, calls f = calls g ++ concat rs /\
    drr a R (quanta_at infos0) (who_at infos0) (with_data (calls g)) (deficit_at infos0) (calls g) rs /\
    forall i c0, infos0 !! i = Some c0 -> exists c, infos f !! i = Some c /\ s_llc c = s_llc c0 /\ quanta c = quanta c0 /\
      deficit_after (zlen rs) (calls g) (calls f) i (deficit c0) (quanta c0) (deficit c);
  sd_offered : remaining g = 0 \/ forall i, i ∈ cache g -> i ∈ offered (calls f);
  sd_at j llc : ls !! j = Some (Some llc) -> llc_at (env f) llc slot (bool_decide (j ∈ loaded (calls f))) }.

Section whole.
Context {E : Type} `{HE : Illc E} `{HSp : !IllcSpec E} `{HL : !IllcLaws E} `{HS : StdSort} `{!StdSortLaws}.

Lemma fill_inv_start slot a R m (e : E) l ls :
  sched_ok l ls -> slot_ok slot a R m e l -> fill_inv slot a R m (2 ^ 40) (Fill l [] m e a R []).
Proof.
  intros [_ Hi Hd] [(Hm & Hu & Ha & HR & Hf) Hs Hat]. rewrite list.Forall_forall in Hi.
  constructor; cbn [infos cache mem env cursor remaining calls]; try done; try lia.
  - constructor; try done. rewrite Z.sub_diag. by rewrite slice_nil by lia.
  - constructor.
  - intros i Hin. by apply elem_of_nil in Hin.
  - intros i Hin. by apply elem_of_nil in Hin.
  - constructor.
  - intros i c Hin. by apply elem_of_nil in Hin.
  - intros i c Hc. apply list_elem_of_lookup_2 in Hc. destruct (Hi c Hc) as (? & ? & ?). split; [lia|done].
  - intros i c llc Hc Hl. destruct (Hat i c llc Hc Hl) as [b Hb]. exists (slot - 1), b. split; [done|].
    rewrite decide_False; [done|]. apply not_elem_of_nil.
Qed.

Lemma settle_inv slot a R m D (f : fill_t E) : D < 2 ^ 63 ->
  fill_inv slot a R m D f -> fill_inv slot a R m D (settle f).
Proof.
  intros HD Hf. apply (altered_inv slot a R m D D _ f Hf); [lia|intros c; by destruct (has_data_allocated c) eqn:Ec|].
  intros c Hd _ Hp. destruct (has_data_allocated c) eqn:Ec; [|done]. specialize (Hp eq_refl).
  unfold upd. cbn [deficit current_alloc]. rewrite u64_id by ulia. lia.
Qed.

Lemma settled slot a R m D (f : fill_t E) i c :
  fill_inv slot a R m D f -> D < 2 ^ 63 -> accounted f -> infos f !! i = Some c ->
  exists c', infos (settle f) !! i = Some c' /\ s_llc c' = s_llc c /\ quanta c' = quanta c /\
    deficit c' = deficit c - (if decide (i ∈ cache f) then sent i (calls f) else 0).
Proof.
  intros Hf HD Ha Hc. unfold settle. cbn [infos]. rewrite foldl_alter_lookup, Hc by apply Hf.
  destruct (decide (i ∈ cache f)) as [Hi|]; [|exists c; split_and!; [done..|lia]]. cbn [fmap option_fmap option_map].
  destruct (fi_deficit _ _ _ _ _ _ Hf i c Hc) as (Hd & _). destruct (has_data_allocated c) eqn:Ec.
  - pose proof (fi_paid _ _ _ _ _ _ Hf i c Hi Hc Ec) as Hp. destruct (Ha i c Hi Hc Ec) as (_ & Es).
    eexists. split; [reflexivity|]. split_and!; try done. unfold upd. cbn [deficit]. rewrite u64_id by ulia. lia.
  - exists c. split_and!; try done. rewrite sent_none; [lia|]. by apply (unserved slot a R m D f i c).
Qed.

(** After the probing: an element with data has kept its deficit, and has
    loaded none. *)
Lemma probed_sched infos0 infos1 probes i c0 :
  probed infos0 infos1 probes -> infos0 !! i = Some c0 -> i ∈ with_data probes ->
  exists c1, infos1 !! i = Some c1 /\ s_llc c1 = s_llc c0 /\ quanta c1 = quanta c0 /\ deficit c1 = deficit c0 /\
    has_schedulable c1 = true /\ has_data_allocated c1 = false.
Proof.
  intros Hp Hc (call & Hi & (Ha & Hin)%list_elem_of_filter)%list_elem_of_fmap.
  destruct (Hp i c0 Hc) as (c1 & Hc1 & A1 & A2 & _ & A4). destruct (A4 call Hin (eq_sym Hi)) as (B1 & B2 & B3).
  rewrite Ha in B1, B3. by exists c1.
Qed.

Lemma slot_account infos0 probes n (g f f' : fill_t E) i c0 :
  probed infos0 (infos g) probes -> cache g = with_data probes -> grown n g f -> Permutation (cache g) (cache f) ->
  (forall c, infos f !! i = Some c -> exists c', infos f' !! i = Some c' /\ s_llc c' = s_llc c /\ quanta c' = quanta c /\
    deficit c' = deficit c - (if decide (i ∈ cache f) then sent i (calls f) else 0)) ->
  (forall c, infos f' !! i = Some c -> 0 <= deficit c) -> infos0 !! i = Some c0 ->
  exists c, infos f' !! i = Some c /\ s_llc c = s_llc c0 /\ quanta c = quanta c0 /\
    deficit_after n probes (calls f) i (deficit c0) (quanta c0) (deficit c).
Proof.
  intros Hp Ec Hg Hperm Hset Hrange Hc0. destruct (Hp i c0 Hc0) as (c1 & Hc1 & A1 & A2 & A3 & A4).
  destruct (Hg i c1 Hc1) as (c2 & Hc2 & B1 & B2 & B3). destruct (Hset c2 Hc2) as (c & Hc & C1 & C2 & C3).
  exists c. split; [done|]. split; [congruence|]. split; [congruence|].
  assert (i ∈ cache g <-> i ∈ cache f) as Hi by (by rewrite Hperm).
  assert (i ∈ cache g -> deficit c1 = deficit c0 /\ has_schedulable c1 = true) as Hs.
  { rewrite Ec. intros Hin. destruct (probed_sched _ _ _ i c0 Hp Hc0 Hin) as (x & Hx & X1 & X2 & X3 & X4 & _).
    assert (x = c1) as -> by congruence. done. }
  constructor.
  - rewrite <- Ec. intros Hin. rewrite decide_True in B3 by done. rewrite decide_True in C3 by (by apply Hi).
    destruct (Hs Hin) as (Hd & _). rewrite C3, B3, Hd, A2. done.
  - intros call Hin Hci Hav. destruct (A4 call Hin Hci) as (S1 & _ & S2). rewrite Hav in S1, S2.
    assert (i ∉ cache g) as Hni by (intros Hin2; apply Hs in Hin2 as (_ & ?); congruence).
    rewrite decide_False in B3 by done. rewrite decide_False in C3 by (by rewrite <- Hi). lia.
  - intros Hni. rewrite A3 in B3 by done.
    assert (i ∉ cache g) as Hni2.
    { rewrite Ec. intros (call & -> & (_ & Hin)%list_elem_of_filter)%list_elem_of_fmap. apply Hni. by apply list_elem_of_fmap_2. }
    rewrite decide_False in B3 by done. rewrite decide_False in C3 by (by rewrite <- Hi). lia.
  - by apply Hrange.
Qed.

Lemma drr_offered a R q who sched d before rs : drr a R q who sched d before rs -> loaded before = [] ->
  R - used before = 0 \/ forall i, i ∈ sched -> i ∈ offered (concat rs).
Proof.
  assert (forall d r rest, round a R who sched d before r -> loaded before = [] -> forall i, i ∈ sched -> i ∈ offered (r ++ rest)) as Hround.
  { intros d' r rest [Hw _ Hs] Hl i Hi. assert (i ∈ called r) as (c & -> & Hc)%list_elem_of_fmap.
    { rewrite <- Hw. apply list_elem_of_filter. split; [|done]. rewrite Hl. apply not_elem_of_nil. }
    rewrite offered_app, elem_of_app. left. apply list_elem_of_fmap_2, list_elem_of_filter. split; [|done].
    rewrite list.Forall_forall in Hs. by destruct (Hs c Hc). }
  intros [?|r _ Hr _|r rs' _ Hr _ _] Hl; [by left|right..]; cbn [concat]; intros i Hi; by eapply Hround.
Qed.

Lemma slot_filled_spec slot ls infos0 m (e : E) a R fuel :
  sched_ok infos0 ls -> slot_ok slot a R m e infos0 -> R < Z.of_nat fuel < 2 ^ 21 ->
  exists f g, fill_slot slot fuel ls (Fill infos0 [] m e a R []) = Ok f /\
    probe slot 0 ls (Fill infos0 [] m e a R []) = Ok g /\ slot_done slot a R m ls infos0 g f.
Proof.
  intros Hso Hsl Hf. pose proof (fill_inv_start slot a R m e infos0 ls Hso Hsl) as H0.
  pose proof Hsl as [(_ & _ & _ & HR & _) Hs _]. assert (0 <= R <= 1500) as HR' by done.
  destruct (probe_inv slot a R m HR' (2 ^ 40) ls 0 (Fill infos0 [] m e a R []) H0)
    as (g & new & Eg & Hg & Eng & Hpr & Ecg & Hpd); try done; [apply Hso|by intros j Hj%elem_of_nil|].
  cbn [calls cache infos app] in Eng, Hpr, Ecg, Hpd. subst new. pose proof (fi_range _ _ _ _ _ _ Hg) as Hgr.
  assert (forall i, i ∈ cache g -> exists c0, infos0 !! i = Some c0) as Hin0.
  { rewrite Ecg. intros i (c & -> & (_ & Hc)%list_elem_of_filter)%list_elem_of_fmap.
    assert (c_idx c ∈ called (calls g)) as Hi by (by apply list_elem_of_fmap_2).
    rewrite (probe_called _ _ _ _ _ Hpr) in Hi. apply list_elem_of_fmap in Hi as (p & -> & Hp).
    apply present_elem in Hp as (j & -> & Hj). destruct (so_consistent _ _ Hso _ _ Hj) as (c0 & ? & _). by exists c0. }
  assert (accounted g /\ books (deficit_at infos0) (quanta_at infos0) (who_at infos0) g) as (Hag & Hbg).
  { split; intros i c Hi Hc; destruct (Hin0 i Hi) as (c0 & Hc0); pose proof Hi as Hi2; rewrite Ecg in Hi2;
      destruct (probed_sched _ _ _ i c0 Hpd Hc0 Hi2) as (x & Hx & X1 & X2 & X3 & X4 & X5); assert (x = c) as -> by congruence; [congruence|].
    unfold deficit_at, quanta_at, who_at. rewrite Hc0. cbn. split_and!; congruence. }
  destruct (rounds_inv slot a R m HR' (quanta_at infos0) (who_at infos0) (cache g) fuel (2 ^ 40) 0 (deficit_at infos0) g Hg)
    as (f & rs & Ef & Hff & Haf & Hgf & Hpf & En & Hdrr); try done; try lia.
  { intros i Hi. destruct (Hin0 i Hi) as (c0 & Hc0). unfold deficit_at. rewrite Hc0. cbn.
    destruct (fi_deficit _ _ _ _ _ _ H0 i c0 Hc0). lia. }
  exists (settle f), g. unfold fill_slot. change (set_cache [] _) with (Fill infos0 [] m e a R []).
  rewrite Eg, bind_ret_l, Ef, bind_ret_l. split; [done|]. split; [done|].
  pose proof (settle_inv slot a R m (2 ^ 40 + Z.of_nat fuel * 2 ^ 40) f ltac:(lia) Hff) as Hst. pose proof Hst as [P1 P2 P3 P4 P5 P6 P7 P8 P9 P10 P11 P12].
  assert (forall i c0, infos0 !! i = Some c0 -> exists c, infos (settle f) !! i = Some c /\ s_llc c = s_llc c0 /\ quanta c = quanta c0 /\
    deficit_after (zlen rs) (calls g) (calls (settle f)) i (deficit c0) (quanta c0) (deficit c)) as Haccount.
  { intros i c0 Hc0. apply (slot_account infos0 (calls g) (zlen rs) g f (settle f) i c0); try done.
    - intros c Hc. apply (settled slot a R m _ f i c Hff); [lia|done|done].
    - intros c Hc. destruct (P10 i c Hc). lia. }
  constructor; try done; try (split; [done|lia]); try apply P4.
  - eapply Forall_impl; [|apply P4]. by intros c (_ & ? & _).
  - apply (packed_sizes a (cursor (settle f))); [done|]. eapply Forall_impl; [|apply P4]. by intros c (_ & _ & ?).
  - exists rs. rewrite <- Ecg. done.
  - rewrite (left_used slot a R m _ _ Hg). destruct (drr_offered _ _ _ _ _ _ _ _ Hdrr) as [?|Ho]; [by eapply probe_none_loaded|by left|right].
    intros i Hi. cbn [calls settle]. rewrite En, offered_app, elem_of_app. right. by apply Ho.
  - intros j llc Hj. destruct (so_consistent _ _ Hso j llc Hj) as (c0 & Hc0 & Hl0). cbn [Nat.add] in Hc0.
    destruct (Haccount j c0 Hc0) as (c & Hc & Hl & _). rewrite Hl0 in Hl.
    destruct (P12 j c llc Hc Hl) as (now & b & Hat & Hnow). rewrite decide_True in Hnow; [by destruct Hnow as [-> ->]|].
    cbn [calls settle]. rewrite En. unfold called. rewrite map_app, elem_of_app. left. fold (called (calls g)).
    rewrite (probe_called _ _ _ _ _ Hpr). apply list_elem_of_fmap. exists (j, llc). split; [done|]. by apply (present_lookup 0).
Qed.
(** C18: one slot of the scheduler. Whatever the LLCs do within their contract
    and however equal elements are sorted, the filling of the frame ends; the
    LLCs write one after the other without gap or overlap, from the start of
    the data area and never past its end, and what they wrote is the content of
    the frame; no LLC loads data twice, and each was called by its rules. Every
    LLC is probed once, in order, with its bound of what is left. The rest of
    the frame is shared by deficit round-robin among those that have data
    ([drr]): in each round every one of them that has not loaded any is called
    once, by decreasing deficit, and offered exactly its deficit, grown by its
    quantum in each round, of what is left; the rounds end as soon as the frame
    is full, a deficit is more than what is left, or all have loaded data. In
    the end the quanta of the rounds have been added to the deficits and what
    was sent as data taken off, without falling below zero; an LLC without data
    has lost a fifth. *)
Theorem slot_filled slot ls infos0 m (e : E) a R fuel :
  sched_ok infos0 ls -> slot_ok slot a R m e infos0 -> R < Z.of_nat fuel < 2 ^ 21 ->
  exists f g, fill_slot slot fuel ls (Fill infos0 [] m e a R []) = Ok f /\
    probe slot 0 ls (Fill infos0 [] m e a R []) = Ok g /\ slot_done slot a R m ls infos0 g f.
Proof. apply slot_filled_spec. Qed.
End whole.

(** Two LLCs that always have data and take all the space they get, and a sort. *)
Module SchedExample.
#[export] Instance greedy : Illc nat := fun llc m info n =>
  Ok (m, info <| out_tx_available := true |> <| out_has_data_loaded := in_allow_data info && (0 <? pdu_size (out_pdu info)) |>
           <| out_allocated := (if in_allow_data info then pdu_size (out_pdu info) else 0) |>, S n).
#[export] Instance greedy_spec : IllcSpec nat := { llc_at _ _ _ _ := True; llc_writes _ _ := True }.
#[export] Instance greedy_laws : IllcLaws nat.
Proof.
  intros llc now b m [slot allow av ld [base size] al] e _ [((Hm & _ & _ & H0 & _) & _) _ _ _] _. cbn in *.
  do 3 eexists. split; [reflexivity|]. constructor; try done; cbn; destruct allow; (lia || done).
Qed.

Fixpoint insert_by (key : nat -> Z) (x : nat) (l : list nat) : list nat :=
  match l with
  | [] => [x]
  | y :: l' => if key y <=? key x then x :: l else y :: insert_by key x l'
  end.
#[export] Instance insertion_sort : StdSort := fun key l => foldr (insert_by key) [] l.

Lemma insert_by_perm key x l : Permutation (x :: l) (insert_by key x l).
Proof.
  induction l as [|y l IH]; simpl; [done|]. destruct (_ <=? _); [done|].
  by rewrite <- IH, Permutation_swap.
Qed.

Lemma insert_by_sorted key x l :
  StronglySorted (fun i j => key j <= key i) l -> StronglySorted (fun i j => key j <= key i) (insert_by key x l).
Proof.
  induction 1 as [|y l Hs IH Hl]; simpl; [repeat constructor|]. destruct (Z.leb_spec (key y) (key x)) as [Hle|Hgt].
  - constructor; [by constructor|]. constructor; [done|]. eapply list.Forall_impl; [exact Hl|]. intros z Hz. cbn in Hz. lia.
  - constructor; [done|]. rewrite list.Forall_forall in *. intros z Hz.
    rewrite <- insert_by_perm in Hz. apply elem_of_cons in Hz as [->|Hz]; [lia|auto].
Qed.

#[export] Instance insertion_sort_laws : StdSortLaws.
Proof.
  split; intros key l; induction l as [|x l IH]; simpl; try constructor.
  - by rewrite IH at 1; apply insert_by_perm.
  - by apply insert_by_sorted.
Qed.
End SchedExample.
Import SchedExample.

Definition two_llcs : list scheduling_ctx_t :=
  [SchedCtx (Some 0) 0 100 50 0 false false; SchedCtx (Some 1) 30 60 50 0 false false].

Lemma two_llcs_ok : sched_ok two_llcs [Some 0; Some 1].
Proof.
  constructor; [|repeat constructor; simpl; lia|].
  - intros [|[|j]] llc; simpl; intros Hj; simplify_eq; eauto.
  - intros [|[|i]] [|[|j]] c d llc; simpl; intros; simplify_eq/=; done.
Qed.
Lemma two_llcs_slot : slot_ok (E := nat) 1 10 200 (replicate 220 0) 0%nat two_llcs.
Proof. constructor; [apply (view_replicate 220 10 200); ulia|lia|]. intros. by exists false. Qed.

(** In the example both LLCs are probed with their bound of 50 bytes, and then
    offered, and take, their deficits. *)
Definition offers (l : list call_t) : list (nat * bool * Z * bool) := map (fun c => (c_idx c, c_allow c, c_size c, c_data c)) l.
Lemma slot_filled_example :
  match fill_slot 1 201 [Some 0; Some 1] (Fill (E := nat) two_llcs [] (replicate 220 0) 0%nat 10 200 []) with
  | Ok f => offers (calls f) = [(0%nat, false, 50, false); (1%nat, false, 50, false); (0%nat, true, 100, true); (1%nat, true, 90, true)] /\
      map deficit (infos f) = [0; 0] /\ cursor f = 200
  | _ => False end.
Proof. vm_compute. done. Qed.

Lemma slot_filled_witness :
  exists f (g : fill_t nat) rs, fill_slot 1 201 [Some 0; Some 1] (Fill (E := nat) two_llcs [] (replicate 220 0) 0%nat 10 200 []) = Ok f /\
    packed 10 (cursor f) (calls f) /\ cursor f = 200 /\ calls f = calls g ++ concat rs /\
    drr 10 200 (quanta_at two_llcs) (who_at two_llcs) (with_data (calls g)) (deficit_at two_llcs) (calls g) rs.
Proof.
  destruct (slot_filled (HS := SchedExample.insertion_sort) 1 [Some 0; Some 1] two_llcs (replicate 220 0) 0%nat 10 200 201
    two_llcs_ok two_llcs_slot) as (f & g & E & _ & [P _ _ _ _ _ _ _ (rs & Ers & Hd & _) _ _]); [lia|].
  exists f, g, rs. split; [exact E|]. split; [exact P|]. split; [|by split].
  pose proof slot_filled_example as Hx. rewrite E in Hx. apply Hx.
Defined.

(** An LLC without a share hangs the scheduler. If the only LLC with data
    has the quantum 0 that the scheduler gives to an LLC that was never
    configured, and no deficit left, then with space in the frame the loop
    does not end, whatever the fuel. *)
Theorem zero_quantum_hangs {E} `{!Illc E} `{HS : StdSort} `{!StdSortLaws} slot llc c m (e : E) a R fuel :
  quanta c = 0 -> deficit c = 0 -> has_data_allocated c = false -> s_llc c = Some llc -> is_u64 R -> 0 < R ->
  (forall m info e, pdu_size (out_pdu info) = 0 -> out_allocated info = 0 -> out_has_data_loaded info = false ->
     exists m' o e', on_tx llc m info e = Ok (m', o, e') /\ out_allocated o = 0 /\ out_has_data_loaded o = false) ->
  forall k, rounds slot fuel (Fill [c] [0%nat] m e a R k) = NoFuel.
Proof.
  intros Hq Hd Hn Hl HR HR0 Hz. revert c m e Hq Hd Hn Hl. induction fuel as [|fuel IH]; intros c m e Hq Hd Hn Hl k.
  - cbn [rounds remaining]. destruct (Z.eqb_spec R 0); [lia|done].
  - cbn [rounds remaining]. destruct (Z.eqb_spec R 0); [lia|].
    assert (add_quanta (Fill [c] [0%nat] m e a R k) = Fill [c] [0%nat] m e a R k) as ->.
    { unfold add_quanta, upd. cbn. rewrite Hd, Hq. destruct c. simpl in *. subst. done. }
    cbn [infos cache]. pose proof (std_sort_perm (key_at [c]) [0%nat]) as Hp. apply Permutation_length_1_inv in Hp. rewrite Hp.
    unfold set_cache. cbn [serve infos cache mem env cursor remaining calls lookup list_lookup]. rewrite Hn, Hl, Hd. unfold call_llc. cbn [cursor env mem remaining infos cache calls].
    rewrite Z.min_r by lia. destruct (Hz m (TxInfo slot true false false (Pdu a 0) 0) e eq_refl eq_refl eq_refl)
      as (m' & o & e' & -> & Ho & Hno). rewrite bind_ret_l, Ho, Hno.
    unfold set_info. cbn [infos cache mem env cursor remaining calls]. rewrite !bind_ret_l. cbn [remaining].
    rewrite Z.add_0_r, Z.sub_0_r, (u64_id R) by done.
    change (Z.max 0 0) with 0. destruct (Z.ltb_spec R 0); [lia|]. change (0 + 1 =? 0) with false. cbn [orb].
    change (<[0%nat := ?x]> [c]) with [x]. by apply IH.
Qed.

Lemma zero_quantum_hangs_witness :
  rounds (E := nat) 1 1000 (Fill [sched_init <| s_llc := Some 3 |>] [0%nat] (replicate 220 0) 0%nat 10 200 []) = NoFuel.
Proof.
  refine (zero_quantum_hangs 1 3 (sched_init <| s_llc := Some 3 |>) (replicate 220 0) 0%nat 10 200 1000 eq_refl eq_refl eq_refl eq_refl _ _ _ []); [ulia|lia|].
  intros m info e Hi Hal _. do 3 eexists. split; [reflexivity|]. cbn. rewrite Hi. destruct (in_allow_data info); by rewrite ?andb_false_r.
Defined.

(** The scheduler never sends. Every slot starts with a frame without FEC,
    and laying it out reads the number of code words through a null pointer,
    whatever the state, the buffer and the LLCs. *)
Lemma tick_null {E} `{!Illc E} `{HS : StdSort} fuel m (e : E) s :
  0 <= txs_buffer s + txs_header_size s < zlen m -> txs_tick fuel m e s = Ub NullDeref.
Proof.
  intros Hb. unfold txs_tick. cbv zeta.
  set (s1 := upd slot_number _ s). change (frame_payload_size s1) with (frame_payload_size s).
  change (txs_buffer s1 + txs_header_size s1) with (txs_buffer s + txs_header_size s). clearbody s1.
  set (b := txs_buffer s + txs_header_size s) in *. set (n := frame_payload_size s). clearbody b n.
  pose proof (u16_range n) as Hu. unfold is_u16 in Hu.
  destruct (decide (u16 n = 0)) as [Hz|Hz].
  - unfold fec_init, safe_checker, fec_make. fec_step. by rewrite Hz, sc_get_short by lia.
  - by rewrite (proj2 (fec_none_null_deref m b n ltac:(lia) ltac:(lia) ltac:(lia)) 0 : fec_init m (fec_make b n) 0 0 = _).
Qed.
