(* ===== verification/TxStack.v ===== *)
(** * The scheduler over the LLCs

    The LLC and the PDCP of every channel as the environment of the scheduler:
    the interface [IllcLaws] is discharged by [LlcArq], so that every slot the
    scheduler fills is a step of the history of each of its channels. *)

From stdpp Require Import gmap.
From S2P Require Import Prelude Mem SafeInt LlcFrame Crc LlcCrc Info PdcpTx PdcpRx Pdcp Llc LlcTx LlcRx LlcConf LlcArq LlcLink FecFrame TxScheduler.

(** ** PDUs on the wire *)

Record wire_pdu := Wire { w_crc : bool; w_sn : Z; w_lcid : Z; w_ack : bool; w_payload : list Z }.
Definition wire (w : wire_pdu) : list Z := llc_pdu (w_crc w) (w_sn w) (w_lcid w) (w_ack w) (w_payload w).
(** Numbers in range, at most 1500 bytes, acknowledgements in pairs. *)
Record wire_ok (w : wire_pdu) : Prop := WireOk {
  wo_sn : is_u8 (w_sn w);
  wo_lcid : 0 <= w_lcid w < 16;
  wo_len : pdu_len (w_crc w) (w_payload w) <= 1500;
  wo_ack : w_ack w = true -> w_sn w = 0 /\ exists A, w_payload w = ack_bytes A /\ Forall ack_ok A }.
Definition wire_bytes (l : list wire_pdu) : list Z := concat (map wire l).

Lemma wire_bytes_app l1 l2 : wire_bytes (l1 ++ l2) = wire_bytes l1 ++ wire_bytes l2.
Proof. unfold wire_bytes. by rewrite map_app, concat_app. Qed.

(** What one call of [on_tx] may write: a row of PDUs of the channel. *)
Definition wire_row (lcid : Z) (bs : list Z) : Prop :=
  exists l, bs = wire_bytes l /\ Forall (fun w => wire_ok w /\ w_lcid w = lcid) l.

Section channel.
Context {P : Type} `{IpdcpLaws P}.

(** A channel last called for slot [now]: in acknowledged mode it has a
    history, otherwise it is only well formed. *)
Definition channel (now : Z) (b : bool) (s : llc) (p : P) : Prop :=
  arq_reach now b s p \/ llc_inv s /\ pdcp_ok p /\ (am_mode s = false \/ ll_tx_enabled s = false).

Lemma channel_good now b s p : channel now b s p -> llc_inv s /\ pdcp_ok p.
Proof. intros [Hr|(Hi & Hp & _)]; [|done]. destruct (arq_reach_good _ _ _ _ Hr) as (Ha & _ & Hp). split; [apply Ha|done]. Qed.

(** The bytes of a call. *)
Lemma tx_row n s o : llc_inv s -> n <= 1500 -> zlen (tx_bytes n s o) <= n -> o <> SFailed ->
  wire_row (ll_lcid s) (tx_bytes n s o).
Proof.
  intros Hi Hn Hl Ho. pose proof (vi_lcid _ Hi) as Hlc. pose proof (vi_sn _ Hi) as Hsn.
  unfold tx_bytes in *. rewrite zlen_app in Hl.
  assert (wire_row (ll_lcid s) (ack_pdu n s)) as (l1 & E1 & F1).
  { unfold ack_pdu in *. pose proof (zlen_nonneg (match o with SData d => llc_pdu (crc_on s) (sn_counter s) (ll_lcid s) false d | _ => [] end)).
    destruct (with_acks n s); [|by exists []]. exists [Wire (crc_on s) 0 (ll_lcid s) true (ack_bytes (acks_sent (n - hdr_len_of (crc_on s)) (to_ack_list s)))].
    split; [by unfold wire_bytes; cbn [map concat]; rewrite app_nil_r|]. constructor; [|done]. rewrite zlen_llc_pdu in Hl.
    split; [|done]. constructor; [cbn; ulia|done|cbn; lia|]. intros _. split; [done|]. eexists. split; [reflexivity|].
    by apply acks_sent_ok. }
  pose proof (zlen_nonneg (ack_pdu n s)). destruct o as [|d|]; [|exists (l1 ++ [Wire (crc_on s) (sn_counter s) (ll_lcid s) false d])|done].
  - exists l1. by rewrite app_nil_r.
  - rewrite wire_bytes_app, <- E1. split; [by unfold wire_bytes; cbn [map concat]; rewrite app_nil_r|].
    apply Forall_app. split; [done|]. constructor; [|done]. rewrite zlen_llc_pdu in Hl. split; [|done]. constructor; [done|done|cbn; lia|done].
Qed.

(** The check keeps the channel's number. *)
Lemma check_lcid slot s s1 : llc_inv s -> check_retransmit slot s = Ok s1 -> ll_lcid s1 = ll_lcid s.
Proof.
  intros Hi E. destruct (check_retransmit_spec slot s Hi) as (s2 & E2 & _ & Hd). rewrite E in E2. injection E2 as <-.
  destruct (due slot s) as [[i e]|]; [by destruct Hd as (? & ? & _ & ->)|by subst].
Qed.

Lemma channel_next now b s p m info m' info' s' p' :
  channel now b s p -> call_ok now b m info -> llc_on_tx m info s p = Ok (m', info', s', p') ->
  channel (in_slot_number info) (sent_after now b info info') s' p' /\ ll_lcid s' = ll_lcid s.
Proof.
  intros Hch Hc E. destruct (channel_good _ _ _ _ Hch) as [Hi Hp]. pose proof Hc as [Hv Hn _ _].
  destruct (llc_on_tx_config m info s p m' info' s' p' Hi Hp Hv Hn E) as (Hi1 & Hp1 & [[He Hcf] _ _ Hl] & _).
  split; [|done]. destruct Hch as [Hr|(_ & _ & Hm)]; [left; by eapply af_tx|right]. split; [done|]. split; [done|].
  unfold am_mode in *. rewrite Hcf, He. exact Hm.
Qed.

(** One call on behalf of the scheduler. *)
Lemma channel_call now b s p m info :
  channel now b s p -> call_ok now b m info -> out_allocated info = 0 ->
  exists m' info' s' p', llc_on_tx m info s p = Ok (m', info', s', p') /\
    channel (in_slot_number info) (sent_after now b info info') s' p' /\ ll_lcid s' = ll_lcid s /\
    bytes_ok m' /\ same_outside (pdu_base (out_pdu info)) (pdu_size (out_pdu info)) m m' /\
    0 <= out_allocated info' <= pdu_size (out_pdu info) /\
    (in_allow_data info = false -> out_has_data_loaded info' = false) /\
    wire_row (ll_lcid s) (slice m' (pdu_base (out_pdu info)) (out_allocated info')).
Proof.
  intros Hch Hc Hal. destruct (channel_good _ _ _ _ Hch) as [Hi Hp]. pose proof Hc as [Hv Hn _ Hfl].
  pose proof Hv as ((Hm & _ & _ & Hsz & _) & _).
  destruct (ll_tx_enabled s) eqn:Hon.
  - destruct (llc_on_tx_spec m info s p Hi Hon Hp Hv Hn) as (s1 & o & m' & info' & s' & p' & E1 & E & Hi1 & Ht).
    exists m', info', s', p'. split; [done|]. destruct (channel_next _ _ _ _ _ _ _ _ _ _ Hch Hc E) as [Hch' Hl].
    destruct Ht as [_ (_ & _ & Hm') HO Hna _ Hrep]. split; [done|]. split; [done|]. split; [done|]. split; [done|].
    pose proof (check_lcid _ _ _ Hi E1) as Hl1. cbn zeta in Hrep. set (n := pdu_size (out_pdu info)) in *.
    assert (out_allocated info' = 0 \/ out_allocated info' = zlen (tx_bytes n s1 o) /\ zlen (tx_bytes n s1 o) <= n /\
      slice m' (pdu_base (out_pdu info)) (zlen (tx_bytes n s1 o)) = tx_bytes n s1 o /\ o <> SFailed) as Hcase.
    { destruct o; [right|right|by left]; rewrite Hal in Hrep; by destruct Hrep as (-> & ? & ?). }
    split; [|split].
    + destruct Hcase as [->|(-> & ? & _)]; [lia|]. pose proof (zlen_nonneg (tx_bytes n s1 o)). lia.
    + intros Ha. destruct Hna as [_ ->]; [by left|done].
    + rewrite <- Hl1. destruct Hcase as [->|(-> & Hz & -> & Ho)]; [|by apply tx_row].
      rewrite slice_nil by lia. by exists [].
  - assert (llc_on_tx m info s p = Ok (m, info, s, p)) as E by (unfold llc_on_tx; by rewrite Hon).
    exists m, info, s, p. split; [done|]. destruct (channel_next _ _ _ _ _ _ _ _ _ _ Hch Hc E) as [Hch' Hl].
    split_and!; try done; [lia..|]. rewrite Hal, slice_nil by lia. by exists [].
Qed.
End channel.

(** ** The LLCs as the environment of the scheduler

    The channels of the application by their number; each has its own PDCP. *)

Section stack.
Context {P : Type} `{IpdcpLaws P}.

#[export] Instance stack_illc : Illc (gmap Z (llc * P)) := fun id m info e =>
  match e !! id with
  | None => Ub NullDeref
  | Some (s, p) =>
    '(m, info, s, p) ← llc_on_tx m info s p;
    mret (m, info, <[id := (s, p)]> e)
  end.

#[export] Instance stack_spec : IllcSpec (gmap Z (llc * P)) := {
  llc_at e id now b := exists s p, e !! id = Some (s, p) /\ ll_lcid s = id /\ channel now b s p;
  llc_writes id bs := wire_row id bs }.

#[export] Instance stack_laws : IllcLaws (gmap Z (llc * P)).
Proof.
  intros id now b m info e (s & p & He & Hid & Hch) Hc Hal. unfold on_tx, stack_illc. rewrite He.
  destruct (channel_call now b s p m info Hch Hc Hal) as (m' & info' & s' & p' & -> & Hch' & Hl & Hm & HO & Ha & Hd & Hw).
  rewrite bind_ret_l. do 3 eexists. split; [reflexivity|]. constructor; try done.
  - by rewrite <- Hid.
  - exists s', p'. rewrite lookup_insert_eq. split; [done|]. split; [congruence|done].
  - intros l t c Hne (sl & pl & Hs & Hls & Hcl). exists sl, pl. by rewrite lookup_insert_ne.
Qed.
End stack.

(** The rows of several calls, behind one another. *)
Lemma rows_row {A} (f : A -> list Z) (g : A -> Z) l : Forall (fun x => wire_row (g x) (f x)) l ->
  exists ws, concat (map f l) = wire_bytes ws /\ Forall wire_ok ws.
Proof.
  induction 1 as [|x l (ws & Ex & Hws) _ (ws2 & El & Hok)]; [by exists []|].
  exists (ws ++ ws2). cbn [map concat]. rewrite wire_bytes_app, Ex, El. split; [done|].
  apply Forall_app. split; [|done]. eapply list.Forall_impl; [exact Hws|]. by intros w [? _].
Qed.

Section slot.
Context {P : Type} `{IpdcpLaws P} `{HS : StdSort} `{!StdSortLaws}.

(** The channels that take part in the schedule: last called for slot [now]. *)
Definition channels_at (now : Z) (infos : list scheduling_ctx_t) (e : gmap Z (llc * P)) : Prop :=
  forall i c id, infos !! i = Some c -> s_llc c = Some id ->
    exists b s p, e !! id = Some (s, p) /\ ll_lcid s = id /\ channel now b s p.

(** C19: a slot over the LLCs themselves. With the LLC and PDCP objects of the
    channels behind [ILLC::on_tx], the scheduler's loop ends, and what it put
    into the frame is a row of well-formed PDUs without gap, each a data PDU or
    a PDU of acknowledgements with the channel's number, at most as long as the
    data area, and nothing else changed. Every call kept to the rules of the
    LLC: each channel has been called for this slot, and one in acknowledged
    mode is in a state of its history, so that nothing it has accepted from its
    PDCP is lost. *)
Theorem stack_slot slot ls infos0 m (e : gmap Z (llc * P)) a R fuel :
  sched_ok infos0 ls -> view_ok m a R -> R <= 1500 -> channels_at (slot - 1) infos0 e ->
  R < Z.of_nat fuel < 2 ^ 21 ->
  exists f ws, fill_slot slot fuel ls (Fill infos0 [] m e a R []) = Ok f /\
    cursor f + remaining f = a + R /\ 0 <= remaining f /\
    slice (mem f) a (cursor f - a) = wire_bytes ws /\ Forall wire_ok ws /\
    same_outside a R m (mem f) /\
    forall j id, ls !! j = Some (Some id) -> exists b s p, env f !! id = Some (s, p) /\ ll_lcid s = id /\
      (arq_reach slot b s p \/ llc_inv s /\ pdcp_ok p /\ (am_mode s = false \/ ll_tx_enabled s = false)).
Proof.
  intros Hso Hv HR Hch Hf.
  assert (slot_ok slot a R m e infos0) as Hsl.
  { constructor; [done|done|]. intros i c id Hi Hl. destruct (Hch i c id Hi Hl) as (b & s & p & ?). exists b. by exists s, p. }
  destruct (slot_filled_spec slot ls infos0 m e a R fuel Hso Hsl Hf) as (f & g & E & _ & Hd).
  destruct Hd as [_ [Hr1 Hr2] HO Hc Hw _ _ _ _ _ Hat]. destruct (rows_row c_bytes c_llc (calls f) Hw) as (ws & Ews & Hok).
  exists f, ws. split; [done|]. split; [done|]. split; [done|]. split; [by rewrite Hc|]. split; [done|]. split; [done|].
  intros j id Hj. destruct (Hat j id Hj) as (s & p & ? & ? & ?). by eexists _, s, p.
Qed.
End slot.

Import SchedExample.

(** ** An example: one channel, the LLC of which has a frame to send *)

Definition stack_example : gmap Z (llc * pdcp) := {[4 := (llc_example, pdcp_example)]}.
Definition sched_example : list scheduling_ctx_t := [SchedCtx (Some 4) 0 100 50 0 false false].

Lemma stack_example_at : channels_at 0 sched_example stack_example.
Proof.
  intros [|i] c id Hi Hl; [|done]. injection Hi as <-. injection Hl as <-.
  exists false, llc_example, pdcp_example. unfold stack_example. rewrite lookup_singleton_eq. split; [done|].
  split; [vm_compute; reflexivity|]. left. apply af_start, llc_example_start.
Qed.

(** The PDU of the example as it goes into the frame. *)
Example stack_sends :
  match fill_slot (E := gmap Z (llc * pdcp)) (H0 := insertion_sort) 1 101 [Some 4]
          (Fill sched_example [] (replicate 120 0) stack_example 10 100 []) with
  | Ok f => Some (slice (mem f) 10 (cursor f - 10)) | _ => None end =
  Some (wire_bytes [Wire true 0 4 false [128; 9; 0; 0; 0; 0; 1; 2; 3]]).
Proof. vm_compute. reflexivity. Qed.

Lemma stack_slot_witness :
  exists f ws, fill_slot (H0 := insertion_sort) 1 101 [Some 4]
      (Fill sched_example [] (replicate 120 0) stack_example 10 100 []) = Ok f /\
    slice (mem f) 10 (cursor f - 10) = wire_bytes ws /\ Forall wire_ok ws.
Proof.
  assert (sched_ok sched_example [Some 4]) as Hso.
  { constructor.
    - intros [|j] llc Hj; [|done]. injection Hj as <-. eexists. by split.
    - repeat constructor; simpl; lia.
    - intros [|i] [|j] c d llc Hi Hj; done. }
  assert (view_ok (replicate 120 0) 10 100) as Hv by (apply (view_replicate 120 10 100); ulia).
  destruct (stack_slot (HS := insertion_sort) 1 [Some 4] sched_example (replicate 120 0) stack_example 10 100 101
    Hso Hv ltac:(lia) stack_example_at ltac:(lia)) as (f & ws & E & _ & _ & Hs & Hok & _).
  exists f, ws. split; [exact E|]. split; [exact Hs|exact Hok].
Defined.
