(* ===== verification/RxFrame.v ===== *)
(** * Received frames ([winject/src/AppRRC.cpp], [process_rx_frame])

    The data area of a frame is taken apart into PDUs, each of which is given
    to the LLC of its channel while the frame is read on. The LLCs are reached
    through [ILLC::on_rx]; they are the environment [E] here, with the laws
    that the demultiplexer relies on in [IllcRxLaws]. *)

From S2P Require Import Prelude Mem SafeInt LlcFrame SafeChecker FecFrame Info.

(** ** Interface *)

(** [llcs.find], and [on_rx] of an LLC for the view at an address of a size. *)
Class IllcRx (E : Type) := {
  known : E -> Z -> bool;
  on_rx : Z -> list Z -> Z -> Z -> E -> res (list Z * E) }.

(** The size of the header an LLC receives, and what the demultiplexer relies
    on: reception changes no channel number and no header size, and of a PDU
    that has a whole header nothing is written but behind the first three
    bytes. *)
Class IllcRxLaws (E : Type) `{IllcRx E} := {
  rx_least : E -> Z -> Z;
  on_rx_ok lcid m b n e m' e' : on_rx lcid m b n e = Ok (m', e') ->
    (forall k, known e' k = known e k /\ rx_least e' k = rx_least e k) /\
    (bytes_ok m -> 0 <= b -> b + n <= zlen m -> rx_least e lcid <= n ->
       bytes_ok m' /\ same_outside (b + 3) (n - 3) m m') }.

(** ** The loop *)

Section loop.
Context {E : Type} `{IllcRx E}.

(** What one round of the loop decides. *)
Inductive rx_round := RxBreak | RxSkip (size : Z) | RxDeliver (lcid base size : Z).
Definition rx_one (m : list Z) (cursor : ptr) (remaining : Z) (e : E) : res rx_round :=
  let llc_pdu := llc_make cursor (u64 remaining) 0 in
  if remaining <? get_header_size llc_pdu then mret RxBreak else
  size ← get_SIZE m llc_pdu;
  if size =? 0 then mret RxBreak else
  lcid ← get_LCID m llc_pdu;
  if negb (known e lcid) then mret (RxSkip size) else
  if remaining <? size then mret RxBreak else
  base ← deref cursor;
  mret (RxDeliver lcid base size).

(** The size is read again after the LLC had the PDU. *)
Fixpoint rx_loop (fuel : nat) (m : list Z) (cursor : ptr) (remaining : Z) (e : E) : res (list Z * E) :=
  if negb (0 <? remaining) then mret (m, e) else
  match fuel with
  | O => NoFuel
  | S fuel =>
    r ← rx_one m cursor remaining e;
    match r with
    | RxBreak => mret (m, e)
    | RxSkip size => rx_loop fuel m (Z.add size <$> cursor) (remaining - size) e
    | RxDeliver lcid base size =>
      '(m, e) ← on_rx lcid m base size e;
      size ← get_SIZE m (llc_make cursor (u64 remaining) 0);
      rx_loop fuel m (Z.add size <$> cursor) (remaining - size) e
    end
  end.

Definition process_rx_frame (m : list Z) (start size : Z) (e : E) : res (list Z * E) :=
  fec_frame ← fec_rescan m (fec_make start size);
  data_sz ← get_data_sz m fec_frame;
  rx_loop (Z.to_nat data_sz) m (data_blocks fec_frame) data_sz e.
End loop.

(** ** The PDUs of a frame *)

(** The PDUs of a data area: at [cursor], with [remaining] bytes to the end,
    lie PDUs one after the other, until what is left is too short for a
    header, or a header says its PDU is empty or longer than what is left. *)
Inductive pdus_at (m : list Z) : Z -> Z -> list (llc_hdr * Z) -> Prop :=
  | pdus_end c r : r < 3 -> pdus_at m c r []
  | pdus_stop c r h : 3 <= r -> holds m (Llc (Some c) (u16 r) 0) h ->
      h_size h = 0 \/ r < h_size h -> pdus_at m c r []
  | pdus_cons c r h l : 3 <= r -> holds m (Llc (Some c) (u16 r) 0) h ->
      0 < h_size h <= r -> pdus_at m (c + h_size h) (r - h_size h) l -> pdus_at m c r ((h, c) :: l).

(** Each PDU of a known channel given to its LLC. *)
Fixpoint deliver_pdus {E} `{IllcRx E} (l : list (llc_hdr * Z)) (m : list Z) (e : E) : res (list Z * E) :=
  match l with
  | [] => mret (m, e)
  | (h, c) :: l =>
    if known e (h_lcid h) then '(m, e) ← on_rx (h_lcid h) m c (h_size h) e; deliver_pdus l m e
    else deliver_pdus l m e
  end.

(** The PDUs of known channels have whole headers. *)
Definition whole_headers {E} `{IllcRxLaws E} (e : E) (l : list (llc_hdr * Z)) : Prop :=
  Forall (fun p => known e (h_lcid p.1) = true -> rx_least e (h_lcid p.1) <= h_size p.1) l.

(** A data area inside the buffer always reads as PDUs, in one way. *)
Lemma pdus_at_total m k : forall c r, bytes_ok m -> 0 <= c -> c + r <= zlen m -> r <= Z.of_nat k ->
  exists l, pdus_at m c r l.
Proof.
  induction k as [|k IH]; intros c r Hm Hc Hl Hk.
  - exists []. constructor. lia.
  - destruct (Z.lt_ge_cases r 3) as [?|H3]; [exists []; by constructor|].
    destruct (holds_any m (Llc (Some c) (u16 r) 0) c Hm eq_refl Hc) as (h & Hh); [lia|].
    destruct (decide (h_size h = 0 \/ r < h_size h)) as [Hd|Hd]; [exists []; by eapply pdus_stop|].
    assert (0 <= h_size h) as H0 by (destruct Hh as (? & _ & _ & _ & (_ & _ & ?) & _); lia).
    destruct (IH (c + h_size h) (r - h_size h)) as (l & Hp); [done|lia|lia|lia|].
    exists ((h, c) :: l). apply pdus_cons; [done|done|lia|done].
Qed.

(** The PDUs lie in the area, in their order, without overlap. *)
Lemma pdus_at_inside m c r l : pdus_at m c r l ->
  Forall (fun p => c <= p.2 /\ p.2 + h_size p.1 <= c + r /\ 0 < h_size p.1) l /\
  forall i j p q, (i < j)%nat -> l !! i = Some p -> l !! j = Some q -> p.2 + h_size p.1 <= q.2.
Proof.
  induction 1 as [c r|c r|c r h l H3 Hh Hs Hp (IH1 & IH2)].
  1,2: split; [constructor|intros i j p q _ Hi; by rewrite lookup_nil in Hi].
  split.
  - constructor; [simpl; lia|]. eapply list.Forall_impl; [exact IH1|]. intros p (Ha & Hb & Hc). cbn in *. lia.
  - intros [|i] [|j] p q Hij Hi Hj; try lia; cbn in Hi, Hj.
    + injection Hi as <-. rewrite list.Forall_forall in IH1. simpl.
      apply (IH1 q). by apply list_elem_of_lookup_2 in Hj.
    + apply (IH2 i j); [lia|done|done].
Qed.

(** What is behind [c] is all that matters. *)
Lemma holds_same m m' c r h : holds m (Llc (Some c) (u16 r) 0) h -> zlen m' = zlen m -> slice m' c 3 = slice m c 3 ->
  holds m' (Llc (Some c) (u16 r) 0) h.
Proof. intros (b & [= <-] & H0 & Hl & Hh & Hs) Hz E. exists c. rewrite Hz, E. done. Qed.

Lemma pdus_at_same m m' c r l : pdus_at m c r l -> zlen m' = zlen m -> 0 <= c ->
  (forall k, c <= k -> rd m' k = rd m k) -> pdus_at m' c r l.
Proof.
  intros Hp Hz. induction Hp as [c r|c r h H3 Hh Hs|c r h l H3 Hh Hs Hp IH]; intros H0 Hk.
  - by constructor.
  - eapply pdus_stop; [done| |exact Hs]. apply (holds_same m); try done. apply slice_ext; [done|]. intros j Hj. apply Hk. lia.
  - apply pdus_cons; [done| |done|].
    + apply (holds_same m); try done. apply slice_ext; [done|]. intros j Hj. apply Hk. lia.
    + apply IH; [lia|]. intros k ?. apply Hk. lia.
Qed.

Section demux.
Context {E : Type} `{IllcRxLaws E}.

Lemma rx_one_spec m c r h e :
  3 <= r -> holds m (Llc (Some c) (u16 r) 0) h ->
  0 <= h_size h /\
  rx_one m (Some c) r e = Ok (
    if h_size h =? 0 then RxBreak
    else if known e (h_lcid h) then if r <? h_size h then RxBreak else RxDeliver (h_lcid h) c (h_size h)
    else RxSkip (h_size h)).
Proof.
  intros H3 Hh. split; [destruct Hh as (? & _ & _ & _ & (_ & _ & ?) & _); lia|]. unfold rx_one.
  assert (holds m (llc_make (Some c) (u64 r) 0) h) as Hh2 by exact Hh.
  destruct (holds_get _ _ _ Hh2) as (_ & El2 & _ & Es2).
  change (get_header_size _) with 3. destruct (Z.ltb_spec r 3); [lia|].
  rewrite Es2, bind_ret_l. destruct (Z.eqb_spec (h_size h) 0); [done|].
  rewrite El2, bind_ret_l. destruct (known e (h_lcid h)); [|done]. cbn [negb].
  destruct (Z.ltb_spec r (h_size h)); done.
Qed.

Lemma rx_loop_end fuel m c r e : r <= 0 -> rx_loop fuel m c r e = Ok (m, e).
Proof. intros Hr. destruct fuel; simpl; destruct (Z.ltb_spec 0 r); (lia || done). Qed.

(** The loop gives the LLCs the PDUs that were in the area when it began. *)
Lemma rx_loop_spec l : forall m c r e fuel, pdus_at m c r l -> bytes_ok m -> 0 <= c -> c + r <= zlen m ->
  r <= Z.of_nat fuel -> whole_headers e l -> rx_loop fuel m (Some c) r e = deliver_pdus l m e.
Proof.
  induction l as [|[h c0] l IH]; intros m c r e fuel Hp Hm Hc Hl Hf Hw.
  - destruct (Z.le_gt_cases r 0); [by rewrite rx_loop_end|]. destruct fuel as [|fuel]; [lia|]. cbn [rx_loop deliver_pdus].
    destruct (Z.ltb_spec 0 r); [|lia]. cbn [negb]. inversion Hp as [? ? H3|? ? h H3 Hh Hs|]; subst.
    + unfold rx_one. change (get_header_size _) with 3. destruct (Z.ltb_spec r 3); [|lia]. by rewrite bind_ret_l.
    + destruct (rx_one_spec m c r h e H3 Hh) as (Hz & ->). rewrite bind_ret_l.
      destruct (Z.eqb_spec (h_size h) 0); [done|]. destruct Hs as [?|Hs]; [lia|].
      destruct (known e (h_lcid h)); [destruct (Z.ltb_spec r (h_size h)); [done|lia]|]. apply rx_loop_end. lia.
  - inversion Hp as [| |? ? ? ? H3 Hh Hs Hp']; subst. inversion Hw as [|? ? Hw1 Hw']; subst. cbn [fst] in Hw1.
    destruct fuel as [|fuel]; [lia|]. cbn [rx_loop deliver_pdus]. destruct (Z.ltb_spec 0 r); [|lia]. cbn [negb].
    destruct (rx_one_spec m c0 r h e H3 Hh) as (Hz & ->). rewrite bind_ret_l.
    destruct (Z.eqb_spec (h_size h) 0); [lia|].
    destruct (known e (h_lcid h)) eqn:Ek.
    + destruct (Z.ltb_spec r (h_size h)); [lia|].
      destruct (on_rx (h_lcid h) m c0 (h_size h) e) as [[m' e']| | |] eqn:Eo; try done. rewrite !bind_ret_l.
      destruct (on_rx_ok _ _ _ _ _ _ _ Eo) as (Hkn & Hin). destruct Hin as (Hm' & HO); [done|done|lia|by apply Hw1|].
      pose proof HO as [Hz' _].
      assert (holds m' (llc_make (Some c0) (u64 r) 0) h) as Hh'.
      { apply (holds_same m); [exact Hh|done|]. apply (same_outside_slice _ _ _ _ _ _ HO); lia. }
      destruct (holds_get _ _ _ Hh') as (_ & _ & _ & ->). rewrite bind_ret_l. simpl fmap.
      replace (h_size h + c0) with (c0 + h_size h) by lia. apply IH; try done; try lia.
      * apply (pdus_at_same m); [done|done|lia|]. intros k Hk. apply HO. lia.
      * eapply list.Forall_impl; [exact Hw'|]. intros p Hpw. destruct (Hkn (h_lcid p.1)) as [-> ->]. exact Hpw.
    + simpl fmap. replace (h_size h + c0) with (c0 + h_size h) by lia. apply IH; try done; lia.
Qed.

(** A Reed-Solomon frame, the words of which are inside the size it is received
    with and inside the buffer. *)
Record rs_frame (m : list Z) (start size ft n : Z) : Prop := RsFrame {
  rf_bytes : bytes_ok m;
  rf_type : 1 <= ft <= 5;
  rf_start : 0 <= start;
  rf_fit : start + 2 + 255 * n <= zlen m;
  rf_words : 2 + 255 * n <= u16 size;
  rf_fec : rd m start = Ok ft;
  rf_n : rd m (start + 1) = Ok n }.
(** Its data area. *)
Definition data_area (start ft n : Z) : Z := start + 2 + n * (255 - rs_data ft).
Definition data_size (ft n : Z) : Z := n * rs_data ft.

Lemma rs_frame_loop m start size ft n (e : E) : rs_frame m start size ft n ->
  process_rx_frame m start size e =
    rx_loop (Z.to_nat (data_size ft n)) m (Some (data_area start ft n)) (data_size ft n) e /\
  0 <= data_size ft n /\ 0 <= data_area start ft n /\ data_area start ft n + data_size ft n <= start + 2 + 255 * n.
Proof.
  intros [Hm Hft Hs Hl Hn Ht Hr]. pose proof (rs_data_range ft) as Hd.
  assert (is_u8 n) as Hu by (eapply bytes_ok_rd; [exact Hm|exact Hr]). unfold is_u8 in Hu.
  unfold data_area, data_size. split; [|nia]. unfold process_rx_frame.
  rewrite (fec_rescan_rs m (fec_make start size) ft n) by done. rewrite bind_ret_l.
  unfold get_data_sz, get_N, fec_scanned, fec_make. cbn [f_base f_n deref fec_d_sz data_blocks].
  rewrite bind_ret_l, Hr, !bind_ret_l. by rewrite u64_id by (unfold is_u64; nia).
Qed.

(** C14: a received Reed-Solomon frame that fits is taken apart exactly. The
    data area always reads as a row of PDUs that lie in it one after the other
    without overlap. If those of known channels have whole headers, then each
    of them, as it was when the frame came, is given to the LLC of its channel,
    in their order, and nothing else is: the frame is received if and as the
    LLCs receive these, although they write into the buffer on the way. *)
Theorem rx_frame_demux m start size ft n (e : E) :
  rs_frame m start size ft n ->
  exists l, pdus_at m (data_area start ft n) (data_size ft n) l /\
    (whole_headers e l -> process_rx_frame m start size e = deliver_pdus l m e) /\
    Forall (fun p => data_area start ft n <= p.2 /\ p.2 + h_size p.1 <= start + 2 + 255 * n /\ 0 < h_size p.1) l /\
    (forall i j p q, (i < j)%nat -> l !! i = Some p -> l !! j = Some q -> p.2 + h_size p.1 <= q.2).
Proof.
  intros Hf. destruct (rs_frame_loop m start size ft n e Hf) as (El & Hn & Ha & Hs). pose proof Hf as [Hm _ _ Hl _ _ _].
  destruct (pdus_at_total m (Z.to_nat (data_size ft n)) (data_area start ft n) (data_size ft n)) as (l & Hp); [done|lia..|].
  exists l. split; [done|]. destruct (pdus_at_inside _ _ _ _ Hp) as (Hi & Ho). split; [|split; [|done]].
  - intros Hw. rewrite El. apply rx_loop_spec; try done; lia.
  - eapply list.Forall_impl; [exact Hi|]. intros p (? & ? & ?). cbn in *. lia.
Qed.

(** A received frame is not checked for validity before use. A frame of
    any Reed-Solomon type that declares more code words than were received, a
    frame of one byte or none, and a frame without FEC each make the receiver
    read through a null pointer. *)
Theorem rx_frame_malformed m start size (e : E) :
  0 <= start ->
  (u16 size = 0 -> process_rx_frame m start size e = Ub NullDeref) /\
  (0 < u16 size -> rd m start = Ok E_FEC_TYPE_NONE -> process_rx_frame m start size e = Ub NullDeref) /\
  (forall ft n, 1 <= ft <= 5 -> 0 < n < 256 -> 0 < u16 size < 2 + 255 * n ->
    rd m start = Ok ft -> rd m (start + 1) = Ok n -> process_rx_frame m start size e = Ub NullDeref).
Proof.
  intros Hs. split_and!.
  - intros Hz0. unfold process_rx_frame, fec_rescan, safe_checker. fec_step. unfold fec_make. fec_step.
    rewrite Hz0, sc_get_short by lia. reflexivity.
  - intros H1 Hr. unfold process_rx_frame.
    rewrite (proj1 (fec_none_null_deref m start size Hs H1 (proj2 (rd_Ok_range _ _ _ Hr)))) by done. reflexivity.
  - intros ft n Hft Hn Hsz Ht Hr. pose proof (rs_data_range ft) as Hd.
    destruct (fec_rescan_short m (fec_make start size) ft n) as (f & Er & _ & Hf); try done; try ulia.
    unfold process_rx_frame. rewrite Er, bind_ret_l. unfold get_data_sz, get_N.
    destruct Hf as [-> |(-> & -> & Hdb)]; [done|]. cbn [deref]. rewrite bind_ret_l.
    change (f_base (fec_make start size)) with start. rewrite Hr, !bind_ret_l.
    unfold mret, res_ret.
    assert (data_blocks f = None) as -> by (by destruct Hdb).
    rewrite u64_id by (unfold is_u64; nia).
    destruct (Z.to_nat (n * rs_data ft)) as [|fuel] eqn:Ef; [nia|]. cbn [rx_loop].
    destruct (Z.ltb_spec 0 (n * rs_data ft)); [|nia]. cbn [negb]. unfold rx_one.
    change (get_header_size _) with 3. destruct (Z.ltb_spec (n * rs_data ft) 3); [nia|]. reflexivity.
Qed.

End demux.

(** ** An example: LLCs that keep a record of what they are given *)

Module RxExample.
Record recorder := Recorder { rec_known : Z -> bool; rec_calls : list (Z * Z * Z) }.
#[export] Instance record_rx : IllcRx recorder := {
  known e := rec_known e;
  on_rx lcid m b n e := Ok (m, Recorder (rec_known e) (rec_calls e ++ [(lcid, b, n)])) }.
Lemma record_ok lcid m b n (e : recorder) m' e' : on_rx lcid m b n e = Ok (m', e') ->
  (forall k, known e' k = known e k /\ 0 = 0) /\
  (bytes_ok m -> 0 <= b -> b + n <= zlen m -> 0 <= n -> bytes_ok m' /\ same_outside (b + 3) (n - 3) m m').
Proof. intros E. injection E as <- <-. done. Qed.
#[export] Instance record_laws : IllcRxLaws recorder := { rx_least _ _ := 0; on_rx_ok := record_ok }.
End RxExample.
Import RxExample.

(** A frame of one code word of RS(255,127) with two PDUs, of channels 3 and 5. *)
Definition rx_example : list Z :=
  [5; 1] ++ replicate 128 0 ++ [9; 48; 4; 170] ++ [1; 80; 5; 11; 12] ++ replicate 118 0.

Lemma rx_example_frame : rs_frame rx_example 0 257 5 1.
Proof.
  constructor; [|lia|lia|vm_compute; discriminate|vm_compute; discriminate|vm_compute; reflexivity|vm_compute; reflexivity].
  apply (bool_decide_unpack _). vm_compute. exact I.
Qed.

Lemma rx_frame_demux_witness :
  exists l, pdus_at rx_example 130 127 l /\
    process_rx_frame rx_example 0 257 (Recorder (Z.eqb 5) []) = deliver_pdus l rx_example (Recorder (Z.eqb 5) []) /\
    process_rx_frame rx_example 0 257 (Recorder (Z.eqb 5) []) = Ok (rx_example, Recorder (Z.eqb 5) [(5, 134, 5)]).
Proof.
  destruct (rx_frame_demux rx_example 0 257 5 1 (Recorder (Z.eqb 5) []) rx_example_frame) as (l & Hp & Hd & Hl & _).
  exists l. split; [exact Hp|]. split; [|vm_compute; reflexivity]. apply Hd.
  eapply list.Forall_impl; [exact Hl|]. intros p (_ & _ & Hpos) _. cbn. lia.
Defined.

Lemma rx_frame_malformed_witness : process_rx_frame rx_example 0 200 (Recorder (Z.eqb 5) []) = Ub NullDeref.
Proof.
  apply (proj2 (proj2 (rx_frame_malformed rx_example 0 200 (Recorder (Z.eqb 5) []) ltac:(lia))) 5 1); vm_compute; done.
Defined.
