(* ===== verification/FrameLink.v ===== *)
(** * A frame from station to station

    The LLCs behind the demultiplexer of received frames, and the way of the
    PDUs that the scheduler of one station put into a frame through the
    demultiplexer and the LLCs of another. *)

From stdpp Require Import gmap.
From S2P Require Import Prelude Mem SafeInt LlcFrame Crc LlcCrc Info PdcpTx PdcpRx Pdcp Llc LlcTx LlcRx LlcConf LlcArq LlcLink SafeChecker FecFrame TxScheduler TxStack RxFrame.

(** ** What reception writes *)

Section memory.
Context {P : Type} `{Ipdcp P}.

(** Nothing but the CRC is written. *)
Lemma on_rx_memory m b n s (p : P) m' s' p' :
  llc_on_rx m b n s p = Ok (m', s', p') ->
  m' = m \/ rx_crc_on s = true /\ m' = splice m (b + 3) (replicate 4 0).
Proof.
  unfold llc_on_rx. destruct (_ && _); [intros [= <- <- <-]; by left|]. intros E.
  apply bind_Ok in E as (size & _ & E). destruct (n <? size); [injection E as <- <- <-; by left|].
  apply bind_Ok in E as ([[m1 x] y] & E1 & E).
  assert (m1 = m \/ rx_crc_on s = true /\ m1 = splice m (b + 3) (replicate 4 0)) as Hm.
  { unfold rx_crc_on. destruct (decide _) as [Hc|Hc]; [right|injection E1 as <- <- <-; by left].
    split; [by apply bool_decide_eq_true|]. cbn [get_CRC llc_make llc_base deref] in E1.
    apply bind_Ok in E1 as (q & Eq & E1). injection Eq as <-. apply bind_Ok in E1 as (v & _ & E1).
    apply bind_Ok in E1 as (m2 & E2 & E1). unfold sf_store in E2. apply wr_n_Ok in E2 as [_ ->].
    apply bind_Ok in E1 as (b2 & _ & E1). apply bind_Ok in E1 as (s2 & _ & E1). apply bind_Ok in E1 as (d & _ & E1).
    injection E1 as <- _ _. reflexivity. }
  assert (m' = m1) as ->; [|exact Hm]. destruct (negb _); [by injection E as <- _ _|].
  apply bind_Ok in E as (a & _ & E). destruct a.
  - apply bind_Ok in E as (acks & _ & E). apply bind_Ok in E as (ps & _ & E). apply bind_Ok in E as (sz & _ & E).
    apply bind_Ok in E as (s1 & _ & E). by injection E as <- _ _.
  - apply bind_Ok in E as (sn & _ & E). apply bind_Ok in E as (p1 & _ & E). by injection E as <- _ _.
Qed.

Lemma ack_all_rx sns : forall s s', ack_all sns s = Ok s' ->
  ll_rx_config s' = ll_rx_config s /\ rx_crc_size s' = rx_crc_size s /\ ll_rx_enabled s' = ll_rx_enabled s.
Proof.
  induction sns as [|sn sns IH]; intros s s' E; [by injection E as <-|]. cbn [ack_all] in E.
  apply bind_Ok in E as (s1 & E1 & E). destruct (ack_sn_mark _ _ _ E1) as (i & e & _ & ->). exact (IH _ _ E).
Qed.

Lemma on_rx_setting m b n s (p : P) m' s' p' :
  llc_on_rx m b n s p = Ok (m', s', p') ->
  ll_rx_config s' = ll_rx_config s /\ rx_crc_size s' = rx_crc_size s /\ ll_rx_enabled s' = ll_rx_enabled s.
Proof.
  intros E. destruct (on_rx_cases _ _ _ _ _ _ _ _ E) as [->|[[_ ->]|[[sns Hs]|(sn & _ & ->)]]]; try done.
  - by apply (ack_all_rx sns).
  - by destruct (rx_acknowledge_eq sn s) as [l ->].
Qed.
End memory.

(** ** The LLCs as the environment of the demultiplexer *)

Section stack.
Context {P : Type} `{Ipdcp P}.

#[export] Instance stack_rx : IllcRx (gmap Z (llc * P)) := {
  known e k := bool_decide (is_Some (e !! k));
  on_rx k m b n e :=
    match e !! k with
    | None => Ub NullDeref
    | Some (s, p) => '(m, s, p) ← llc_on_rx m b n s p; mret (m, <[k := (s, p)]> e)
    end }.

(** A header with the CRC field, for LLCs that check it. *)
Definition least_of (sp : llc * P) : Z := hdr_len_of (rx_crc_on sp.1).
Definition stack_least (e : gmap Z (llc * P)) (k : Z) : Z := default 3 (least_of <$> e !! k).

Lemma stack_rx_ok k m b n e m' e' : on_rx k m b n e = Ok (m', e') ->
  (forall j, known e' j = known e j /\ stack_least e' j = stack_least e j) /\
  (bytes_ok m -> 0 <= b -> b + n <= zlen m -> stack_least e k <= n ->
     bytes_ok m' /\ same_outside (b + 3) (n - 3) m m').
Proof.
  cbn [on_rx known stack_rx]. destruct (e !! k) as [[s p]|] eqn:Ee; [|done]. intros E.
  apply bind_Ok in E as ([[m1 s'] p'] & E & E2). injection E2 as <- <-.
  destruct (on_rx_setting _ _ _ _ _ _ _ _ E) as (Hc & _ & _). split.
  - intros j. unfold stack_least. destruct (decide (j = k)) as [->|Hne]; [|by rewrite lookup_insert_ne].
    rewrite lookup_insert_eq, Ee. split; [done|]. cbn. unfold least_of, rx_crc_on. cbn. by rewrite Hc.
  - unfold stack_least. rewrite Ee. cbn. unfold least_of. cbn. intros Hm Hb Hl Hn.
    destruct (on_rx_memory _ _ _ _ _ _ _ _ E) as [->|[Hon ->]]; [by split; [|apply same_outside_refl]|].
    rewrite Hon in Hn. unfold hdr_len_of, crc_len in Hn. assert (zlen (replicate 4 0) = 4) as Hz by done. split.
    + apply bytes_ok_splice; [done|]. repeat constructor; ulia.
    + apply same_outside_splice; lia.
Qed.

#[export] Instance stack_rx_laws : IllcRxLaws (gmap Z (llc * P)) := {
  rx_least := stack_least; on_rx_ok := stack_rx_ok }.
End stack.

(** ** The PDUs of a frame on the wire *)

(** Where they lie in the data area. *)
Fixpoint wire_hdrs (c : Z) (ws : list wire_pdu) : list (llc_hdr * Z) :=
  match ws with
  | [] => []
  | w :: ws => let n := pdu_len (w_crc w) (w_payload w) in
    (LlcHdr (w_sn w) (w_lcid w) (w_ack w) n, c) :: wire_hdrs (c + n) ws
  end.

Lemma wire_in w ws m c : carried (wire_bytes (w :: ws)) m c -> wire_ok w ->
  pdu_in m c (pdu_len (w_crc w) (w_payload w)) (w_crc w) (w_sn w) (w_lcid w) (w_ack w) (w_payload w) /\
  carried (wire_bytes ws) m (c + pdu_len (w_crc w) (w_payload w)).
Proof.
  intros Hc [Hs Hl Hn _]. change (wire_bytes (w :: ws)) with (wire w ++ wire_bytes ws) in Hc.
  apply carried_app in Hc as [H1 H2]. unfold wire in H1, H2. rewrite zlen_llc_pdu in H2.
  split; [|exact H2]. apply carried_pdu; try done. lia.
Qed.

Lemma wires_pdus ws : forall m c r l, carried (wire_bytes ws) m c -> Forall wire_ok ws -> 0 <= r ->
  pdus_at m (c + zlen (wire_bytes ws)) r l -> pdus_at m c (zlen (wire_bytes ws) + r) (wire_hdrs c ws ++ l).
Proof.
  induction ws as [|w ws IH]; intros m c r l Hc Hok Hr Hp.
  - change (wire_bytes []) with (@nil Z) in *. rewrite zlen_nil in *. by rewrite Z.add_0_r in Hp.
  - inversion Hok as [|? ? Hw Hok']; subst. destruct (wire_in w ws m c Hc Hw) as [Hin Hc']. cbn [wire_hdrs app].
    set (n := pdu_len (w_crc w) (w_payload w)) in *.
    assert (zlen (wire_bytes (w :: ws)) = n + zlen (wire_bytes ws)) as Hz
      by (change (wire_bytes (w :: ws)) with (wire w ++ wire_bytes ws); rewrite zlen_app; unfold wire; by rewrite zlen_llc_pdu).
    pose proof (zlen_nonneg (wire_bytes ws)). pose proof (zlen_nonneg (w_payload w)).
    assert (3 <= n) as Hn by (unfold n, pdu_len; destruct (w_crc w); cbn [crc_len]; lia).
    rewrite Hz in *. apply pdus_cons; cbn [h_size]; [lia|by apply (pdu_holds _ _ _ _ _ _ _ _ Hin)|lia|].
    replace (n + zlen (wire_bytes ws) + r - n) with (zlen (wire_bytes ws) + r) by lia.
    apply IH; try done. by rewrite <- Z.add_assoc.
Qed.

(** The entries of a PDU of acknowledgements. *)
Fixpoint acks_of (d : list Z) : list (Z * Z) :=
  match d with x :: y :: d => (x, y) :: acks_of d | _ => [] end.

(** No entry has the count 0, which stands for 256 on the sender's side. *)
Definition counted (w : wire_pdu) : Prop := w_ack w = true -> Forall (fun a => 1 <= a.2) (acks_of (w_payload w)).

Lemma acks_of_bytes A : Forall ack_ok A -> Forall (fun a => 1 <= a.2) (acks_of (ack_bytes A)) ->
  acks_of (ack_bytes A) = A /\ Forall (fun a => a.2 <= 255) A.
Proof.
  induction 1 as [|[x y] A (Hx & Hy & Hxy) _ IH]; [done|]. cbn [ack_bytes map concat app acks_of fst snd] in *.
  intros Hc. inversion Hc as [|? ? Hc1 Hc2]; subst. cbn in Hc1. destruct (IH Hc2) as [E H].
  assert (y <= 255) by (destruct (decide (y = 256)) as [->|]; [by vm_compute in Hc1|lia]).
  unfold ack_bytes in E. split; [|by constructor]. by rewrite E, !u8_id by ulia.
Qed.

(** ** What the LLCs of the receiver make of them *)

Section hear.
Context {P : Type} `{Ipdcp P}.

(** The channels without the detour over headers, CRCs and numbers: a PDU of
    acknowledgements frees the slots of its entries, a data PDU goes to the
    PDCP and is owed an acknowledgement; PDUs of unknown channels are skipped. *)
Fixpoint hear (c : Z) (ws : list wire_pdu) (m : list Z) (e : gmap Z (llc * P)) : res (list Z * gmap Z (llc * P)) :=
  match ws with
  | [] => mret (m, e)
  | w :: ws =>
    let c' := c + pdu_len (w_crc w) (w_payload w) in
    match e !! w_lcid w with
    | None => hear c' ws m e
    | Some (s, p) =>
      let m := crc_cleared (w_crc w) m c in
      '(s, p) ← (if w_ack w then s ← ack_all (acked_sns (acks_of (w_payload w))) s; mret (s, p)
                 else p ← pdcp_on_rx m (c + hdr_len_of (w_crc w)) (zlen (w_payload w)) p;
                      mret (rx_acknowledge (w_sn w) s, p));
      hear c' ws m (<[w_lcid w := (s, p)]> e)
    end
  end.

(** The channels that are known receive with the CRC setting of the sender. *)
Definition tuned (e : gmap Z (llc * P)) (w : wire_pdu) : Prop :=
  forall s p, e !! w_lcid w = Some (s, p) -> listens (w_crc w) s.

Lemma tuned_insert e k s s' p p' w : e !! k = Some (s, p) ->
  ll_rx_config s' = ll_rx_config s /\ rx_crc_size s' = rx_crc_size s /\ ll_rx_enabled s' = ll_rx_enabled s ->
  tuned e w -> tuned (<[k := (s', p')]> e) w.
Proof.
  intros He (H1 & H2 & H3) Ht s2 p2. destruct (decide (w_lcid w = k)) as [<-|Hne].
  - rewrite lookup_insert_eq. intros [= <- <-]. unfold listens, rx_crc_on. rewrite H1, H2, H3. by apply (Ht s p).
  - rewrite lookup_insert_ne by done. apply Ht.
Qed.

(** One PDU. *)
Lemma hear_one w ws m c e s p : carried (wire_bytes (w :: ws)) m c -> wire_ok w -> counted w ->
  e !! w_lcid w = Some (s, p) -> tuned e w ->
  llc_on_rx m c (pdu_len (w_crc w) (w_payload w)) s p =
    ('(s, p) ← (if w_ack w then s ← ack_all (acked_sns (acks_of (w_payload w))) s; mret (s, p)
                else p ← pdcp_on_rx (crc_cleared (w_crc w) m c) (c + hdr_len_of (w_crc w)) (zlen (w_payload w)) p;
                     mret (rx_acknowledge (w_sn w) s, p));
     mret (crc_cleared (w_crc w) m c, s, p)) /\
  carried (wire_bytes ws) (crc_cleared (w_crc w) m c) (c + pdu_len (w_crc w) (w_payload w)).
Proof.
  intros Hc Hw Hcnt He Ht. destruct (wire_in w ws m c Hc Hw) as [Hin Hc']. specialize (Ht s p He). split.
  - destruct (w_ack w) eqn:Ea.
    + destruct (wo_ack _ Hw Ea) as (E0 & A & EA & HA). specialize (Hcnt Ea). rewrite EA in *.
      destruct (acks_of_bytes A HA Hcnt) as [-> H255]. rewrite E0 in Hin. rewrite (rx_acks _ _ _ _ _ _ _ p Hin Ht HA H255).
      by destruct (ack_all _ s).
    + rewrite (rx_data _ _ _ _ _ _ _ _ p Hin Ht). by destruct (pdcp_on_rx _ _ _ p).
  - destruct Hc' as [Hm Hb Hf Hs]. destruct (pdu_cleared _ _ _ _ _ _ _ _ Hin) as (Hm' & Hz & _).
    constructor; try done; [by rewrite Hz|]. rewrite <- Hs at 2. unfold crc_cleared. destruct (w_crc w); [|done].
    pose proof (zlen_nonneg (w_payload w)). pose proof Hin as [_ Hb0 _ _ Hf0 _ _ _]. unfold pdu_len, crc_len in *.
    assert (zlen (replicate 4 0) = 4) as Hz4 by done.
    rewrite slice_splice_after; [done|lia..].
Qed.

Lemma deliver_hear ws : forall m c e l, carried (wire_bytes ws) m c -> Forall wire_ok ws -> Forall counted ws ->
  Forall (tuned e) ws ->
  deliver_pdus (wire_hdrs c ws ++ l) m e = ('(m, e) ← hear c ws m e; deliver_pdus l m e).
Proof.
  induction ws as [|w ws IH]; intros m c e l Hc Hok Hcnt Ht; [done|].
  inversion Hok as [|? ? Hw Hok']; inversion Hcnt as [|? ? Hw2 Hcnt']; inversion Ht as [|? ? Hw3 Ht']; subst.
  cbn [wire_hdrs app deliver_pdus h_lcid h_size hear]. cbn [known on_rx stack_rx].
  destruct (e !! w_lcid w) as [[s p]|] eqn:Ee.
  - rewrite bool_decide_eq_true_2 by done. destruct (hear_one w ws m c e s p Hc Hw Hw2 Ee Hw3) as [-> Hc'].
    match goal with |- context [if w_ack w then ?x else ?y] => destruct (if w_ack w then x else y) as [[s' p']| | |] eqn:Es end;
      [|done..]. rewrite !bind_ret_l. apply IH; try done. eapply list.Forall_impl; [exact Ht'|]. intros x Hx.
    eapply tuned_insert; [exact Ee| |exact Hx]. destruct (w_ack w).
    + apply bind_Ok in Es as (s1 & E1 & E2). injection E2 as <- <-. by apply (ack_all_rx _ _ _ E1).
    + apply bind_Ok in Es as (p1 & E1 & E2). injection E2 as <- <-. by destruct (rx_acknowledge_eq (w_sn w) s) as [k ->].
  - rewrite bool_decide_eq_false_2 by (by intros [? ?]). apply IH; try done. by apply (wire_in w).
Qed.

Lemma tuned_whole e c ws : Forall wire_ok ws -> Forall (tuned e) ws -> whole_headers e (wire_hdrs c ws).
Proof.
  intros Hok. revert c. induction Hok as [|w ws Hw _ IH]; intros c Ht; [constructor|].
  inversion Ht as [|? ? Hw3 Ht']; subst. constructor; [|by apply IH]. cbn [fst h_lcid h_size known stack_rx].
  intros Hk. apply bool_decide_eq_true in Hk as [[s p] Ee]. change (stack_least e (w_lcid w) <= pdu_len (w_crc w) (w_payload w)).
  unfold stack_least. rewrite Ee. cbn. unfold least_of. cbn [fst].
  destruct (Hw3 s p Ee) as (-> & _). pose proof (zlen_nonneg (w_payload w)). unfold pdu_len, hdr_len_of. lia.
Qed.

(** C20: from the frame to the channels. If the data area of a received frame
    begins with the row of PDUs that a scheduler writes (as [stack_slot] says),
    and the known channels among their receivers use the CRC setting of the
    sender, then the demultiplexer finds exactly these PDUs first and every CRC
    fits: each PDU of acknowledgements frees the slots of its entries, each
    data PDU hands its payload to the PDCP of its channel and is owed an
    acknowledgement, each PDU of an unknown channel is skipped. What is behind
    the row, if it reads as PDUs at all, is received after that. *)
Theorem frame_received m start size ft n (e : gmap Z (llc * P)) ws l :
  rs_frame m start size ft n -> carried (wire_bytes ws) m (data_area start ft n) ->
  zlen (wire_bytes ws) <= data_size ft n -> Forall wire_ok ws -> Forall counted ws -> Forall (tuned e) ws ->
  pdus_at m (data_area start ft n + zlen (wire_bytes ws)) (data_size ft n - zlen (wire_bytes ws)) l ->
  whole_headers e l ->
  process_rx_frame m start size e = ('(m1, e1) ← hear (data_area start ft n) ws m e; deliver_pdus l m1 e1).
Proof.
  intros Hf Hc Hz Hok Hcnt Ht Hp Hl. destruct (rs_frame_loop m start size ft n e Hf) as (-> & Hn & Ha & Hs).
  pose proof Hf as [Hm _ _ Hlen _ _ _]. rewrite <- (deliver_hear ws m _ e l Hc Hok Hcnt Ht).
  apply rx_loop_spec; try done; try lia.
  - replace (data_size ft n) with (zlen (wire_bytes ws) + (data_size ft n - zlen (wire_bytes ws))) by lia.
    by apply wires_pdus; [..|lia|].
  - apply Forall_app. split; [by apply tuned_whole|done].
Qed.

End hear.

(** ** An example: the frame of [stack_sends] in a frame of RS(255,127) *)

Definition wire_example : wire_pdu := Wire true 0 4 false [128; 9; 0; 0; 0; 0; 1; 2; 3].
Definition frame_example : list Z := [5; 1] ++ replicate 128 0 ++ wire wire_example ++ replicate 111 0.
Definition listener_example : gmap Z (llc * pdcp) := {[4 := (llc_example, receiver_example)]}.

Lemma frame_example_ok : rs_frame frame_example 0 257 5 1.
Proof.
  constructor; [|lia|lia|vm_compute; discriminate|vm_compute; discriminate|vm_compute; reflexivity|vm_compute; reflexivity].
  apply (bool_decide_unpack _). vm_compute. exact I.
Qed.
Lemma frame_example_carried : carried (wire_bytes [wire_example]) frame_example 130.
Proof.
  constructor; [apply frame_example_ok|lia|vm_compute; discriminate|vm_compute; reflexivity].
Qed.
Lemma frame_example_rest : pdus_at frame_example (130 + 16) (127 - 16) [].
Proof.
  apply (pdus_stop _ _ _ (LlcHdr 0 0 false 0)); [lia| |by left].
  exists 146. split; [done|]. split; [lia|]. split; [vm_compute; discriminate|].
  split; [|vm_compute; reflexivity]. repeat split; vm_compute; congruence.
Qed.

Lemma frame_received_witness :
  exists r, process_rx_frame frame_example 0 257 listener_example = Ok r /\
    (fun sp => (to_ack_list sp.1, to_rx_queue (p_rx sp.2))) <$> r.2 !! 4 = Some ([(0, 1)], [[1; 2; 3]]).
Proof.
  assert (match hear 130 [wire_example] frame_example listener_example with
    | Ok r => ((fun sp => (to_ack_list sp.1, to_rx_queue (p_rx sp.2))) <$> r.2 !! 4) = Some ([(0, 1)], [[1; 2; 3]])
    | _ => False end) as Hh by (vm_compute; reflexivity).
  rewrite (frame_received frame_example 0 257 5 1 listener_example [wire_example] []).
  - change (data_area 0 5 1) with 130. revert Hh. destruct (hear _ _ _ _) as [[m1 e1]| | |]; [|done..]. intros Hh.
    exists (m1, e1). split; [reflexivity|exact Hh].
  - exact frame_example_ok.
  - exact frame_example_carried.
  - vm_compute. discriminate.
  - constructor; [|constructor]. constructor; cbn; [ulia|lia|vm_compute; discriminate|done].
  - constructor; [|constructor]. done.
  - constructor; [|constructor]. intros s p Hs. unfold listener_example in Hs. cbn in Hs.
    rewrite lookup_singleton_eq in Hs. injection Hs as <- <-. vm_compute. split; [reflexivity|]. split; [reflexivity|]. by right.
  - exact frame_example_rest.
  - constructor.
Defined.
