(* ===== verification/RrcMsg.v ===== *)
(** * RRC messages ([winject/interface/rrc.hpp], [cpp_dependencies/cum/src/cum/cum.hpp])

    The messages two stations exchange to set up a logical channel, their
    binary codec ([encode_per], [decode_per]) and their printer ([str]).

    Integers are copied in the byte order of the machine, which is therefore
    an argument [host] of the codec. The enumerations have the underlying type
    [uint8_t], so a decoded field may hold any byte: they are integers with
    named constants. A decoder fills an object in place: it takes the object
    as it was and returns it as it is afterwards. *)

From stdpp Require Import strings pretty.
From S2P Require Import Prelude Mem SafeInt.

(** ** Messages *)

Definition E_RRC_LLCTxMode_TM : Z := 0.
Definition E_RRC_LLCTxMode_AM : Z := 1.
Definition E_RRC_LLCCRCType_NONE : Z := 0.
Definition E_RRC_LLCCRCType_CRC32_04C11DB7 : Z := 1.
Definition E_RRC_CipherAlgorithm_NONE : Z := 0.
Definition E_RRC_CipherAlgorithm_AES128_CBC : Z := 1.
Definition E_RRC_IntegrityAlgorithm_NONE : Z := 0.
Definition E_RRC_IntegrityAlgorithm_HMAC_SHA1 : Z := 1.
Definition RRC_CompressionAlgorithm_NONE : Z := 0.
Definition RRC_CompressionAlgorithm_ZLIB : Z := 1.

Record RRC_LLCTxConfig := LLCTxConfig { r_mode : Z; r_crcType : Z }.
Record RRC_LLCConfig := LLCConfig { r_txConfig : RRC_LLCTxConfig }.
Record RRC_PDCPConfig := PDCPConfig {
  r_allowRLF : Z; r_allowSegmentation : Z; r_allowReordering : Z;
  r_maxSnDistance : option Z;
  r_cipherAlgorithm : Z; r_integrityAlgorithm : Z; r_compressionAlgorithm : Z;
  r_compressionLevel : Z }.
#[export] Instance eta_pdcp_config : Eta RRC_PDCPConfig := fun p =>
  PDCPConfig (r_allowRLF p) (r_allowSegmentation p) (r_allowReordering p) (r_maxSnDistance p)
    (r_cipherAlgorithm p) (r_integrityAlgorithm p) (r_compressionAlgorithm p) (r_compressionLevel p).

(** [RRC_ExchangeRequest] and [RRC_ExchangeResponse] have the same fields. *)
Record RRC_Exchange := Exchange {
  r_lcid : Z; r_llcConfig : RRC_LLCConfig; r_pdcpConfig : RRC_PDCPConfig }.
Inductive RRC_Message := ExchangeRequest (e : RRC_Exchange) | ExchangeResponse (e : RRC_Exchange).
Record RRC := Rrc { r_requestID : Z; r_message : RRC_Message }.

#[export] Instance rrc_llctx_dec : EqDecision RRC_LLCTxConfig. Proof. solve_decision. Defined.
#[export] Instance rrc_llc_dec : EqDecision RRC_LLCConfig. Proof. solve_decision. Defined.
#[export] Instance rrc_pdcp_dec : EqDecision RRC_PDCPConfig. Proof. solve_decision. Defined.
#[export] Instance rrc_exchange_dec : EqDecision RRC_Exchange. Proof. solve_decision. Defined.
#[export] Instance rrc_message_dec : EqDecision RRC_Message. Proof. solve_decision. Defined.
#[export] Instance rrc_dec : EqDecision RRC. Proof. solve_decision. Defined.

(** Value initialisation: [RRC_ExchangeRequest{}] and so on; a default
    constructed [RRC_Message] holds the first alternative. *)
Definition llc_config_zero : RRC_LLCConfig := LLCConfig (LLCTxConfig 0 0).
Definition pdcp_config_zero : RRC_PDCPConfig := PDCPConfig 0 0 0 None 0 0 0 0.
Definition exchange_zero : RRC_Exchange := Exchange 0 llc_config_zero pdcp_config_zero.
Definition rrc_message_zero : RRC_Message := ExchangeRequest exchange_zero.

(** ** The codec *)

(** [cum::per_codec_ctx]: where the codec stands in a buffer and the bytes left. *)
Record per_codec_ctx := PerCtx { c_pos : Z; c_size : Z }.
Definition advance (n : Z) (c : per_codec_ctx) : per_codec_ctx :=
  PerCtx (c_pos c + n) (u64 (c_size c - n)).

(** [encode_per(const uint8_t*, size_t, ctx)], [decode_per(uint8_t*, size_t, ctx)] *)
Definition encode_per (bs : list Z) (st : list Z * per_codec_ctx) : res (list Z * per_codec_ctx) :=
  if c_size st.2 <? zlen bs then Throw StdOutOfRange else
  m ← wr_n st.1 (c_pos st.2) bs;
  mret (m, advance (zlen bs) st.2).
Definition decode_per (n : Z) (m : list Z) (c : per_codec_ctx) : res (list Z * per_codec_ctx) :=
  if c_size c <? n then Throw StdOutOfRange else
  bs ← rd_n m (c_pos c) n;
  mret (bs, advance n c).

(** [cum::set_optional], [cum::check_optional] *)
Definition set_optional (mask : list Z) (n : Z) : res (list Z) :=
  x ← rd mask (Z.shiftr n 3);
  wr mask (Z.shiftr n 3) (u8 (Z.lor x (Z.shiftr 128 (Z.land n 7)))).
Definition check_optional (mask : list Z) (n : Z) : res bool :=
  x ← rd mask (Z.shiftr n 3);
  mret (bool_of_Z (Z.land x (Z.shiftr 128 (Z.land n 7)))).

Section codec.
Variable host : byte_order.

Abbreviation enc := (list Z * per_codec_ctx -> res (list Z * per_codec_ctx)).
Abbreviation dec A := (list Z -> per_codec_ctx -> res (A * per_codec_ctx)).

(** [encode_per<T>], [decode_per<T>] for an unsigned [T] of [n] bytes *)
Definition encode_uint (n : nat) (v : Z) : enc := encode_per (to_bytes host n v).
Definition decode_uint (n : nat) : dec Z := fun m c =>
  '(bs, c) ← decode_per (Z.of_nat n) m c;
  mret (of_bytes host bs, c).

Definition encode_RRC_LLCTxConfig (x : RRC_LLCTxConfig) : enc := fun st =>
  st ← encode_uint 1 (r_mode x) st;
  encode_uint 1 (r_crcType x) st.
Definition decode_RRC_LLCTxConfig : dec RRC_LLCTxConfig := fun m c =>
  '(mode, c) ← decode_uint 1 m c;
  '(crcType, c) ← decode_uint 1 m c;
  mret (LLCTxConfig mode crcType, c).

Definition encode_RRC_LLCConfig (x : RRC_LLCConfig) : enc := fun st =>
  encode_RRC_LLCTxConfig (r_txConfig x) st.
Definition decode_RRC_LLCConfig : dec RRC_LLCConfig := fun m c =>
  '(txConfig, c) ← decode_RRC_LLCTxConfig m c;
  mret (LLCConfig txConfig, c).

Definition encode_RRC_PDCPConfig (x : RRC_PDCPConfig) : enc := fun st =>
  optionalmask ← (match r_maxSnDistance x with Some _ => set_optional [0] 0 | None => mret [0] end);
  st ← encode_per optionalmask st;
  st ← encode_uint 1 (r_allowRLF x) st;
  st ← encode_uint 1 (r_allowSegmentation x) st;
  st ← encode_uint 1 (r_allowReordering x) st;
  st ← (match r_maxSnDistance x with Some d => encode_uint 2 d st | None => mret st end);
  st ← encode_uint 1 (r_cipherAlgorithm x) st;
  st ← encode_uint 1 (r_integrityAlgorithm x) st;
  st ← encode_uint 1 (r_compressionAlgorithm x) st;
  encode_uint 1 (r_compressionLevel x) st.
Definition decode_RRC_PDCPConfig (pIe : RRC_PDCPConfig) : dec RRC_PDCPConfig := fun m c =>
  '(optionalmask, c) ← decode_per 1 m c;
  '(allowRLF, c) ← decode_uint 1 m c;
  '(allowSegmentation, c) ← decode_uint 1 m c;
  '(allowReordering, c) ← decode_uint 1 m c;
  b ← check_optional optionalmask 0;
  '(maxSnDistance, c) ← (if (b : bool) then '(d, c) ← decode_uint 2 m c; mret (Some d, c)
                         else mret (r_maxSnDistance pIe, c));
  '(cipherAlgorithm, c) ← decode_uint 1 m c;
  '(integrityAlgorithm, c) ← decode_uint 1 m c;
  '(compressionAlgorithm, c) ← decode_uint 1 m c;
  '(compressionLevel, c) ← decode_uint 1 m c;
  mret (PDCPConfig allowRLF allowSegmentation allowReordering maxSnDistance cipherAlgorithm
          integrityAlgorithm compressionAlgorithm compressionLevel, c).

Definition encode_RRC_Exchange (x : RRC_Exchange) : enc := fun st =>
  st ← encode_uint 1 (r_lcid x) st;
  st ← encode_RRC_LLCConfig (r_llcConfig x) st;
  encode_RRC_PDCPConfig (r_pdcpConfig x) st.
Definition decode_RRC_Exchange (pIe : RRC_Exchange) : dec RRC_Exchange := fun m c =>
  '(lcid, c) ← decode_uint 1 m c;
  '(llcConfig, c) ← decode_RRC_LLCConfig m c;
  '(pdcpConfig, c) ← decode_RRC_PDCPConfig (r_pdcpConfig pIe) m c;
  mret (Exchange lcid llcConfig pdcpConfig, c).

Definition message_index (x : RRC_Message) : Z :=
  match x with ExchangeRequest _ => 0 | ExchangeResponse _ => 1 end.

(** An index other than 0 and 1 leaves the object as it was. *)
Definition encode_RRC_Message (x : RRC_Message) : enc := fun st =>
  st ← encode_uint 1 (message_index x) st;
  match x with
  | ExchangeRequest e => encode_RRC_Exchange e st
  | ExchangeResponse e => encode_RRC_Exchange e st
  end.
Definition decode_RRC_Message (pIe : RRC_Message) : dec RRC_Message := fun m c =>
  '(type, c) ← decode_uint 1 m c;
  if 0 =? type then '(e, c) ← decode_RRC_Exchange exchange_zero m c; mret (ExchangeRequest e, c)
  else if 1 =? type then '(e, c) ← decode_RRC_Exchange exchange_zero m c; mret (ExchangeResponse e, c)
  else mret (pIe, c).

Definition encode_RRC (x : RRC) : enc := fun st =>
  st ← encode_uint 1 (r_requestID x) st;
  encode_RRC_Message (r_message x) st.
Definition decode_RRC (pIe : RRC) : dec RRC := fun m c =>
  '(requestID, c) ← decode_uint 1 m c;
  '(message, c) ← decode_RRC_Message (r_message pIe) m c;
  mret (Rrc requestID message, c).

End codec.

(** ** The printer *)

Open Scope string_scope.
Open Scope Z_scope.

(** The quotation mark. *)
Definition dq : string := String (Ascii.ascii_of_nat 34) EmptyString.
Definition quoted (s : string) : string := dq +:+ s +:+ dq.
Definition comma_unless (pIsLast : bool) (pCtx : string) : string :=
  if pIsLast then pCtx else pCtx +:+ ",".
Definition name_opt (pName : option string) (pCtx : string) : string :=
  match pName with Some n => pCtx +:+ quoted n +:+ ":" | None => pCtx end.

(** [cum::str] of an integer *)
Definition str_uint (pName : option string) (x : Z) (pCtx : string) (isLast : bool) : string :=
  comma_unless isLast (match pName with
    | None => pCtx +:+ quoted (pretty x)
    | Some n => pCtx +:+ quoted n +:+ ":" +:+ quoted (pretty x)
    end).

(** [str] of an enumeration: the enumerators in their order *)
Definition str_enum (names : list (Z * string)) (pName : option string) (x : Z) (pCtx : string)
    (pIsLast : bool) : string :=
  comma_unless pIsLast
    (foldl (fun pCtx nv => if nv.1 =? x then pCtx +:+ quoted nv.2 else pCtx) (name_opt pName pCtx) names).

Definition str_RRC_LLCTxMode := str_enum
  [(E_RRC_LLCTxMode_TM, "E_RRC_LLCTxMode_TM"); (E_RRC_LLCTxMode_AM, "E_RRC_LLCTxMode_AM")].
Definition str_RRC_LLCCRCType := str_enum
  [(E_RRC_LLCCRCType_NONE, "E_RRC_LLCCRCType_NONE");
   (E_RRC_LLCCRCType_CRC32_04C11DB7, "E_RRC_LLCCRCType_CRC32_04C11DB7")].
Definition str_RRC_CipherAlgorithm := str_enum
  [(E_RRC_CipherAlgorithm_NONE, "E_RRC_CipherAlgorithm_NONE");
   (E_RRC_CipherAlgorithm_AES128_CBC, "E_RRC_CipherAlgorithm_AES128_CBC")].
Definition str_RRC_IntegrityAlgorithm := str_enum
  [(E_RRC_IntegrityAlgorithm_NONE, "E_RRC_CipherAlgorithm_NONE");
   (E_RRC_IntegrityAlgorithm_HMAC_SHA1, "E_RRC_CipherAlgorithm_HMAC_SHA1")].
Definition str_RRC_CompressionAlgorithm := str_enum
  [(RRC_CompressionAlgorithm_NONE, "RRC_CompressionAlgorithm_NONE");
   (RRC_CompressionAlgorithm_ZLIB, "RRC_CompressionAlgorithm_ZLIB")].

Definition open_brace (pName : option string) (pCtx : string) : string :=
  match pName with None => pCtx +:+ "{" | Some n => pCtx +:+ quoted n +:+ ":{" end.
Definition close_brace (pIsLast : bool) (pCtx : string) : string :=
  comma_unless pIsLast (pCtx +:+ "}").

(** The members count down [nMandatory] and [nOptional]; the last one finds both at zero. *)
Definition str_RRC_LLCTxConfig (pName : option string) (x : RRC_LLCTxConfig) (pCtx : string)
    (pIsLast : bool) : string :=
  let pCtx := open_brace pName pCtx in
  let nOptional := 0 in
  let nMandatory := 2 in
  let nMandatory := nMandatory - 1 in
  let pCtx := str_RRC_LLCTxMode (Some "mode") (r_mode x) pCtx (nMandatory + nOptional =? 0) in
  let nMandatory := nMandatory - 1 in
  let pCtx := str_RRC_LLCCRCType (Some "crcType") (r_crcType x) pCtx (nMandatory + nOptional =? 0) in
  close_brace pIsLast pCtx.

Definition str_RRC_LLCConfig (pName : option string) (x : RRC_LLCConfig) (pCtx : string)
    (pIsLast : bool) : string :=
  let pCtx := open_brace pName pCtx in
  let nOptional := 0 in
  let nMandatory := 1 in
  let nMandatory := nMandatory - 1 in
  let pCtx := str_RRC_LLCTxConfig (Some "txConfig") (r_txConfig x) pCtx (nMandatory + nOptional =? 0) in
  close_brace pIsLast pCtx.

Definition str_RRC_PDCPConfig (pName : option string) (x : RRC_PDCPConfig) (pCtx : string)
    (pIsLast : bool) : string :=
  let pCtx := open_brace pName pCtx in
  let nOptional := 0 in
  let nOptional := match r_maxSnDistance x with Some _ => nOptional + 1 | None => nOptional end in
  let nMandatory := 7 in
  let nMandatory := nMandatory - 1 in
  let pCtx := str_uint (Some "allowRLF") (r_allowRLF x) pCtx (nMandatory + nOptional =? 0) in
  let nMandatory := nMandatory - 1 in
  let pCtx := str_uint (Some "allowSegmentation") (r_allowSegmentation x) pCtx (nMandatory + nOptional =? 0) in
  let nMandatory := nMandatory - 1 in
  let pCtx := str_uint (Some "allowReordering") (r_allowReordering x) pCtx (nMandatory + nOptional =? 0) in
  let '(pCtx, nOptional) := match r_maxSnDistance x with
    | Some d => let nOptional := nOptional - 1 in
        (str_uint (Some "maxSnDistance") d pCtx (nMandatory + nOptional =? 0), nOptional)
    | None => (pCtx, nOptional)
    end in
  let nMandatory := nMandatory - 1 in
  let pCtx := str_RRC_CipherAlgorithm (Some "cipherAlgorithm") (r_cipherAlgorithm x) pCtx (nMandatory + nOptional =? 0) in
  let nMandatory := nMandatory - 1 in
  let pCtx := str_RRC_IntegrityAlgorithm (Some "integrityAlgorithm") (r_integrityAlgorithm x) pCtx (nMandatory + nOptional =? 0) in
  let nMandatory := nMandatory - 1 in
  let pCtx := str_RRC_CompressionAlgorithm (Some "compressionAlgorithm") (r_compressionAlgorithm x) pCtx (nMandatory + nOptional =? 0) in
  let nMandatory := nMandatory - 1 in
  let pCtx := str_uint (Some "compressionLevel") (r_compressionLevel x) pCtx (nMandatory + nOptional =? 0) in
  close_brace pIsLast pCtx.

Definition str_RRC_Exchange (pName : option string) (x : RRC_Exchange) (pCtx : string)
    (pIsLast : bool) : string :=
  let pCtx := open_brace pName pCtx in
  let nOptional := 0 in
  let nMandatory := 3 in
  let nMandatory := nMandatory - 1 in
  let pCtx := str_uint (Some "lcid") (r_lcid x) pCtx (nMandatory + nOptional =? 0) in
  let nMandatory := nMandatory - 1 in
  let pCtx := str_RRC_LLCConfig (Some "llcConfig") (r_llcConfig x) pCtx (nMandatory + nOptional =? 0) in
  let nMandatory := nMandatory - 1 in
  let pCtx := str_RRC_PDCPConfig (Some "pdcpConfig") (r_pdcpConfig x) pCtx (nMandatory + nOptional =? 0) in
  close_brace pIsLast pCtx.

Definition str_RRC_Message (pName : option string) (x : RRC_Message) (pCtx : string)
    (pIsLast : bool) : string :=
  let pCtx := open_brace pName pCtx in
  let pCtx := match x with
    | ExchangeRequest e => str_RRC_Exchange (Some "RRC_ExchangeRequest") e pCtx true
    | ExchangeResponse e => str_RRC_Exchange (Some "RRC_ExchangeResponse") e pCtx true
    end in
  comma_unless pIsLast (pCtx +:+ "}").

Definition str_RRC (pName : option string) (x : RRC) (pCtx : string) (pIsLast : bool) : string :=
  let pCtx := open_brace pName pCtx in
  let nOptional := 0 in
  let nMandatory := 2 in
  let nMandatory := nMandatory - 1 in
  let pCtx := str_uint (Some "requestID") (r_requestID x) pCtx (nMandatory + nOptional =? 0) in
  let nMandatory := nMandatory - 1 in
  let pCtx := str_RRC_Message (Some "message") (r_message x) pCtx (nMandatory + nOptional =? 0) in
  close_brace pIsLast pCtx.

#[local] Close Scope string_scope.

(** ** Laws of the codec *)

(** The context lies inside the buffer. *)
Definition ctx_ok (m : list Z) (c : per_codec_ctx) : Prop :=
  0 <= c_pos c /\ 0 <= c_size c /\ is_u64 (c_size c) /\ c_pos c + c_size c <= zlen m.

(** [enc_ok e bs]: the encoder [e] writes [bs], or throws if they do not fit. *)
Definition enc_ok (e : list Z * per_codec_ctx -> res (list Z * per_codec_ctx)) (bs : list Z) : Prop :=
  forall m c, ctx_ok m c ->
  e (m, c) = if zlen bs <=? c_size c then Ok (splice m (c_pos c) bs, advance (zlen bs) c)
             else Throw StdOutOfRange.

(** The bytes left in the context are those of [bs], as far as both go. *)
Definition agrees (m : list Z) (c : per_codec_ctx) (bs : list Z) : Prop :=
  forall k : nat, (k < length bs)%nat -> Z.of_nat k < c_size c -> m !! (Z.to_nat (c_pos c) + k)%nat = bs !! k.

(** [dec_ok d bs x]: the decoder [d] reads [x] from [bs], and throws on a proper prefix of [bs]. *)
Definition dec_ok {A} (d : list Z -> per_codec_ctx -> res (A * per_codec_ctx)) (bs : list Z) (x : A) : Prop :=
  forall m c, ctx_ok m c -> agrees m c bs ->
  d m c = if zlen bs <=? c_size c then Ok (x, advance (zlen bs) c) else Throw StdOutOfRange.

(** [dec_safe d P]: on any input [d] returns a value in [P] or throws. *)
Definition dec_safe {A} (d : list Z -> per_codec_ctx -> res (A * per_codec_ctx)) (P : A -> Prop) : Prop :=
  forall m c, bytes_ok m -> ctx_ok m c ->
  (exists x c', d m c = Ok (x, c') /\ P x /\ ctx_ok m c' /\ c_size c' <= c_size c) \/ d m c = Throw StdOutOfRange.

Lemma ctx_ok_advance m c n : ctx_ok m c -> 0 <= n <= c_size c -> ctx_ok m (advance n c).
Proof. unfold ctx_ok, advance. simpl. intros. rewrite u64_id by ulia. ulia. Qed.

Lemma advance_advance a b c : is_u64 (c_size c) -> 0 <= a -> 0 <= b -> a + b <= c_size c ->
  advance b (advance a c) = advance (a + b) c.
Proof. intros. unfold advance. simpl. f_equal; [lia|]. ulia. Qed.

Lemma enc_ok_encode_per bs : enc_ok (encode_per bs) bs.
Proof.
  intros m c (H1 & H2 & H3 & H4). unfold encode_per. simpl. pose proof (zlen_nonneg bs).
  case_Z; try lia; try done. unfold wr_n. rewrite (proj2 (andb_true_iff _ _)) by (split; apply Z.leb_le; simpl; lia). done.
Qed.

Lemma enc_ok_nil : enc_ok (fun st => mret st) [].
Proof.
  intros m c (H1 & H2 & H3 & H4). rewrite zlen_nil, splice_nil. case_Z; [|lia].
  unfold advance. destruct c as [p n]. simpl in *. by rewrite Z.add_0_r, Z.sub_0_r, u64_id.
Qed.

Lemma enc_ok_bind e1 e2 b1 b2 :
  enc_ok e1 b1 -> enc_ok e2 b2 -> enc_ok (fun st => st ← e1 st; e2 st) (b1 ++ b2).
Proof.
  intros He1 He2 m c Hc. pose proof (zlen_nonneg b1). pose proof (zlen_nonneg b2).
  rewrite He1, zlen_app by done. destruct Hc as (H1 & H2 & H3 & H4).
  destruct (Z.leb_spec (zlen b1) (c_size c)); [|case_Z; [lia|done]].
  rewrite bind_ret_l, He2; cycle 1.
  { apply ctx_ok_advance; [|lia]. unfold ctx_ok. rewrite zlen_splice by lia. auto. }
  unfold advance at 1 2. simpl. rewrite (u64_id (_ - _)) by ulia. case_Z; try lia; [|done].
  rewrite splice_app, advance_advance by (done || lia). done.
Qed.

Lemma agrees_app_l m c b1 b2 : agrees m c (b1 ++ b2) -> agrees m c b1.
Proof.
  intros H k Hk Hs. rewrite H by (rewrite ?length_app; lia). by rewrite lookup_app_l.
Qed.

Lemma agrees_app_r m c b1 b2 :
  ctx_ok m c -> zlen b1 <= c_size c -> agrees m c (b1 ++ b2) -> agrees m (advance (zlen b1) c) b2.
Proof.
  intros (H1 & H2 & H3 & H4) Hl H k Hk Hs. unfold advance, zlen in *. simpl in *.
  rewrite u64_id in Hs by ulia.
  specialize (H (length b1 + k)%nat). rewrite length_app, lookup_app_r in H by lia.
  replace (Z.to_nat (c_pos c + Z.of_nat (length b1)) + k)%nat
    with (Z.to_nat (c_pos c) + (length b1 + k))%nat by lia.
  rewrite H by lia. f_equal. lia.
Qed.

Lemma dec_ok_ret {A} (x : A) : dec_ok (fun _ c => mret (x, c)) [] x.
Proof.
  intros m c (H1 & H2 & H3 & H4) _. rewrite zlen_nil. case_Z; [|lia].
  unfold advance. destruct c as [p n]. simpl in *. by rewrite Z.add_0_r, Z.sub_0_r, u64_id.
Qed.

Lemma dec_ok_bind {A B} (d : list Z -> per_codec_ctx -> res (A * per_codec_ctx))
    (k : A -> list Z -> per_codec_ctx -> res (B * per_codec_ctx)) b1 b2 x y :
  dec_ok d b1 x -> dec_ok (k x) b2 y ->
  dec_ok (fun m c => '(x, c) ← d m c; k x m c) (b1 ++ b2) y.
Proof.
  intros Hd Hk m c Hc Ha. pose proof (zlen_nonneg b1). pose proof (zlen_nonneg b2).
  rewrite (Hd m c Hc (agrees_app_l _ _ _ _ Ha)), zlen_app.
  destruct (Z.leb_spec (zlen b1) (c_size c)) as [Hl|]; [|case_Z; [lia|done]].
  rewrite bind_ret_l. rewrite (Hk m (advance (zlen b1) c)).
  - destruct Hc as (H1 & H2 & H3 & H4). unfold advance at 1. simpl. rewrite (u64_id (_ - _)) by ulia.
    case_Z; try lia; [|done]. by rewrite advance_advance by (done || lia).
  - apply ctx_ok_advance; [done|lia].
  - by apply agrees_app_r with (b2 := b2).
Qed.

Lemma dec_ok_bytes bs : dec_ok (decode_per (zlen bs)) bs bs.
Proof.
  intros m c (H1 & H2 & H3 & H4) Ha. unfold decode_per. pose proof (zlen_nonneg bs).
  case_Z; try lia; try done. unfold rd_n.
  rewrite (proj2 (andb_true_iff _ _)) by (split; [rewrite andb_true_iff; split|]; apply Z.leb_le; lia).
  rewrite bind_ret_l. do 3 f_equal. apply list_eq. intros k. rewrite lookup_slice.
  case_decide as Hk; unfold zlen in *.
  - apply Ha; lia.
  - symmetry. apply lookup_ge_None. lia.
Qed.

Lemma dec_safe_bind {A B} (d : list Z -> per_codec_ctx -> res (A * per_codec_ctx))
    (k : A -> list Z -> per_codec_ctx -> res (B * per_codec_ctx)) P Q :
  dec_safe d P -> (forall x, P x -> dec_safe (k x) Q) -> dec_safe (fun m c => '(x, c) ← d m c; k x m c) Q.
Proof.
  intros Hd Hk m c Hm Hc. destruct (Hd m c Hm Hc) as [(x & c' & -> & Hx & Hc' & Hl)| ->]; [|by right].
  rewrite bind_ret_l. destruct (Hk x Hx m c' Hm Hc') as [(y & c2 & E & Hy & Hc2 & Hl2)|E]; [left|by right].
  exists y, c2. split_and!; try done. lia.
Qed.

Lemma dec_safe_ret {A} (P : A -> Prop) x : P x -> dec_safe (fun _ c => mret (x, c)) P.
Proof. intros Hx m c Hm Hc. left. exists x, c. split_and!; try done. Qed.

Lemma dec_safe_bytes n : 0 <= n -> dec_safe (decode_per n) (fun bs => bytes_ok bs /\ zlen bs = n).
Proof.
  intros Hn m c Hm (H1 & H2 & H3 & H4). unfold decode_per. destruct (Z.ltb_spec (c_size c) n); [by right|].
  left. unfold rd_n. rewrite (proj2 (andb_true_iff _ _)) by (split; [rewrite andb_true_iff; split|]; apply Z.leb_le; lia).
  eexists _, _. split; [reflexivity|]. split_and!.
  - unfold bytes_ok, slice in *. by apply Forall_take, Forall_drop.
  - apply zlen_slice; lia.
  - apply ctx_ok_advance; [done|lia].
  - unfold advance. simpl. ulia.
Qed.

(** ** The encoding *)

Definition tx_config_bytes (x : RRC_LLCTxConfig) : list Z := [u8 (r_mode x); u8 (r_crcType x)].
Definition pdcp_config_bytes (host : byte_order) (x : RRC_PDCPConfig) : list Z :=
  [if decide (r_maxSnDistance x = None) then 0 else 128;
   u8 (r_allowRLF x); u8 (r_allowSegmentation x); u8 (r_allowReordering x)] ++
  match r_maxSnDistance x with Some d => to_bytes host 2 d | None => [] end ++
  [u8 (r_cipherAlgorithm x); u8 (r_integrityAlgorithm x); u8 (r_compressionAlgorithm x);
   u8 (r_compressionLevel x)].
Definition exchange_bytes (host : byte_order) (x : RRC_Exchange) : list Z :=
  u8 (r_lcid x) :: tx_config_bytes (r_txConfig (r_llcConfig x)) ++ pdcp_config_bytes host (r_pdcpConfig x).
Definition message_exchange (x : RRC_Message) : RRC_Exchange :=
  match x with ExchangeRequest e => e | ExchangeResponse e => e end.
Definition rrc_bytes (host : byte_order) (x : RRC) : list Z :=
  u8 (r_requestID x) :: message_index (r_message x) :: exchange_bytes host (message_exchange (r_message x)).

(** The fields fit their C++ types. *)
Definition pdcp_config_ok (x : RRC_PDCPConfig) : Prop :=
  is_u8 (r_allowRLF x) /\ is_u8 (r_allowSegmentation x) /\ is_u8 (r_allowReordering x) /\
  (forall d, r_maxSnDistance x = Some d -> is_u16 d) /\ is_u8 (r_cipherAlgorithm x) /\
  is_u8 (r_integrityAlgorithm x) /\ is_u8 (r_compressionAlgorithm x) /\ is_u8 (r_compressionLevel x).
Definition exchange_ok (x : RRC_Exchange) : Prop :=
  is_u8 (r_lcid x) /\ is_u8 (r_mode (r_txConfig (r_llcConfig x))) /\
  is_u8 (r_crcType (r_txConfig (r_llcConfig x))) /\ pdcp_config_ok (r_pdcpConfig x).
Definition message_ok (x : RRC_Message) : Prop := exchange_ok (message_exchange x).
Definition rrc_ok (x : RRC) : Prop := is_u8 (r_requestID x) /\ message_ok (r_message x).

(** What a machine of byte order [h2] reads of a message written by one of
    byte order [h1]: the one two-byte field is swapped if they differ. *)
Definition seen_u16 (h1 h2 : byte_order) (d : Z) : Z := if decide (h1 = h2) then d else bswap 2 d.
Definition seen_exchange (h1 h2 : byte_order) (x : RRC_Exchange) : RRC_Exchange :=
  Exchange (r_lcid x) (r_llcConfig x)
    ((r_pdcpConfig x) <| r_maxSnDistance := seen_u16 h1 h2 <$> r_maxSnDistance (r_pdcpConfig x) |>).
Definition seen_message (h1 h2 : byte_order) (x : RRC_Message) : RRC_Message :=
  match x with
  | ExchangeRequest e => ExchangeRequest (seen_exchange h1 h2 e)
  | ExchangeResponse e => ExchangeResponse (seen_exchange h1 h2 e)
  end.
Definition seen_rrc (h1 h2 : byte_order) (x : RRC) : RRC :=
  Rrc (r_requestID x) (seen_message h1 h2 (r_message x)).

Lemma to_bytes_1 host v : to_bytes host 1 v = [u8 v].
Proof. by destruct host. Qed.

Lemma of_bytes_1 host b : of_bytes host [b] = b.
Proof. destruct host; simpl; lia. Qed.

Lemma zlen_to_bytes host n v : zlen (to_bytes host n v) = Z.of_nat n.
Proof. unfold zlen. destruct host; simpl; by rewrite ?length_rev, length_le_split. Qed.

Lemma seen_of_bytes h1 h2 v : is_u16 v -> of_bytes h2 (to_bytes h1 2 v) = seen_u16 h1 h2 v.
Proof.
  intros Hv. unfold seen_u16. destruct h1, h2; simpl; try reflexivity; ulia.
Qed.

Lemma enc_ok_u8 host v : enc_ok (encode_uint host 1 v) [u8 v].
Proof. rewrite <- (to_bytes_1 host). apply enc_ok_encode_per. Qed.

Lemma dec_ok_u8 host v : is_u8 v -> dec_ok (decode_uint host 1) [u8 v] v.
Proof.
  intros Hv. unfold decode_uint. rewrite u8_id by done.
  apply (dec_ok_bind _ (fun bs _ c => mret (of_bytes host bs, c)) [v] [] [v]).
  - apply (dec_ok_bytes [v]).
  - rewrite of_bytes_1. apply dec_ok_ret.
Qed.

Lemma dec_ok_u16 h1 h2 v : is_u16 v -> dec_ok (decode_uint h2 2) (to_bytes h1 2 v) (seen_u16 h1 h2 v).
Proof.
  intros Hv. unfold decode_uint. rewrite <- (app_nil_r (to_bytes h1 2 v)).
  apply (dec_ok_bind _ (fun bs _ c => mret (of_bytes h2 bs, c)) _ [] (to_bytes h1 2 v)).
  - rewrite <- (zlen_to_bytes h1 2 v). apply dec_ok_bytes.
  - rewrite seen_of_bytes by done. apply dec_ok_ret.
Qed.

Lemma u16_of_bytes host bs : bytes_ok bs -> zlen bs = 2 -> is_u16 (of_bytes host bs).
Proof.
  intros Hb Hl. pose proof (le_combine_range bs Hb) as R.
  pose proof (le_combine_range (rev bs) (bytes_ok_rev _ Hb)) as R2.
  assert (zlen (rev bs) = 2) as Hr by (unfold zlen in *; by rewrite length_rev).
  rewrite Hl in R. rewrite Hr in R2. destruct host; exact R || exact R2.
Qed.

Lemma u8_of_bytes host bs : bytes_ok bs -> zlen bs = 1 -> is_u8 (of_bytes host bs).
Proof.
  intros Hb Hl. destruct bs as [|b [|b' bs]]; try zlia. rewrite of_bytes_1. by apply Forall_cons_1 in Hb as [? _].
Qed.

Lemma dec_safe_u8 host : dec_safe (decode_uint host 1) is_u8.
Proof.
  apply (dec_safe_bind _ (fun bs _ c => mret (of_bytes host bs, c)) _ _ (dec_safe_bytes 1 ltac:(lia))).
  intros bs (Hb & Hl). by apply dec_safe_ret, u8_of_bytes.
Qed.

Lemma dec_safe_u16 host : dec_safe (decode_uint host 2) is_u16.
Proof.
  apply (dec_safe_bind _ (fun bs _ c => mret (of_bytes host bs, c)) _ _ (dec_safe_bytes 2 ltac:(lia))).
  intros bs (Hb & Hl). by apply dec_safe_ret, u16_of_bytes.
Qed.

(** One field of a sequence at a time: the first [n] bytes, then the rest. *)
Ltac enc_field lem := eapply (enc_ok_bind _ _ [_] _); [eapply lem|].
Ltac dec_field lem := eapply (dec_ok_bind _ _ [_] _ _ _ lem); cbv beta.
Ltac safe_field lem := eapply (dec_safe_bind _ _ _ _ lem); intros ? ?; cbv beta.

Lemma enc_ok_llc host x : enc_ok (encode_RRC_LLCConfig host x) (tx_config_bytes (r_txConfig x)).
Proof. unfold encode_RRC_LLCConfig, encode_RRC_LLCTxConfig. enc_field enc_ok_u8. apply enc_ok_u8. Qed.

Lemma dec_ok_llc host x : is_u8 (r_mode (r_txConfig x)) -> is_u8 (r_crcType (r_txConfig x)) ->
  dec_ok (decode_RRC_LLCConfig host) (tx_config_bytes (r_txConfig x)) x.
Proof.
  intros H1 H2. destruct x as [[mode crc]]. unfold decode_RRC_LLCConfig, decode_RRC_LLCTxConfig. simpl in *.
  change (tx_config_bytes _) with (([u8 mode] ++ [u8 crc]) ++ []).
  eapply (dec_ok_bind _ (fun t _ c => mret (LLCConfig t, c))); [|apply dec_ok_ret].
  dec_field (dec_ok_u8 host mode H1).
  apply (dec_ok_bind _ (fun t _ c => mret (LLCTxConfig mode t, c)) [u8 crc] []  crc); [by apply dec_ok_u8|apply dec_ok_ret].
Qed.

Lemma dec_safe_llc host : dec_safe (decode_RRC_LLCConfig host)
  (fun x => is_u8 (r_mode (r_txConfig x)) /\ is_u8 (r_crcType (r_txConfig x))).
Proof.
  unfold decode_RRC_LLCConfig, decode_RRC_LLCTxConfig.
  eapply (dec_safe_bind _ (fun t _ c => mret (LLCConfig t, c)) (fun t => is_u8 (r_mode t) /\ is_u8 (r_crcType t))).
  - safe_field (dec_safe_u8 host). safe_field (dec_safe_u8 host). by apply dec_safe_ret.
  - intros. by apply dec_safe_ret.
Qed.

Lemma set_optional_0 : set_optional [0] 0 = Ok [128].
Proof. vm_compute. reflexivity. Qed.

Lemma enc_ok_pdcp host x : enc_ok (encode_RRC_PDCPConfig host x) (pdcp_config_bytes host x).
Proof.
  unfold encode_RRC_PDCPConfig, pdcp_config_bytes. destruct (r_maxSnDistance x) as [d|]; simpl app.
  - intros m c Hc. rewrite set_optional_0, bind_ret_l. revert m c Hc.
    enc_field enc_ok_encode_per. do 3 enc_field enc_ok_u8.
    apply (enc_ok_bind _ _ _ _ (enc_ok_encode_per (to_bytes host 2 d))). do 3 enc_field enc_ok_u8. apply enc_ok_u8.
  - intros m c Hc. rewrite bind_ret_l. revert m c Hc.
    enc_field enc_ok_encode_per. do 3 enc_field enc_ok_u8.
    apply (enc_ok_bind _ _ [] _ enc_ok_nil). do 3 enc_field enc_ok_u8. apply enc_ok_u8.
Qed.

(** The fields after the optional one, and those before it. *)
Definition pdcp_tail (host : byte_order) (a b r : Z) (sn : option Z) m c :=
  '(cipherAlgorithm, c) ← decode_uint host 1 m c;
  '(integrityAlgorithm, c) ← decode_uint host 1 m c;
  '(compressionAlgorithm, c) ← decode_uint host 1 m c;
  '(compressionLevel, c) ← decode_uint host 1 m c;
  mret (M := res) (PDCPConfig a b r sn cipherAlgorithm integrityAlgorithm compressionAlgorithm compressionLevel, c).

Lemma dec_ok_pdcp_tail host a b r sn ci it co le :
  is_u8 ci -> is_u8 it -> is_u8 co -> is_u8 le ->
  dec_ok (pdcp_tail host a b r sn) [u8 ci; u8 it; u8 co; u8 le] (PDCPConfig a b r sn ci it co le).
Proof.
  intros H1 H2 H3 H4. unfold pdcp_tail.
  dec_field (dec_ok_u8 host ci H1). dec_field (dec_ok_u8 host it H2). dec_field (dec_ok_u8 host co H3).
  apply (dec_ok_bind _ (fun t _ c => mret (PDCPConfig a b r sn ci it co t, c)) [u8 le] [] le);
    [by apply dec_ok_u8|apply dec_ok_ret].
Qed.

(** Pull a pure test out of a decoder. *)
Lemma check_optional_one x : check_optional [x] 0 = Ok (bool_of_Z (Z.land x 128)).
Proof. reflexivity. Qed.

Definition pdcp_opt (host : byte_order) (mask : list Z) (old : option Z) m c :=
  b ← check_optional mask 0;
  (if (b : bool) then '(d, c) ← decode_uint host 2 m c; mret (M := res) (Some d, c) else mret (old, c)).

Lemma decode_pdcp_eq host old m c :
  decode_RRC_PDCPConfig host old m c =
  ('(mask, c) ← decode_per 1 m c;
   '(a, c) ← decode_uint host 1 m c;
   '(b, c) ← decode_uint host 1 m c;
   '(r, c) ← decode_uint host 1 m c;
   '(sn, c) ← pdcp_opt host mask (r_maxSnDistance old) m c;
   pdcp_tail host a b r sn m c).
Proof.
  unfold decode_RRC_PDCPConfig, pdcp_opt, pdcp_tail.
  destruct (decode_per 1 m c) as [[mask c1]| | |]; try done. cbn [mbind res_bind].
  destruct (decode_uint host 1 m c1) as [[a c2]| | |]; try done. cbn [mbind res_bind].
  destruct (decode_uint host 1 m c2) as [[b c3]| | |]; try done. cbn [mbind res_bind].
  destruct (decode_uint host 1 m c3) as [[r c4]| | |]; try done. cbn [mbind res_bind].
  by destruct (check_optional mask 0) as [[]| | |].
Qed.

Lemma dec_ok_pdcp h1 h2 old x :
  r_maxSnDistance old = None -> pdcp_config_ok x ->
  dec_ok (decode_RRC_PDCPConfig h2 old) (pdcp_config_bytes h1 x)
    (x <| r_maxSnDistance := seen_u16 h1 h2 <$> r_maxSnDistance x |>).
Proof.
  intros Hold (H1 & H2 & H3 & H4 & H5 & H6 & H7 & H8) m c Hc Ha.
  rewrite decode_pdcp_eq. revert m c Hc Ha.
  destruct x as [a b r sn ci it co le]. unfold pdcp_config_bytes. cbn -[to_bytes u8 decide] in *.
  assert (forall mk, dec_ok (decode_per 1) [mk] [mk]) as Hmk by (intros; apply (dec_ok_bytes [mk])).
  eapply (dec_ok_bind _ _ [_] _ _ _ (Hmk _)).
  dec_field (dec_ok_u8 h2 a H1). dec_field (dec_ok_u8 h2 b H2). dec_field (dec_ok_u8 h2 r H3).
  unfold pdcp_opt.
  apply (dec_ok_bind _ _ _ _ (seen_u16 h1 h2 <$> sn)); [|by apply dec_ok_pdcp_tail].
  destruct sn as [d|]; simpl.
  - intros m c Hc Ha. revert m c Hc Ha. cbn [mbind res_bind].
    rewrite <- (app_nil_r (to_bytes h1 2 d)).
    apply (dec_ok_bind (decode_uint h2 2) (fun t _ c => mret (Some t, c)) _ [] (seen_u16 h1 h2 d)).
    + apply dec_ok_u16. auto.
    + apply dec_ok_ret.
  - rewrite Hold. apply dec_ok_ret.
Qed.

Lemma dec_safe_pdcp host old :
  (forall d, r_maxSnDistance old = Some d -> is_u16 d) -> dec_safe (decode_RRC_PDCPConfig host old) pdcp_config_ok.
Proof.
  intros Hold m c Hm Hc. rewrite decode_pdcp_eq. revert m c Hm Hc.
  eapply (dec_safe_bind _ _ _ _ (dec_safe_bytes 1 ltac:(lia))). intros mask (Hb & Hl).
  safe_field (dec_safe_u8 host). safe_field (dec_safe_u8 host). safe_field (dec_safe_u8 host).
  eapply (dec_safe_bind _ _ (fun sn => forall d, sn = Some d -> is_u16 d)).
  - unfold pdcp_opt. destruct mask as [|mk [|? ?]]; try zlia. rewrite check_optional_one.
    intros m c Hm Hc. cbn [mbind res_bind]. revert m c Hm Hc. destruct (bool_of_Z _).
    + safe_field (dec_safe_u16 host). apply dec_safe_ret. intros d [= <-]. done.
    + by apply dec_safe_ret.
  - intros sn Hsn. unfold pdcp_tail. do 3 safe_field (dec_safe_u8 host).
    safe_field (dec_safe_u8 host). apply dec_safe_ret. unfold pdcp_config_ok. simpl. split_and!; done.
Qed.

Lemma enc_ok_exchange host x : enc_ok (encode_RRC_Exchange host x) (exchange_bytes host x).
Proof.
  unfold encode_RRC_Exchange, exchange_bytes. enc_field enc_ok_u8.
  apply enc_ok_bind; [apply enc_ok_llc|apply enc_ok_pdcp].
Qed.

Lemma dec_ok_exchange h1 h2 x : exchange_ok x ->
  dec_ok (decode_RRC_Exchange h2 exchange_zero) (exchange_bytes h1 x) (seen_exchange h1 h2 x).
Proof.
  intros (H1 & H2 & H3 & H4). unfold decode_RRC_Exchange, exchange_bytes.
  dec_field (dec_ok_u8 h2 (r_lcid x) H1).
  eapply (dec_ok_bind _ _ _ _ _ _ (dec_ok_llc h2 (r_llcConfig x) H2 H3)).
  rewrite <- (app_nil_r (pdcp_config_bytes _ _)).
  apply (dec_ok_bind _ (fun t _ c => mret (Exchange (r_lcid x) (r_llcConfig x) t, c)) _ [] _ _
           (dec_ok_pdcp h1 h2 pdcp_config_zero (r_pdcpConfig x) eq_refl H4)).
  apply dec_ok_ret.
Qed.

Lemma dec_safe_exchange host : dec_safe (decode_RRC_Exchange host exchange_zero) exchange_ok.
Proof.
  unfold decode_RRC_Exchange. safe_field (dec_safe_u8 host). safe_field (dec_safe_llc host).
  eapply (dec_safe_bind _ _ _ _ (dec_safe_pdcp host pdcp_config_zero ltac:(done))).
  intros p Hp. apply dec_safe_ret. unfold exchange_ok. simpl. naive_solver.
Qed.

Lemma enc_ok_rrc host x : enc_ok (encode_RRC host x) (rrc_bytes host x).
Proof.
  unfold encode_RRC, encode_RRC_Message, rrc_bytes. enc_field enc_ok_u8. destruct (r_message x) as [e|e];
    simpl message_exchange; simpl message_index.
  - apply (enc_ok_bind _ _ [_] _ (enc_ok_u8 host 0)), enc_ok_exchange.
  - apply (enc_ok_bind _ _ [_] _ (enc_ok_u8 host 1)), enc_ok_exchange.
Qed.

Lemma dec_ok_rrc h1 h2 old x : rrc_ok x -> dec_ok (decode_RRC h2 old) (rrc_bytes h1 x) (seen_rrc h1 h2 x).
Proof.
  intros (H1 & H2). unfold decode_RRC, rrc_bytes, seen_rrc. dec_field (dec_ok_u8 h2 (r_requestID x) H1).
  rewrite <- (app_nil_r (_ :: _)).
  apply (dec_ok_bind (decode_RRC_Message h2 (r_message old)) (fun t _ c => mret (Rrc (r_requestID x) t, c)) _ []
           (seen_message h1 h2 (r_message x))); [|apply dec_ok_ret].
  unfold decode_RRC_Message. destruct (r_message x) as [e|e]; simpl message_exchange; simpl message_index.
  - dec_field (dec_ok_u8 h2 0 ltac:(ulia)). simpl (0 =? 0). cbv iota. rewrite <- (app_nil_r (exchange_bytes _ _)).
    apply (dec_ok_bind _ (fun t _ c => mret (ExchangeRequest t, c)) _ [] _ _ (dec_ok_exchange h1 h2 e H2)).
    apply dec_ok_ret.
  - dec_field (dec_ok_u8 h2 1 ltac:(ulia)). simpl (0 =? 1). simpl (1 =? 1). cbv iota.
    rewrite <- (app_nil_r (exchange_bytes _ _)).
    apply (dec_ok_bind _ (fun t _ c => mret (ExchangeResponse t, c)) _ [] _ _ (dec_ok_exchange h1 h2 e H2)).
    apply dec_ok_ret.
Qed.

Lemma dec_safe_rrc host old : message_ok (r_message old) -> dec_safe (decode_RRC host old) rrc_ok.
Proof.
  intros Hold. unfold decode_RRC. safe_field (dec_safe_u8 host).
  eapply (dec_safe_bind (decode_RRC_Message host (r_message old)) _ message_ok).
  - unfold decode_RRC_Message. safe_field (dec_safe_u8 host).
    destruct (0 =? x0); [|destruct (1 =? x0)].
    + safe_field (dec_safe_exchange host). by apply dec_safe_ret.
    + safe_field (dec_safe_exchange host). by apply dec_safe_ret.
    + by apply dec_safe_ret.
  - intros y Hy. by apply dec_safe_ret.
Qed.

Lemma zlen_rrc_bytes host x : 13 <= zlen (rrc_bytes host x) <= 15.
Proof.
  unfold rrc_bytes, exchange_bytes, tx_config_bytes, pdcp_config_bytes.
  destruct host, (r_maxSnDistance _); unfold zlen; simpl; lia.
Qed.

Lemma seen_same host x : seen_rrc host host x = x.
Proof.
  assert (forall d, seen_u16 host host d = d) as Hs by (intros; unfold seen_u16; by rewrite decide_True).
  assert (forall e, seen_exchange host host e = e) as He.
  { intros [l lc [a b r [sn|] ci it co le]]; unfold seen_exchange; cbn; [by rewrite Hs|done]. }
  destruct x as [i [e|e]]; unfold seen_rrc, seen_message; simpl; by rewrite He.
Qed.

Lemma agrees_slice m c bs n : 0 <= c_pos c -> zlen bs = n -> slice m (c_pos c) n = bs -> agrees m c bs.
Proof.
  intros Hp Hl Hs k Hk _. rewrite <- Hs, lookup_slice. unfold zlen in Hl. by rewrite decide_True by lia.
Qed.

(** C28: a message encoded into a buffer and decoded again is the same message,
    on machines of either byte order, except that [maxSnDistance] is byte
    swapped when the two machines differ in it. The encoder writes 13 or 15
    bytes and no others, or throws when they do not fit; the decoder reads
    exactly those. *)
Theorem rrc_roundtrip h1 h2 x old m c :
  rrc_ok x -> ctx_ok m c ->
  let n := zlen (rrc_bytes h1 x) in
  13 <= n <= 15 /\
  (c_size c < n -> encode_RRC h1 x (m, c) = Throw StdOutOfRange) /\
  (n <= c_size c ->
   exists m' c', encode_RRC h1 x (m, c) = Ok (m', c') /\ c_size c' = c_size c - n /\ zlen m' = zlen m /\
    (forall j, j < c_pos c \/ c_pos c + n <= j -> rd m' j = rd m j) /\
    decode_RRC h2 old m' (PerCtx (c_pos c) (c_size c - c_size c')) =
      Ok (if decide (h1 = h2) then x else seen_rrc h1 h2 x, PerCtx (c_pos c + n) 0)).
Proof.
  intros Hx Hc n. pose proof (zlen_rrc_bytes h1 x). fold n in H. split; [done|].
  rewrite (enc_ok_rrc h1 x m c Hc). fold n. destruct Hc as (H1 & H2 & H3 & H4). split.
  { intros. case_Z; [lia|done]. }
  intros Hn. case_Z; [|lia]. eexists _, _. split; [reflexivity|].
  cbn [c_size advance]. rewrite u64_id by ulia. split_and!; [done| |..].
  - apply zlen_splice; unfold n in *; lia.
  - intros j Hj. unfold rd. destruct (Z.ltb_spec j 0); [done|].
    rewrite lookup_splice by (unfold n in *; lia). rewrite decide_False; [done|].
    unfold n, zlen in *. lia.
  - replace (c_size c - (c_size c - n)) with n by lia.
    rewrite (dec_ok_rrc h1 h2 old x Hx).
    + cbn [c_size]. fold n. case_Z; [|lia]. unfold advance. cbn [c_pos c_size]. rewrite Z.sub_diag.
      do 2 f_equal. case_decide as Hd; [subst; by rewrite seen_same|done].
    + unfold ctx_ok. cbn. rewrite zlen_splice by (unfold n in *; lia). ulia.
    + apply agrees_slice with (n := n); [done|done|]. cbn [c_pos]. apply slice_splice_same; unfold n in *; lia.
Qed.

(** A message used by the examples. *)
Definition rrc_example : RRC :=
  Rrc 7 (ExchangeResponse (Exchange 3 (LLCConfig (LLCTxConfig 1 1)) (PDCPConfig 1 1 0 (Some 20) 0 0 0 0))).

Lemma rrc_example_ok : rrc_ok rrc_example.
Proof.
  unfold rrc_ok, message_ok, exchange_ok, pdcp_config_ok. simpl. split_and!; try ulia.
  intros d [= <-]. ulia.
Qed.

Lemma rrc_roundtrip_witness :
  exists m' c', encode_RRC Little rrc_example (replicate 20 0, PerCtx 2 18) = Ok (m', c') /\
    decode_RRC Little rrc_example m' (PerCtx 2 (18 - c_size c')) = Ok (rrc_example, PerCtx 17 0).
Proof.
  destruct (rrc_roundtrip Little Little rrc_example rrc_example (replicate 20 0) (PerCtx 2 18) rrc_example_ok) as (_ & _ & H).
  { unfold ctx_ok. vm_compute. split_and!; discriminate || reflexivity || done. }
  destruct H as (m' & c' & E & _ & _ & _ & D); [vm_compute; discriminate|].
  exists m', c'. split; [exact E|exact D].
Defined.

(** C29: the decoder is memory safe on any bytes: it returns a message whose
    fields fit their types and a context inside the buffer, or throws
    [std::out_of_range]; every proper prefix of an encoded message throws. *)
Theorem rrc_decode_safe host old m c :
  bytes_ok m -> ctx_ok m c -> message_ok (r_message old) ->
  ((exists x c', decode_RRC host old m c = Ok (x, c') /\ rrc_ok x /\ ctx_ok m c' /\ c_size c' <= c_size c) \/
   decode_RRC host old m c = Throw StdOutOfRange) /\
  (forall h x, rrc_ok x -> c_size c < zlen (rrc_bytes h x) ->
    slice m (c_pos c) (c_size c) = take (Z.to_nat (c_size c)) (rrc_bytes h x) ->
    decode_RRC host old m c = Throw StdOutOfRange).
Proof.
  intros Hm Hc Hold. split; [by apply dec_safe_rrc|].
  intros h x Hx Hl Hs. rewrite (dec_ok_rrc h host old x Hx m c Hc); [case_Z; [lia|done]|].
  intros k Hk Hk2. apply (f_equal (fun l => l !! k)) in Hs.
  rewrite lookup_slice, lookup_take in Hs. destruct Hc as (? & ? & ? & ?).
  by rewrite !decide_True in Hs by lia.
Qed.

Lemma rrc_decode_safe_witness : decode_RRC Little rrc_example (take 9 (rrc_bytes Big rrc_example)) (PerCtx 0 9) = Throw StdOutOfRange.
Proof.
  eapply (proj2 (rrc_decode_safe Little rrc_example (take 9 (rrc_bytes Big rrc_example)) (PerCtx 0 9)
    ltac:(repeat constructor; vm_compute; done) ltac:(unfold ctx_ok; vm_compute; split_and!; discriminate || done)
    (proj2 rrc_example_ok)) Big rrc_example rrc_example_ok); vm_compute; reflexivity.
Defined.

(** A message whose choice index names no message is not refused: after
    two bytes the decoder returns, with the request identifier of the message
    and the contents the object had before. The receiver decodes into a default
    constructed object, so it sees an exchange request for channel 0. *)
Theorem rrc_unknown_choice host old m c id index :
  ctx_ok m c -> 2 <= c_size c -> rd m (c_pos c) = Ok id -> rd m (c_pos c + 1) = Ok index ->
  is_u8 id -> is_u8 index -> 2 <= index ->
  decode_RRC host old m c = Ok (Rrc id (r_message old), advance 2 c) /\
  (r_message old = rrc_message_zero -> r_message (Rrc id (r_message old)) = ExchangeRequest exchange_zero).
Proof.
  intros Hc Hs Hi Hx Hid Hix Hge. split; [|by intros ->].
  assert (forall b k, 0 <= k -> rd m (c_pos c + k) = Ok b -> is_u8 b -> k < c_size c ->
            agrees m (advance k c) [u8 b]) as Hag.
  { intros b k Hk Hr Hb Hlt j Hj _. assert (j = O) as -> by (simpl in Hj; lia).
    apply rd_Ok in Hr as (? & Hr). rewrite u8_id by done. simpl. rewrite Nat.add_0_r. exact Hr. }
  pose proof (Hag id 0 ltac:(lia) ltac:(by rewrite Z.add_0_r) Hid ltac:(lia)) as A0.
  pose proof (Hag index 1 ltac:(lia) Hx Hix ltac:(lia)) as A1.
  assert (advance 0 c = c) as E0.
  { destruct c as [p n]. unfold advance. destruct Hc as (? & ? & ? & ?). simpl in *. f_equal; ulia. }
  rewrite E0 in A0. unfold decode_RRC.
  rewrite (dec_ok_u8 host id Hid m c Hc A0). replace (zlen [u8 id]) with 1 by done.
  destruct (Z.leb_spec 1 (c_size c)); [|lia]. rewrite bind_ret_l. unfold decode_RRC_Message.
  rewrite (dec_ok_u8 host index Hix m (advance 1 c)); [|apply ctx_ok_advance; [done|lia]|done].
  replace (zlen [u8 index]) with 1 by done. destruct Hc as (? & ? & ? & ?).
  cbn [c_size advance]. rewrite u64_id by ulia.
  destruct (Z.leb_spec 1 (c_size c - 1)); [|lia]. rewrite bind_ret_l.
  destruct (Z.eqb_spec 0 index); [lia|]. destruct (Z.eqb_spec 1 index); [lia|].
  rewrite bind_ret_l. do 2 f_equal. unfold advance. simpl. f_equal; ulia.
Qed.

Lemma rrc_unknown_choice_witness :
  decode_RRC Little (Rrc 0 rrc_message_zero) [9; 200] (PerCtx 0 2) =
  Ok (Rrc 9 (ExchangeRequest exchange_zero), PerCtx 2 0).
Proof.
  rewrite (proj1 (rrc_unknown_choice Little (Rrc 0 rrc_message_zero) [9; 200] (PerCtx 0 2) 9 200
    ltac:(unfold ctx_ok; vm_compute; split_and!; discriminate || done) ltac:(vm_compute; discriminate)
    eq_refl eq_refl ltac:(ulia) ltac:(ulia) ltac:(lia))).
  reflexivity.
Defined.

(** ** The printed text *)

(** JSON values, and their text with commas between the members of an object. *)
Inductive json := JString (s : string) | JObject (members : list (string * json)).

Fixpoint join (l : list string) : string :=
  match l with
  | [] => EmptyString
  | [s] => s
  | s :: l => s +:+ ","%string +:+ join l
  end.

Fixpoint render (j : json) : string :=
  match j with
  | JString s => quoted s
  | JObject ms =>
    "{"%string +:+ join (map (fun nv => quoted nv.1 +:+ ":"%string +:+ render nv.2) ms) +:+ "}"%string
  end.

(** [x] as the [k]-th of the enumerators [names]. *)
Definition enumerator (names : list string) (x : Z) : json :=
  JString (default EmptyString (names !! Z.to_nat x)).
Definition tx_config_json (x : RRC_LLCTxConfig) : json := JObject
  [("mode", enumerator ["E_RRC_LLCTxMode_TM"; "E_RRC_LLCTxMode_AM"] (r_mode x));
   ("crcType", enumerator ["E_RRC_LLCCRCType_NONE"; "E_RRC_LLCCRCType_CRC32_04C11DB7"] (r_crcType x))]%string.
Definition pdcp_config_json (x : RRC_PDCPConfig) : json := JObject
  ([("allowRLF", JString (pretty (r_allowRLF x)));
    ("allowSegmentation", JString (pretty (r_allowSegmentation x)));
    ("allowReordering", JString (pretty (r_allowReordering x)))]%string ++
   match r_maxSnDistance x with Some d => [("maxSnDistance"%string, JString (pretty d))] | None => [] end ++
   [("cipherAlgorithm", enumerator ["E_RRC_CipherAlgorithm_NONE"; "E_RRC_CipherAlgorithm_AES128_CBC"] (r_cipherAlgorithm x));
    ("integrityAlgorithm", enumerator ["E_RRC_CipherAlgorithm_NONE"; "E_RRC_CipherAlgorithm_HMAC_SHA1"] (r_integrityAlgorithm x));
    ("compressionAlgorithm", enumerator ["RRC_CompressionAlgorithm_NONE"; "RRC_CompressionAlgorithm_ZLIB"] (r_compressionAlgorithm x));
    ("compressionLevel", JString (pretty (r_compressionLevel x)))]%string).
Definition exchange_json (x : RRC_Exchange) : json := JObject
  [("lcid", JString (pretty (r_lcid x)));
   ("llcConfig", JObject [("txConfig", tx_config_json (r_txConfig (r_llcConfig x)))]);
   ("pdcpConfig", pdcp_config_json (r_pdcpConfig x))]%string.
Definition message_json (x : RRC_Message) : json :=
  match x with
  | ExchangeRequest e => JObject [("RRC_ExchangeRequest"%string, exchange_json e)]
  | ExchangeResponse e => JObject [("RRC_ExchangeResponse"%string, exchange_json e)]
  end.
Definition rrc_json (x : RRC) : json := JObject
  [("requestID", JString (pretty (r_requestID x))); ("message", message_json (r_message x))]%string.

(** The enumeration fields hold an enumerator. *)
Definition is_enum (x : Z) : Prop := 0 <= x < 2.
Definition enums_ok (x : RRC_Exchange) : Prop :=
  is_enum (r_mode (r_txConfig (r_llcConfig x))) /\ is_enum (r_crcType (r_txConfig (r_llcConfig x))) /\
  is_enum (r_cipherAlgorithm (r_pdcpConfig x)) /\ is_enum (r_integrityAlgorithm (r_pdcpConfig x)) /\
  is_enum (r_compressionAlgorithm (r_pdcpConfig x)).

(** What a printer appends for the member [pName] with value [j]. *)
Definition printed (pName : option string) (j : json) (pCtx : string) (last : bool) : string :=
  comma_unless last (name_opt pName pCtx +:+ render j).

Lemma sapp_assoc (a b c : string) : (a +:+ b) +:+ c = a +:+ (b +:+ c).
Proof. induction a as [|x a IH]; [done|]. exact (f_equal (String x) IH). Qed.

Lemma str_uint_printed pName x p last : str_uint pName x p last = printed pName (JString (pretty x)) p last.
Proof. unfold str_uint, printed, name_opt. destruct pName; cbn [render]; by rewrite ?sapp_assoc. Qed.

Lemma str_enum_printed a b pName x p last : is_enum x ->
  str_enum [(0, a); (1, b)] pName x p last = printed pName (enumerator [a; b] x) p last.
Proof.
  unfold is_enum. intros Hx. assert (x = 0 \/ x = 1) as [-> | ->] by lia; reflexivity.
Qed.

(** Bring the two sides into right-associated form. *)
Ltac string_eq :=
  repeat match goal with
  | |- context [?a =? 0] => let b := eval vm_compute in (a =? 0) in change (a =? 0) with b
  end;
  unfold printed, open_brace, close_brace, comma_unless, name_opt;
  cbn -[String.append quoted pretty enumerator render join]; cbn [render join map fst snd app];
  repeat rewrite sapp_assoc; try reflexivity.

Lemma str_tx_printed pName x p last : is_enum (r_mode x) -> is_enum (r_crcType x) ->
  str_RRC_LLCTxConfig pName x p last = printed pName (tx_config_json x) p last.
Proof.
  intros H1 H2. unfold str_RRC_LLCTxConfig, str_RRC_LLCTxMode, str_RRC_LLCCRCType, tx_config_json.
  rewrite !str_enum_printed by done. destruct pName, last; string_eq.
Qed.

Lemma str_pdcp_printed pName x p last :
  is_enum (r_cipherAlgorithm x) -> is_enum (r_integrityAlgorithm x) -> is_enum (r_compressionAlgorithm x) ->
  str_RRC_PDCPConfig pName x p last = printed pName (pdcp_config_json x) p last.
Proof.
  intros H1 H2 H3. unfold str_RRC_PDCPConfig, str_RRC_CipherAlgorithm, str_RRC_IntegrityAlgorithm,
    str_RRC_CompressionAlgorithm, pdcp_config_json.
  destruct (r_maxSnDistance x); rewrite !str_enum_printed, !str_uint_printed by done;
    destruct pName, last; string_eq.
Qed.

Lemma str_llc_printed pName x p last : is_enum (r_mode (r_txConfig x)) -> is_enum (r_crcType (r_txConfig x)) ->
  str_RRC_LLCConfig pName x p last = printed pName (JObject [("txConfig"%string, tx_config_json (r_txConfig x))]) p last.
Proof.
  intros H1 H2. unfold str_RRC_LLCConfig. rewrite str_tx_printed by done.
  generalize (tx_config_json (r_txConfig x)). intros j. destruct pName, last; string_eq.
Qed.

Lemma str_exchange_printed pName x p last : enums_ok x ->
  str_RRC_Exchange pName x p last = printed pName (exchange_json x) p last.
Proof.
  intros (H1 & H2 & H3 & H4 & H5). unfold str_RRC_Exchange, exchange_json.
  rewrite str_pdcp_printed, str_llc_printed, str_uint_printed by done.
  generalize (pdcp_config_json (r_pdcpConfig x)) (tx_config_json (r_txConfig (r_llcConfig x))). intros j k.
  destruct pName, last; string_eq.
Qed.

(** The text printed for a message is the JSON text of its fields, with a
    comma between any two members and none after the last, whether the
    optional member is there or not, appended to what was printed before. *)
Theorem rrc_str_json pName x pCtx last :
  enums_ok (message_exchange (r_message x)) ->
  str_RRC pName x pCtx last = comma_unless last (name_opt pName pCtx +:+ render (rrc_json x)).
Proof.
  intros He. change (str_RRC pName x pCtx last = printed pName (rrc_json x) pCtx last).
  unfold str_RRC, str_RRC_Message, rrc_json, message_json.
  destruct (r_message x) as [e|e]; simpl in He; rewrite str_exchange_printed, str_uint_printed by done;
    generalize (exchange_json e); intros j; destruct pName, last; string_eq.
Qed.

Lemma rrc_str_json_witness : str_RRC (Some "rrc"%string) rrc_example EmptyString true =
  name_opt (Some "rrc"%string) EmptyString +:+ render (rrc_json rrc_example).
Proof.
  apply (rrc_str_json (Some "rrc"%string) rrc_example EmptyString true).
  unfold enums_ok, is_enum. simpl. lia.
Defined.
