(* ===== verification/Timer.v ===== *)
(** * Timers ([cpp_dependencies/bfc/timer.hpp])

    [bfc::timer<cb_t>]: a map from (deadline, counter) pairs to callbacks. The
    [std::map] is an association list kept in the order of its keys. Running a
    callback is up to the owner of the timer: [schedule] returns the callbacks
    it takes out, in the order in which the code calls them; they are out of
    the map by then, so that a callback can no longer cancel one of them. The
    clock readings are arguments; microseconds are far from the end of [int64_t]. *)

From Stdlib Require Import Sorted.
From S2P Require Import Prelude.

Abbreviation timer_id_t := (Z * Z)%type.

(** [std::pair]'s lexicographic order *)
Definition id_ltb (a b : timer_id_t) : bool :=
  (a.1 <? b.1) || ((a.1 =? b.1) && (a.2 <? b.2)).
Definition id_lt (a b : timer_id_t) : Prop := a.1 < b.1 \/ (a.1 = b.1 /\ a.2 < b.2).

Lemma id_ltb_spec a b : reflect (id_lt a b) (id_ltb a b).
Proof.
  unfold id_ltb, id_lt. apply iff_reflect.
  rewrite orb_true_iff, andb_true_iff, !Z.ltb_lt, Z.eqb_eq. tauto.
Qed.

#[export] Instance id_lt_strict : StrictOrder id_lt.
Proof.
  split.
  - intros [a b]. unfold complement, id_lt. simpl. lia.
  - intros [a b] [c d] [e f]. unfold id_lt. simpl. lia.
Qed.

Lemma id_lt_total a b : id_lt a b \/ a = b \/ id_lt b a.
Proof. destruct a as [a1 a2], b as [b1 b2]. unfold id_lt. simpl.
  destruct (Z.lt_trichotomy a1 b1) as [?|[-> |?]]; [by left; left| |by right; right; left].
  destruct (Z.lt_trichotomy a2 b2) as [?|[-> |?]]; [left; right; lia|by right; left|right; right; right; lia].
Qed.

Section timer.
Context {cb : Type}.

Record timer_t := Timer { m_timer_ctr : Z; m_cb_map : list (timer_id_t * cb) }.

Definition timer_new : timer_t := Timer 0 [].

(** [std::map::emplace], [std::map::erase(key)] *)
Fixpoint map_emplace (k : timer_id_t) (v : cb) (l : list (timer_id_t * cb)) : list (timer_id_t * cb) :=
  match l with
  | [] => [(k, v)]
  | (k', v') :: rest =>
    if id_ltb k k' then (k, v) :: l
    else if id_ltb k' k then (k', v') :: map_emplace k v rest
    else l
  end.
Definition map_erase (k : timer_id_t) (l : list (timer_id_t * cb)) : list (timer_id_t * cb) :=
  filter (fun e => e.1 <> k) l.

Definition wait_us (for_us : Z) (c : cb) (now_us : Z) (t : timer_t) : timer_t * timer_id_t :=
  let next_us := now_us + for_us in
  let rv := (next_us, m_timer_ctr t) in
  (Timer (u64 (m_timer_ctr t + 1)) (map_emplace rv c (m_cb_map t)), rv).
Definition wait_ms (for_ms : Z) (c : cb) (now_us : Z) (t : timer_t) : timer_t * timer_id_t :=
  wait_us (for_ms * 1000) c now_us t.

Definition get_next_deadline_us (t : timer_t) : option Z :=
  match m_cb_map t with [] => None | e :: _ => Some e.1.1 end.

Definition cancel (id : timer_id_t) (t : timer_t) : timer_t * bool :=
  (Timer (m_timer_ctr t) (map_erase id (m_cb_map t)),
   negb (length (map_erase id (m_cb_map t)) =? length (m_cb_map t))%nat).

Fixpoint extract_due (now_us : Z) (l : list (timer_id_t * cb)) :
    list (timer_id_t * cb) * list (timer_id_t * cb) :=
  match l with
  | [] => ([], [])
  | e :: rest =>
    if e.1.1 <=? now_us then (e :: (extract_due now_us rest).1, (extract_due now_us rest).2)
    else ([], l)
  end.
Definition schedule (now_us : Z) (t : timer_t) : timer_t * list cb :=
  let '(extracted, rest) := extract_due now_us (m_cb_map t) in
  (Timer (m_timer_ctr t) rest, map snd extracted).

(** ** The invariant *)

Definition entry_lt (a b : timer_id_t * cb) : Prop := id_lt a.1 b.1.

(** The keys ascend and their counters have been handed out. *)
Definition timer_inv (t : timer_t) : Prop :=
  StronglySorted entry_lt (m_cb_map t) /\ 0 <= m_timer_ctr t /\
  Forall (fun e => 0 <= e.1.2 < m_timer_ctr t) (m_cb_map t).

Lemma elem_of_emplace k v l e :
  StronglySorted entry_lt l -> Forall (fun e => e.1 <> k) l ->
  e ∈ map_emplace k v l <-> e = (k, v) \/ e ∈ l.
Proof.
  induction l as [|[k' v'] l IH]; intros Hs Hn; simpl.
  - rewrite list_elem_of_singleton, elem_of_nil. tauto.
  - apply Forall_cons_iff in Hn as (Hk & Hn). apply StronglySorted_inv in Hs as (Hs & Hl).
    destruct (id_ltb_spec k k'); [by rewrite !elem_of_cons|].
    destruct (id_ltb_spec k' k).
    + rewrite !elem_of_cons, IH by done. tauto.
    + destruct (id_lt_total k k') as [?|[->|?]]; [done| |done]. by destruct Hk.
Qed.

Lemma sorted_emplace k v l :
  StronglySorted entry_lt l -> Forall (fun e => e.1 <> k) l -> StronglySorted entry_lt (map_emplace k v l).
Proof.
  induction l as [|[k' v'] l IH]; intros Hs Hn; simpl; [repeat constructor|].
  pose proof Hs as Hs0. apply StronglySorted_inv in Hs as (Hs & Hl).
  destruct (id_ltb_spec k k') as [Hlt|].
  - constructor; [done|]. constructor; [done|]. eapply list.Forall_impl; [exact Hl|].
    intros e He. unfold entry_lt in *. simpl in *. by etrans.
  - destruct (id_ltb_spec k' k) as [Hgt|]; [|done].
    apply Forall_cons_iff in Hn as (Hk & Hn). constructor; [by apply IH|].
    apply list.Forall_forall. intros e He. apply elem_of_emplace in He as [->|He]; [exact Hgt| |done|done].
    rewrite list.Forall_forall in Hl. by apply Hl.
Qed.

Lemma sorted_filter (P : timer_id_t * cb -> Prop) `{forall x, Decision (P x)} l :
  StronglySorted entry_lt l -> StronglySorted entry_lt (filter P l).
Proof.
  induction 1 as [|e l Hs IH Hl]; [constructor|]. rewrite filter_cons. case_decide; [|done].
  constructor; [done|]. rewrite list.Forall_forall in *. intros x Hx. apply Hl.
  by apply list_elem_of_filter in Hx as (_ & Hx).
Qed.

Lemma extract_due_app now l : (extract_due now l).1 ++ (extract_due now l).2 = l.
Proof. induction l as [|e l IH]; [done|]. simpl. case_Z; simpl; by rewrite ?IH. Qed.

Lemma elem_of_due now l e : e ∈ l <-> e ∈ (extract_due now l).1 \/ e ∈ (extract_due now l).2.
Proof. by rewrite <- elem_of_app, extract_due_app. Qed.

Lemma extract_due_fst now l : Forall (fun e => e.1.1 <= now) (extract_due now l).1.
Proof. induction l as [|e l IH]; simpl; [constructor|]. case_Z; constructor; done. Qed.

Lemma extract_due_snd now l :
  StronglySorted entry_lt l -> Forall (fun e => now < e.1.1) (extract_due now l).2.
Proof.
  induction l as [|e l IH]; intros Hs; simpl; [constructor|].
  apply StronglySorted_inv in Hs as (Hs & Hl). case_Z; simpl; [by apply IH|].
  constructor; [done|]. eapply list.Forall_impl; [exact Hl|].
  unfold entry_lt, id_lt. intros a Ha. simpl in *. lia.
Qed.

Lemma sorted_app_inv (l k : list (timer_id_t * cb)) :
  StronglySorted entry_lt (l ++ k) -> StronglySorted entry_lt l /\ StronglySorted entry_lt k.
Proof.
  induction l as [|e l IH]; simpl; [split; [constructor|done]|].
  intros Hs. apply StronglySorted_inv in Hs as (Hs & Hl). apply IH in Hs as (H1 & H2).
  split; [|done]. constructor; [done|]. by apply Forall_app in Hl as (? & _).
Qed.

Lemma timer_inv_new : timer_inv timer_new.
Proof. split_and!; simpl; [constructor|lia|constructor]. Qed.

Lemma fresh_key t d : timer_inv t -> Forall (fun e : timer_id_t * cb => e.1 <> (d, m_timer_ctr t)) (m_cb_map t).
Proof.
  intros (_ & _ & H). eapply list.Forall_impl; [exact H|]. intros [[a b] c] He. simpl in *. intros [= -> ->]. lia.
Qed.

Lemma timer_inv_wait d c now t : timer_inv t -> m_timer_ctr t + 1 < 18446744073709551616 ->
  timer_inv (wait_us d c now t).1.
Proof.
  intros Hi Hc. pose proof (fresh_key t (now + d) Hi) as Hf. destruct Hi as (Hs & Hn & Hl).
  unfold wait_us, timer_inv. cbn [fst m_cb_map m_timer_ctr]. rewrite u64_id by ulia. split_and!; [by apply sorted_emplace|lia|].
  apply list.Forall_forall. intros e He. apply elem_of_emplace in He as [->|He]; [simpl; lia| |done|done].
  rewrite list.Forall_forall in Hl. specialize (Hl e He). simpl in *. lia.
Qed.

Lemma timer_inv_cancel id t : timer_inv t -> timer_inv (cancel id t).1.
Proof.
  intros (Hs & Hn & Hl). split_and!; simpl; [by apply sorted_filter|done|].
  rewrite list.Forall_forall in *. intros e He. apply list_elem_of_filter in He as (_ & He). auto.
Qed.

Lemma schedule_map now t : m_cb_map (schedule now t).1 = (extract_due now (m_cb_map t)).2.
Proof. unfold schedule. by destruct (extract_due _ _). Qed.

Lemma schedule_ctr now t : m_timer_ctr (schedule now t).1 = m_timer_ctr t.
Proof. unfold schedule. by destruct (extract_due _ _). Qed.

Lemma schedule_due now t : (schedule now t).2 = map snd (extract_due now (m_cb_map t)).1.
Proof. unfold schedule. by destruct (extract_due _ _). Qed.

Lemma timer_inv_schedule now t : timer_inv t -> timer_inv (schedule now t).1.
Proof.
  intros (Hs & Hn & Hl). unfold timer_inv. rewrite schedule_map, schedule_ctr.
  rewrite <- (extract_due_app now (m_cb_map t)) in Hs, Hl.
  apply sorted_app_inv in Hs as (_ & Hs). apply Forall_app in Hl as (_ & Hl). done.
Qed.

(** ** Membership: what each operation does to the pending timers *)

Definition pending (t : timer_t) (id : timer_id_t) (c : cb) : Prop := (id, c) ∈ m_cb_map t.

Lemma pending_wait d c now t id c' : timer_inv t ->
  pending (wait_us d c now t).1 id c' <->
  (id, c') = (now + d, m_timer_ctr t, c) \/ pending t id c'.
Proof.
  intros Hi. unfold pending, wait_us. cbn [fst m_cb_map].
  rewrite elem_of_emplace by (apply Hi || by apply fresh_key). done.
Qed.

Lemma pending_cancel id t id' c : pending (cancel id t).1 id' c <-> pending t id' c /\ id' <> id.
Proof. unfold pending. simpl. unfold map_erase. rewrite list_elem_of_filter. simpl. tauto. Qed.

Lemma pending_schedule now t id c : timer_inv t ->
  pending (schedule now t).1 id c <-> pending t id c /\ now < id.1.
Proof.
  intros (Hs & _ & _). unfold pending. rewrite schedule_map.
  rewrite (elem_of_due now (m_cb_map t)).
  pose proof (extract_due_fst now (m_cb_map t)) as H1. pose proof (extract_due_snd now _ Hs) as H2.
  rewrite list.Forall_forall in H1, H2. split.
  - intros H. split; [by right|]. by apply (H2 (id, c)).
  - intros ([H|H] & Hlt); [|done]. apply H1 in H. simpl in H. lia.
Qed.

Lemma due_schedule now t c : timer_inv t ->
  c ∈ (schedule now t).2 <-> exists id, pending t id c /\ id.1 <= now.
Proof.
  intros (Hs & _ & _). rewrite schedule_due, list_elem_of_fmap. unfold pending.
  setoid_rewrite (elem_of_due now (m_cb_map t)).
  pose proof (extract_due_fst now (m_cb_map t)) as H1. pose proof (extract_due_snd now _ Hs) as H2.
  rewrite list.Forall_forall in H1, H2. split.
  - intros ([id c'] & -> & H). exists id. split; [by left|]. by apply (H1 (id, c')).
  - intros (id & [H|H] & Hle); [by exists (id, c)|]. apply H2 in H. simpl in H. lia.
Qed.

Lemma pending_fun t id c c' : timer_inv t -> pending t id c -> pending t id c' -> c = c'.
Proof.
  intros (Hs & _ & _). unfold pending. induction Hs as [|e l Hs IH Hl]; [by intros ?%elem_of_nil|].
  rewrite !elem_of_cons. rewrite list.Forall_forall in Hl. intros [He|He] [He'|He'].
  - congruence.
  - apply Hl in He'. subst. destruct (irreflexivity id_lt id He').
  - apply Hl in He. subst. destruct (irreflexivity id_lt id He).
  - by apply IH.
Qed.

End timer.
#[global] Arguments timer_t : clear implicits.

(** ** Histories *)

Inductive timer_op {cb} :=
  | OpWait (for_us now_us : Z) (c : cb)
  | OpCancel (id : timer_id_t)
  | OpSchedule (now_us : Z).
#[global] Arguments timer_op : clear implicits.

Definition timer_apply {cb} (o : timer_op cb) (t : timer_t cb) : timer_t cb :=
  match o with
  | OpWait d now c => (wait_us d c now t).1
  | OpCancel id => (cancel id t).1
  | OpSchedule now => (schedule now t).1
  end.

Lemma timer_apply_ctr {cb} (o : timer_op cb) t n :
  timer_inv t -> m_timer_ctr t <= n -> n + 1 < 18446744073709551616 ->
  timer_inv (timer_apply o t) /\ m_timer_ctr (timer_apply o t) <= n + 1.
Proof.
  intros Hi Hn Hb. destruct o; simpl.
  - split; [apply timer_inv_wait; [done|lia]|]. destruct Hi as (? & ? & ?). rewrite u64_id by ulia. lia.
  - split; [by apply timer_inv_cancel|lia].
  - split; [by apply timer_inv_schedule|]. rewrite schedule_ctr. lia.
Qed.

Lemma timer_history_inv {cb} (ops : list (timer_op cb)) t n :
  timer_inv t -> m_timer_ctr t <= n -> n + Z.of_nat (length ops) < 18446744073709551616 ->
  timer_inv (foldl (fun t o => timer_apply o t) t ops).
Proof.
  revert t n. induction ops as [|o ops IH]; intros t n Hi Hn Hb; [done|]. cbn [foldl].
  destruct (timer_apply_ctr o t n Hi Hn) as (Hi' & Hn'); [simpl length in Hb; lia|].
  apply (IH _ (n + 1)); [done|done|]. simpl length in Hb. lia.
Qed.

(** C34: timers fire exactly when due. After any history of fewer than 2^64
    operations, [schedule now] calls back the timers whose deadline is not
    after [now], in the order of their deadlines and, for equal deadlines, in
    the order they were set; it keeps all the others; a timer that was set
    stays until it is due or cancelled, and cancelling removes it and no other. *)
Theorem timer_exact {cb} (ops : list (timer_op cb)) now :
  Z.of_nat (length ops) < 18446744073709551615 ->
  let t := foldl (fun t o => timer_apply o t) timer_new ops in
  (exists due, (schedule now t).2 = map snd due /\ StronglySorted entry_lt due /\
     forall e, e ∈ due <-> pending t e.1 e.2 /\ e.1.1 <= now) /\
  (forall id c, pending (schedule now t).1 id c <-> pending t id c /\ now < id.1) /\
  (forall id id' c, pending (cancel id t).1 id' c <-> pending t id' c /\ id' <> id) /\
  (forall d c, let '(t', rv) := wait_us d c now t in
     rv.1 = now + d /\ (forall c', ~ pending t rv c') /\
     forall id c', pending t' id c' <-> (id, c') = (rv, c) \/ pending t id c').
Proof.
  intros Hb t. assert (timer_inv t) as Hi.
  { apply (timer_history_inv _ _ 0 timer_inv_new); simpl; lia. }
  split_and!.
  - exists (extract_due now (m_cb_map t)).1. rewrite schedule_due. split; [done|].
    pose proof (proj1 Hi) as Hs. pose proof Hs as Hs0.
    rewrite <- (extract_due_app now (m_cb_map t)) in Hs. apply sorted_app_inv in Hs as (Hs & _).
    split; [done|]. intros [id c]. unfold pending. simpl.
    rewrite (elem_of_due now (m_cb_map t)).
    pose proof (extract_due_fst now (m_cb_map t)) as H1. pose proof (extract_due_snd now _ Hs0) as H2.
    rewrite list.Forall_forall in H1, H2. split.
    + intros H. split; [by left|]. by apply (H1 (id, c)).
    + intros ([H|H] & Hle); [done|]. apply H2 in H. simpl in H. lia.
  - intros. by apply pending_schedule.
  - intros. by apply pending_cancel.
  - intros d c. destruct (wait_us d c now t) as [t' rv] eqn:E. pose proof E as E0.
    unfold wait_us in E. injection E as E1 E2. subst rv. split_and!; [done| |].
    + intros c' Hp. pose proof (fresh_key t (now + d) Hi) as Hf. rewrite list.Forall_forall in Hf.
      by apply (Hf _ Hp).
    + intros id c'. replace t' with (wait_us d c now t).1 by (by rewrite E0). by apply pending_wait.
Qed.

Lemma timer_exact_witness :
  let t := foldl (fun t o => timer_apply o t) timer_new
    [OpWait 5 2 20; OpWait 5 1 10; OpWait 9 2 30; OpWait 1 1 40; OpCancel (2, 3)] in
  (schedule 7 t).2 = [10; 20] /\ pending (schedule 7 t).1 (11, 2) 30 /\ ~ pending (schedule 7 t).1 (7, 0) 20.
Proof.
  destruct (timer_exact [OpWait 5 2 20; OpWait 5 1 10; OpWait 9 2 30; OpWait 1 1 40; OpCancel (2, 3)] 7
    ltac:(simpl; lia)) as (_ & H & _).
  split; [vm_compute; reflexivity|]. split; rewrite H.
  - split; [vm_compute; right; right; left|done].
  - intros (_ & ?). simpl in *. lia.
Defined.
