(* ===== verification/LcRrc.v ===== *)
(** * Set-up of a logical channel ([winject/src/LCRRC.hpp], [rrc_utils.hpp])

    One [LCRRC] object per logical channel exchanges the configurations of the
    two ends and switches the channel on 100 ms later. Its collaborators enter
    the state by what the object tells them and asks of them: the enabled
    flags and the receive configurations it sets in the LLC, the PDCP and the
    endpoint, the transmit configurations it reads, the timer, and of the RRC
    the counter behind [allocate_req_id] and the messages given to [send_rrc].
    The clock reading of [wait_ms] is an argument. *)

From stdpp Require Import gmap.
From S2P Require Import Prelude Mem SafeInt RrcMsg Timer Info.

(** ** Configurations (of which the fields this object reads or sets) *)

Record ipdcp_tx_config := IpdcpTx {
  pt_allow_rlf : bool; pt_allow_segmentation : bool; pt_allow_reordering : bool; pt_max_sn_distance : Z }.
Record ipdcp_rx_config := IpdcpRx {
  pr_allow_rlf : bool; pr_allow_segmentation : bool; pr_allow_reordering : bool; pr_max_sn_distance : Z }.

(** [IPDCP::rx_config_t{}] *)
Definition ipdcp_rx_default : ipdcp_rx_config := IpdcpRx false false false 20.

(** [to_rrc], [to_config] *)
Definition to_rrc_mode (mode : tx_mode_e) : Z :=
  if decide (mode = E_TX_MODE_AM) then E_RRC_LLCTxMode_AM else E_RRC_LLCTxMode_TM.
Definition to_rrc_crc (crc_type : crc_type_e) : Z :=
  if decide (crc_type = E_CRC_TYPE_CRC32_04C11DB7) then E_RRC_LLCCRCType_CRC32_04C11DB7
  else E_RRC_LLCCRCType_NONE.
Definition to_config_mode (mode : Z) : tx_mode_e :=
  if mode =? E_RRC_LLCTxMode_AM then E_TX_MODE_AM else E_TX_MODE_TM.
Definition to_config_crc (crc_type : Z) : crc_type_e :=
  if crc_type =? E_RRC_LLCCRCType_CRC32_04C11DB7 then E_CRC_TYPE_CRC32_04C11DB7 else E_CRC_TYPE_NONE.

(** ** State *)

Inductive txrx_state_e : Set :=
  | E_TXRX_STATE_NOT_CONFIGURED | E_TXRX_STATE_CONFIGURING
  | E_TXRX_STATE_CONFIGURED | E_TXRX_STATE_ACTIVE.
#[export] Instance txrx_state_dec : EqDecision txrx_state_e. Proof. solve_decision. Defined.

(** The callbacks given to the timer, with what they capture. *)
Inductive lc_cb : Set := CbActivate | CbExpiry (max_retry req_id : Z).
#[export] Instance lc_cb_dec : EqDecision lc_cb. Proof. solve_decision. Defined.

(** The six enabled flags. *)
Record enables := Enables {
  ep_tx : bool; ep_rx : bool; pdcp_tx : bool; pdcp_rx : bool; llc_tx : bool; llc_rx : bool }.
#[export] Instance eta_enables : Eta enables := fun e =>
  Enables (ep_tx e) (ep_rx e) (pdcp_tx e) (pdcp_rx e) (llc_tx e) (llc_rx e).
Definition all_enabled (b : bool) : enables := Enables b b b b b b.

Record rrc_request_context_t := ReqCtx { exp_timer : timer_id_t; request : RRC }.

Record lc_t := Lc {
  lcid : Z;
  llc_tx_config : illc_tx_config; llc_rx_config : illc_rx_config;
  pdcp_tx_config : ipdcp_tx_config; pdcp_rx_config : ipdcp_rx_config;
  enabled : enables;
  txrx_state : txrx_state_e;
  rrc_requests : gmap Z rrc_request_context_t;
  activate_timer : option timer_id_t;
  timer : timer_t lc_cb;
  rrc_req_id : Z;
  sent : list RRC }.
#[export] Instance eta_lc : Eta lc_t := fun s =>
  Lc (lcid s) (llc_tx_config s) (llc_rx_config s) (pdcp_tx_config s) (pdcp_rx_config s) (enabled s)
    (txrx_state s) (rrc_requests s) (activate_timer s) (timer s) (rrc_req_id s) (sent s).

Definition lc_new (id : Z) (lt : illc_tx_config) (lr : illc_rx_config) (pt : ipdcp_tx_config)
    (pr : ipdcp_rx_config) (req : Z) : lc_t :=
  Lc id lt lr pt pr (all_enabled false) E_TXRX_STATE_NOT_CONFIGURED ∅ None timer_new req [].

(** ** Operations *)

Definition change_txrx_state (new_state : txrx_state_e) (s : lc_t) : lc_t :=
  s <| txrx_state := new_state |>.

(** [IRRC::send_rrc], [AppRRC::allocate_req_id] *)
Definition send_rrc (msg : RRC) (s : lc_t) : lc_t := s <| sent := sent s ++ [msg] |>.
Definition allocate_req_id (s : lc_t) : lc_t * Z :=
  (s <| rrc_req_id := u8 (rrc_req_id s + 1) |>, rrc_req_id s).

(** The keys of [rrc_requests] are [uint8_t]. *)
Definition check_response (req_id : Z) (s : lc_t) : lc_t :=
  let req_id := u8 req_id in
  match rrc_requests s !! req_id with
  | None => s
  | Some rrc_request =>
    let s := s <| rrc_requests := delete req_id (rrc_requests s) |> in
    s <| timer := (cancel (exp_timer rrc_request) (timer s)).1 |>
  end.

Definition on_rlf (s : lc_t) : lc_t :=
  let s := change_txrx_state E_TXRX_STATE_NOT_CONFIGURED s in
  let e := enabled s in
  let e := e <| ep_tx := false |> in
  let e := e <| pdcp_tx := false |> in
  let e := e <| llc_tx := false |> in
  let e := e <| ep_rx := false |> in
  let e := e <| pdcp_rx := false |> in
  let e := e <| llc_rx := false |> in
  s <| enabled := e |>.

Definition schedule_activate (now : Z) (s : lc_t) : lc_t :=
  let s := match activate_timer s with
           | Some id => s <| timer := (cancel id (timer s)).1 |>
           | None => s
           end in
  let '(t, id) := wait_ms 100 CbActivate now (timer s) in
  (s <| timer := t |>) <| activate_timer := Some id |>.

Definition activate (s : lc_t) : lc_t :=
  let s := change_txrx_state E_TXRX_STATE_ACTIVE s in
  let e := enabled s in
  let e := e <| pdcp_tx := true |> in
  let e := e <| pdcp_rx := true |> in
  let e := e <| llc_tx := true |> in
  let e := e <| llc_rx := true |> in
  let e := e <| ep_tx := true |> in
  let e := e <| ep_rx := true |> in
  s <| enabled := e |>.

(** [reconfigure_rx]: the receive side of each layer takes over the transmit
    configuration of the peer and is switched off. *)
Definition rx_of_llc (c : RRC_LLCConfig) : illc_rx_config :=
  IllcRx (to_config_mode (r_mode (r_txConfig c))) (to_config_crc (r_crcType (r_txConfig c)))
    (ir_auto_init_on_rx illc_rx_default).
Definition rx_of_pdcp (c : RRC_PDCPConfig) : ipdcp_rx_config :=
  IpdcpRx (bool_of_Z (r_allowRLF c)) (bool_of_Z (r_allowSegmentation c)) (bool_of_Z (r_allowReordering c))
    (match r_maxSnDistance c with Some d => d | None => pr_max_sn_distance ipdcp_rx_default end).
Definition reconfigure_rx (msg : RRC_Exchange) (s : lc_t) : lc_t :=
  let s := s <| llc_rx_config := rx_of_llc (r_llcConfig msg) |> in
  let s := s <| enabled := (enabled s) <| llc_rx := false |> |> in
  let s := s <| pdcp_rx_config := rx_of_pdcp (r_pdcpConfig msg) |> in
  s <| enabled := (enabled s) <| pdcp_rx := false |> |>.

(** [fill_from_config], into a value-initialised message with its [lcid] set;
    [max_sn_distance] is a [size_t] assigned to an optional 16-bit integer. *)
Definition fill_from_config (s : lc_t) : RRC_Exchange :=
  let lc := llc_tx_config s in
  let pc := pdcp_tx_config s in
  Exchange (lcid s) (LLCConfig (LLCTxConfig (to_rrc_mode (it_mode lc)) (to_rrc_crc (it_crc_type lc))))
    (PDCPConfig (Z_of_bool (pt_allow_rlf pc)) (Z_of_bool (pt_allow_segmentation pc))
       (Z_of_bool (pt_allow_reordering pc)) (Some (u16 (pt_max_sn_distance pc))) 0 0 0 0).

Definition auto_send_rrc (now max_retry : Z) (msg : RRC) (s : lc_t) : lc_t :=
  if max_retry =? 0 then on_rlf s else
  let req_id := r_requestID msg in
  let '(t, exp_id) := wait_ms 100 (CbExpiry max_retry req_id) now (timer s) in
  let s := s <| timer := t |> in
  let s := s <| rrc_requests := delete req_id (rrc_requests s) |> in
  let s := s <| rrc_requests := <[req_id := ReqCtx exp_id (Rrc 0 rrc_message_zero)]> (rrc_requests s) |> in
  send_rrc msg s.

(** The expiry handler erases the request and then reads it through the
    iterator it had to it. *)
Definition expiry_handler (now max_retry req_id : Z) (s : lc_t) : res lc_t :=
  match rrc_requests s !! req_id with
  | None => mret s
  | Some _ => Ub UseAfterErase
  end.

Definition send_exchange_req (now : Z) (s : lc_t) : lc_t :=
  let '(s, id) := allocate_req_id s in
  auto_send_rrc now 3 (Rrc id (ExchangeRequest (fill_from_config s))) s.

Definition send_exchange_resp (req_id : Z) (s : lc_t) : lc_t :=
  send_rrc (Rrc (u8 req_id) (ExchangeResponse (fill_from_config s))) s.

Definition on_exchange_request (now req_id : Z) (req : RRC_Exchange) (s : lc_t) : lc_t :=
  let s := if decide (txrx_state s = E_TXRX_STATE_ACTIVE) then on_rlf s else s in
  let s := reconfigure_rx req s in
  let s := change_txrx_state E_TXRX_STATE_CONFIGURED s in
  let s := send_exchange_resp req_id s in
  schedule_activate now s.

Definition on_exchange_response (now req_id : Z) (msg : RRC_Exchange) (s : lc_t) : lc_t :=
  let s := check_response req_id s in
  let s := reconfigure_rx msg s in
  let s := change_txrx_state E_TXRX_STATE_CONFIGURED s in
  schedule_activate now s.

Definition on_rrc_message (now req_id : Z) (msg : RRC_Message) (s : lc_t) : lc_t :=
  match msg with
  | ExchangeRequest e => on_exchange_request now req_id e s
  | ExchangeResponse e => on_exchange_response now req_id e s
  end.

Definition on_init (now : Z) (forced : bool) (s : lc_t) : lc_t :=
  if negb forced && (bool_decide (E_TXRX_STATE_CONFIGURING = txrx_state s) ||
                     bool_decide (E_TXRX_STATE_CONFIGURED = txrx_state s) ||
                     bool_decide (E_TXRX_STATE_ACTIVE = txrx_state s))
  then s
  else send_exchange_req now (change_txrx_state E_TXRX_STATE_CONFIGURING s).

(** The timer thread: take the due callbacks out, then run them. *)
Definition run_cb (now : Z) (c : lc_cb) (s : lc_t) : res lc_t :=
  match c with
  | CbActivate => mret (activate s)
  | CbExpiry max_retry req_id => expiry_handler now max_retry req_id s
  end.
Fixpoint run_cbs (now : Z) (cs : list lc_cb) (s : lc_t) : res lc_t :=
  match cs with
  | [] => mret s
  | c :: cs => s ← run_cb now c s; run_cbs now cs s
  end.
Definition tick (now : Z) (s : lc_t) : res lc_t :=
  let '(t, due) := schedule now (timer s) in
  run_cbs now due (s <| timer := t |>).

(** ** Events *)

Inductive lc_event :=
  | EvInit (now : Z) (forced : bool)
  | EvRlf
  | EvMessage (now req_id : Z) (msg : RRC_Message)
  | EvTick (now : Z).

Definition lc_apply (e : lc_event) (s : lc_t) : res lc_t :=
  match e with
  | EvInit now forced => mret (on_init now forced s)
  | EvRlf => mret (on_rlf s)
  | EvMessage now req_id msg => mret (on_rrc_message now req_id msg s)
  | EvTick now => tick now s
  end.

(** The states reached while fewer than 2^64 timers were ever set. *)
Inductive lc_reachable : lc_t -> Prop :=
  | lc_reach_new id lt lr pt pr req : lc_reachable (lc_new id lt lr pt pr req)
  | lc_reach_step e s s' :
      lc_reachable s -> m_timer_ctr (timer s) + 1 < 18446744073709551616 ->
      lc_apply e s = Ok s' -> lc_reachable s'.

(** ** The invariant *)

Record lc_inv (s : lc_t) : Prop := LcInv {
  inv_timer : timer_inv (timer s);
  inv_active : txrx_state s = E_TXRX_STATE_ACTIVE -> enabled s = all_enabled true;
  inv_idle : txrx_state s = E_TXRX_STATE_NOT_CONFIGURED -> enabled s = all_enabled false;
  inv_single : forall id, pending (timer s) id CbActivate -> activate_timer s = Some id;
  inv_last : forall id, activate_timer s = Some id ->
    id.2 < m_timer_ctr (timer s) /\ forall c, pending (timer s) id c -> c = CbActivate;
  inv_configured : txrx_state s = E_TXRX_STATE_CONFIGURED ->
    exists id, activate_timer s = Some id /\ pending (timer s) id CbActivate;
  inv_requests : forall r c, rrc_requests s !! r = Some c ->
    exists n, pending (timer s) (exp_timer c) (CbExpiry n r) }.

Lemma lc_inv_new id lt lr pt pr req : lc_inv (lc_new id lt lr pt pr req).
Proof.
  split; try done.
  - apply timer_inv_new.
  - intros i H. by apply elem_of_nil in H.
Qed.

Lemma on_rlf_enabled s : enabled (on_rlf s) = all_enabled false.
Proof. reflexivity. Qed.
Lemma activate_enabled s : enabled (activate s) = all_enabled true.
Proof. reflexivity. Qed.

Lemma lc_inv_rlf s : lc_inv s -> lc_inv (on_rlf s).
Proof. intros [H1 H2 H3 H4 H7 H5 H6]. split; try done. Qed.

Lemma lc_inv_activate s : lc_inv s -> lc_inv (activate s).
Proof. intros [H1 H2 H3 H4 H7 H5 H6]. split; try done. Qed.

Lemma check_response_fields r s :
  txrx_state (check_response r s) = txrx_state s /\ enabled (check_response r s) = enabled s /\
  activate_timer (check_response r s) = activate_timer s /\ sent (check_response r s) = sent s /\
  m_timer_ctr (timer (check_response r s)) = m_timer_ctr (timer s).
Proof. unfold check_response. destruct (rrc_requests s !! u8 r); done. Qed.

Lemma lc_inv_check_response r s : lc_inv s -> lc_inv (check_response r s).
Proof.
  intros [H1 H2 H3 H4 H7 H5 H6]. unfold check_response. destruct (rrc_requests s !! u8 r) as [c|] eqn:Ec; [|done].
  destruct (H6 _ _ Ec) as (n & Hn). split; try done.
  - by apply timer_inv_cancel.
  - intros id Hp. apply pending_cancel in Hp as (Hp & _). by apply H4.
  - intros id Ha. destruct (H7 id Ha) as (Hl & Hc). split; [done|]. intros d Hp.
    apply pending_cancel in Hp as (Hp & _). auto.
  - intros Hs. destruct (H5 Hs) as (id & Ha & Hp). exists id. split; [done|].
    apply pending_cancel. split; [done|]. intros ->. by pose proof (pending_fun _ _ _ _ H1 Hp Hn).
  - intros q d Hq. cbn [upd rrc_requests] in Hq. apply lookup_delete_Some in Hq as (Hne & Hq).
    destruct (H6 q d Hq) as (k & Hk). exists k. apply pending_cancel. split; [done|].
    intros He. rewrite He in Hk. pose proof (pending_fun _ _ _ _ H1 Hk Hn). congruence.
Qed.

(** [schedule_activate] makes the state [CONFIGURED] good. *)
Lemma lc_inv_schedule_activate now s :
  timer_inv (timer s) -> m_timer_ctr (timer s) + 1 < 18446744073709551616 ->
  txrx_state s = E_TXRX_STATE_CONFIGURED ->
  (forall id, pending (timer s) id CbActivate -> activate_timer s = Some id) ->
  (forall r c, rrc_requests s !! r = Some c -> exists n, pending (timer s) (exp_timer c) (CbExpiry n r)) ->
  (forall id c, activate_timer s = Some id -> pending (timer s) id c -> c = CbActivate) ->
  lc_inv (schedule_activate now s).
Proof.
  intros H1 Hc Hs H4 H6 H7. unfold schedule_activate.
  set (s1 := match activate_timer s with Some id => _ | None => s end).
  assert (timer_inv (timer s1)) as T1.
  { unfold s1. destruct (activate_timer s); [by apply timer_inv_cancel|done]. }
  assert (m_timer_ctr (timer s1) = m_timer_ctr (timer s)) as C1 by (unfold s1; by destruct (activate_timer s)).
  assert (forall id, ~ pending (timer s1) id CbActivate) as N1.
  { unfold s1. intros id Hp. destruct (activate_timer s) as [a|] eqn:Ea.
    - apply pending_cancel in Hp as (Hp & Hne). apply H4 in Hp. congruence.
    - apply H4 in Hp. congruence. }
  assert (forall id n r, pending (timer s) id (CbExpiry n r) -> pending (timer s1) id (CbExpiry n r)) as K1.
  { unfold s1. intros id n r Hp. destruct (activate_timer s) as [a|] eqn:Ea; [|done].
    apply pending_cancel. split; [done|]. intros ->. by specialize (H7 _ _ eq_refl Hp). }
  assert (rrc_requests s1 = rrc_requests s /\ txrx_state s1 = txrx_state s) as (R1 & S1)
    by (unfold s1; by destruct (activate_timer s)).
  clearbody s1. unfold wait_ms. destruct (wait_us (100 * 1000) CbActivate now (timer s1)) as [t id] eqn:E.
  assert (id = (now + 100000, m_timer_ctr (timer s1))) as Hid by (unfold wait_us in E; by injection E).
  assert (t = (wait_us (100 * 1000) CbActivate now (timer s1)).1) as Ht by (by rewrite E).
  split; unfold upd; cbn [timer txrx_state enabled activate_timer rrc_requests].
  - rewrite Ht. apply timer_inv_wait; [done|lia].
  - intros. congruence.
  - intros. congruence.
  - intros id' Hp. rewrite Ht in Hp. apply pending_wait in Hp as [Hp|Hp]; [|by apply N1 in Hp|done].
    rewrite Hid. by injection Hp as ->.
  - intros id' [= <-]. rewrite Ht. split.
    + rewrite Hid. unfold wait_us. cbn [fst snd m_timer_ctr]. destruct T1 as (_ & ? & _). rewrite u64_id by ulia. lia.
    + intros c Hp. apply pending_wait in Hp as [Hp|Hp]; [by injection Hp| |done].
      subst id. pose proof (fresh_key (timer s1) (now + 100000) T1) as Hf. rewrite list.Forall_forall in Hf.
      by destruct (Hf _ Hp).
  - intros _. exists id. split; [done|]. rewrite Ht. apply pending_wait; [done|]. left. by rewrite Hid.
  - intros r c Hr. rewrite R1 in Hr. destruct (H6 _ _ Hr) as (n & Hn). exists n. rewrite Ht.
    apply pending_wait; [done|]. right. by apply K1.
Qed.

Lemma on_message_eq now r m s :
  on_rrc_message now r m s =
  match m with
  | ExchangeRequest e =>
    let s := if decide (txrx_state s = E_TXRX_STATE_ACTIVE) then on_rlf s else s in
    schedule_activate now (send_exchange_resp r (change_txrx_state E_TXRX_STATE_CONFIGURED (reconfigure_rx e s)))
  | ExchangeResponse e =>
    schedule_activate now (change_txrx_state E_TXRX_STATE_CONFIGURED (reconfigure_rx e (check_response r s)))
  end.
Proof. by destruct m. Qed.

(** Configuring the receivers and answering leave the timers alone. *)
Lemma configured_fields e r s :
  let s1 := change_txrx_state E_TXRX_STATE_CONFIGURED (reconfigure_rx e s) in
  (timer s1 = timer s /\ txrx_state s1 = E_TXRX_STATE_CONFIGURED /\
   activate_timer s1 = activate_timer s /\ rrc_requests s1 = rrc_requests s) /\
  let s2 := send_exchange_resp r s1 in
  timer s2 = timer s /\ txrx_state s2 = E_TXRX_STATE_CONFIGURED /\
  activate_timer s2 = activate_timer s /\ rrc_requests s2 = rrc_requests s.
Proof. cbv zeta; split_and!; reflexivity. Qed.

Lemma schedule_activate_fields now s :
  let s1 := schedule_activate now s in
  txrx_state s1 = txrx_state s /\ enabled s1 = enabled s /\ sent s1 = sent s /\
  rrc_requests s1 = rrc_requests s /\ llc_rx_config s1 = llc_rx_config s /\
  pdcp_rx_config s1 = pdcp_rx_config s /\
  activate_timer s1 = Some (now + 100000, m_timer_ctr (timer s)) /\
  timer s1 = (wait_us 100000 CbActivate now
    (match activate_timer s with Some id => (cancel id (timer s)).1 | None => timer s end)).1.
Proof. unfold schedule_activate. cbv zeta. destruct (activate_timer s); split_and!; reflexivity. Qed.

Lemma lc_inv_configure now s s1 :
  lc_inv s -> m_timer_ctr (timer s) + 1 < 18446744073709551616 ->
  timer s1 = timer s /\ txrx_state s1 = E_TXRX_STATE_CONFIGURED /\
  activate_timer s1 = activate_timer s /\ rrc_requests s1 = rrc_requests s ->
  lc_inv (schedule_activate now s1).
Proof.
  intros [H1 H2 H3 H4 H7 H5 H6] Hc (Et & Es & Ea & Er).
  apply lc_inv_schedule_activate; rewrite ?Et, ?Es, ?Ea, ?Er; try done.
  intros id c Hq. apply (H7 id Hq).
Qed.

Lemma lc_inv_message now r m s :
  lc_inv s -> m_timer_ctr (timer s) + 1 < 18446744073709551616 -> lc_inv (on_rrc_message now r m s).
Proof.
  intros Hi Hc. rewrite on_message_eq. destruct m as [e|e]; cbv zeta.
  - apply (lc_inv_configure now (if decide (txrx_state s = E_TXRX_STATE_ACTIVE) then on_rlf s else s)).
    + case_decide; [by apply lc_inv_rlf|done].
    + by case_decide.
    + apply configured_fields.
  - destruct (check_response_fields r s) as (_ & _ & _ & _ & C1).
    apply (lc_inv_configure now (check_response r s)).
    + by apply lc_inv_check_response.
    + by rewrite C1.
    + apply (configured_fields e r).
Qed.

Lemma send_exchange_req_fields now s :
  let s1 := send_exchange_req now s in
  let r := rrc_req_id s in
  timer s1 = (wait_us 100000 (CbExpiry 3 r) now (timer s)).1 /\ txrx_state s1 = txrx_state s /\
  enabled s1 = enabled s /\ activate_timer s1 = activate_timer s /\
  rrc_requests s1 = <[r := ReqCtx (now + 100000, m_timer_ctr (timer s)) (Rrc 0 rrc_message_zero)]>
                      (delete r (rrc_requests s)) /\
  sent s1 = sent s ++ [Rrc r (ExchangeRequest (fill_from_config s))].
Proof. cbv zeta. split_and!; reflexivity. Qed.

Lemma lc_inv_init now b s :
  lc_inv s -> m_timer_ctr (timer s) + 1 < 18446744073709551616 -> lc_inv (on_init now b s).
Proof.
  intros Hi Hc. unfold on_init. destruct (_ && _); [done|].
  set (s0 := change_txrx_state E_TXRX_STATE_CONFIGURING s).
  destruct (send_exchange_req_fields now s0) as (Et & Es & Ee & Ea & Er & _).
  change (timer s0) with (timer s) in *. change (rrc_requests s0) with (rrc_requests s) in *.
  change (activate_timer s0) with (activate_timer s) in *. change (txrx_state s0) with E_TXRX_STATE_CONFIGURING in *.
  destruct Hi as [H1 H2 H3 H4 H7 H5 H6]. set (s1 := send_exchange_req now s0) in *. clearbody s1.
  set (r := rrc_req_id s0) in *. clearbody r. clear Ee s0.
  assert (forall i d, pending (timer s1) i d <->
    (i, d) = ((now + 100000, m_timer_ctr (timer s)), CbExpiry 3 r) \/ pending (timer s) i d) as Hp.
  { intros i d. rewrite Et. by apply pending_wait. }
  split; rewrite ?Es, ?Ea, ?Er; try done.
  - rewrite Et. apply timer_inv_wait; [done|lia].
  - intros i Hq. apply Hp in Hq as [Hq|Hq]; [done|by apply H4].
  - intros i Hq. destruct (H7 i Hq) as (Hl & Hc'). split.
    + rewrite Et. unfold wait_us. cbn [fst m_timer_ctr]. destruct H1 as (_ & ? & _). rewrite u64_id by ulia. lia.
    + intros d Hd. apply Hp in Hd as [Hd|Hd]; [|by apply Hc']. injection Hd as -> ->. simpl in Hl. lia.
  - intros q d Hq. rewrite lookup_insert_Some in Hq. destruct Hq as [(<- & <-)|(Hne & Hq)].
    + exists 3. apply Hp. by left.
    + rewrite lookup_delete_ne in Hq by done. destruct (H6 q d Hq) as (n & Hn). exists n. apply Hp. by right.
Qed.

(** What a run of callbacks does: undefined behaviour if one of them is the
    expiry of a request still pending, else at most the activation. *)
Definition expires (s : lc_t) (c : lc_cb) : bool :=
  match c with CbActivate => false | CbExpiry _ r => bool_decide (is_Some (rrc_requests s !! r)) end.

Lemma run_cbs_spec now cs s :
  run_cbs now cs s =
  if existsb (expires s) cs then Ub UseAfterErase
  else Ok (if decide (CbActivate ∈ cs) then activate s else s).
Proof.
  revert s. induction cs as [|c cs IH]; intros s.
  - cbn. destruct (decide _) as [H|_]; [by apply elem_of_nil in H|done].
  - cbn [run_cbs existsb]. destruct c as [|n r]; cbn [run_cb expires orb].
    + rewrite bind_ret_l, IH. change (existsb (expires (activate s)) cs) with (existsb (expires s) cs).
      destruct (existsb _ _); [done|]. rewrite (decide_True (P := CbActivate ∈ CbActivate :: cs)) by by left.
      by destruct (decide _).
    + unfold expiry_handler. destruct (rrc_requests s !! r) as [x|] eqn:E.
      * by rewrite bool_decide_eq_true_2 by eauto.
      * rewrite bool_decide_eq_false_2 by (by intros [? ?]). cbn [orb]. rewrite bind_ret_l, IH.
        destruct (existsb _ _); [done|]. f_equal.
        destruct (decide (CbActivate ∈ cs)) as [H|H]; [by rewrite decide_True by by right|].
        rewrite decide_False; [done|]. intros [?|?]%elem_of_cons; done.
Qed.

Lemma tick_spec now s : lc_inv s ->
  (tick now s = Ub UseAfterErase <->
     exists r c, rrc_requests s !! r = Some c /\ (exists id n, pending (timer s) id (CbExpiry n r) /\ id.1 <= now)) /\
  (tick now s <> Ub UseAfterErase -> exists s', tick now s = Ok s' /\ lc_inv s').
Proof.
  intros [H1 H2 H3 H4 H7 H5 H6]. unfold tick.
  pose proof (fun c => due_schedule now (timer s) c H1) as Hd.
  pose proof (fun i c => pending_schedule now (timer s) i c H1) as Hp.
  pose proof (timer_inv_schedule now (timer s) H1) as Ti. pose proof (schedule_ctr now (timer s)) as Tc.
  destruct (schedule now (timer s)) as [t due]. simpl in Hd, Hp, Ti, Tc. rewrite run_cbs_spec.
  set (s1 := s <| timer := t |>). change (expires s1) with (expires s). split.
  - destruct (existsb (expires s) due) eqn:E.
    + split; [|done]. intros _. apply existsb_exists in E as (c & Hc & He). apply list_elem_of_In, Hd in Hc as (id & Hc & Hl).
      destruct c as [|n r]; [done|]. apply bool_decide_eq_true_1 in He as (x & Hx). eauto 8.
    + split; [done|]. intros (r & x & Hx & id & n & Hq & Hl). exfalso.
      apply not_true_iff_false in E. apply E. apply existsb_exists. exists (CbExpiry n r).
      split; [apply list_elem_of_In, Hd; eauto|]. apply bool_decide_eq_true_2. eauto.
  - destruct (existsb (expires s) due) eqn:E; [done|]. intros _. eexists. split; [reflexivity|].
    assert (forall r c, rrc_requests s !! r = Some c -> exists n, pending t (exp_timer c) (CbExpiry n r)) as R.
    { intros r c Hr. destruct (H6 r c Hr) as (n & Hn). exists n. apply Hp. split; [done|].
      destruct (Z.lt_ge_cases now (exp_timer c).1) as [|Hle]; [done|]. exfalso.
      apply not_true_iff_false in E. apply E, existsb_exists. exists (CbExpiry n r).
      split; [apply list_elem_of_In, Hd; eauto|]. apply bool_decide_eq_true_2. eauto. }
    assert (forall id, pending t id CbActivate -> activate_timer s = Some id) as A.
    { intros id Hq. apply Hp in Hq as (Hq & _). auto. }
    assert (forall id, activate_timer s = Some id ->
      id.2 < m_timer_ctr t /\ forall c, pending t id c -> c = CbActivate) as L.
    { intros id Hq. rewrite Tc. destruct (H7 id Hq) as (? & Hc). split; [done|].
      intros c Hq2. apply Hp in Hq2 as (Hq2 & _). auto. }
    destruct (decide (CbActivate ∈ due)) as [D|D].
    + split; try done.
    + split; try done. intros Hs. destruct (H5 Hs) as (id & Ha & Hq). exists id. split; [done|].
      apply Hp. split; [done|]. destruct (Z.lt_ge_cases now id.1) as [|Hle]; [done|].
      exfalso. apply D, Hd. eauto.
Qed.

Lemma lc_inv_apply e s s' :
  lc_inv s -> m_timer_ctr (timer s) + 1 < 18446744073709551616 -> lc_apply e s = Ok s' -> lc_inv s'.
Proof.
  intros Hi Hc. destruct e; cbn [lc_apply].
  - intros [= <-]. by apply lc_inv_init.
  - intros [= <-]. by apply lc_inv_rlf.
  - intros [= <-]. by apply lc_inv_message.
  - intros E. destruct (tick_spec now s Hi) as (_ & H). destruct H as (s2 & E2 & H2); [congruence|]. congruence.
Qed.

Lemma lc_reachable_inv s : lc_reachable s -> lc_inv s.
Proof. induction 1; [apply lc_inv_new|by eapply lc_inv_apply]. Qed.


(** A channel for the examples. *)
Definition lc_example : lc_t :=
  lc_new 1 (IllcTx false E_TX_MODE_AM 8 3 E_CRC_TYPE_CRC32_04C11DB7) illc_rx_default (IpdcpTx true true true 100000)
    ipdcp_rx_default 7.


(** A request that stays unanswered is not sent again. The timer thread
    that finds it expired, 100 ms after [on_init] or later, erases the entry
    and reads it through the erased iterator; until then nothing happens. *)
Theorem lcrrc_expiry_reads_erased id lt lr pt pr req t0 now forced :
  is_u8 req ->
  let s := on_init t0 forced (lc_new id lt lr pt pr req) in
  (t0 + 100000 <= now -> tick now s = Ub UseAfterErase) /\ (now < t0 + 100000 -> tick now s = Ok s).
Proof.
  intros Hreq s. set (c := CbExpiry 3 req).
  assert (m_cb_map (timer s) = [((t0 + 100000, 0), c)]) as Ht by (unfold s; by destruct forced).
  assert (rrc_requests s !! req = Some (ReqCtx (t0 + 100000, 0) (Rrc 0 rrc_message_zero))) as Hq.
  { replace (rrc_requests s) with ({[req := ReqCtx (t0 + 100000, 0) (Rrc 0 rrc_message_zero)]} : gmap Z rrc_request_context_t).
    - apply lookup_singleton_eq.
    - unfold s. destruct forced; simpl; by rewrite delete_empty. }
  assert (timer s = Timer 1 [((t0 + 100000, 0), c)]) as Ht2 by (unfold s; by destruct forced).
  unfold tick, schedule. rewrite Ht2. cbn [m_cb_map m_timer_ctr extract_due fst snd].
  destruct (Z.leb_spec (t0 + 100000) now); split; intros; try lia.
  - cbn [map run_cbs run_cb c snd]. unfold expiry_handler, c.
    change (rrc_requests (s <| timer := Timer 1 [] |>)) with (rrc_requests s). by rewrite Hq.
  - cbn [map run_cbs]. rewrite <- Ht2. by destruct s.
Qed.

Lemma lcrrc_expiry_reads_erased_witness : tick 100005 (on_init 5 false lc_example) = Ub UseAfterErase.
Proof.
  apply (proj1 (lcrrc_expiry_reads_erased 1 (IllcTx false E_TX_MODE_AM 8 3 E_CRC_TYPE_CRC32_04C11DB7) illc_rx_default
    (IpdcpTx true true true 100000) ipdcp_rx_default 7 5 100005 false ltac:(ulia))). lia.
Defined.

(** A radio-link failure does not stop a pending activation. After an
    exchange that is followed by a failure, the channel is unconfigured and
    disabled, and once the 100 ms of the exchange are over the timer thread
    switches it on again. *)
Theorem lcrrc_rlf_keeps_activation now m r s t :
  lc_reachable s -> m_timer_ctr (timer s) + 1 < 18446744073709551616 -> now + 100000 <= t ->
  let s1 := on_rlf (on_rrc_message now r m s) in
  txrx_state s1 = E_TXRX_STATE_NOT_CONFIGURED /\ enabled s1 = all_enabled false /\
  (tick t s1 = Ub UseAfterErase \/
   exists s2, tick t s1 = Ok s2 /\ txrx_state s2 = E_TXRX_STATE_ACTIVE /\ enabled s2 = all_enabled true).
Proof.
  intros Hr Hc Ht s1. split; [done|]. split; [done|].
  pose proof (lc_reachable_inv s Hr) as Hi.
  assert (activate_timer s1 = Some (now + 100000, m_timer_ctr (timer s))) as Ha.
  { destruct (check_response_fields r s) as (_ & _ & _ & _ & C1).
    unfold s1. change (activate_timer (on_rlf ?x)) with (activate_timer x).
    rewrite on_message_eq. destruct m as [e|e]; cbv zeta.
    - destruct (schedule_activate_fields now (send_exchange_resp r (change_txrx_state E_TXRX_STATE_CONFIGURED
        (reconfigure_rx e (if decide (txrx_state s = E_TXRX_STATE_ACTIVE) then on_rlf s else s)))))
        as (_ & _ & _ & _ & _ & _ & -> & _). by destruct (decide _).
    - destruct (schedule_activate_fields now (change_txrx_state E_TXRX_STATE_CONFIGURED
        (reconfigure_rx e (check_response r s)))) as (_ & _ & _ & _ & _ & _ & -> & _).
      by rewrite <- C1. }
  pose proof (lc_inv_message now r m s Hi Hc) as Hi1.
  assert (txrx_state (on_rrc_message now r m s) = E_TXRX_STATE_CONFIGURED) as Hs.
  { rewrite on_message_eq. destruct m as [e|e]; cbv zeta;
      match goal with |- txrx_state (schedule_activate ?n ?x) = _ =>
        destruct (schedule_activate_fields n x) as (-> & _) end; reflexivity. }
  destruct (inv_configured _ Hi1 Hs) as (id & Hid & Hp).
  change (activate_timer (on_rrc_message now r m s)) with (activate_timer s1) in Hid.
  change (timer (on_rrc_message now r m s)) with (timer s1) in Hp.
  apply lc_inv_rlf in Hi1. fold s1 in Hi1. clearbody s1. rewrite Ha in Hid. injection Hid as <-.
  unfold tick. pose proof (fun c => due_schedule t (timer s1) c (inv_timer _ Hi1)) as Hd.
  destruct (schedule t (timer s1)) as [tt due]. simpl in Hd. rewrite run_cbs_spec.
  destruct (existsb _ due); [by left|right]. eexists. split; [reflexivity|].
  rewrite decide_True; [done|]. apply Hd. eexists. split; [exact Hp|]. simpl. lia.
Qed.

Lemma lcrrc_rlf_keeps_activation_witness :
  exists s2, tick 100010 (on_rlf (on_rrc_message 5 9 (ExchangeRequest exchange_zero) lc_example)) = Ok s2 /\
    txrx_state s2 = E_TXRX_STATE_ACTIVE /\ enabled s2 = all_enabled true.
Proof.
  destruct (lcrrc_rlf_keeps_activation 5 (ExchangeRequest exchange_zero) 9 lc_example 100010
    ltac:(apply lc_reach_new) ltac:(simpl; lia) ltac:(lia)) as (_ & _ & [H|H]); [|exact H].
  vm_compute in H. discriminate H.
Defined.
