(* ===== verification/AppRrc.v ===== *)
(** * The application ([winject/src/AppRRC.hpp], [AppRRC.cpp])

    [AppRRC] owns the layers of every logical channel. Modelled are the
    transport of RRC messages over the PDCP of channel 0, the event queue and
    its dispatch to the channels; received frames are in [RxFrame].

    The channels lend from the application the request counter and
    [send_rrc]; each keeps its own timers here, where the code has one timer
    object for the callbacks of all of them. *)

From stdpp Require Import gmap.
From S2P Require Import Prelude Mem SafeInt RrcMsg Timer Info LcRrc.

(** ** RRC messages and events *)

Inductive rrc_event_t :=
  | rrc_event_stop_t
  | rrc_event_rlf_t (lcid : Z)
  | rrc_event_setup_t (lcid : Z) (forced : bool)
  | rrc_event_msg_t (msg : RRC).

Record app_t := App {
  channel_rrc_contexts : gmap Z lc_t;
  rrc_events : list rrc_event_t;
  app_req_id : Z;
  to_pdcp0 : list (list Z);    (* what was given to the PDCP of channel 0 *)
  rrc_rx_running : bool; timer_running : bool; timer2_running : bool; reactor_running : bool }.
#[export] Instance eta_app : Eta app_t := fun s =>
  App (channel_rrc_contexts s) (rrc_events s) (app_req_id s) (to_pdcp0 s)
    (rrc_rx_running s) (timer_running s) (timer2_running s) (reactor_running s).

Section app.
Variable host : byte_order.

(** [send_rrc]: the bytes it gives to [pdcp0->to_tx]. *)
Definition app_send_rrc (rrc : RRC) : res (list Z) :=
  let b := replicate (Z.to_nat (1024 * 5)) 0 in
  '(b, context) ← encode_RRC host rrc (b, PerCtx 0 (zlen b));
  let encode_size := zlen b - c_size context in
  mret (take (Z.to_nat encode_size) b).

Definition push_rrc_event (e : rrc_event_t) (s : app_t) : app_t :=
  s <| rrc_events := rrc_events s ++ [e] |>.

(** The body of [run_rrc_rx] for a buffer from [pdcp0->to_rx]; [on_rrc]. *)
Definition app_rrc_rx (b : list Z) (s : app_t) : res app_t :=
  if negb (zlen b =? 0) then
    '(rrc, _) ← decode_RRC host (Rrc 0 rrc_message_zero) b (PerCtx 0 (zlen b));
    mret (push_rrc_event (rrc_event_msg_t rrc) s)
  else mret s.

(** A call into the channel object of [lcid], if there is one. *)
Definition on_channel (lcid : Z) (f : lc_t -> lc_t) (s : app_t) : res app_t :=
  match channel_rrc_contexts s !! lcid with
  | None => mret s
  | Some c =>
    let c := f ((c <| rrc_req_id := app_req_id s |>) <| sent := [] |>) in
    bs ← mapM app_send_rrc (sent c);
    let s := s <| channel_rrc_contexts := <[lcid := c]> (channel_rrc_contexts s) |> in
    let s := s <| app_req_id := rrc_req_id c |> in
    mret (s <| to_pdcp0 := to_pdcp0 s ++ bs |>)
  end.

Definition message_lcid (m : RRC_Message) : Z := r_lcid (message_exchange m).

(** [on_rrc_event], one event and all that are queued *)
Definition on_rrc_event (now : Z) (e : rrc_event_t) (s : app_t) : res app_t :=
  match e with
  | rrc_event_stop_t =>
    let s := s <| rrc_rx_running := false |> in
    let s := s <| timer_running := false |> in
    let s := s <| timer2_running := false |> in
    mret (s <| reactor_running := false |>)
  | rrc_event_rlf_t lcid => on_channel lcid on_rlf s
  | rrc_event_setup_t lcid forced => on_channel lcid (on_init now forced) s
  | rrc_event_msg_t msg =>
    on_channel (message_lcid (r_message msg)) (on_rrc_message now (r_requestID msg) (r_message msg)) s
  end.
Fixpoint on_events (now : Z) (es : list rrc_event_t) (s : app_t) : res app_t :=
  match es with
  | [] => mret s
  | e :: es => s ← on_rrc_event now e s; on_events now es s
  end.
Definition on_rrc_events (now : Z) (s : app_t) : res app_t :=
  on_events now (rrc_events s) (s <| rrc_events := [] |>).

End app.

(** ** Messages *)

Lemma app_send_rrc_ok host x : app_send_rrc host x = Ok (rrc_bytes host x).
Proof.
  unfold app_send_rrc. set (b := replicate _ 0).
  assert (zlen b = 5120) as Hb by (unfold b; rewrite zlen_replicate; lia).
  pose proof (zlen_rrc_bytes host x) as Hl. clearbody b.
  rewrite (enc_ok_rrc host x) by (unfold ctx_ok; simpl; ulia). cbn [c_size c_pos].
  destruct (Z.leb_spec (zlen (rrc_bytes host x)) (zlen b)); [|lia]. rewrite bind_ret_l.
  unfold advance. cbn [c_size c_pos]. rewrite zlen_splice, u64_id by (ulia || lia).
  unfold mret, res_ret. f_equal. replace (zlen b - (zlen b - zlen (rrc_bytes host x))) with (zlen (rrc_bytes host x)) by lia.
  rewrite <- (slice_splice_same b 0 (rrc_bytes host x)) at 3 by lia.
  unfold slice. by rewrite drop_0.
Qed.

Lemma app_rrc_rx_ok host x s : rrc_ok x ->
  app_rrc_rx host (rrc_bytes host x) s = Ok (push_rrc_event (rrc_event_msg_t x) s).
Proof.
  intros Hx. unfold app_rrc_rx. pose proof (zlen_rrc_bytes host x) as Hl.
  destruct (Z.eqb_spec (zlen (rrc_bytes host x)) 0); [lia|]. cbn [negb].
  rewrite (dec_ok_rrc host host _ x Hx).
  - cbn [c_size]. rewrite Z.leb_refl, seen_same. reflexivity.
  - unfold ctx_ok. simpl. ulia.
  - apply agrees_slice with (n := zlen (rrc_bytes host x)); [done|done|]. apply slice_all.
Qed.

Lemma mapM_send_ok host xs : mapM (app_send_rrc host) xs = Ok (map (rrc_bytes host) xs).
Proof. induction xs as [|x xs IH]; [done|]. cbn [mapM]. by rewrite app_send_rrc_ok, bind_ret_l, IH. Qed.

(** A call into a channel never fails. *)
Definition lend (s : app_t) (c : lc_t) : lc_t := (c <| rrc_req_id := app_req_id s |>) <| sent := [] |>.
Definition give_back (host : byte_order) (lcid : Z) (c : lc_t) (s : app_t) : app_t :=
  App (<[lcid := c]> (channel_rrc_contexts s)) (rrc_events s) (rrc_req_id c)
    (to_pdcp0 s ++ map (rrc_bytes host) (sent c))
    (rrc_rx_running s) (timer_running s) (timer2_running s) (reactor_running s).

Lemma on_channel_ok host lcid f s :
  on_channel host lcid f s =
  Ok (match channel_rrc_contexts s !! lcid with
      | None => s
      | Some c => give_back host lcid (f (lend s c)) s
      end).
Proof.
  unfold on_channel. destruct (channel_rrc_contexts s !! lcid) as [c|]; [|done].
  cbv zeta. fold (lend s c). by rewrite mapM_send_ok.
Qed.

(** The configurations a channel announces fit the message fields. *)
Lemma fill_from_config_ok s : is_u8 (lcid s) -> exchange_ok (fill_from_config s).
Proof.
  intros Hl. unfold exchange_ok, pdcp_config_ok, fill_from_config, to_rrc_mode, to_rrc_crc.
  cbn [r_lcid r_llcConfig r_txConfig r_mode r_crcType r_pdcpConfig r_allowRLF r_allowSegmentation
    r_allowReordering r_maxSnDistance r_cipherAlgorithm r_integrityAlgorithm r_compressionAlgorithm r_compressionLevel].
  split_and!; try ulia; try (intros d [= <-]; apply u16_range);
    try (case_decide; split; discriminate || reflexivity); unfold Z_of_bool; case_match; ulia.
Qed.

(** ** Establishing a channel *)

(** What a channel with these transmit configurations announces. *)
Definition announced (k : Z) (lt : illc_tx_config) (pt : ipdcp_tx_config) : RRC_Exchange :=
  fill_from_config (lc_new k lt illc_rx_default pt ipdcp_rx_default 0).

(** The channel is active, with no request left, and receives by the transmit
    configurations of its peer. *)
Definition active_with (lt : illc_tx_config) (pt : ipdcp_tx_config) (c : lc_t) : Prop :=
  txrx_state c = E_TXRX_STATE_ACTIVE /\ enabled c = all_enabled true /\ rrc_requests c = ∅ /\
  llc_rx_config c = IllcRx (it_mode lt) (it_crc_type lt) false /\
  pdcp_rx_config c = IpdcpRx (pt_allow_rlf pt) (pt_allow_segmentation pt) (pt_allow_reordering pt)
                       (u16 (pt_max_sn_distance pt)).

Lemma rx_of_announced k lt pt :
  rx_of_llc (r_llcConfig (announced k lt pt)) = IllcRx (it_mode lt) (it_crc_type lt) false /\
  rx_of_pdcp (r_pdcpConfig (announced k lt pt)) =
    IpdcpRx (pt_allow_rlf pt) (pt_allow_segmentation pt) (pt_allow_reordering pt) (u16 (pt_max_sn_distance pt)).
Proof. destruct lt as [? [] ? ? []], pt as [[] [] [] d]; split; reflexivity. Qed.

Lemma init_new t0 forced k lt lr pt pr q :
  let c := on_init t0 forced (lc_new k lt lr pt pr q) in
  sent c = [Rrc q (ExchangeRequest (announced k lt pt))] /\ rrc_req_id c = u8 (q + 1) /\
  forall q' t2 e, is_u8 q ->
    let c2 := on_exchange_response t2 q e ((c <| rrc_req_id := q' |>) <| sent := [] |>) in
    sent c2 = [] /\ enabled c2 = all_enabled false /\ rrc_requests c2 = ∅ /\
    llc_rx_config c2 = rx_of_llc (r_llcConfig e) /\ pdcp_rx_config c2 = rx_of_pdcp (r_pdcpConfig e) /\
    timer c2 = Timer 2 [((t2 + 100000, 1), CbActivate)].
Proof.
  cbv zeta. split; [by destruct forced|]. split; [by destruct forced|]. intros q' t2 e Hq.
  set (c := upd _ _ _). set (r0 := ReqCtx (t0 + 100000, 0) (Rrc 0 rrc_message_zero)).
  assert (rrc_requests c = {[q := r0]}) as Hr by (unfold c; destruct forced; simpl; by rewrite delete_empty).
  assert (timer c = Timer 1 [((t0 + 100000, 0), CbExpiry 3 q)]) as Ht by (unfold c; by destruct forced).
  assert (enabled c = all_enabled false /\ sent c = [] /\ activate_timer c = None) as (He & Hs & Ha)
    by (unfold c; by destruct forced).
  clearbody c. unfold on_exchange_response.
  assert (check_response q c = (c <| rrc_requests := ∅ |>) <| timer := Timer 1 [] |>) as ->.
  { unfold check_response. rewrite u8_id, Hr, lookup_singleton_eq by done.
    rewrite delete_singleton_eq. change (timer (c <| rrc_requests := ∅ |>)) with (timer c). rewrite Ht.
    unfold r0, cancel, map_erase. cbn [exp_timer m_cb_map m_timer_ctr fst].
    rewrite filter_cons_False by (by intros H). done. }
  set (c1 := upd timer _ _). destruct (schedule_activate_fields t2 (change_txrx_state E_TXRX_STATE_CONFIGURED (reconfigure_rx e c1)))
    as (_ & -> & -> & -> & -> & -> & _ & ->).
  change (activate_timer (change_txrx_state _ (reconfigure_rx e c1))) with (activate_timer c). rewrite Ha.
  split_and!; try done. destruct c. simpl in He. subst. reflexivity.
Qed.

Lemma request_new t1 r e k lt lr pt pr q :
  let c := on_exchange_request t1 r e (lc_new k lt lr pt pr q) in
  sent c = [Rrc (u8 r) (ExchangeResponse (announced k lt pt))] /\ rrc_requests c = ∅ /\
  llc_rx_config c = rx_of_llc (r_llcConfig e) /\ pdcp_rx_config c = rx_of_pdcp (r_pdcpConfig e) /\
  timer c = Timer 1 [((t1 + 100000, 0), CbActivate)].
Proof. cbv zeta. split_and!; reflexivity. Qed.

Lemma tick_activate t c n d i lt pt k :
  timer c = Timer n [((d, i), CbActivate)] -> d <= t -> rrc_requests c = ∅ ->
  llc_rx_config c = rx_of_llc (r_llcConfig (announced k lt pt)) ->
  pdcp_rx_config c = rx_of_pdcp (r_pdcpConfig (announced k lt pt)) ->
  exists c', tick t c = Ok c' /\ active_with lt pt c'.
Proof.
  intros Ht Hd Hr Hl Hp. destruct (rx_of_announced k lt pt) as (El & Ep).
  unfold tick, schedule. rewrite Ht. cbn [m_cb_map extract_due fst snd]. destruct (Z.leb_spec d t); [|lia].
  eexists. split; [reflexivity|]. unfold active_with.
  split; [done|]. split; [done|]. split; [exact Hr|]. split; [by rewrite <- El, <- Hl|by rewrite <- Ep, <- Hp].
Qed.

Lemma one_event host now e s : rrc_events s = [] ->
  on_rrc_events host now (push_rrc_event e s) = on_rrc_event host now e s.
Proof.
  intros H. unfold on_rrc_events, push_rrc_event. destruct s. simpl in H. subst.
  unfold upd. cbn [rrc_events app on_events].
  by destruct (on_rrc_event _ _ _ _).
Qed.

(** C13: a channel is set up by one exchange. If one station is told to set up
    channel [k], and the request and the response reach the other station
    through the codec, then every step succeeds, one message is sent each way,
    and once 100 ms have passed at either end that end is active in all its
    layers, has no request left, and receives by the transmit configuration of
    the other end ([max_sn_distance] reduced to 16 bits). *)
Theorem channel_established host k forced A B lta lra pta pra qa ltb lrb ptb prb qb t0 t1 t2 :
  is_u8 k -> is_u8 (app_req_id A) -> rrc_events A = [] -> rrc_events B = [] ->
  channel_rrc_contexts A !! k = Some (lc_new k lta lra pta pra qa) ->
  channel_rrc_contexts B !! k = Some (lc_new k ltb lrb ptb prb qb) ->
  exists A1 B1 A2 req resp ca cb,
    on_rrc_events host t0 (push_rrc_event (rrc_event_setup_t k forced) A) = Ok A1 /\
    to_pdcp0 A1 = to_pdcp0 A ++ [req] /\
    (s ← app_rrc_rx host req B; on_rrc_events host t1 s) = Ok B1 /\
    to_pdcp0 B1 = to_pdcp0 B ++ [resp] /\
    (s ← app_rrc_rx host resp A1; on_rrc_events host t2 s) = Ok A2 /\
    to_pdcp0 A2 = to_pdcp0 A1 /\
    channel_rrc_contexts A2 !! k = Some ca /\ channel_rrc_contexts B1 !! k = Some cb /\
    (forall t, t2 + 100000 <= t -> exists c, tick t ca = Ok c /\ active_with ltb ptb c) /\
    (forall t, t1 + 100000 <= t -> exists c, tick t cb = Ok c /\ active_with lta pta c).
Proof.
  intros Hk Hq HeA HeB HcA HcB. set (q := app_req_id A) in *.
  destruct (init_new t0 forced k lta lra pta pra q) as (S1 & Q1 & R1).
  set (c1 := on_init t0 forced (lc_new k lta lra pta pra q)) in *.
  set (reqm := Rrc q (ExchangeRequest (announced k lta pta))) in *.
  set (respm := Rrc q (ExchangeResponse (announced k ltb ptb))).
  assert (rrc_ok reqm /\ rrc_ok respm) as (O1 & O2) by (split; split; try done; by apply fill_from_config_ok).
  exists (give_back host k c1 A).
  destruct (request_new t1 q (announced k lta pta) k ltb lrb ptb prb (app_req_id B)) as (S2 & Q2 & L2 & P2 & T2).
  set (c2 := on_exchange_request t1 q (announced k lta pta) (lc_new k ltb lrb ptb prb (app_req_id B))) in *.
  rewrite u8_id in S2 by done. fold respm in S2.
  exists (give_back host k c2 B).
  specialize (R1 (rrc_req_id c1) t2 (announced k ltb ptb) Hq). cbv zeta in R1.
  set (c3 := on_exchange_response t2 q (announced k ltb ptb) _) in R1.
  destruct R1 as (S3 & _ & Q3 & L3 & P3 & T3).
  exists (give_back host k c3 (give_back host k c1 A)), (rrc_bytes host reqm), (rrc_bytes host respm), c3, c2.
  split; [rewrite one_event by done; cbn [on_rrc_event]; by rewrite on_channel_ok, HcA|].
  split; [cbn [give_back to_pdcp0]; by rewrite S1|].
  split.
  { rewrite app_rrc_rx_ok, bind_ret_l, one_event by done. cbn [on_rrc_event].
    change (message_lcid _) with k. by rewrite on_channel_ok, HcB. }
  split; [cbn [give_back to_pdcp0]; by rewrite S2|].
  split.
  { rewrite app_rrc_rx_ok, bind_ret_l, one_event by done. cbn [on_rrc_event].
    change (message_lcid _) with k. rewrite on_channel_ok. cbn [give_back channel_rrc_contexts].
    by rewrite lookup_insert_eq. }
  split; [cbn [give_back to_pdcp0]; by rewrite S3, app_nil_r|].
  split; [apply lookup_insert_eq|]. split; [apply lookup_insert_eq|].
  split; intros t Ht; [by eapply (tick_activate t c3)|by eapply (tick_activate t c2)].
Qed.

Definition app_example : app_t :=
  App {[3 := lc_new 3 (IllcTx false E_TX_MODE_AM 8 3 E_CRC_TYPE_NONE) illc_rx_default (IpdcpTx true false true 70000)
               ipdcp_rx_default 0]} [] 255 [] true true true true.

Lemma channel_established_witness :
  exists A1, on_rrc_events Little 10 (push_rrc_event (rrc_event_setup_t 3 false) app_example) = Ok A1 /\
    length (to_pdcp0 A1) = 1%nat.
Proof.
  destruct (channel_established Little 3 false app_example app_example
    (IllcTx false E_TX_MODE_AM 8 3 E_CRC_TYPE_NONE) illc_rx_default (IpdcpTx true false true 70000) ipdcp_rx_default 0
    (IllcTx false E_TX_MODE_AM 8 3 E_CRC_TYPE_NONE) illc_rx_default (IpdcpTx true false true 70000) ipdcp_rx_default 0
    10 20 30 ltac:(ulia) ltac:(vm_compute; split; congruence) eq_refl eq_refl eq_refl eq_refl)
    as (A1 & B1 & A2 & req & resp & ca & cb & E1 & E2 & _).
  exists A1. split; [exact E1|]. rewrite E2. reflexivity.
Defined.
