(* ===== verification/AppWifi.v ===== *)
(** * The wireless interface of the application ([winject/src/AppRRC.cpp], [WIFI.hpp], [WIFIUDP.hpp])

    The base frame that carries every transmission, its sending, and the way
    of a received packet from the socket to [process_rx_frame]. Logging is left
    out, and of the statistics the average of the signal: only the reading of
    the field for it is modelled. *)

From stdpp Require Import gmap.
From S2P Require Import Prelude Mem SafeInt LlcFrame SafeChecker FecFrame Info Filters Radiotap Ieee80211 RxFrame.

(** ** Devices *)

(** [WIFI] and [DualWIFI] send the bytes they are given, [WIFIUDP] four more,
    where a card would have the check sequence; all are read from the buffer
    that [send] is called with. *)
Inductive wifi_device := WIFI | DualWIFI | WIFIUDP.
Definition wifi_send (dev : wifi_device) (buff : list Z) (sz : Z) : res (list Z) :=
  rd_n buff 0 (match dev with WIFIUDP => sz + 4 | _ => sz end).

(** The constructor of [AppRRC] picks the device, and filters what a card hears. *)
Definition pick_device (woudp_rx wifi_device2 : bool) : wifi_device :=
  if negb woudp_rx && negb wifi_device2 then WIFI else if wifi_device2 then DualWIFI else WIFIUDP.
Definition socket_filter (dev : wifi_device) (hwdst : Z) : option (list sock_filter) :=
  match dev with WIFIUDP => None | _ => Some (winject_src hwdst) end.
Definition socket_accepts `{BpfMachine} (dev : wifi_device) (hwdst : Z) (pkt : list Z) : bool :=
  match socket_filter dev hwdst with Some prog => bpf_accepts prog pkt | None => true end.

(** [recv] into a buffer: a packet that is too long for it is cut off. *)
Definition wifi_recv (pkt buff : list Z) : list Z * Z :=
  let got := take (length buff) pkt in (splice buff 0 got, zlen got).

(** ** The base frame *)

Section wifi.
(** The addresses of [tx_buff] and of [rx_buff], for the alignment. *)
Variable org : Z.

Definition buff_size : Z := 1024 * 2.

Definition or_at (t : sf_type) (u : Z) (p : Z) (m : list Z) : res (list Z) :=
  v ← sf_load Little t m p; sf_store Little t m p (Z.lor v u).
Definition or_byte (u : Z) (p : Z) (m : list Z) : res (list Z) :=
  v ← rd m p; wr m p (Z.lor v u).

Definition E_FLAGS_NOACK : Z := 0x0008.
Definition E_FLAGS_NOREORDER : Z := 0x0020.
Definition E_KNOWN_BW : Z := 0x01.
Definition E_KNOWN_MCS : Z := 0x02.
Definition E_KNOWN_STBC : Z := 0x20.
Definition E_FLAG_BW_20 : Z := 0.
Definition E_FLAG_STBC_1 : Z := 0x20.

Definition setup_radiotap (m : list Z) : res (list Z * radiotap_t) :=
  let radiotap := radiotap_make (Some 0) in
  h ← deref (header radiotap);
  m ← or_at LEU32 E_FIELD_PRESENCE_FLAGS (h + 4) m;
  m ← or_at LEU32 E_FIELD_PRESENCE_RATE (h + 4) m;
  m ← or_at LEU32 E_FIELD_PRESENCE_TX_FLAGS (h + 4) m;
  m ← or_at LEU32 E_FIELD_PRESENCE_MCS (h + 4) m;
  '(m, radiotap) ← rt_rescan org m true radiotap;
  m ← wr m h 0;
  rate ← deref (fields radiotap !! E_FIELD_PRESENCE_RATE);
  m ← wr m rate (65 * 2);
  tx_flags ← deref (fields radiotap !! E_FIELD_PRESENCE_TX_FLAGS);
  m ← or_at LEU16 E_FLAGS_NOACK tx_flags m;
  m ← or_at LEU16 E_FLAGS_NOREORDER tx_flags m;
  mcs ← deref (fields radiotap !! E_FIELD_PRESENCE_MCS);
  m ← or_byte E_KNOWN_BW mcs m;
  m ← or_byte E_KNOWN_MCS mcs m;
  m ← or_byte E_KNOWN_STBC mcs m;
  m ← wr m (mcs + 2) 7;
  m ← or_byte E_FLAG_BW_20 (mcs + 1) m;
  m ← or_byte E_FLAG_STBC_1 (mcs + 1) m;
  mret (m, radiotap).

(** [srcraw] and [dstraw] are the numbers read from the configured strings. *)
Definition setup_tx_frame (srcraw dstraw : Z) (radiotap : radiotap_t) (m : list Z) : res (list Z * frame_t) :=
  e ← rt_end m radiotap;
  let tx_frame := frame_make (Some e) buff_size in
  fc ← deref (frame_control tx_frame);
  m ← wr m fc E_TYPE_DATA;
  tx_frame ← frame_rescan m tx_frame;
  a1 ← deref (address1 tx_frame);
  m ← address_set m a1 0xFFFFFFFFFFFF;
  let addr2 := Z.lor (u64 (Z.shiftl srcraw 24)) dstraw in
  a2 ← deref (address2 tx_frame);
  m ← address_set m a2 addr2;
  a3 ← deref (address3 tx_frame);
  m ← address_set m a3 0xDEADBEEFCAFE;
  mret (m, set_enable_fcs false tx_frame).

Definition setup_80211_base_frame (srcraw dstraw : Z) : res (list Z * radiotap_t * frame_t) :=
  let m := replicate (Z.to_nat buff_size) 0 in
  '(m, radiotap) ← setup_radiotap m;
  '(m, tx_frame) ← setup_tx_frame srcraw dstraw radiotap m;
  mret (m, radiotap, tx_frame).

(** What is handed to the device, and the frame afterwards. *)
Definition perform_tx (dev : wifi_device) (payload_size : Z) (m : list Z) (radiotap : radiotap_t) (tx_frame : frame_t)
    : res (list Z * frame_t) :=
  tx_frame ← set_body_size payload_size tx_frame;
  rs ← rt_size m radiotap;
  fs ← frame_size tx_frame;
  pkt ← wifi_send dev m (u64 (rs + fs));
  mret (pkt, tx_frame).

(** ** Reception *)

(** [pkt] is what the socket has, if [recv] succeeds. The result has the signal
    strength that was read for the statistics. *)
Definition on_wifi_rx {E} `{IllcRx E} (pkt : option (list Z)) (rx_buff : list Z) (e : E) : res (list Z * E * option Z) :=
  match pkt with
  | None => mret (rx_buff, e, None)
  | Some pkt =>
    let '(m, rv) := wifi_recv pkt rx_buff in
    '(m, radiotap) ← rt_rescan org m false (radiotap_make (Some 0));
    dbm ← (match fields radiotap !! E_FIELD_PRESENCE_DBM_ANTSIGNAL with
           | Some p => v ← rd m p; mret (Some v)
           | None => mret None
           end);
    re ← rt_end m radiotap;
    frame80211 ← frame_rescan m (frame_make (Some re) (zlen m));
    match frame_body frame80211 with
    | None => mret (m, e, dbm)
    | Some body =>
      '(m, e) ← process_rx_frame m body (u64 (rv - body - 4)) e;
      mret (m, e, dbm)
    end
  end.
End wifi.


(** ** The base frame *)

(** A radiotap header with a rate, the transmit flags and an MCS, and the header
    of a data frame with these addresses. *)
Definition base_header : list Z := [0; 0; 15; 0; 6; 128; 8; 0; 0; 130; 40; 0; 35; 32; 7].
Definition mac_header (addr2 : Z) : list Z :=
  [8; 0; 0; 0] ++ replicate 6 255 ++ address_bytes addr2 ++ [0xDE; 0xAD; 0xBE; 0xEF; 0xCA; 0xFE] ++ [0; 0].
Definition source_address (srcraw dstraw : Z) : Z := Z.lor (u64 (Z.shiftl srcraw 24)) dstraw.

Lemma zlen_mac_header a : zlen (mac_header a) = 24.
Proof. reflexivity. Qed.

Definition base_fields : gmap Z Z :=
  {[E_FIELD_PRESENCE_FLAGS := 8; E_FIELD_PRESENCE_RATE := 9; E_FIELD_PRESENCE_TX_FLAGS := 10; E_FIELD_PRESENCE_MCS := 12]}.
Definition base_radiotap : radiotap_t := Radiotap (Some 0) None base_fields E_STATUS_OK 15.
Definition base_tx_frame : frame_t := set_enable_fcs false (frame_layout (DataFrame false) 15 2048 true).

Lemma setup_radiotap_base org : (8 | org) ->
  setup_radiotap org (replicate (Z.to_nat buff_size) 0) = Ok (base_header ++ replicate 2033 0, base_radiotap).
Proof.
  intros Ho. transitivity (setup_radiotap 0 (replicate (Z.to_nat buff_size) 0)); [|vm_compute; reflexivity].
  unfold setup_radiotap. cbn [radiotap_make header deref]. rewrite !bind_ret_l.
  do 4 (destruct (or_at _ _ _ _); [rewrite !bind_ret_l|done..]). by rewrite rt_rescan_org.
Qed.

Lemma setup_base org srcraw dstraw : (8 | org) ->
  setup_80211_base_frame org srcraw dstraw =
    Ok (base_header ++ mac_header (source_address srcraw dstraw) ++ replicate 2009 0, base_radiotap, base_tx_frame).
Proof.
  intros Ho. unfold setup_80211_base_frame. rewrite setup_radiotap_base, bind_ret_l by done.
  unfold setup_tx_frame, mac_header. fold (source_address srcraw dstraw). unfold address_set.
  rewrite address_bytes_spec. generalize (source_address srcraw dstraw). intros v.
  generalize (v / 2 ^ 40 mod 256) (v / 2 ^ 32 mod 256) (v / 2 ^ 24 mod 256) (v / 2 ^ 16 mod 256) (v / 2 ^ 8 mod 256) (v mod 256).
  intros. vm_compute. reflexivity.
Qed.

(** ** Transmission *)

(** The buffer and the views between transmissions. *)
Record tx_ready (addr2 : Z) (m : list Z) (rt : radiotap_t) (fr : frame_t) : Prop := TxReady {
  tr_len : zlen m = 2048;
  tr_head : slice m 0 39 = base_header ++ mac_header addr2;
  tr_radiotap : header rt = Some 0;
  tr_control : frame_control fr = Some 15;
  tr_body : frame_body fr = Some 39;
  tr_fcs : is_enabled_fcs fr = false }.

Definition extra (dev : wifi_device) : Z := match dev with WIFIUDP => 4 | _ => 0 end.

Lemma wifi_send_slice dev m n : zlen m = 2048 -> 0 <= n ->
  wifi_send dev m n = if n + extra dev <=? 2048 then Ok (slice m 0 (n + extra dev)) else Ub OutOfBounds.
Proof.
  intros Hm Hn. unfold wifi_send. replace (match dev with WIFIUDP => n + 4 | _ => n end) with (n + extra dev) by (destruct dev; cbn; lia).
  assert (0 <= extra dev) by (destruct dev; cbn; lia). unfold rd_n. rewrite Hm.
  destruct (Z.leb_spec (n + extra dev) 2048); repeat (case_match; try lia); done || (exfalso; lia).
Qed.

Lemma tx_ready_radiotap addr2 m rt fr : tx_ready addr2 m rt fr -> rt_size m rt = Ok 15.
Proof.
  intros [Hm Hh Hr _ _ _]. unfold rt_size, sf_load. rewrite Hr. cbn [deref]. rewrite bind_ret_l.
  change (Z.of_nat (sf_bytes LEU16)) with 2. rewrite (rd_n_in m (0 + 2) 2), bind_ret_l by lia.
  replace (slice m (0 + 2) 2) with (slice (slice m 0 39) 2 2) by (rewrite slice_slice; [f_equal; lia|lia..]).
  rewrite Hh. reflexivity.
Qed.

Lemma tx_ready_sends addr2 dev n m rt fr : tx_ready addr2 m rt fr -> is_u16 n ->
  (39 + n + extra dev <= 2048 -> exists fr', tx_ready addr2 m rt fr' /\
     perform_tx dev n m rt fr = Ok (base_header ++ mac_header addr2 ++ slice m 39 (n + extra dev), fr')) /\
  (2048 < 39 + n + extra dev -> perform_tx dev n m rt fr = Ub OutOfBounds).
Proof.
  intros Hr Hn. pose proof (tx_ready_radiotap _ _ _ _ Hr) as Hs. destruct Hr as [Hm Hh Hrt Hc Hb He].
  assert (0 <= extra dev <= 4) as Hx by (destruct dev; cbn; lia).
  assert (perform_tx dev n m rt fr = (pkt ← wifi_send dev m (39 + n); mret (pkt, fr <| fcs := Some (39 + n) |>))) as ->.
  { unfold perform_tx, set_body_size. rewrite Hb. cbn [deref]. rewrite !bind_ret_l, Hs, bind_ret_l, u16_id by done.
    set (fr' := fr <| fcs := _ |>). unfold frame_size, frame_end. change (is_enabled_fcs fr') with (is_enabled_fcs fr).
    change (frame_control fr') with (frame_control fr). rewrite He, Hc. change (fcs fr') with (Some (39 + n)). cbn [deref].
    rewrite !bind_ret_l. by replace (u64 (15 + u64 (39 + n - 15))) with (39 + n) by ulia. }
  rewrite wifi_send_slice by ulia. split; intros Hl.
  - rewrite (proj2 (Z.leb_le _ _)) by lia. rewrite bind_ret_l. exists (fr <| fcs := Some (39 + n) |>). split; [by constructor|]. unfold mret, res_ret. do 2 f_equal.
    replace (39 + n + extra dev) with (39 + (n + extra dev)) by lia. rewrite slice_app, Hh, <- app_assoc by ulia. done.
  - by rewrite (proj2 (Z.leb_gt _ _)) by lia.
Qed.

Lemma tx_ready_base org srcraw dstraw m rt fr : (8 | org) -> setup_80211_base_frame org srcraw dstraw = Ok (m, rt, fr) ->
  tx_ready (source_address srcraw dstraw) m rt fr.
Proof. intros Ho. rewrite setup_base by done. intros [= <- <- <-]. by constructor. Qed.

(** The base frame and the transmissions from it, if [tx_buff] is aligned
    to 8 bytes. After the set-up the buffer begins with a radiotap header and
    the header of a data frame to all stations whose source address has the
    configured numbers, and the views are ready for a transmission. As long as
    these 39 bytes stay, each transmission sends them and as much of the buffer
    behind them as it is asked for, four bytes more over UDP, and leaves the
    views ready for the next; if that is past the end of the buffer, it reads
    out of bounds. *)
Theorem base_frame_sends org srcraw dstraw : (8 | org) ->
  let addr2 := source_address srcraw dstraw in
  (exists m rt fr, setup_80211_base_frame org srcraw dstraw = Ok (m, rt, fr) /\ tx_ready addr2 m rt fr) /\
  forall dev n m rt fr, tx_ready addr2 m rt fr -> is_u16 n ->
    (39 + n + extra dev <= 2048 -> exists fr', tx_ready addr2 m rt fr' /\
       perform_tx dev n m rt fr = Ok (base_header ++ mac_header addr2 ++ slice m 39 (n + extra dev), fr')) /\
    (2048 < 39 + n + extra dev -> perform_tx dev n m rt fr = Ub OutOfBounds).
Proof.
  intros Ho addr2. split; [|by apply tx_ready_sends].
  do 3 eexists. split; [by apply setup_base|]. by apply (tx_ready_base org); [|apply setup_base].
Qed.

Lemma base_frame_sends_witness :
  exists m rt fr fr', setup_80211_base_frame 0 0x112233 0x445566 = Ok (m, rt, fr) /\
    perform_tx WIFIUDP 1 m rt fr =
      Ok (base_header ++ mac_header 0x112233445566 ++ slice m 39 5, fr').
Proof.
  destruct (base_frame_sends 0 0x112233 0x445566 (Z.divide_0_r 8)) as ((m & rt & fr & E & Hr) & Hs).
  destruct (proj1 (Hs WIFIUDP 1 m rt fr Hr ltac:(ulia)) ltac:(cbn; lia)) as (fr' & _ & Ep).
  exists m, rt, fr, fr'. split; [exact E|exact Ep].
Defined.

(** ** Reception *)

(** The buffer after a packet was received into it. *)
Definition received (pkt rx_buff : list Z) : list Z := splice rx_buff 0 pkt.

(** A receive buffer, and a packet as the socket hands it over. *)
Record rx_ready (pkt rx_buff : list Z) : Prop := RxReady {
  rr_len : zlen rx_buff = 2048;
  rr_bytes : bytes_ok rx_buff;
  rr_pkt : zlen pkt <= 2048;
  rr_pkt_bytes : bytes_ok pkt }.

Lemma received_ok pkt rx_buff : rx_ready pkt rx_buff ->
  wifi_recv pkt rx_buff = (received pkt rx_buff, zlen pkt) /\ zlen (received pkt rx_buff) = 2048 /\ bytes_ok (received pkt rx_buff).
Proof.
  intros [Hm Hb Hp Hpb]. assert (zlen (received pkt rx_buff) = 2048) as Hz by (unfold received; rewrite zlen_splice; lia).
  split; [|split; [done|by apply bytes_ok_splice]]. unfold wifi_recv. rewrite take_ge; [done|]. unfold zlen in *. lia.
Qed.

Lemma leu16_image a b : is_u8 a -> is_u8 b -> sf_get Little LEU16 (sf_of_image Little LEU16 [a; b]) = b * 256 + a.
Proof.
  intros Ha Hb. unfold sf_get, sf_of_image, sf_convert. rewrite decide_True by done. unfold sf_trunc, to_uint, of_bytes, LEU16.
  cbn [sf_signed sf_bytes le_combine]. change (256 ^ Z.of_nat 2) with 65536. rewrite !Z.mod_small; ulia.
Qed.

Lemma rt_len_load pkt rx_buff len : rx_ready pkt rx_buff -> rt_len pkt = Some len ->
  sf_load Little LEU16 (received pkt rx_buff) 2 = Ok len.
Proof.
  intros Hr Hl. destruct (received_ok _ _ Hr) as (_ & Hz & _). pose proof Hr as [Hrl Hrb Hp Hpb].
  unfold rt_len, bpf_load in Hl. destruct (3 + 1 <=? zlen pkt) eqn:E3; [|by destruct (2 + 1 <=? zlen pkt)].
  apply Z.leb_le in E3. rewrite (proj2 (Z.leb_le (2 + 1) _)) in Hl by lia.
  destruct pkt as [|b0 [|b1 [|b2 [|b3 pkt]]]]; try (unfold zlen in E3; cbn in E3; lia). cbn in Hl. injection Hl as <-.
  apply list.Forall_cons in Hpb as [_ Hpb]. apply list.Forall_cons in Hpb as [_ Hpb].
  apply list.Forall_cons in Hpb as [H2 Hpb]. apply list.Forall_cons in Hpb as [H3 _].
  unfold sf_load. change (Z.of_nat (sf_bytes LEU16)) with 2. rewrite rd_n_in, bind_ret_l by lia. f_equal.
  exact (leu16_image b2 b3 H2 H3).
Qed.

Lemma slice_received pkt rx_buff i n : zlen pkt <= zlen rx_buff -> 0 <= i -> 0 <= n -> i + n <= zlen pkt ->
  slice (received pkt rx_buff) i n = slice pkt i n.
Proof.
  intros Hp Hi Hn Hl. unfold received. rewrite <- (slice_splice_same rx_buff 0 pkt) at 2 by lia. by rewrite slice_slice by lia.
Qed.
Lemma rd_received pkt rx_buff i b : zlen pkt <= zlen rx_buff -> rd pkt i = Ok b -> rd (received pkt rx_buff) i = Ok b.
Proof.
  intros Hp Hr. apply rd_Ok in Hr as [Hi Hb]. unfold received. replace i with (0 + Z.of_nat (Z.to_nat i)) by lia.
  apply rd_splice_same; done || lia.
Qed.
Lemma slice_mid (a b c : list Z) : slice (a ++ b ++ c) (zlen a) (zlen b) = b.
Proof. unfold slice, zlen. rewrite !Nat2Z.id, drop_app_length. apply take_app_length. Qed.

Section rx.
Context {E : Type} `{IllcRx E}.
Variable org : Z.

(** From the socket to the body of the frame: the length that the radiotap
    header declares says where the frame begins. *)
Lemma wifi_rx_spec pkt rx_buff (e : E) len : rx_ready pkt rx_buff ->
  sf_load Little LEU16 (received pkt rx_buff) 2 = Ok len ->
  (2048 <= len -> on_wifi_rx org (Some pkt) rx_buff e = Ub OutOfBounds) /\
  forall ty fl, rd (received pkt rx_buff) len = Ok ty -> rd (received pkt rx_buff) (len + 1) = Ok fl ->
    exists dbm, on_wifi_rx org (Some pkt) rx_buff e =
      match kind_of ty fl with
      | DataFrame four =>
        '(m, e) ← process_rx_frame (received pkt rx_buff) (len + header_size four)
          (u64 (zlen pkt - (len + header_size four) - 4)) e;
        mret (m, e, dbm)
      | _ => mret (received pkt rx_buff, e, dbm)
      end.
Proof.
  intros Hr Hlen. destruct (received_ok _ _ Hr) as (Er & Hz & _). set (m := received pkt rx_buff) in *.
  destruct (rt_rescan_any org m ltac:(lia)) as (rt & Es & Hh & Hfs).
  assert (exists dbm : option Z, (match fields rt !! E_FIELD_PRESENCE_DBM_ANTSIGNAL with
           | Some p => v ← rd m p; mret (Some v) | None => mret None end) = Ok dbm) as (dbm & Ed).
  { destruct (fields rt !! _) as [p|] eqn:Ep; [|by eexists]. destruct (rd_in m p) as (v & -> & _); [|by eexists].
    specialize (Hfs _ _ Ep). lia. }
  assert (rt_end m rt = Ok len) as Ee.
  { unfold rt_end, rt_size. rewrite Hh. cbn [deref]. rewrite !bind_ret_l. change (0 + 2) with 2. by rewrite Hlen. }
  unfold on_wifi_rx. rewrite Er, Es, bind_ret_l, Ed, bind_ret_l, Ee, bind_ret_l. clearbody m. split.
  - intros Hl. unfold frame_rescan, frame_reset, frame_make. cbn [frame_control duration last deref fmap option_fmap option_map].
    rewrite bind_ret_l. unfold rd. rewrite (proj2 (Z.ltb_ge len 0)) by lia.
    rewrite (proj2 (lookup_ge_None m (Z.to_nat len))); [done|]. unfold zlen in Hz. lia.
  - intros ty fl Ht Hf. exists dbm. rewrite (frame_rescan_spec m _ len (zlen m) ty fl) by done. rewrite bind_ret_l.
    by destruct (kind_of ty fl).
Qed.
End rx.

(** ** The link *)

Lemma source_address_src src dst : 0 <= src -> 0 <= dst < 2 ^ 24 -> source_address src dst / 2 ^ 24 mod 2 ^ 24 = src mod 2 ^ 24.
Proof.
  intros Hs Hd. unfold source_address. rewrite Z.shiftl_mul_pow2 by lia. change (2 ^ 24) with 16777216 in *.
  replace (u64 (src * 16777216)) with (src mod 1099511627776 * 2 ^ 24) by (change (2 ^ 24) with 16777216; ulia).
  rewrite lor_shift by (change (2 ^ 24) with 16777216; lia). change (2 ^ 24) with 16777216. lia.
Qed.

Lemma source_address_number src dst : 0 <= src -> 0 <= dst < 2 ^ 24 ->
  source_address src dst mod 2 ^ 48 = src mod 2 ^ 24 * 2 ^ 24 + dst.
Proof.
  intros Hs Hd. unfold source_address. rewrite Z.shiftl_mul_pow2 by lia. change (2 ^ 24) with 16777216 in *.
  replace (u64 (src * 16777216)) with (src mod 1099511627776 * 2 ^ 24) by (change (2 ^ 24) with 16777216; ulia).
  rewrite lor_shift by (change (2 ^ 24) with 16777216; lia). change (2 ^ 24) with 16777216. change (2 ^ 48) with 281474976710656. lia.
Qed.

(** The frame of a station in a packet: behind a radiotap header, with the
    check sequence. *)
Record framed (addr2 : Z) (body pkt rh : list Z) : Prop := Framed {
  hd_radiotap : rt_len rh = Some (zlen rh);
  hd_pkt : exists fcs, zlen fcs = 4 /\ pkt = rh ++ mac_header addr2 ++ body ++ fcs }.

Lemma framed_rt addr2 body pkt rh : framed addr2 body pkt rh -> rt_len pkt = Some (zlen rh).
Proof.
  intros [Hr (fcs & _ & ->)]. pose proof (rt_len_fits rh _ Hr) as Hz. unfold rt_len in *. by rewrite !bpf_load_app_l by lia.
Qed.
Lemma framed_starts addr2 body pkt rh : framed addr2 body pkt rh ->
  zlen pkt = zlen rh + 24 + zlen body + 4 /\ rd pkt (zlen rh) = Ok 8 /\ rd pkt (zlen rh + 1) = Ok 0.
Proof.
  intros [Hr (fcs & Hz & ->)]. rewrite !zlen_app, zlen_mac_header. split; [lia|]. pose proof (zlen_nonneg rh) as Hl.
  split; apply rd_Ok; (split; [lia|]); unfold zlen in *.
  - rewrite Nat2Z.id. rewrite lookup_app_r, Nat.sub_diag by lia. done.
  - rewrite Z2Nat.inj_add, Nat2Z.id by lia. rewrite lookup_app_r by lia. by replace (length rh + Z.to_nat 1 - length rh)%nat with 1%nat by lia.
Qed.

Lemma framed_field addr2 body pkt rh off n : framed addr2 body pkt rh -> 0 <= n -> 0 <= off -> off + n <= 24 ->
  field pkt off n = bpf_load n (mac_header addr2) off.
Proof.
  intros Hh Hn Ho Hl. rewrite (field_at _ (zlen rh)) by by apply (framed_rt addr2 body). destruct Hh as [Hr (fcs & _ & ->)].
  by rewrite bpf_load_app_r, bpf_load_app_l by (rewrite ?zlen_mac_header; lia).
Qed.

Lemma mac_header_fields addr2 :
  bpf_load 1 (mac_header addr2) 0 = Some 8 /\ bpf_load 4 (mac_header addr2) 4 = Some 0xFFFFFFFF /\
  bpf_load 6 (mac_header addr2) 16 = Some 0xDEADBEEFCAFE /\
  bpf_load 3 (mac_header addr2) 10 = Some (addr2 / 2 ^ 24 mod 2 ^ 24).
Proof.
  split_and!; try reflexivity. unfold mac_header. rewrite address_bytes_spec.
  change (bpf_load 3 _ 10) with (Some (be_value [addr2 / 2 ^ 40 mod 256; addr2 / 2 ^ 32 mod 256; addr2 / 2 ^ 24 mod 256])).
  f_equal. unfold be_value. cbn [fold_left]. change (2 ^ 40) with 1099511627776. change (2 ^ 32) with 4294967296.
  change (2 ^ 24) with 16777216. lia.
Qed.

Section link.
Context {E : Type} `{IllcRx E} `{BpfLaws}.
Variable org : Z.

Lemma framed_body addr2 body pkt rh rx_buff : framed addr2 body pkt rh -> rx_ready pkt rx_buff ->
  slice (received pkt rx_buff) (zlen rh + 24) (zlen body) = body /\
  slice (received pkt rx_buff) (zlen rh + 10) 6 = address_bytes addr2.
Proof.
  intros Hh [Hrl _ Hrp _]. destruct (framed_starts _ _ _ _ Hh) as (Hl & _). destruct Hh as [_ (fcs & Hz & Ep)].
  pose proof (zlen_nonneg rh). pose proof (zlen_nonneg body). rewrite !slice_received, Ep by lia. split.
  - rewrite app_assoc, <- (zlen_mac_header addr2), <- zlen_app. apply slice_mid.
  - unfold mac_header. rewrite <- !app_assoc, (app_assoc rh), (app_assoc (rh ++ _)).
    replace (zlen rh + 10) with (zlen ((rh ++ [8; 0; 0; 0]) ++ replicate 6 255)) by (rewrite !zlen_app; change (zlen [8; 0; 0; 0]) with 4; change (zlen (replicate 6 255)) with 6; lia).
    rewrite <- (zlen_address_bytes addr2). apply slice_mid.
Qed.

Lemma framed_accepted srcraw dstraw dev hwdst body pkt rh : 0 <= srcraw -> 0 <= dstraw < 2 ^ 24 ->
  framed (source_address srcraw dstraw) body pkt rh -> bytes_ok pkt ->
  socket_accepts dev hwdst pkt = true <-> dev = WIFIUDP \/ srcraw mod 2 ^ 24 = hwdst mod 2 ^ 24.
Proof.
  intros Hs Hd Hh Hpb. pose proof (mac_header_fields (source_address srcraw dstraw)) as (F0 & F4 & F16 & F10).
  rewrite source_address_src in F10 by done.
  assert (bpf_accepts (winject_src hwdst) pkt = true <-> srcraw mod 2 ^ 24 = hwdst mod 2 ^ 24) as Ha.
  { rewrite winject_src_accepts by done. unfold is_data_frame. rewrite !(framed_field _ _ _ _ _ _ Hh) by lia.
    rewrite F0, F4, F16, F10. split; [by intros (_ & _ & _ & [= ->])|]. intros ->. split; [by exists 8|done]. }
  destruct dev; unfold socket_accepts, socket_filter; [rewrite Ha|rewrite Ha|]; intuition discriminate.
Qed.

Lemma framed_received addr2 body pkt rh rx_buff (e : E) : framed addr2 body pkt rh -> rx_ready pkt rx_buff ->
  exists dbm, on_wifi_rx org (Some pkt) rx_buff e =
    ('(m, e) ← process_rx_frame (received pkt rx_buff) (zlen rh + 24) (zlen body) e; mret (m, e, dbm)).
Proof.
  intros Hh Hr. destruct (framed_starts _ _ _ _ Hh) as (Hl & R0 & R1). pose proof Hr as [Hrl _ Hrp _].
  destruct (wifi_rx_spec org pkt rx_buff e (zlen rh) Hr) as [_ Hrx].
  { apply rt_len_load; [done|]. by apply (framed_rt _ _ _ _ Hh). }
  destruct (Hrx 8 0) as (dbm & ->); [apply rd_received; [lia|done]..|]. exists dbm. change (kind_of 8 0) with (DataFrame false).
  cbv iota. change (header_size false) with 24. rewrite Hl.
  replace (u64 _) with (zlen body); [done|]. pose proof (zlen_nonneg body). pose proof (zlen_nonneg rh). rewrite u64_id; ulia.
Qed.

(** A station: it sets up its base frame; then payloads are written behind
    the header, and frames are sent. *)
Inductive station (sorg srcraw dstraw : Z) (dev : wifi_device) : list Z -> radiotap_t -> frame_t -> Prop :=
| st_setup m rt fr : setup_80211_base_frame sorg srcraw dstraw = Ok (m, rt, fr) -> station sorg srcraw dstraw dev m rt fr
| st_payload m rt fr b off bs : station sorg srcraw dstraw dev m rt fr -> frame_body fr = Some b -> b <= off ->
    off + zlen bs <= zlen m -> station sorg srcraw dstraw dev (splice m off bs) rt fr
| st_tx m rt fr n air fr' : station sorg srcraw dstraw dev m rt fr -> is_u16 n ->
    perform_tx dev n m rt fr = Ok (air, fr') -> station sorg srcraw dstraw dev m rt fr'.

(** How [air], that one device has sent, is heard by another as [pkt], with
    [rh] in front. A card takes the radiotap header off what it sends, and puts
    one of its own in front of what it hears, and the check sequence behind.
    Over UDP nothing is changed. *)
Inductive heard : wifi_device -> wifi_device -> list Z -> list Z -> list Z -> Prop :=
| heard_card dev dev' air len rh fcs : dev <> WIFIUDP -> dev' <> WIFIUDP -> rt_len air = Some len ->
    rt_len rh = Some (zlen rh) -> zlen fcs = 4 -> heard dev dev' air (rh ++ drop (Z.to_nat len) air ++ fcs) rh
| heard_udp air len : rt_len air = Some len -> heard WIFIUDP WIFIUDP air air (take (Z.to_nat len) air).

Lemma station_ready sorg srcraw dstraw dev m rt fr : (8 | sorg) -> station sorg srcraw dstraw dev m rt fr ->
  tx_ready (source_address srcraw dstraw) m rt fr.
Proof.
  intros Ho. induction 1 as [m rt fr E1|m rt fr b off bs _ IH Hb Ho' Hl|m rt fr n air fr' _ IH Hn Ht].
  - by apply (tx_ready_base sorg).
  - destruct IH as [Hm Hh Hr Hc Hfb Hf]. assert (b = 39) as -> by congruence. pose proof (zlen_nonneg bs).
    constructor; try done; [rewrite zlen_splice; lia|]. rewrite <- Hh. apply slice_splice_before; lia.
  - destruct (tx_ready_sends _ dev n m rt fr IH Hn) as (Hs1 & Hs2).
    destruct (decide (39 + n + extra dev <= 2048)) as [Hle|]; [|rewrite Hs2 in Ht by lia; done].
    destruct (Hs1 Hle) as (fr2 & Hr & E2). congruence.
Qed.

Lemma rt_len_base l : rt_len (base_header ++ l) = Some 15.
Proof. unfold rt_len. rewrite !bpf_load_app_l by (vm_compute; discriminate). reflexivity. Qed.

Lemma heard_framed addr2 dev dev' n m rt fr air fr' pkt rh : tx_ready addr2 m rt fr -> is_u16 n ->
  perform_tx dev n m rt fr = Ok (air, fr') -> heard dev dev' air pkt rh -> framed addr2 (slice m 39 n) pkt rh.
Proof.
  intros Hr Hn Ht Hh. destruct (tx_ready_sends _ dev n m rt fr Hr Hn) as (Hs1 & Hs2). pose proof (tr_len _ _ _ _ Hr) as Hm.
  destruct (decide (39 + n + extra dev <= 2048)) as [Hle|]; [|rewrite Hs2 in Ht by lia; done].
  destruct (Hs1 Hle) as (fr2 & _ & E2). rewrite Ht in E2.
  assert (air = base_header ++ mac_header addr2 ++ slice m 39 (n + extra dev)) as Ea by congruence. clear Hs1 Hs2 Ht E2.
  destruct Hh as [dev dev' air len rh fcs Hd _ El Hrh Hz|air len El]; rewrite Ea, rt_len_base in El; injection El as <-; rewrite Ea.
  - change (Z.to_nat 15) with (length base_header). rewrite drop_app_length. constructor; [done|]. exists fcs. split; [done|].
    replace (n + extra dev) with n by (destruct dev; cbn; lia || done). by rewrite <- app_assoc.
  - constructor; [reflexivity|]. exists (slice m (39 + n) 4). cbn in Hle. split; [rewrite zlen_slice; ulia|].
    change (extra WIFIUDP) with 4. by rewrite slice_app by ulia.
Qed.

Lemma sent_len addr2 dev n m rt fr air fr' : tx_ready addr2 m rt fr -> is_u16 n ->
  perform_tx dev n m rt fr = Ok (air, fr') -> zlen (slice m 39 n) = n.
Proof.
  intros Hr Hn Ht. destruct (tx_ready_sends _ dev n m rt fr Hr Hn) as (_ & H2). pose proof (tr_len _ _ _ _ Hr) as Hm.
  assert (0 <= extra dev) by (destruct dev; cbn; lia).
  destruct (decide (39 + n + extra dev <= 2048)) as [Hle|]; [|rewrite H2 in Ht by lia; done].
  apply zlen_slice; ulia.
Qed.

(** C21: the wireless link, for two stations whose numbers fit. A station
    whose buffer is aligned to 8 bytes sets up its base frame, and then writes
    payloads and sends, any number of times. Whatever it sends is accepted by
    the socket of another, on a card, if and only if the receiver is configured
    with the number of the sender (24 bits of it are compared); over UDP all is
    accepted. Whatever the radiotap header that the receiving card puts in
    front, the receiver then finds the two numbers of the sender in the second
    address and exactly the payload that was sent in the body, and processes
    that as a frame of its size. *)
Theorem wifi_link sorg srcraw dstraw sdev m rt fr n air fr' dev hwdst pkt rh rx_buff b (e : E) :
  (8 | sorg) -> 0 <= srcraw -> 0 <= dstraw < 2 ^ 24 ->
  station sorg srcraw dstraw sdev m rt fr -> frame_body fr = Some b -> is_u16 n ->
  perform_tx sdev n m rt fr = Ok (air, fr') -> heard sdev dev air pkt rh -> rx_ready pkt rx_buff ->
  (socket_accepts dev hwdst pkt = true <-> dev = WIFIUDP \/ srcraw mod 2 ^ 24 = hwdst mod 2 ^ 24) /\
  address_get (received pkt rx_buff) (zlen rh + 10) = Ok (srcraw mod 2 ^ 24 * 2 ^ 24 + dstraw) /\
  slice (received pkt rx_buff) (zlen rh + 24) n = slice m b n /\
  exists dbm, on_wifi_rx org (Some pkt) rx_buff e =
    ('(m, e) ← process_rx_frame (received pkt rx_buff) (zlen rh + 24) n e; mret (m, e, dbm)).
Proof.
  intros Ho Hs Hd Hst Hb Hn Ht Hh Hr. pose proof (station_ready _ _ _ _ _ _ _ Ho Hst) as Hrdy.
  assert (b = 39) as -> by (destruct Hrdy; congruence).
  pose proof (heard_framed _ _ _ _ _ _ _ _ _ _ _ Hrdy Hn Ht Hh) as Hf.
  assert (zlen (slice m 39 n) = n) as Hz by (by apply (sent_len _ _ _ _ _ _ _ _ Hrdy Hn Ht)).
  destruct (framed_body _ _ _ _ _ Hf Hr) as (Hbody & Haddr). destruct (framed_received _ _ _ _ _ e Hf Hr) as (dbm & Hrx).
  rewrite Hz in Hbody, Hrx. pose proof (framed_starts _ _ _ _ Hf) as (Hl & _). pose proof Hr as [Hrl _ Hrp Hpb].
  split; [by apply (framed_accepted _ dstraw _ _ (slice m 39 n) _ rh)|]. split; [|split; [done|by exists dbm]].
  pose proof (zlen_nonneg rh). rewrite (address_get_slice _ _ (source_address srcraw dstraw)); [|lia| |done].
  - f_equal. by apply source_address_number.
  - destruct (received_ok _ _ Hr) as (_ & -> & _). unfold is_u16 in Hn. lia.
Qed.
End link.

(** ** What reception relies on *)

Lemma bpf_load_rd pkt i b : 0 <= i -> bpf_load 1 pkt i = Some b -> rd pkt i = Ok b.
Proof.
  intros Hi Hb. unfold bpf_load in Hb. destruct ((0 <=? i) && (i + 1 <=? zlen pkt)) eqn:Ec; [|done].
  apply andb_prop in Ec as [_ Hl%Z.leb_le]. injection Hb as Hb. destruct (rd_in pkt i ltac:(lia)) as (c & Ec & Hc).
  rewrite Ec. f_equal. rewrite <- Hb. unfold slice. rewrite (drop_S _ _ _ Hc). reflexivity.
Qed.

Lemma data_kind b fl : b mod 16 = 8 -> exists four, kind_of b fl = DataFrame four.
Proof.
  intros Hb. unfold kind_of. assert (Z.land b 0x0c = 8) as ->.
  { change 0x0c with (Z.land 0xf 0xc). rewrite Z.land_assoc. change 0xf with (Z.ones 4) at 1. rewrite Z.land_ones by lia.
    change (2 ^ 4) with 16. by rewrite Hb. }
  by eexists.
Qed.

Section bounds.
Context {E : Type} `{IllcRx E} `{BpfLaws}.
Variable org : Z.

(** C39: the reception relies on the socket filter. Of a packet that a card's
    socket accepts, the headers are read in bounds, and what is processed is
    the body of the frame; but the length is not checked, and that of a packet
    which ends before the check sequence comes out as more than 65000 bytes.
    Over UDP, where there is no filter, a radiotap header that declares 2048
    bytes or more makes the receiver read outside its buffer. *)
Theorem wifi_rx_bounds dev hwdst pkt rx_buff (e : E) : rx_ready pkt rx_buff -> socket_accepts dev hwdst pkt = true ->
  (dev <> WIFIUDP -> exists len four dbm, rt_len pkt = Some len /\ len + 22 <= zlen pkt /\
     let b := len + header_size four in
     let size := u64 (zlen pkt - b - 4) in
     on_wifi_rx org (Some pkt) rx_buff e =
       ('(m, e) ← process_rx_frame (received pkt rx_buff) b size e; mret (m, e, dbm)) /\
     (b + 4 <= zlen pkt -> b + size + 4 = zlen pkt) /\ (zlen pkt < b + 4 -> 65524 <= u16 size)) /\
  (forall len, dev = WIFIUDP -> rt_len pkt = Some len -> 2048 <= len -> on_wifi_rx org (Some pkt) rx_buff e = Ub OutOfBounds).
Proof.
  intros Hr Ha. pose proof Hr as [Hrl _ Hrp Hpb]. split.
  - intros Hd. assert (bpf_accepts (winject_src hwdst) pkt = true) as Hw by (destruct dev; done).
    apply winject_src_accepts in Hw as ((b & Eb & Hb) & E16 & _ & _); [|done]. destruct (field_rt _ _ _ _ E16) as (len & El).
    pose proof (rt_len_range _ _ Hpb El) as Hlen. rewrite (field_at _ _ _ _ El) in E16. rewrite (field_at _ _ _ _ El), Z.add_0_r in Eb.
    assert (len + 22 <= zlen pkt) as Hz.
    { unfold bpf_load in E16. destruct (Z.leb_spec (len + 16 + 6) (zlen pkt)); [lia|]. by rewrite andb_false_r in E16. }
    assert (0 <= len) as Hlen0 by (unfold is_u16 in Hlen; lia). destruct (rd_in pkt (len + 1) ltac:(lia)) as (fl & Ef & _).
    destruct (wifi_rx_spec org pkt rx_buff e len Hr (rt_len_load _ _ _ Hr El)) as [_ Hrx].
    destruct (Hrx b fl) as (dbm & Eq); [apply rd_received; [lia|by apply bpf_load_rd]|by apply rd_received; [lia|]|].
    destruct (data_kind b fl Hb) as (four & Hk). rewrite Hk in Eq. exists len, four, dbm. split; [done|]. split; [done|]. cbv zeta.
    split; [exact Eq|]. assert (24 <= header_size four <= 30) as Hh by (destruct four; cbn; lia). split; intros Hl; ulia.
  - intros len -> El Hl. by apply (wifi_rx_spec org pkt rx_buff e len Hr (rt_len_load _ _ _ Hr El)).
Qed.
End bounds.

Section replay.
Context {E : Type} `{IllcRxLaws E}.
Variable org : Z.

(** A packet that ends before the check sequence of its frame makes the
    receiver process what earlier packets left in the buffer. If a
    Reed-Solomon frame of any size lies where the body would be, then that is
    received, whether or not a byte of it came with this packet. *)
Theorem wifi_rx_replays pkt rx_buff len ty fl four size ft n (e : E) : rx_ready pkt rx_buff ->
  rt_len pkt = Some len -> rd pkt len = Ok ty -> rd pkt (len + 1) = Ok fl -> kind_of ty fl = DataFrame four ->
  zlen pkt < len + header_size four + 4 ->
  rs_frame (received pkt rx_buff) (len + header_size four) size ft n ->
  (forall i, zlen pkt <= i -> rd (received pkt rx_buff) i = rd rx_buff i) /\
  exists dbm, on_wifi_rx org (Some pkt) rx_buff e =
    ('(m, e) ← process_rx_frame (received pkt rx_buff) (len + header_size four) size e; mret (m, e, dbm)).
Proof.
  intros Hr El Ht Hf Hk Hl Hrs. pose proof Hr as [Hrl _ Hrp Hpb]. split.
  - intros i Hi. pose proof (zlen_nonneg pkt). unfold received. apply rd_splice_other; lia.
  - destruct (wifi_rx_spec org pkt rx_buff e len Hr (rt_len_load _ _ _ Hr El)) as [_ Hrx].
    destruct (Hrx ty fl) as (dbm & ->); [apply rd_received; [lia|done]..|]. exists dbm. rewrite Hk.
    rewrite (proj1 (rs_frame_loop _ _ _ _ _ e Hrs)). set (size' := u64 _).
    assert (rs_frame (received pkt rx_buff) (len + header_size four) size' ft n) as Hrs'.
    { destruct Hrs as [? ? ? Hfit ? ? ?]. constructor; try done. destruct (received_ok _ _ Hr) as (_ & Hz & _).
      apply rd_Ok_range in Hf. assert (24 <= header_size four <= 30) as Hh by (destruct four; cbn; lia). unfold size'. ulia. }
    by rewrite (proj1 (rs_frame_loop _ _ _ _ _ e Hrs')).
Qed.
End replay.

(** ** Examples *)

Import Bpf RxExample.

Definition empty_buffer : list Z := replicate 2048 0.

Lemma rx_ready_dec pkt rx_buff : zlen rx_buff = 2048 /\ zlen pkt <= 2048 -> bytes_ok rx_buff -> bytes_ok pkt -> rx_ready pkt rx_buff.
Proof. by intros [? ?]. Qed.
Ltac rx_ready_tac := apply rx_ready_dec; [split; vm_compute; (reflexivity || discriminate)|..];
  apply (bool_decide_unpack _); vm_compute; exact I.

(** A station with a payload of three bytes, and what is heard of it: over a
    card with a radiotap header of eight bytes. *)
Definition link_buffer : list Z := base_header ++ mac_header 0x112233445566 ++ [1; 2; 3] ++ replicate 2006 0.
Definition link_air : list Z := base_header ++ mac_header 0x112233445566 ++ [1; 2; 3].
Definition link_rh : list Z := [0; 0; 8; 0; 0; 0; 0; 0].
Definition link_packet : list Z := link_rh ++ drop (Z.to_nat 15) link_air ++ [0; 0; 0; 0].

Lemma link_station : station 0 0x112233 0x445566 WIFI link_buffer base_radiotap base_tx_frame.
Proof.
  replace link_buffer with (splice (base_header ++ mac_header 0x112233445566 ++ replicate 2009 0) 39 [1; 2; 3]) by (vm_compute; reflexivity).
  apply (st_payload _ _ _ _ _ _ _ 39); [|reflexivity|lia|vm_compute; discriminate]. apply st_setup, setup_base. apply Z.divide_0_r.
Qed.

Lemma wifi_link_witness :
  exists air fr', perform_tx WIFI 3 link_buffer base_radiotap base_tx_frame = Ok (air, fr') /\
  heard WIFI WIFI air link_packet link_rh /\
  socket_accepts WIFI 0x112233 link_packet = true /\
  slice (received link_packet empty_buffer) 32 3 = [1; 2; 3] /\
  exists dbm, on_wifi_rx 0 (Some link_packet) empty_buffer (Recorder (Z.eqb 5) []) =
    ('(m, e) ← process_rx_frame (received link_packet empty_buffer) 32 3 (Recorder (Z.eqb 5) []); mret (m, e, dbm)).
Proof.
  assert (rx_ready link_packet empty_buffer) as Hr by rx_ready_tac.
  assert (perform_tx WIFI 3 link_buffer base_radiotap base_tx_frame =
    Ok (link_air, base_tx_frame <| fcs := Some 42 |>)) as Ht by (vm_compute; reflexivity).
  assert (heard WIFI WIFI link_air link_packet link_rh) as Hh.
  { apply (heard_card WIFI WIFI _ 15 _ [0; 0; 0; 0]); (discriminate || reflexivity). }
  destruct (wifi_link 0 0 0x112233 0x445566 WIFI link_buffer base_radiotap base_tx_frame 3 _ _ WIFI 0x112233 link_packet
    _ empty_buffer 39 (Recorder (Z.eqb 5) []) (Z.divide_0_r 8) ltac:(lia) ltac:(lia) link_station eq_refl ltac:(ulia) Ht Hh Hr)
    as (Ha & _ & Hs & Hp).
  eexists _, _. split; [exact Ht|]. split; [exact Hh|]. split; [apply Ha; right; reflexivity|]. split; [exact Hs|exact Hp].
Defined.

Lemma wifi_rx_bounds_witness :
  exists b size dbm, 65524 <= u16 size /\
    on_wifi_rx 0 (Some packet_example) empty_buffer (Recorder (Z.eqb 5) []) =
      ('(m, e) ← process_rx_frame (received packet_example empty_buffer) b size (Recorder (Z.eqb 5) []); mret (m, e, dbm)).
Proof.
  assert (rx_ready packet_example empty_buffer) as Hr by rx_ready_tac.
  destruct (wifi_rx_bounds 0 WIFI 0xAABBCC packet_example empty_buffer (Recorder (Z.eqb 5) []) Hr) as [Hc _]; [vm_compute; reflexivity|].
  destruct Hc as (len & four & dbm & El & _ & Eq & _ & Hs); [discriminate|]. eexists _, _, dbm. split; [|exact Eq].
  apply Hs. vm_compute in El. injection El as <-. destruct four; vm_compute; reflexivity.
Defined.

(** A packet of a radiotap header and 22 bytes, after a frame with a PDU for channel 5. *)
Definition short_packet : list Z := take 30 packet_example.
Definition used_buffer : list Z := replicate 32 0 ++ rx_example ++ replicate 1759 0.

Lemma wifi_rx_replays_witness :
  socket_accepts WIFI 0xAABBCC short_packet = true /\
  exists m dbm, on_wifi_rx 0 (Some short_packet) used_buffer (Recorder (Z.eqb 5) []) =
    Ok (m, Recorder (Z.eqb 5) [(5, 166, 5)], dbm).
Proof.
  split; [vm_compute; reflexivity|]. assert (rx_ready short_packet used_buffer) as Hr by rx_ready_tac.
  destruct (wifi_rx_replays 0 short_packet used_buffer 8 8 0 false 257 5 1 (Recorder (Z.eqb 5) []) Hr) as (_ & dbm & ->);
    [vm_compute; reflexivity..| |].
  - constructor; [|lia|vm_compute; discriminate|vm_compute; discriminate|vm_compute; discriminate|vm_compute; reflexivity|vm_compute; reflexivity].
    apply (bool_decide_unpack _). vm_compute. exact I.
  - exists (received short_packet used_buffer), dbm. vm_compute. reflexivity.
Defined.
