(* ===== verification/AppSetup.v ===== *)
(** * Setting up the application ([winject/src/AppRRC.cpp])

    What the constructor of [AppRRC] makes of a configuration: the PDCP and the
    LLC of every channel, the scheduler with their shares, and the objects that
    negotiate each channel. The threads it starts, the sockets and the console
    are left out. A [std::map] of the configuration is the list of its pairs in
    the order of the keys. *)

From stdpp Require Import gmap.
From Stdlib Require Import Sorted.
From S2P Require Import Prelude Mem SafeInt Crc LlcCrc LlcFrame FecFrame Info PdcpTx PdcpRx Pdcp Llc LlcTx LlcRx LlcConf LlcArq TxScheduler TxStack LcRrc Ieee80211 AppWifi.

(** ** Configuration *)

(** [IPDCP::tx_config_t], without the keys and algorithms nothing reads *)
Record pdcp_config_t := PdcpConfig {
  pc_allow_rlf : bool; pc_allow_segmentation : bool; pc_allow_reordering : bool; pc_auto_init_on_tx : bool;
  pc_max_sn_distance : Z; pc_min_commit_size : Z; pc_max_tx_queue_size : Z }.
Record llc_scheduling_config_t := LlcScheduling { sc_quanta : Z; sc_nd_gpdu_max_size : Z }.
Inductive ep_type := UDP | TCPS | TCPC | OtherType.

Record config_t := Config {
  cf_slot_interval_us : Z; cf_frame_payload_size : Z;
  llc_tx_configs : list (Z * illc_tx_config);
  llc_rx_configs : list (Z * illc_rx_config);
  scheduling_configs : list (Z * llc_scheduling_config_t);
  pdcp_configs : list (Z * pdcp_config_t);
  ep_configs : list (Z * ep_type) }.

Fixpoint map_find {A} (id : Z) (l : list (Z * A)) : option A :=
  match l with
  | [] => None
  | (key, v) :: l => if key =? id then Some v else map_find id l
  end.

(** [emplace] keeps what is there. *)
Definition emplace {A} (id : Z) (v : A) (m : gmap Z A) : gmap Z A :=
  match m !! id with Some _ => m | None => <[id := v]> m end.

(** ** The layers of the channels *)

Definition ptx_of (c : pdcp_config_t) : ptx_config :=
  PtxConfig (pc_allow_segmentation c) (pc_allow_reordering c) (pc_auto_init_on_tx c) (pc_min_commit_size c) (pc_max_tx_queue_size c).
Definition prx_of (c : pdcp_config_t) : prx_config :=
  PrxConfig (pc_allow_rlf c) (pc_allow_segmentation c) (pc_allow_reordering c) (pc_max_sn_distance c).

Definition setup_pdcps (l : list (Z * pdcp_config_t)) : gmap Z pdcp :=
  foldl (fun m '(id, c) => emplace id (pdcp_new id (ptx_of c) (prx_of c)) m) ∅ l.

(** The mode and the CRC of the receiving side are those of the sending side. *)
Definition llc_rx_of (cfg : config_t) (id : Z) (tx_config : illc_tx_config) : illc_rx_config :=
  let rx_config := default illc_rx_default (map_find id (llc_rx_configs cfg)) in
  IllcRx (it_mode tx_config) (it_crc_type tx_config) (ir_auto_init_on_rx rx_config).

(** [pdcps[id]] is a null pointer where there is no PDCP. *)
Fixpoint setup_llcs (cfg : config_t) (pdcps : gmap Z pdcp) (l : list (Z * illc_tx_config)) (llcs : gmap Z (llc * pdcp))
    : res (gmap Z (llc * pdcp)) :=
  match l with
  | [] => mret llcs
  | (id, tx_config) :: l =>
    match pdcps !! id with
    | None => Ub NullDeref
    | Some pdcp => setup_llcs cfg pdcps l (emplace id (llc_new id tx_config (llc_rx_of cfg id tx_config), pdcp) llcs)
    end
  end.

(** ** The scheduler *)

Definition txs_init : txs_t := Txs 0 0 0 0 [] [] [] 0 0 0 false.

Fixpoint schedule_llcs (scheds : list (Z * llc_scheduling_config_t)) (ids : list Z) (s : txs_t) : res txs_t :=
  match ids with
  | [] => mret s
  | id :: ids =>
    let s := add_llc id id s in
    s ← (match map_find id scheds with
         | Some c => txs_reconfigure_llc id (sc_quanta c) (sc_nd_gpdu_max_size c) s
         | None => mret s
         end);
    schedule_llcs scheds ids s
  end.

(** [tx_buff] is at 0. *)
Definition setup_scheduler (cfg : config_t) (tx_frame : frame_t) (ids : list Z) : res txs_t :=
  body ← deref (frame_body tx_frame);
  let s := txs_reconfigure_buffer 0 buff_size (body - 0) txs_init in
  s ← schedule_llcs (scheduling_configs cfg) ids s;
  mret (txs_reconfigure_frame (cf_slot_interval_us cfg) E_FEC_TYPE_NONE (cf_frame_payload_size cfg) s).

(** ** End points and negotiation *)

(** The channels that get an end point; what it is is left out. *)
Definition setup_eps (pdcps : gmap Z pdcp) (l : list (Z * ep_type)) : gmap Z ep_type :=
  foldl (fun m '(id, t) =>
    match t with
    | OtherType => m
    | _ => match pdcps !! id with None => m | Some _ => emplace id t m end
    end) ∅ l.

Definition pdcp_tx_of (c : pdcp_config_t) : ipdcp_tx_config :=
  IpdcpTx (pc_allow_rlf c) (pc_allow_segmentation c) (pc_allow_reordering c) (pc_max_sn_distance c).
Definition pdcp_rx_of (c : pdcp_config_t) : ipdcp_rx_config :=
  IpdcpRx (pc_allow_rlf c) (pc_allow_segmentation c) (pc_allow_reordering c) (pc_max_sn_distance c).

(** [LCRRC] asks the layers for their configurations; they have those they were made with. *)
Fixpoint setup_lcrrc (cfg : config_t) (eps : gmap Z ep_type) (l : list (Z * illc_tx_config)) (contexts : gmap Z lc_t)
    : res (gmap Z lc_t) :=
  match l with
  | [] => mret contexts
  | (id, tx_config) :: l =>
    match eps !! id with
    | None => setup_lcrrc cfg eps l contexts
    | Some _ =>
      match map_find id (pdcp_configs cfg) with
      | None => Throw StdOutOfRange
      | Some c =>
        setup_lcrrc cfg eps l
          (emplace id (lc_new id tx_config (llc_rx_of cfg id tx_config) (pdcp_tx_of c) (pdcp_rx_of c) 0) contexts)
      end
    end
  end.

(** ** The constructor *)

Record app_layers := AppLayers {
  ap_llcs : gmap Z (llc * pdcp); ap_scheduler : txs_t; ap_contexts : gmap Z lc_t }.

Definition app_setup (cfg : config_t) (tx_frame : frame_t) : res app_layers :=
  let pdcps := setup_pdcps (pdcp_configs cfg) in
  llcs ← setup_llcs cfg pdcps (llc_tx_configs cfg) ∅;
  let eps := setup_eps pdcps (ep_configs cfg) in
  s ← setup_scheduler cfg tx_frame (map fst (llc_tx_configs cfg));
  contexts ← setup_lcrrc cfg eps (llc_tx_configs cfg) ∅;
  mret (AppLayers llcs s contexts).

(** ** The channels after the set-up *)

Lemma setup_pdcps_lookup l id : setup_pdcps l !! id = (fun c => pdcp_new id (ptx_of c) (prx_of c)) <$> map_find id l.
Proof.
  unfold setup_pdcps. assert (forall m : gmap Z pdcp,
    foldl (fun m '(id, c) => emplace id (pdcp_new id (ptx_of c) (prx_of c)) m) m l !! id =
      match m !! id with Some p => Some p | None => (fun c => pdcp_new id (ptx_of c) (prx_of c)) <$> map_find id l end) as Hl;
    [|by rewrite Hl, lookup_empty].
  induction l as [|[k c] l IH]; intros m; cbn [foldl map_find]; [by destruct (m !! id)|]. rewrite IH. unfold emplace.
  destruct (Z.eqb_spec k id) as [->|Hne].
  - destruct (m !! id) eqn:E; [by rewrite E|]. by rewrite lookup_insert_eq.
  - destruct (m !! k) eqn:E; [done|]. by rewrite lookup_insert_ne.
Qed.

Lemma llc_new_idle lcid tx rx : ll_lcid (llc_new lcid tx rx) = lcid /\ ll_tx_enabled (llc_new lcid tx rx) = false /\
  ll_rx_enabled (llc_new lcid tx rx) = false.
Proof.
  assert (forall ring s, exists pool, (renew_ring ring s).2 = s <| tx_buffer_pool := pool |>) as Hrenew.
  { induction ring as [|e ring IH]; intros s; [exists (tx_buffer_pool s); by destruct s|]. cbn [renew_ring].
    assert (exists pool b, match te_pdcp_pdu e with [] => allocate_tx_buffer s | b => (s, b) end = (s <| tx_buffer_pool := pool |>, b))
      as (pool & b & ->).
    { destruct (te_pdcp_pdu e); [|exists (tx_buffer_pool s); eexists; by destruct s].
      unfold allocate_tx_buffer. destruct (tx_buffer_pool s) as [|x y] eqn:Ep; [exists []|exists y]; eexists; [|done].
      f_equal. destruct s. cbn in Ep. by rewrite Ep. }
    destruct (IH (s <| tx_buffer_pool := pool |>)) as (pool' & Ep). destruct (renew_ring _ _) as [r s']. exists pool'. exact Ep. }
  assert (forall v s, to_retx_list s = [] -> let s' := set_tx_enabled v s in
    ll_lcid s' = ll_lcid s /\ ll_tx_enabled s' = v /\ ll_rx_enabled s' = ll_rx_enabled s) as Hset.
  { intros v s Hr. unfold set_tx_enabled. set (s0 := s <| ll_tx_enabled := v |>).
    destruct (Hrenew (tx_ring s0) s0) as (pool & Ep). destruct (am_mode s0).
    - destruct (renew_ring (tx_ring s0) s0) as [ring s1]. cbn [snd] in Ep. subst s1.
      change (to_retx_list (upd tx_ring _ _)) with (to_retx_list s). by rewrite Hr.
    - change (to_retx_list s0) with (to_retx_list s). by rewrite Hr. }
  unfold llc_new, llc_reconfigure_rx, llc_reconfigure_tx.
  set (s0 := LLC lcid _ _ _ _ _ _ _ _ _ _ _ _ _ _).
  destruct (configure_crc_size_spec (s0 <| ll_tx_config := tx |>)) as (a & b & -> & _).
  set (s1 := (_ <| tx_crc_size := a |>) <| rx_crc_size := b |>). destruct (Hset (ll_tx_enabled s1) s1 eq_refl) as (E1 & E2 & E3).
  set (s2 := set_tx_enabled _ s1) in *. clearbody s2.
  destruct (configure_crc_size_spec (s2 <| ll_rx_config := rx <| ir_auto_init_on_rx := ir_auto_init_on_rx (ll_rx_config s2) |> |>))
    as (a' & b' & -> & _). split; [exact E1|]. split; [exact E2|exact E3].
Qed.

Lemma pdcp_new_sound id c : pc_allow_reordering c = true -> pdcp_sound (pdcp_new id (ptx_of c) (prx_of c)).
Proof. intros Hr. split; [|exact Hr]. constructor; cbn; try done. split; [constructor|done]. Qed.

(** What the channel of [id] is made of. *)
Definition made (cfg : config_t) (id : Z) (tx : illc_tx_config) (c : pdcp_config_t) : llc * pdcp :=
  (llc_new id tx (llc_rx_of cfg id tx), pdcp_new id (ptx_of c) (prx_of c)).

(** A configuration in which every channel has what it needs. *)
Record channel_ok (cfg : config_t) (id : Z) (tx : illc_tx_config) : Prop := ChannelOk {
  ch_new : llc_new_ok id tx;
  ch_pdcp : exists c, map_find id (pdcp_configs cfg) = Some c /\ pc_allow_reordering c = true;
  ch_share : exists s, map_find id (scheduling_configs cfg) = Some s /\ 0 < sc_quanta s < 2 ^ 40 /\ 0 <= sc_nd_gpdu_max_size s }.
Record config_ok (cfg : config_t) : Prop := ConfigOk {
  co_sorted : StronglySorted Z.lt (map fst (llc_tx_configs cfg));
  co_channels : Forall (fun p => channel_ok cfg p.1 p.2) (llc_tx_configs cfg) }.

Lemma setup_llcs_spec cfg l : Forall (fun p => channel_ok cfg p.1 p.2) l -> forall e,
  exists e', setup_llcs cfg (setup_pdcps (pdcp_configs cfg)) l e = Ok e' /\
    forall id, (forall x, e !! id = Some x -> e' !! id = Some x) /\
      (e !! id = None -> (map_find id l = None -> e' !! id = None) /\
         forall tx, map_find id l = Some tx -> exists c, e' !! id = Some (made cfg id tx c) /\ pc_allow_reordering c = true).
Proof.
  induction 1 as [|[k tx] l Hk _ IH]; intros e; cbn [setup_llcs map_find].
  - exists e. split; [done|]. intros id. split; [done|]. intros E. split; [done|]. by intros tx [=].
  - destruct (ch_pdcp _ _ _ Hk) as (c & Ec & Hr). cbn [fst] in Ec. rewrite setup_pdcps_lookup, Ec. cbn [fmap option_fmap option_map].
    set (e1 := emplace _ _ e). destruct (IH e1) as (e' & -> & He'). exists e'. split; [done|]. intros id. destruct (He' id) as [H1 H2].
    assert (e1 !! id = match e !! id with Some x => Some x | None => if k =? id then Some (made cfg id tx c) else None end) as E1.
    { unfold e1, emplace. destruct (Z.eqb_spec k id) as [->|Hne].
      - destruct (e !! id) eqn:E; [by rewrite E|]. by rewrite lookup_insert_eq.
      - destruct (e !! k) eqn:E; [by destruct (e !! id)|]. rewrite lookup_insert_ne by done. by destruct (e !! id). }
    split.
    + intros x Hx. apply H1. by rewrite E1, Hx.
    + intros E. rewrite E in E1. destruct (k =? id); [|by apply H2]. split; [done|]. intros tx' [= <-]. exists c. split; [by apply H1|done].
Qed.

(** ** The scheduler after the set-up *)

Lemma vec_resize_lookup {A} n (d : A) l i : (length l <= n)%nat ->
  vec_resize n d l !! i = if decide (i < length l)%nat then l !! i else if decide (i < n)%nat then Some d else None.
Proof.
  intros Hn. unfold vec_resize. rewrite take_ge by done. destruct (decide (i < length l)%nat).
  - by rewrite lookup_app_l.
  - rewrite lookup_app_r by lia. destruct (decide (i < n)%nat).
    + by rewrite lookup_replicate_2 by lia.
    + apply lookup_ge_None. rewrite length_replicate. lia.
Qed.
Lemma length_vec_resize {A} n (d : A) l : (length l <= n)%nat -> length (vec_resize n d l) = n.
Proof. intros Hn. unfold vec_resize. rewrite length_app, length_take, length_replicate. lia. Qed.

(** The element of a channel: its share as configured, nothing spent or saved. *)
Definition share_of (scheds : list (Z * llc_scheduling_config_t)) (id : Z) : scheduling_ctx_t :=
  match map_find id scheds with
  | Some c => SchedCtx (Some id) 0 (sc_quanta c) (sc_nd_gpdu_max_size c) 0 false false
  | None => SchedCtx (Some id) 0 0 0 0 false false
  end.

(** The two vectors when the channels [ids] have been added. *)
Record scheduled (scheds : list (Z * llc_scheduling_config_t)) (ids : list Z) (n : nat) (s : txs_t) : Prop := Scheduled {
  sd_ids : Forall (fun k => 0 <= k < Z.of_nat n) ids;
  sd_llcs_len : length (llcs s) = n;
  sd_infos_len : length (schedules_info s) = n;
  sd_llcs i : (i < n)%nat -> llcs s !! i = Some (if decide (Z.of_nat i ∈ ids) then Some (Z.of_nat i) else None);
  sd_infos i : (i < n)%nat ->
    schedules_info s !! i = Some (if decide (Z.of_nat i ∈ ids) then share_of scheds (Z.of_nat i) else sched_init) }.

Lemma in_snoc (ids : list Z) (n : nat) id i : Forall (fun k => 0 <= k < Z.of_nat n) ids -> Z.of_nat n <= id ->
  (if decide (Z.of_nat i ∈ ids ++ [id]) then true else false) =
    if decide (i = Z.to_nat id) then true else if decide (i < n)%nat then bool_decide (Z.of_nat i ∈ ids) else false.
Proof.
  intros Hids Hn. rewrite list.Forall_forall in Hids. destruct (decide (i = Z.to_nat id)) as [->|Hne].
  - rewrite decide_True; [done|]. apply elem_of_app. right. apply list_elem_of_singleton. lia.
  - destruct (decide (Z.of_nat i ∈ ids ++ [id])) as [Hin|Hin]; destruct (decide (i < n)%nat) as [Hlt|Hlt]; try done.
    + apply elem_of_app in Hin as [Hin|Hin%list_elem_of_singleton]; [by rewrite bool_decide_eq_true_2|lia].
    + apply elem_of_app in Hin as [Hin|Hin%list_elem_of_singleton]; [specialize (Hids _ Hin)|]; lia.
    + rewrite bool_decide_eq_false_2; [done|]. intros ?. apply Hin, elem_of_app. by left.
Qed.

Lemma grown {A} (x d : A) (f : Z -> A) ids n id (l : list A) : length l = n ->
  Forall (fun k => 0 <= k < Z.of_nat n) ids -> Z.of_nat n <= id -> f id = x ->
  (forall i, (i < n)%nat -> l !! i = Some (if decide (Z.of_nat i ∈ ids) then f (Z.of_nat i) else d)) ->
  let l' := <[Z.to_nat id := x]> (vec_resize (Z.to_nat (id + 1)) d l) in
  length l' = Z.to_nat (id + 1) /\ forall i, (i < Z.to_nat (id + 1))%nat ->
    l' !! i = Some (if decide (Z.of_nat i ∈ ids ++ [id]) then f (Z.of_nat i) else d).
Proof.
  intros Hl Hids Hn Hx Hi l'. unfold l'. rewrite length_insert, length_vec_resize by lia. split; [done|]. intros i Him.
  pose proof (in_snoc ids n id i Hids Hn) as Hin. destruct (decide (i = Z.to_nat id)) as [->|Hne].
  - rewrite list_lookup_insert_eq by (rewrite length_vec_resize; lia). destruct (decide _); [|done]. by rewrite Z2Nat.id, Hx by lia.
  - rewrite list_lookup_insert_ne, vec_resize_lookup, Hl by lia. destruct (decide (i < n)%nat) as [Hlt|Hlt].
    + rewrite Hi by done. destruct (decide (Z.of_nat i ∈ ids ++ [id])), (decide (Z.of_nat i ∈ ids)); try done.
      * by rewrite bool_decide_eq_false_2 in Hin.
      * by rewrite bool_decide_eq_true_2 in Hin.
    + rewrite decide_True by done. by destruct (decide (Z.of_nat i ∈ ids ++ [id])).
Qed.

Lemma add_llc_spec scheds ids n s id : scheduled scheds ids n s -> Z.of_nat n <= id ->
  exists s', (match map_find id scheds with
     | Some c => txs_reconfigure_llc id (sc_quanta c) (sc_nd_gpdu_max_size c) (add_llc id id s)
     | None => mret (add_llc id id s)
     end) = Ok s' /\ scheduled scheds (ids ++ [id]) (Z.to_nat (id + 1)) s' /\ txs_buffer s' = txs_buffer s /\
  txs_header_size s' = txs_header_size s.
Proof.
  intros [L0 L1 L2 L3 L4] Hn. set (m := Z.to_nat (id + 1)).
  assert (Forall (fun k => 0 <= k < Z.of_nat m) (ids ++ [id])) as L0'.
  { apply Forall_app. split; [eapply list.Forall_impl; [exact L0|]; intros k ?; cbn in *; lia|]. constructor; [lia|done]. }
  destruct (grown (Some id) None Some ids n id (llcs s) L1 L0 Hn eq_refl L3) as [G1 G2].
  assert (forall x, share_of scheds id = x -> length (<[Z.to_nat id := x]> (vec_resize m sched_init (schedules_info s))) = m /\
    forall i, (i < m)%nat -> <[Z.to_nat id := x]> (vec_resize m sched_init (schedules_info s)) !! i =
      Some (if decide (Z.of_nat i ∈ ids ++ [id]) then share_of scheds (Z.of_nat i) else sched_init)) as Hg.
  { intros x Hx. exact (grown x sched_init (share_of scheds) ids n id (schedules_info s) L2 L0 Hn Hx L4). }
  unfold add_llc. rewrite (proj2 (Z.leb_le (zlen (llcs s)) id)) by (unfold zlen; lia). fold m.
  set (s1 := upd schedules_info _ _). unfold share_of in Hg. destruct (map_find id scheds) as [c|].
  - unfold txs_reconfigure_llc.
    assert (schedules_info s1 = <[Z.to_nat id := sched_init <| s_llc := Some id |>]> (vec_resize m sched_init (schedules_info s))) as E1
      by reflexivity.
    rewrite E1, list_lookup_insert_eq by (rewrite length_vec_resize; lia).
    unfold upd at 2 3 4. cbn [s_llc deficit quanta nd_gpdu_max_size current_alloc has_schedulable has_data_allocated sched_init].
    set (x := SchedCtx (Some id) 0 (sc_quanta c) _ 0 false false) in *. eexists. split; [reflexivity|]. split; [|done].
    assert (forall l, schedules_info (upd schedules_info l s1) = l (schedules_info s1)) as Hl by done.
    destruct (Hg x eq_refl) as [H1 H2]. constructor; try done; by rewrite Hl, list_insert_insert_eq.
  - eexists. split; [reflexivity|]. split; [|done]. destruct (Hg _ eq_refl) as [H1 H2]. by constructor.
Qed.

Lemma schedule_llcs_spec scheds ids : StronglySorted Z.lt ids -> forall done n s, scheduled scheds done n s ->
  Forall (fun k => Z.of_nat n <= k) ids ->
  exists s' n', schedule_llcs scheds ids s = Ok s' /\ scheduled scheds (done ++ ids) n' s' /\ txs_buffer s' = txs_buffer s /\
    txs_header_size s' = txs_header_size s.
Proof.
  induction 1 as [|id ids _ IH Hlt]; intros done n s Hs Hn.
  - exists s, n. rewrite app_nil_r. done.
  - apply list.Forall_cons in Hn as [Hid Hn]. cbn [schedule_llcs]. destruct (add_llc_spec scheds done n s id Hs Hid) as (s1 & E & Hs1 & B1 & B2).
    rewrite E, bind_ret_l. destruct (IH (done ++ [id]) _ s1 Hs1) as (s' & n' & E' & Hs' & B1' & B2').
    + eapply list.Forall_impl; [exact Hlt|]. intros k ?. cbn. lia.
    + exists s', n'. rewrite <- app_assoc in Hs'. split; [done|]. split; [done|]. split; congruence.
Qed.

Section scheduled.
Context (scheds : list (Z * llc_scheduling_config_t)) (ids : list Z) (n : nat) (s : txs_t) (Hs : scheduled scheds ids n s).

Lemma scheduled_info i c id : schedules_info s !! i = Some c -> s_llc c = Some id ->
  i = Z.to_nat id /\ id ∈ ids /\ c = share_of scheds id.
Proof.
  destruct Hs as [_ _ N3 _ N5]. intros Hi Hl. assert (i < n)%nat as Hlt by (rewrite <- N3; by apply lookup_lt_Some in Hi).
  rewrite N5 in Hi by done. injection Hi as <-. destruct (decide (Z.of_nat i ∈ ids)) as [Hin|]; [|done].
  assert (Z.of_nat i = id) as <- by (unfold share_of in Hl; destruct (map_find _ _); by injection Hl). split; [lia|done].
Qed.

Lemma scheduled_id id : id ∈ ids -> 0 <= id /\ (Z.to_nat id < n)%nat.
Proof. intros Hin. pose proof (proj1 (list.Forall_forall _ _) (sd_ids _ _ _ _ Hs) id Hin) as Hb. cbn in Hb. lia. Qed.

Lemma scheduled_llcs i id : llcs s !! i = Some (Some id) <-> i = Z.to_nat id /\ id ∈ ids.
Proof.
  destruct Hs as [_ N2 _ N4 _]. split.
  - intros Hi. assert (i < n)%nat as Hlt by (rewrite <- N2; by apply lookup_lt_Some in Hi). rewrite N4 in Hi by done.
    destruct (decide (Z.of_nat i ∈ ids)) as [Hin|]; [|done]. injection Hi as <-. split; [lia|done].
  - intros [-> Hin]. destruct (scheduled_id id Hin). rewrite N4 by lia. rewrite Z2Nat.id by lia. by rewrite decide_True.
Qed.

Lemma share_of_llc id : s_llc (share_of scheds id) = Some id /\ deficit (share_of scheds id) = 0.
Proof. unfold share_of. by destruct (map_find id scheds). Qed.

(** Channels that all have a share make a schedule. *)
Lemma scheduled_ok : (forall id, id ∈ ids -> exists c, map_find id scheds = Some c /\ 0 < sc_quanta c < 2 ^ 40 /\ 0 <= sc_nd_gpdu_max_size c) ->
  sched_ok (schedules_info s) (llcs s).
Proof.
  intros Hsh. constructor.
  - intros j id Hj. apply scheduled_llcs in Hj as [-> Hin]. destruct (scheduled_id id Hin). exists (share_of scheds id). cbn [Nat.add].
    rewrite (sd_infos _ _ _ _ Hs) by lia. rewrite Z2Nat.id by lia. rewrite decide_True by done. split; [done|]. apply share_of_llc.
  - apply list.Forall_lookup. intros i c Hi. destruct (s_llc c) as [id|] eqn:El.
    + destruct (scheduled_info i c id Hi El) as (_ & Hin & ->). destruct (Hsh id Hin) as (sc & E & ? & ?). unfold share_of. rewrite E.
      unfold quantum_ok. cbn. lia.
    + assert (i < n)%nat as Hlt by (rewrite <- (sd_infos_len _ _ _ _ Hs); by apply lookup_lt_Some in Hi).
      rewrite (sd_infos _ _ _ _ Hs) in Hi by done. destruct (decide _) in Hi; injection Hi as <-;
        [by rewrite (proj1 (share_of_llc _)) in El|].
      unfold quantum_ok. cbn. split; [lia|]. split; [|lia]. split; [lia|]. by intros [? ?].
  - intros i j c d id Hi Hj Hc Hd. destruct (scheduled_info i c id Hi Hc) as (-> & _). by destruct (scheduled_info j d id Hj Hd) as (-> & _).
Qed.
End scheduled.

(** ** The constructor *)

Lemma setup_lcrrc_spec cfg eps l : (forall id, is_Some (eps !! id) -> is_Some (map_find id (pdcp_configs cfg))) ->
  forall m, exists m', setup_lcrrc cfg eps l m = Ok m'.
Proof.
  intros He. induction l as [|[id tx] l IH]; intros m; cbn [setup_lcrrc]; [by eexists|].
  destruct (eps !! id) as [t|] eqn:E; [|apply IH]. destruct (He id) as [c ->]; [by eexists|]. apply IH.
Qed.

Lemma setup_eps_pdcp pdcps l id : is_Some (setup_eps pdcps l !! id) -> is_Some (pdcps !! id).
Proof.
  unfold setup_eps. assert (forall m : gmap Z ep_type, (is_Some (m !! id) -> is_Some (pdcps !! id)) ->
    is_Some (foldl (fun m '(id, t) => match t with OtherType => m
      | _ => match pdcps !! id with None => m | Some _ => emplace id t m end end) m l !! id) -> is_Some (pdcps !! id)) as Hm;
    [|apply Hm; rewrite lookup_empty; by intros [? ?]].
  induction l as [|[k t] l IH]; intros m Hm; cbn [foldl]; [done|]. apply IH.
  assert (forall t, is_Some (match pdcps !! k with None => m | Some _ => emplace k t m end !! id) -> is_Some (pdcps !! id)) as Hk.
  { intros u. destruct (pdcps !! k) eqn:E; [|done]. unfold emplace. destruct (m !! k); [done|].
    destruct (decide (id = k)) as [->|]; [by rewrite E|]. by rewrite lookup_insert_ne. }
  destruct t; try apply Hk; done.
Qed.

Lemma map_find_in {A} id (v : A) l : map_find id l = Some v -> (id, v) ∈ l.
Proof.
  induction l as [|[k w] l IH]; cbn [map_find]; [done|]. destruct (Z.eqb_spec k id) as [->|]; [intros [= ->]; left|].
  intros ?. right. by apply IH.
Qed.
Lemma map_find_some {A} id (l : list (Z * A)) : id ∈ map fst l -> exists v, map_find id l = Some v.
Proof.
  induction l as [|[k w] l IH]; cbn [map fst map_find]; [by intros ?%elem_of_nil|]. destruct (Z.eqb_spec k id) as [->|Hne]; [by eexists|].
  intros [->|?]%elem_of_cons; [done|]. by apply IH.
Qed.

(** The application after its set-up. *)
Record set_up (cfg : config_t) (b : Z) (a : app_layers) : Prop := SetUp {
  su_sched : sched_ok (schedules_info (ap_scheduler a)) (llcs (ap_scheduler a));
  su_channels now : channels_at now (schedules_info (ap_scheduler a)) (ap_llcs a);
  su_llcs i id : llcs (ap_scheduler a) !! i = Some (Some id) <-> i = Z.to_nat id /\ id ∈ map fst (llc_tx_configs cfg);
  su_made id tx : map_find id (llc_tx_configs cfg) = Some tx -> exists c, ap_llcs a !! id = Some (made cfg id tx c);
  su_area : txs_buffer (ap_scheduler a) + txs_header_size (ap_scheduler a) = b }.

Lemma config_channel cfg id : config_ok cfg -> id ∈ map fst (llc_tx_configs cfg) ->
  exists tx, map_find id (llc_tx_configs cfg) = Some tx /\ channel_ok cfg id tx.
Proof.
  intros [_ Hc] Hin. destruct (map_find_some id (llc_tx_configs cfg) Hin) as [tx Ef]. exists tx. split; [done|].
  rewrite list.Forall_forall in Hc. exact (Hc _ (map_find_in _ _ _ Ef)).
Qed.

Lemma made_channel cfg id tx c now : channel_ok cfg id tx -> pc_allow_reordering c = true ->
  ll_lcid (made cfg id tx c).1 = id /\ channel now false (made cfg id tx c).1 (made cfg id tx c).2.
Proof.
  intros Hok Hr. unfold made. destruct (llc_new_idle id tx (llc_rx_of cfg id tx)) as (I1 & I2 & _). split; [done|]. right.
  split; [apply llc_new_inv, Hok|]. split; [by apply pdcp_new_sound|]. by right.
Qed.

Lemma app_setup_spec cfg tx_frame b : config_ok cfg -> frame_body tx_frame = Some b ->
  exists a, app_setup cfg tx_frame = Ok a /\ set_up cfg b a.
Proof.
  intros Hcfg Hb. set (ids := map fst (llc_tx_configs cfg)). pose proof (fun id => config_channel cfg id Hcfg) as Hid. fold ids in Hid.
  destruct Hcfg as [Hs Hc]. fold ids in Hs. destruct (setup_llcs_spec cfg (llc_tx_configs cfg) Hc ∅) as (e & Ee & He).
  set (s0 := txs_reconfigure_buffer 0 buff_size (b - 0) txs_init).
  destruct (schedule_llcs_spec (scheduling_configs cfg) ids Hs [] 0%nat s0) as (s & n & Es & Hsc & B1 & B2).
  { constructor; try done; intros i Hi; lia. }
  { apply list.Forall_forall. intros id Hin. destruct (Hid id Hin) as (tx & _ & Hok). pose proof (ch_new _ _ _ Hok) as [? _]. lia. }
  destruct (setup_lcrrc_spec cfg (setup_eps (setup_pdcps (pdcp_configs cfg)) (ep_configs cfg)) (llc_tx_configs cfg)) with (m := (∅ : gmap Z lc_t))
    as (contexts & Ex).
  { intros id Hi. apply setup_eps_pdcp in Hi. rewrite setup_pdcps_lookup in Hi. by apply fmap_is_Some in Hi. }
  cbn [app] in Hsc. eexists. split.
  { unfold app_setup. rewrite Ee, bind_ret_l. unfold setup_scheduler. rewrite Hb. cbn [deref]. rewrite bind_ret_l. fold s0. fold ids.
    rewrite Es, !bind_ret_l, Ex, bind_ret_l. reflexivity. }
  set (s' := txs_reconfigure_frame _ _ _ s). assert (schedules_info s' = schedules_info s /\ llcs s' = llcs s) as [Ei El] by done.
  constructor; cbn [ap_scheduler ap_llcs]; rewrite ?Ei, ?El.
  - apply (scheduled_ok _ _ _ _ Hsc). intros id Hin. destruct (Hid id Hin) as (tx & _ & Hok). apply (ch_share _ _ _ Hok).
  - intros now i c id Hi Hl. destruct (scheduled_info _ _ _ _ Hsc i c id Hi Hl) as (_ & Hin & _).
    destruct (Hid id Hin) as (tx & Ef & Hok). destruct (He id) as [_ Hm]. destruct (proj2 (Hm eq_refl) tx Ef) as (pc & Em & Hre).
    destruct (made_channel cfg id tx pc now Hok Hre). by exists false, (made cfg id tx pc).1, (made cfg id tx pc).2.
  - apply (scheduled_llcs _ _ _ _ Hsc).
  - intros id tx Ef. destruct (He id) as [_ Hm]. destruct (proj2 (Hm eq_refl) tx Ef) as (pc & Em & _). by exists pc.
  - change (txs_buffer s + txs_header_size s = b). rewrite B1, B2. cbn. lia.
Qed.

(** C22: the application sets itself up. From a configuration in which every
    channel has a PDCP that numbers its frames, a share of the frames and, in
    acknowledged mode, a window, and with [tx_buff] aligned, the constructor
    makes the base frame, the layers of each channel, both directions still
    disabled, and a scheduler with exactly these channels, whose state is one
    that its slots start from, as [stack_slot] asks; the area that a slot fills
    begins where the frame's body does. *)
Theorem app_set_up org srcraw dstraw cfg : (8 | org) -> config_ok cfg ->
  exists m rt fr a, setup_80211_base_frame org srcraw dstraw = Ok (m, rt, fr) /\
    tx_ready (source_address srcraw dstraw) m rt fr /\ app_setup cfg fr = Ok a /\ set_up cfg 39 a.
Proof.
  intros Ho Hc. destruct (app_setup_spec cfg base_tx_frame 39 Hc eq_refl) as (a & Ea & Ha).
  do 3 eexists. exists a. split; [by apply setup_base|]. split; [by constructor|done].
Qed.

(** C35: the application as it is set up never sends. From any configuration
    with what its channels need, its first slot reads the number of code words of a frame
    without FEC through a null pointer. *)
Theorem app_never_sends `{HS : StdSort} org srcraw dstraw cfg fuel : (8 | org) -> config_ok cfg ->
  exists m rt fr a, setup_80211_base_frame org srcraw dstraw = Ok (m, rt, fr) /\ app_setup cfg fr = Ok a /\
    txs_tick fuel m (ap_llcs a) (ap_scheduler a) = Ub NullDeref.
Proof.
  intros Ho Hc. destruct (app_setup_spec cfg base_tx_frame 39 Hc eq_refl) as (a & Ea & Ha).
  do 3 eexists. exists a. split; [by apply setup_base|]. split; [done|]. apply tick_null. rewrite (su_area _ _ _ Ha).
  rewrite !zlen_app, zlen_mac_header, zlen_replicate. vm_compute. split; [discriminate|reflexivity].
Qed.

(** What a configuration can leave out. A channel without a PDCP makes the
    constructor use a null pointer; a channel without a share is set up with
    the quantum 0, with which the scheduler's loop does not end
    ([zero_quantum_hangs]). *)
Theorem app_setup_gaps cfg tx_frame b id tx : frame_body tx_frame = Some b -> (id, tx) ∈ llc_tx_configs cfg ->
  (map_find id (pdcp_configs cfg) = None -> app_setup cfg tx_frame = Ub NullDeref) /\
  (StronglySorted Z.lt (map fst (llc_tx_configs cfg)) -> Forall (fun p => 0 <= p.1 < 256) (llc_tx_configs cfg) ->
   map_find id (scheduling_configs cfg) = None ->
   exists s c, setup_scheduler cfg tx_frame (map fst (llc_tx_configs cfg)) = Ok s /\
     schedules_info s !! Z.to_nat id = Some c /\ s_llc c = Some id /\ quanta c = 0 /\ deficit c = 0).
Proof.
  intros Hb Hin. split.
  - intros Hn. unfold app_setup. assert (forall e, setup_llcs cfg (setup_pdcps (pdcp_configs cfg)) (llc_tx_configs cfg) e = Ub NullDeref) as ->;
      [|done]. revert Hin. induction (llc_tx_configs cfg) as [|[k t] l IH]; intros Hin e; [by apply elem_of_nil in Hin|].
    cbn [setup_llcs]. rewrite setup_pdcps_lookup. apply elem_of_cons in Hin as [[= <- <-]|Hin]; [by rewrite Hn|].
    destruct (map_find k (pdcp_configs cfg)); cbn [fmap option_fmap option_map]; [by apply IH|done].
  - intros Hs Hr Hn. set (ids := map fst (llc_tx_configs cfg)) in *.
    destruct (schedule_llcs_spec (scheduling_configs cfg) ids Hs [] 0%nat (txs_reconfigure_buffer 0 buff_size (b - 0) txs_init))
      as (s & n & Es & Hsc & _).
    { constructor; try done; intros i Hi; lia. }
    { unfold ids. apply Forall_map. eapply list.Forall_impl; [exact Hr|]. intros p ?. cbn in *. lia. }
    unfold setup_scheduler. rewrite Hb. cbn [deref]. rewrite bind_ret_l, Es, bind_ret_l. cbn [app] in Hsc.
    eexists _, (share_of (scheduling_configs cfg) id). split; [reflexivity|].
    assert (id ∈ ids) as Hid by (apply (list_elem_of_fmap_2 fst _ (id, tx)); exact Hin).
    destruct (scheduled_id _ _ _ _ Hsc id Hid). change (schedules_info (txs_reconfigure_frame _ _ _ s)) with (schedules_info s).
    rewrite (sd_infos _ _ _ _ Hsc) by lia. rewrite Z2Nat.id by lia. rewrite decide_True by done. split; [done|].
    unfold share_of. by rewrite Hn.
Qed.

(** ** An example: a channel for RRC messages and one in acknowledged mode *)

Definition pdcp_config_example : pdcp_config_t := PdcpConfig false true true false 20 1000 1024.
Definition config_example : config_t :=
  Config 500 1450 [(0, IllcTx false E_TX_MODE_TM 0 0 E_CRC_TYPE_NONE); (4, IllcTx true E_TX_MODE_AM 8 3 E_CRC_TYPE_CRC32_04C11DB7)]
    [] [(0, LlcScheduling 100 50); (4, LlcScheduling 500 100)] [(0, pdcp_config_example); (4, pdcp_config_example)] [(4, UDP)].

Lemma config_example_ok : config_ok config_example.
Proof.
  constructor; [repeat constructor|].
  repeat constructor; cbn; try lia; try (by intros [=]); try (by eexists); eexists; (split; [reflexivity|]); cbn; lia.
Qed.

Import SchedExample.

Lemma app_set_up_witness :
  exists m rt fr a, setup_80211_base_frame 0 0x112233 0x445566 = Ok (m, rt, fr) /\ app_setup config_example fr = Ok a /\
    set_up config_example 39 a.
Proof.
  destruct (app_set_up 0 0x112233 0x445566 config_example (Z.divide_0_r 8) config_example_ok) as (m & rt & fr & a & E & _ & Ea & Ha).
  exists m, rt, fr, a. split; [exact E|]. split; [exact Ea|exact Ha].
Defined.

Lemma app_never_sends_witness :
  exists m rt fr a, setup_80211_base_frame 0 0x112233 0x445566 = Ok (m, rt, fr) /\ app_setup config_example fr = Ok a /\
    txs_tick 1500 m (ap_llcs a) (ap_scheduler a) = Ub NullDeref.
Proof.
  exact (app_never_sends (HS := insertion_sort) 0 0x112233 0x445566 config_example 1500 (Z.divide_0_r 8) config_example_ok).
Defined.

Lemma app_setup_gaps_witness :
  app_setup (Config 500 1450 [(4, IllcTx false E_TX_MODE_TM 0 0 E_CRC_TYPE_NONE)] [] [] [(0, pdcp_config_example)] []) base_tx_frame = Ub NullDeref.
Proof.
  apply (app_setup_gaps _ _ 39 4 (IllcTx false E_TX_MODE_TM 0 0 E_CRC_TYPE_NONE)); [reflexivity| |reflexivity]. left.
Defined.
