(* ===== verification/Logger.v ===== *)
(** * The bits of the logger ([Logless/Logger.hpp], [winject/src/Logger.hpp])

    [main_logger] has a bit for each kind of message. [main] sets them from the
    configuration, and the console by its command [log]. What is logged, and
    where, is left out of the development. *)

From Stdlib Require Import Ascii.
From S2P Require Import Prelude Mem.
#[local] Open Scope list_scope.
#[local] Open Scope Z_scope.

(** [app_logbit_e::MAX]; [main] starts with all bits set. *)
Definition LOGBITS : nat := 37.
Definition logbits_init : list bool := replicate LOGBITS true.

(** [Logger::set_logbit]: [std::bitset::set]. *)
Definition set_logbit (value : bool) (index : Z) (bits : list bool) : res (list bool) :=
  if index <? zlen bits then mret (<[Z.to_nat index := value]> bits) else Throw StdOutOfRange.
Fixpoint set_logbits (idx : Z) (cs : list Ascii.ascii) (bits : list bool) : res (list bool) :=
  match cs with
  | [] => mret bits
  | c :: cs => bits ← set_logbit (Ascii.eqb c "1"%char) idx bits; set_logbits (u64 (idx + 1)) cs bits
  end.

(** The bits of the logger from an index on, as the characters of a text say. *)
Lemma set_logbits_spec cs i bits : 0 <= i -> zlen bits < 18446744073709551616 ->
  set_logbits i cs bits =
  if bool_decide (cs = [] \/ i + zlen cs <= zlen bits)
  then Ok (splice bits i (map (fun c => Ascii.eqb c "1"%char) cs)) else Throw StdOutOfRange.
Proof.
  revert i bits. induction cs as [|c cs IH]; intros i bits Hi Hb.
  { rewrite bool_decide_true by (by left). cbn. by rewrite splice_nil. }
  cbn [set_logbits map]. unfold set_logbit. pose proof (zlen_nonneg cs).
  destruct (Z.ltb_spec i (zlen bits)) as [Hlt|Hge].
  2:{ rewrite bool_decide_false; [done|]. intros [?|Hz]; [done|]. rewrite zlen_cons in Hz. lia. }
  rewrite bind_ret_l, u64_id by ulia.
  replace (<[Z.to_nat i := Ascii.eqb c "1"%char]> bits) with (splice bits i [Ascii.eqb c "1"%char])
    by (unfold splice; rewrite insert_take_drop by zlia; do 2 f_equal; cbn [length]; f_equal; lia).
  rewrite IH by (rewrite ?zlen_splice; cbn; zlia). rewrite zlen_splice by (cbn; zlia).
  destruct (decide (cs = [] \/ i + 1 + zlen cs <= zlen bits)) as [Hd|Hd].
  - rewrite !bool_decide_true; [|right; rewrite zlen_cons|done].
    + f_equal. apply (splice_app bits i [_] _); [done|]. unfold zlen in *. rewrite length_map. cbn [length]. destruct Hd as [->|]; cbn; lia.
    + destruct Hd as [->|]; [rewrite zlen_nil|]; lia.
  - rewrite !bool_decide_false; [done|rewrite zlen_cons; intros [?|?]; [done|]; apply Hd; right; lia|done].
Qed.

Lemma set_logbits_length cs i bits bits' : set_logbits i cs bits = Ok bits' -> length bits' = length bits.
Proof.
  revert i bits. induction cs as [|c cs IH]; intros i bits; cbn [set_logbits]; [by intros [= ->]|].
  unfold set_logbit. destruct (_ <? _); [|done]. rewrite bind_ret_l. intros ->%IH. apply length_insert.
Qed.
