(* ===== verification/Config.v ===== *)
(** * Reading the configuration ([winject/src/main.cpp])

    [main] reads a JSON file into the configuration [AppRRC] is made from. The
    JSON library is third-party code: its accessors are the class [Json], and
    of it only the ranges of the integer conversions are assumed. *)

From Stdlib Require Import Ascii Sorted.
From stdpp Require Import gmap strings.
From S2P Require Import Prelude Mem Info PdcpSegment PdcpUl PdcpTx FecFrame LlcConf AppSetup Logger.
#[local] Open Scope string_scope.
#[local] Open Scope Z_scope.

(** ** The JSON library *)

(** [contains] and [count], [at], [operator\[\]] (which makes a null value where
    there is none), iteration, and the conversions to [size_t], [uint8_t],
    [bool] and [std::string]. A conversion throws where the type is another. *)
Class Json (J : Type) := {
  j_contains : J -> string -> bool;
  j_at : J -> string -> res J;
  j_index : J -> string -> J;
  j_elems : J -> list J;
  j_size : J -> res Z;
  j_u8 : J -> res Z;
  j_bool : J -> res bool;
  j_string : J -> res string }.

Class JsonLaws (J : Type) `{Json J} := { j_u8_range : forall j v, j_u8 j = Ok v -> is_u8 v }.

(** ** The names of the enumerators *)

Definition to_fec_type_e (s : string) : res Z :=
  if decide (s = "RS(255,239)") then mret E_FEC_TYPE_RS_255_239 else
  if decide (s = "RS(255,223)") then mret E_FEC_TYPE_RS_255_223 else
  if decide (s = "RS(255,191)") then mret E_FEC_TYPE_RS_255_191 else
  if decide (s = "RS(255,127)") then mret E_FEC_TYPE_RS_255_127 else
  if decide (s = "NONE") then mret E_FEC_TYPE_NONE else
  Throw StdRuntimeError.
Definition to_tx_mode (s : string) : res tx_mode_e :=
  if decide (s = "AM") then mret E_TX_MODE_AM else
  if decide (s = "TM") then mret E_TX_MODE_TM else
  Throw StdRuntimeError.
Definition to_crc_type (s : string) : res crc_type_e :=
  if decide (s = "CRC32(04C11DB7)") then mret E_CRC_TYPE_CRC32_04C11DB7 else
  if decide (s = "NONE") then mret E_CRC_TYPE_NONE else
  Throw StdRuntimeError.

(** ** Defaults *)

Definition DEFAULT_ND_PDU_SIZE : Z := 64.
Definition DEFAULT_QUANTA : Z := 256.
Definition DEFAULT_FRAME_PAYLOAD_SIZE : Z := 1450.
Definition DEFAULT_SLOT_INTERVAL_US : Z := 500.
Definition DEFAULT_ARQ_WINDOW_SIZE : Z := 25.
Definition DEFAULT_MAX_RETX_COUNT : Z := 50.
Definition DEFAULT_CRC_TYPE : string := "NONE".
Definition DEFAULT_ALLOW_RLF : bool := true.
Definition DEFAULT_ALLOW_SEGMENTATION : bool := false.
Definition DEFAULT_ALLOW_REORDERING : bool := false.
Definition DEFAULT_MIN_COMMIT_SIZE : Z := 0.
Definition DEFAULT_MAX_SN_DISTANCE : Z := 1000.
Definition DEFAULT_AUTO_INIT_ON_TX : bool := false.
Definition DEFAULT_AUTO_INIT_ON_RX : bool := false.
Definition DEFAULT_LOGBIT : string := "1111111111111111111111111111111011111".
Definition DEFAULT_REPLY_TO_LAST : bool := false.

(** The values the members of the structures start with. *)
Definition llc_tx_default : illc_tx_config := IllcTx false E_TX_MODE_TM 0 0 E_CRC_TYPE_NONE.
Definition pdcp_tx_default : pdcp_config_t := PdcpConfig false false false false 20 1000 1024.
Definition llc_scheduling_default : llc_scheduling_config_t := LlcScheduling 0 0.

(** [IEndPoint::config_t], [IRRC::app_config_t] *)
Record ep_config_t := EpConfig {
  ep_lcid : Z; ep_type_name : string; ep_address1 : string; ep_address2 : string; ep_reply_to_last : bool }.
Definition ep_config_default : ep_config_t := EpConfig 0 "" "" "" false.
Record app_config_t := AppConfig {
  app_udp_console : string; app_wifi_device : string; app_wifi_device2 : string; app_woudp_tx : string; app_woudp_rx : string }.

(** What is read: the configuration of [AppRRC] and what else there is. *)
Record main_config := MainConfig {
  mc_slot_interval_us : Z; mc_frame_payload_size : Z; mc_hwsrc : string; mc_hwdst : string;
  mc_fec_configs : list (Z * Z);
  mc_llc_tx : list (Z * illc_tx_config); mc_llc_rx : list (Z * illc_rx_config);
  mc_scheduling : list (Z * llc_scheduling_config_t); mc_pdcp : list (Z * pdcp_config_t);
  mc_ep : list (Z * ep_config_t); mc_app : app_config_t; mc_logbit : list bool }.
#[export] Instance eta_main_config : Eta main_config := fun c =>
  MainConfig (mc_slot_interval_us c) (mc_frame_payload_size c) (mc_hwsrc c) (mc_hwdst c) (mc_fec_configs c)
    (mc_llc_tx c) (mc_llc_rx c) (mc_scheduling c) (mc_pdcp c) (mc_ep c) (mc_app c) (mc_logbit c).

(** A [std::map] is the list of its pairs by increasing key; [m[id]] makes an
    entry with the default value where there is none. *)
Fixpoint map_at {A} (id : Z) (d : A) (f : A -> A) (l : list (Z * A)) : list (Z * A) :=
  match l with
  | [] => [(id, f d)]
  | (k, v) :: l' =>
    if id <? k then (id, f d) :: l else if k =? id then (k, f v) :: l' else (k, v) :: map_at id d f l'
  end.

Section Read.
Context {J : Type} `{Json J}.

Definition value_or {T} (get : J -> res T) (json : J) (key : string) (value : T) : res T :=
  if j_contains json key then (x ← j_at json key; get x) else mret value.

Fixpoint read_fec (l : list J) : res (list (Z * Z)) :=
  match l with
  | [] => mret []
  | fec :: l =>
    type ← (x ← j_at fec "fec_type"; s ← j_string x; to_fec_type_e s);
    threshold ← (x ← j_at fec "threshold"; j_u8 x);
    rest ← read_fec l;
    mret ((type, threshold) :: rest)
  end.

(** The members of the LLC that are read; in transparent mode those of the
    acknowledged mode keep their values. *)
Definition read_llc_tx (mode : tx_mode_e) (llc : J) : res (illc_tx_config -> illc_tx_config) :=
  am ← (match mode with
        | E_TX_MODE_AM =>
          tx_config ← j_at llc "am_tx_config";
          allow_rlf ← value_or j_bool tx_config "allow_rlf" DEFAULT_ALLOW_RLF;
          arq_window_size ← value_or j_size tx_config "arq_window_size" DEFAULT_ARQ_WINDOW_SIZE;
          max_retx_count ← value_or j_size tx_config "max_retx_count" DEFAULT_MAX_RETX_COUNT;
          mret (Some (allow_rlf, arq_window_size, max_retx_count))
        | E_TX_MODE_TM => mret None
        end);
  common ← j_at llc "common_tx_config";
  crc ← (s ← value_or j_string common "crc_type" DEFAULT_CRC_TYPE; to_crc_type s);
  mret (fun c => match am with
                 | Some (rlf, window, count) => IllcTx rlf mode window count crc
                 | None => IllcTx (it_allow_rlf c) mode (it_arq_window_size c) (it_max_retx_count c) crc
                 end).

Definition read_scheduling (llc : J) : res llc_scheduling_config_t :=
  j ← j_at llc "scheduling_config";
  nd ← value_or j_size j "nd_pdu_size" DEFAULT_ND_PDU_SIZE;
  quanta ← value_or j_size j "quanta" DEFAULT_QUANTA;
  mret (LlcScheduling quanta nd).

Definition read_pdcp (pdcp : J) : res (pdcp_config_t -> pdcp_config_t) :=
  tx ← j_at pdcp "tx_config";
  allow_rlf ← value_or j_bool tx "allow_rlf" DEFAULT_ALLOW_RLF;
  allow_segmentation ← value_or j_bool tx "allow_segmentation" DEFAULT_ALLOW_SEGMENTATION;
  allow_reordering ← value_or j_bool tx "allow_reordering" DEFAULT_ALLOW_REORDERING;
  min_commit_size ← value_or j_size tx "min_commit_size" DEFAULT_MIN_COMMIT_SIZE;
  max_sn_distance ← value_or j_size tx "max_sn_distance" DEFAULT_MAX_SN_DISTANCE;
  auto_init_on_tx ← value_or j_bool tx "auto_init_on_tx" DEFAULT_AUTO_INIT_ON_TX;
  mret (fun c => PdcpConfig allow_rlf allow_segmentation allow_reordering auto_init_on_tx max_sn_distance
    min_commit_size (pc_max_tx_queue_size c)).

Definition read_ep (lcid : Z) (endpoint_config : J) : res (ep_config_t -> ep_config_t) :=
  type ← (x ← j_at endpoint_config "type"; j_string x);
  reply ← value_or j_bool endpoint_config "reply_to_last" DEFAULT_REPLY_TO_LAST;
  addresses ←
    (if decide (type = "UDP") then
       a1 ← (x ← j_at endpoint_config "udp_tx_address"; j_string x);
       a2 ← (x ← j_at endpoint_config "udp_rx_address"; j_string x);
       mret (Some a1, Some a2)
     else if decide (type = "TCPS" \/ type = "TCPC") then
       a1 ← (x ← j_at endpoint_config "tcp_address"; j_string x);
       mret (Some a1, None)
     else mret (None, None));
  mret (fun c => EpConfig lcid type (default (ep_address1 c) addresses.1) (default (ep_address2 c) addresses.2) reply).

(** One element of [lc_configs]. *)
Definition read_lc (lc : J) (mc : main_config) : res main_config :=
  llc ← j_at lc "llc_config";
  pdcp ← j_at lc "pdcp_config";
  lcid ← (x ← j_at lc "lcid"; j_u8 x);
  _ ← value_or j_string lc "description" "";
  mode ← (x ← j_at llc "tx_mode"; s ← j_string x; to_tx_mode s);
  scheduling ← read_scheduling llc;
  llc_tx ← read_llc_tx mode llc;
  auto_init_on_rx ← (common ← j_at llc "common_rx_config"; value_or j_bool common "auto_init_on_rx" DEFAULT_AUTO_INIT_ON_RX);
  pdcp_tx ← read_pdcp pdcp;
  ep ← (endpoint_config ← j_at pdcp "endpoint_config"; read_ep lcid endpoint_config);
  let mc := mc <| mc_llc_tx := map_at lcid llc_tx_default llc_tx (mc_llc_tx mc) |> in
  let mc := mc <| mc_llc_rx := map_at lcid illc_rx_default (fun c => c <| ir_auto_init_on_rx := auto_init_on_rx |>) (mc_llc_rx mc) |> in
  let mc := mc <| mc_scheduling := map_at lcid llc_scheduling_default (fun _ => scheduling) (mc_scheduling mc) |> in
  let mc := mc <| mc_pdcp := map_at lcid pdcp_tx_default pdcp_tx (mc_pdcp mc) |> in
  mret (mc <| mc_ep := map_at lcid ep_config_default ep (mc_ep mc) |>).
Fixpoint read_lcs (l : list J) (mc : main_config) : res main_config :=
  match l with [] => mret mc | lc :: l => mc ← read_lc lc mc; read_lcs l mc end.

Definition read_app (app : J) : res app_config_t :=
  devices ←
    (if j_contains app "txrx_device" then
       d ← (x ← j_at app "txrx_device"; j_string x); mret (d, "", "", "")
     else if j_contains app "wifi_over_udp" then
       w ← j_at app "wifi_over_udp";
       tx ← (x ← j_at w "tx_address"; j_string x);
       rx ← (x ← j_at w "rx_address"; j_string x);
       mret ("", "", tx, rx)
     else
       d ← (x ← j_at app "tx_device"; j_string x);
       d2 ← (x ← j_at app "rx_device"; j_string x);
       mret (d, d2, "", ""));
  console ← (x ← j_at app "udp_console"; j_string x);
  let '(d, d2, tx, rx) := devices in
  mret (AppConfig console d d2 tx rx).

(** The part of [main] that reads, from the root of the file; [bits] are those
    of the logger before. *)
Definition read_config (bits : list bool) (croot : J) : res main_config :=
  rrc ← j_at croot "rrc_config";
  frame ← j_at rrc "frame_config";
  lc_configs ← j_at rrc "lc_configs";
  app ← j_at rrc "app_config";
  fecs ← read_fec (j_elems (j_index frame "fec_configs"));
  size ← value_or j_size frame "frame_payload_size" DEFAULT_FRAME_PAYLOAD_SIZE;
  interval ← value_or j_size frame "slot_interval_us" DEFAULT_SLOT_INTERVAL_US;
  hwsrc ← (x ← j_at frame "hwsrc"; j_string x);
  hwdst ← (x ← j_at frame "hwdst"; j_string x);
  mc ← read_lcs (j_elems lc_configs)
         (MainConfig interval size hwsrc hwdst fecs [] [] [] [] [] (AppConfig "" "" "" "" "") []);
  app_config ← read_app app;
  logbit ← value_or j_string app "logbit" DEFAULT_LOGBIT;
  bits ← set_logbits 0 (String.list_ascii_of_string logbit) bits;
  mret (mc <| mc_app := app_config |> <| mc_logbit := bits |>).
End Read.

(** What [AppRRC] makes of the name of the type of an end point. *)
Definition ep_type_of (name : string) : ep_type :=
  if decide (name = "UDP") then UDP else if decide (name = "TCPS") then TCPS
  else if decide (name = "TCPC") then TCPC else OtherType.

Definition mc_config (mc : main_config) : config_t :=
  Config (mc_slot_interval_us mc) (mc_frame_payload_size mc) (mc_llc_tx mc) (mc_llc_rx mc) (mc_scheduling mc) (mc_pdcp mc)
    (map (fun p => (p.1, ep_type_of (ep_type_name p.2))) (mc_ep mc)).

(** ** Lemmas *)

Lemma map_at_lookup {A} id (d : A) f l k : StronglySorted Z.lt (map fst l) ->
  map_find k (map_at id d f l) = if k =? id then Some (f (default d (map_find id l))) else map_find k l.
Proof.
  induction l as [|[k' v] l IH]; intros Hs; cbn [map_at map_find].
  - destruct (Z.eqb_spec id k), (Z.eqb_spec k id); try done; congruence.
  - apply StronglySorted_inv in Hs as [Hs Hk].
    assert (forall j, j < k' -> map_find j l = None) as Hnone.
    { clear -Hk. cbn in Hk. intros j Hj. induction l as [|[k2 v2] l IH]; [done|]. apply Forall_cons_1 in Hk as [H1 H2].
      cbn in *. destruct (Z.eqb_spec k2 j); [lia|by apply IH]. }
    destruct (Z.ltb_spec id k'); cbn [map_find].
    + destruct (Z.eqb_spec k' id); [lia|]. rewrite (Hnone id) by lia.
      destruct (Z.eqb_spec id k), (Z.eqb_spec k id); try congruence; done.
    + destruct (Z.eqb_spec k' id) as [->|Hne]; cbn [map_find].
      * destruct (Z.eqb_spec id k), (Z.eqb_spec k id); try congruence; done.
      * rewrite IH by done. destruct (Z.eqb_spec k' k) as [->|]; [|done]. by destruct (Z.eqb_spec k id).
Qed.

Lemma map_at_keys {A} id (d : A) f l k :
  k ∈ map fst (map_at id d f l) <-> k = id \/ k ∈ map fst l.
Proof.
  induction l as [|[k' v] l IH]; cbn [map_at map fst].
  { by rewrite elem_of_cons. }
  destruct (id <? k'); cbn [map fst]; [by rewrite !elem_of_cons|].
  destruct (Z.eqb_spec k' id) as [->|]; cbn [map fst]; rewrite !elem_of_cons, ?IH; tauto.
Qed.

Lemma map_at_sorted {A} id (d : A) f l : StronglySorted Z.lt (map fst l) -> StronglySorted Z.lt (map fst (map_at id d f l)).
Proof.
  induction l as [|[k v] l IH]; intros Hs; cbn [map_at map fst]; [by repeat constructor|].
  pose proof Hs as Hs0. apply StronglySorted_inv in Hs as [Hs Hk]. cbn [map fst] in Hk.
  destruct (Z.ltb_spec id k); cbn [map fst].
  - constructor; [done|]. constructor; [done|]. eapply list.Forall_impl; [exact Hk|]. cbn. lia.
  - destruct (Z.eqb_spec k id); cbn [map fst]; [done|]. constructor; [by apply IH|].
    apply list.Forall_forall. intros x [->|Hx]%map_at_keys; [lia|]. by apply (proj1 (list.Forall_forall _ _) Hk).
Qed.

Lemma map_at_Forall {A} (P : A -> Prop) id d f l :
  Forall (fun p : Z * A => P p.2) l -> P d -> (forall v, P v -> P (f v)) -> Forall (fun p => P p.2) (map_at id d f l).
Proof.
  intros Hl Hd Hf. induction l as [|[k v] l IH]; cbn [map_at]; [constructor; [by apply Hf|done]|].
  pose proof Hl as Hl0. apply list.Forall_cons in Hl as [Hv Hl]. destruct (id <? k); [constructor; [by apply Hf|done]|].
  destruct (k =? id); constructor; cbn; auto.
Qed.

Lemma map_find_key {A} id (l : list (Z * A)) : id ∈ map fst l <-> is_Some (map_find id l).
Proof.
  induction l as [|[k v] l IH]; cbn [map_find map fst].
  - split; [by intros ?%elem_of_nil|by intros []].
  - rewrite elem_of_cons, IH. destruct (Z.eqb_spec k id) as [->|]; [split; eauto|]. split; [by intros [?|?]|by right].
Qed.

(** The keys of the tables are the channels that were read. *)
Record same_keys (mc : main_config) : Prop := SameKeys {
  sk_sorted : StronglySorted Z.lt (map fst (mc_llc_tx mc));
  sk_rx : map fst (mc_llc_rx mc) = map fst (mc_llc_tx mc);
  sk_scheduling : map fst (mc_scheduling mc) = map fst (mc_llc_tx mc);
  sk_pdcp : map fst (mc_pdcp mc) = map fst (mc_llc_tx mc);
  sk_ep : map fst (mc_ep mc) = map fst (mc_llc_tx mc);
  sk_range : forall id, id ∈ map fst (mc_llc_tx mc) -> is_u8 id }.

Fixpoint insert_key (id : Z) (l : list Z) : list Z :=
  match l with
  | [] => [id]
  | k :: l' => if id <? k then id :: l else if k =? id then k :: l' else k :: insert_key id l'
  end.
Lemma map_at_insert {A} id (d : A) f l : map fst (map_at id d f l) = insert_key id (map fst l).
Proof.
  induction l as [|[k v] l IH]; [done|]. cbn [map_at map fst insert_key].
  destruct (id <? k); [done|]. destruct (k =? id); [done|]. cbn [map fst]. by rewrite IH.
Qed.

Section Laws.
Context {J : Type} `{JsonLaws J}.

Lemma read_lc_keys lc mc mc' : read_lc lc mc = Ok mc' -> same_keys mc -> same_keys mc'.
Proof.
  intros E [Hs H1 H2 H3 H4 Hr]. unfold read_lc in E. inv_res.
  match goal with E : j_u8 _ = Ok ?v |- _ => apply j_u8_range in E as Hu end.
  constructor; cbn; rewrite ?map_at_insert, ?H1, ?H2, ?H3, ?H4; try done.
  - rewrite <- map_at_insert with (d := llc_tx_default) (f := id). by apply map_at_sorted.
  - intros i Hi. rewrite <- (map_at_insert _ llc_tx_default id) in Hi. apply map_at_keys in Hi as [->|Hi]; [done|by apply Hr].
Qed.

Lemma read_lcs_keys l mc mc' : read_lcs l mc = Ok mc' -> same_keys mc -> same_keys mc'.
Proof.
  revert mc. induction l as [|lc l IH]; intros mc E Hk; [by injection E as <-|].
  cbn [read_lcs] in E. apply bind_Ok in E as (mc1 & E1 & E). by eapply IH, (read_lc_keys lc mc).
Qed.

Lemma read_config_keys bits croot mc : read_config bits croot = Ok mc -> same_keys mc.
Proof.
  intros E. unfold read_config in E. inv_res.
  match goal with E : read_lcs _ _ = Ok _ |- _ => apply read_lcs_keys in E as [] end; [by constructor|].
  constructor; try done; [constructor|]. intros id Hid. by inversion Hid.
Qed.
Lemma read_config_bits bits croot mc : read_config bits croot = Ok mc -> length (mc_logbit mc) = length bits.
Proof.
  intros E. unfold read_config in E. inv_res.
  match goal with E : set_logbits _ _ _ = Ok _ |- _ => by apply set_logbits_length in E end.
Qed.
End Laws.

(** ** Properties *)

(** C23: what [main] hands to [AppRRC] is complete. Whatever the file, if it is
    read without an exception, then all tables have the same channels, each in
    an entry of its own, in order, and with a number of eight bits; so no
    channel is without PDCP or without share. The logger keeps its number of
    bits. If moreover the values
    are such as the layers need - a number below 16, a window in acknowledged
    mode, reordering, and a share that is not zero - then the configuration is
    one from which the application sets itself up. *)
Theorem config_read_ok {J} `{JsonLaws J} bits (croot : J) mc :
  read_config bits croot = Ok mc ->
  let cfg := mc_config mc in
  StronglySorted Z.lt (map fst (llc_tx_configs cfg)) /\
  (map fst (llc_rx_configs cfg) = map fst (llc_tx_configs cfg) /\ map fst (scheduling_configs cfg) = map fst (llc_tx_configs cfg) /\
   map fst (pdcp_configs cfg) = map fst (llc_tx_configs cfg) /\ map fst (ep_configs cfg) = map fst (llc_tx_configs cfg)) /\
  length (mc_logbit mc) = length bits /\
  (forall id tx, (id, tx) ∈ llc_tx_configs cfg -> is_u8 id /\ is_Some (map_find id (pdcp_configs cfg)) /\
     is_Some (map_find id (scheduling_configs cfg)) /\ is_Some (map_find id (llc_rx_configs cfg)) /\
     is_Some (map_find id (ep_configs cfg))) /\
  ((forall id tx, (id, tx) ∈ llc_tx_configs cfg -> llc_new_ok id tx) ->
   (forall id c, map_find id (pdcp_configs cfg) = Some c -> pc_allow_reordering c = true) ->
   (forall id s, map_find id (scheduling_configs cfg) = Some s -> 0 < sc_quanta s < 2 ^ 40 /\ 0 <= sc_nd_gpdu_max_size s) ->
   config_ok cfg).
Proof.
  intros E cfg. destruct (read_config_keys bits croot mc E) as [Hs H1 H2 H3 H4 Hr].
  assert (forall id tx, (id, tx) ∈ mc_llc_tx mc -> id ∈ map fst (mc_llc_tx mc)) as Hin
    by (intros id tx Hi; apply (list_elem_of_fmap_2 fst) in Hi; exact Hi).
  assert (forall id tx, (id, tx) ∈ mc_llc_tx mc -> is_Some (map_find id (mc_pdcp mc)) /\ is_Some (map_find id (mc_scheduling mc)))
    as Hall by (intros id tx Hi%Hin; split; apply map_find_key; congruence).
  split; [exact Hs|]. assert (map fst (ep_configs cfg) = map fst (mc_ep mc)) as He by (cbn; by rewrite map_map).
  split; [rewrite He; by split_and!|]. split; [by apply (read_config_bits bits croot)|]. split.
  - intros id tx Hi. pose proof (Hin id tx Hi) as Hk. destruct (Hall id tx Hi). split; [by apply Hr|].
    split; [done|]. split; [done|]. split; [apply map_find_key; cbn; by rewrite H1|].
    apply map_find_key. by rewrite He, H4.
  - intros Hn Hp Hq. constructor; [exact Hs|]. apply list.Forall_forall. intros [id tx] Hi. cbn in *.
    destruct (Hall id tx Hi) as [[c Ec] [s Es]]. constructor; [by apply Hn| |]; cbn.
    + exists c. split; [done|by apply (Hp id)].
    + exists s. split; [done|by apply (Hq id)].
Qed.

(** ** The example of the repository *)

(** JSON values, as far as the file needs them; an exception of the library
    stands as [std::runtime_error]. *)
Inductive jv := JNull | JNum (z : Z) | JBool (b : bool) | JStr (s : string) | JArr (l : list jv) | JObj (l : list (string * jv)).

Fixpoint jv_find (key : string) (l : list (string * jv)) : option jv :=
  match l with [] => None | (k, v) :: l => if decide (k = key) then Some v else jv_find key l end.
Definition jv_get (j : jv) (key : string) : option jv := match j with JObj l => jv_find key l | _ => None end.

#[export] Instance jv_json : Json jv := {
  j_contains j key := bool_decide (is_Some (jv_get j key));
  j_at j key := match jv_get j key with Some v => Ok v | None => Throw StdRuntimeError end;
  j_index j key := default JNull (jv_get j key);
  j_elems j := match j with JArr l => l | JObj l => map snd l | JNull => [] | _ => [j] end;
  j_size j := match j with JNum z => Ok (u64 z) | _ => Throw StdRuntimeError end;
  j_u8 j := match j with JNum z => Ok (u8 z) | _ => Throw StdRuntimeError end;
  j_bool j := match j with JBool b => Ok b | _ => Throw StdRuntimeError end;
  j_string j := match j with JStr s => Ok s | _ => Throw StdRuntimeError end }.
#[export] Instance jv_laws : JsonLaws jv.
Proof. constructor. intros [] v; try by intros [=]. cbn. intros [= <-]. apply u8_range. Qed.

(** [winject_cfg_dualwifi1.json] *)
Definition winject_cfg_dualwifi1 : jv :=
  JObj [("rrc_config", JObj [("frame_config", JObj [("slot_interval_us", JNum 1000);
       ("frame_payload_size", JNum 1450);
       ("fec_configs", JArr [JObj [("fec_type", JStr "RS(255,239)"); ("threshold", JNum 10)];
         JObj [("fec_type", JStr "RS(255,223)"); ("threshold", JNum 20)];
         JObj [("fec_type", JStr "RS(255,191)"); ("threshold", JNum 40)];
         JObj [("fec_type", JStr "RS(255,127)"); ("threshold", JNum 80)]]);
       ("hwsrc", JStr "123456");
       ("hwdst", JStr "7890ab")]);
     ("lc_configs", JArr [JObj [("lcid", JNum 0);
         ("description", JStr "rrc0");
         ("llc_config", JObj [("lcid", JNum 0);
           ("tx_mode", JStr "TM");
           ("scheduling_config", JObj [("nd_pdu_size", JNum 0); ("quanta", JNum 4294967295)]);
           ("common_tx_config", JObj [("crc_type", JStr "CRC32(04C11DB7)")]);
           ("common_rx_config", JObj [])]);
         ("pdcp_config", JObj [("tx_config", JObj [("allow_rlf", JBool false)]);
           ("endpoint_config", JObj [("type", JStr "RRC0")])])];
       JObj [("lcid", JNum 1);
         ("description", JStr "ssh1");
         ("llc_config", JObj [("tx_mode", JStr "AM");
           ("scheduling_config", JObj [("nd_pdu_size", JNum 64); ("quanta", JNum 512)]);
           ("am_tx_config", JObj [("allow_rlf", JBool true); ("arq_window_size", JNum 30); ("max_retx_count", JNum 200)]);
           ("common_tx_config", JObj [("crc_type", JStr "CRC32(04C11DB7)")]);
           ("common_rx_config", JObj [])]);
         ("pdcp_config", JObj [("tx_config", JObj [("auto_init_on_tx", JBool true);
             ("allow_rlf", JBool true);
             ("allow_segmentation", JBool true);
             ("allow_reordering", JBool true);
             ("max_sn_distance", JNum 3000)]);
           ("endpoint_config", JObj [("type", JStr "TCPS"); ("tcp_address", JStr "127.0.0.1:21011")])])];
       JObj [("lcid", JNum 2);
         ("description", JStr "ssh2");
         ("llc_config", JObj [("tx_mode", JStr "AM");
           ("scheduling_config", JObj [("nd_pdu_size", JNum 64); ("quanta", JNum 512)]);
           ("am_tx_config", JObj [("allow_rlf", JBool true); ("arq_window_size", JNum 30); ("max_retx_count", JNum 200)]);
           ("common_tx_config", JObj [("crc_type", JStr "CRC32(04C11DB7)")]);
           ("common_rx_config", JObj [("crc_type", JStr "CRC32(04C11DB7)")])]);
         ("pdcp_config", JObj [("tx_config", JObj [("allow_rlf", JBool true);
             ("allow_segmentation", JBool true);
             ("allow_reordering", JBool true);
             ("max_sn_distance", JNum 3000)]);
           ("endpoint_config", JObj [("type", JStr "TCPS"); ("tcp_address", JStr "127.0.0.1:21021")])])];
       JObj [("lcid", JNum 3);
         ("description", JStr "ssh3");
         ("llc_config", JObj [("tx_mode", JStr "AM");
           ("scheduling_config", JObj [("nd_pdu_size", JNum 64); ("quanta", JNum 1450)]);
           ("am_tx_config", JObj [("allow_rlf", JBool true); ("arq_window_size", JNum 30); ("max_retx_count", JNum 200)]);
           ("common_tx_config", JObj [("crc_type", JStr "CRC32(04C11DB7)")]);
           ("common_rx_config", JObj [("crc_type", JStr "CRC32(04C11DB7)")])]);
         ("pdcp_config", JObj [("tx_config", JObj [("allow_rlf", JBool true);
             ("allow_segmentation", JBool true);
             ("allow_reordering", JBool true);
             ("max_sn_distance", JNum 3000)]);
           ("endpoint_config", JObj [("type", JStr "TCPS"); ("tcp_address", JStr "127.0.0.1:21031")])])];
       JObj [("lcid", JNum 4);
         ("description", JStr "bw4");
         ("llc_config", JObj [("tx_mode", JStr "AM");
           ("scheduling_config", JObj [("nd_pdu_size", JNum 64); ("quanta", JNum 1450)]);
           ("am_tx_config", JObj [("allow_rlf", JBool true); ("arq_window_size", JNum 30); ("max_retx_count", JNum 200)]);
           ("common_tx_config", JObj [("crc_type", JStr "CRC32(04C11DB7)")]);
           ("common_rx_config", JObj [("crc_type", JStr "CRC32(04C11DB7)")])]);
         ("pdcp_config", JObj [("tx_config", JObj [("allow_rlf", JBool true);
             ("allow_segmentation", JBool true);
             ("allow_reordering", JBool true);
             ("max_sn_distance", JNum 3000)]);
           ("endpoint_config", JObj [("type", JStr "TCPS"); ("tcp_address", JStr "127.0.0.1:21041")])])];
       JObj [("lcid", JNum 6);
         ("description", JStr "video6");
         ("llc_config", JObj [("lcid", JNum 0);
           ("tx_mode", JStr "TM");
           ("scheduling_config", JObj [("nd_pdu_size", JNum 0); ("quanta", JNum 1450)]);
           ("common_tx_config", JObj [("crc_type", JStr "CRC32(04C11DB7)")]);
           ("common_rx_config", JObj [("crc_type", JStr "CRC32(04C11DB7)"); ("auto_init_on_rx", JBool false)])]);
         ("pdcp_config", JObj [("tx_config", JObj [("auto_init_on_tx", JBool true); ("allow_rlf", JBool false)]);
           ("endpoint_config", JObj [("type", JStr "UDP");
             ("udp_tx_address", JStr "127.0.0.1:21061");
             ("udp_rx_address", JStr "127.0.0.1:21062")])])];
       JObj [("lcid", JNum 7);
         ("description", JStr "video7");
         ("llc_config", JObj [("tx_mode", JStr "AM");
           ("scheduling_config", JObj [("nd_pdu_size", JNum 50); ("quanta", JNum 1450)]);
           ("am_tx_config", JObj [("allow_rlf", JBool false); ("arq_window_size", JNum 30); ("max_retx_count", JNum 50)]);
           ("common_tx_config", JObj [("crc_type", JStr "CRC32(04C11DB7)")]);
           ("common_rx_config", JObj [("crc_type", JStr "CRC32(04C11DB7)"); ("auto_init_on_rx", JBool false)])]);
         ("pdcp_config", JObj [("tx_config", JObj [("auto_init_on_tx", JBool true);
             ("allow_rlf", JBool false);
             ("allow_segmentation", JBool true);
             ("allow_reordering", JBool true);
             ("max_sn_distance", JNum 3000);
             ("min_commit_size", JNum 0)]);
           ("endpoint_config", JObj [("type", JStr "UDP");
             ("udp_tx_address", JStr "127.0.0.1:21071");
             ("udp_rx_address", JStr "127.0.0.1:21072")])])];
       JObj [("lcid", JNum 8);
         ("description", JStr "video8");
         ("llc_config", JObj [("tx_mode", JStr "AM");
           ("scheduling_config", JObj [("nd_pdu_size", JNum 64); ("quanta", JNum 1450)]);
           ("am_tx_config", JObj [("allow_rlf", JBool true); ("arq_window_size", JNum 30); ("max_retx_count", JNum 200)]);
           ("common_tx_config", JObj [("crc_type", JStr "CRC32(04C11DB7)")]);
           ("common_rx_config", JObj [("crc_type", JStr "CRC32(04C11DB7)")])]);
         ("pdcp_config", JObj [("tx_config", JObj [("allow_rlf", JBool true);
             ("allow_segmentation", JBool true);
             ("allow_reordering", JBool true);
             ("max_sn_distance", JNum 3000)]);
           ("endpoint_config", JObj [("type", JStr "TCPS"); ("tcp_address", JStr "127.0.0.1:21081")])])]]);
     ("app_config", JObj [("wifi_over_udp_", JObj [("tx_address", JStr "127.0.0.1:22001"); ("rx_address", JStr "127.0.0.1:21001")]);
       ("txrx_device", JStr "wlx24ec99ca8bd1");
       ("tx_device_", JStr "wlx24ec998bee93");
       ("rx_device_", JStr "wlx24ec999b30f3");
       ("udp_console", JStr "127.0.0.1:21000");
       ("logbitx", JStr "1111111111111111111111111111111011111");
       ("logbit", JStr "1110000000011100111001111111100111100")])])].

Lemma config_read_ok_witness : exists mc, read_config logbits_init winject_cfg_dualwifi1 = Ok mc /\
  map fst (llc_tx_configs (mc_config mc)) = [0; 1; 2; 3; 4; 6; 7; 8] /\
  is_Some (map_find 8 (pdcp_configs (mc_config mc))).
Proof.
  eexists. split; [vm_compute; reflexivity|]. split; [reflexivity|].
  eapply (config_read_ok logbits_init winject_cfg_dualwifi1); [vm_compute; reflexivity|].
  do 7 right. left.
Defined.

(** The channels 0, of the RRC, and 6 of that file leave [allow_reordering] at
    its default, which is false; then the first transmission, of whatever
    frame, stores the sequence number through a null pointer
    ([PdcpTx.ptx_no_reordering]). *)
Theorem sample_no_reordering id : id = 0 \/ id = 6 ->
  exists mc c, read_config logbits_init winject_cfg_dualwifi1 = Ok mc /\ map_find id (pdcp_configs (mc_config mc)) = Some c /\
  forall m info s, view_ok m (pdu_base (out_pdu info)) (pdu_size (out_pdu info)) -> ptx_inv s ->
    ptx_cfg s = ptx_of c -> is_tx_enabled s = true -> ptx_frames s <> [] -> 4 < pdu_size (out_pdu info) ->
    ptx_on_tx m info s = Ub NullDeref.
Proof.
  intros Hid. assert (forall c m info s, c = PdcpConfig false false false (pc_auto_init_on_tx c) 1000 0 1024 ->
    view_ok m (pdu_base (out_pdu info)) (pdu_size (out_pdu info)) -> ptx_inv s ->
    ptx_cfg s = ptx_of c -> is_tx_enabled s = true -> ptx_frames s <> [] -> 4 < pdu_size (out_pdu info) ->
    ptx_on_tx m info s = Ub NullDeref) as HX.
  { intros c m info s -> Hv Hi Hc Hon Hf Hn. apply ptx_no_reordering; rewrite ?Hc; try done.
    - cbn. lia.
    - cbn. vm_compute (hdr_len false false). lia. }
  destruct Hid as [-> | ->]; (eexists _, _; split; [vm_compute; reflexivity|]; split; [reflexivity|];
    intros m info s Hv Hi Hc Hon Hf Hn; refine (HX _ m info s _ Hv Hi Hc Hon Hf Hn); reflexivity).
Qed.

(** The code of 247 data bytes has no name in the configuration. *)
Example fec_247_unnamed : to_fec_type_e "RS(255,247)" = Throw StdRuntimeError.
Proof. reflexivity. Qed.
