(* ===== verification/Console.v ===== *)
(** * The console ([bfc/command_manager.hpp], [bfc/configuration_parser.hpp], [AppRRC.cpp])

    [AppRRC] waits for commands on a UDP socket. [command_manager] takes a
    datagram apart with two regular expressions and calls the command it names;
    the commands set up a channel again, set the bits of the logger, or stop
    the program.

    [std::regex] belongs to the language. Modelled is what the two patterns
    use of it: a sequence of repetitions of a class of characters, some of them
    captured, each as long as possible, with backtracking. The console runs in
    the thread of the event loop, and nothing there catches an exception: a
    [Throw] of these definitions ends the program. *)

From Stdlib Require Import Ascii.
From stdpp Require Import gmap strings pretty.
From S2P Require Import Prelude Mem SafeInt RrcMsg Timer Info LcRrc AppRrc EndPoint Logger.
#[local] Open Scope list_scope.
#[local] Open Scope Z_scope.

Abbreviation text := (list Ascii.ascii).
Abbreviation str := String.string_of_list_ascii.
Abbreviation chars := String.list_ascii_of_string.

(** ** Regular expressions *)

(** A class of characters, at least [r_min] and at most [r_max] times; in
    parentheses or not. *)
Record rep := Rep { r_class : Ascii.ascii -> bool; r_min : nat; r_max : option nat; r_capture : bool }.

Fixpoint run_length (cls : Ascii.ascii -> bool) (s : text) : nat :=
  match s with c :: s => if cls c then S (run_length cls s) else O | [] => O end.
Definition most (r : rep) (s : text) : nat :=
  match r_max r with Some m => Nat.min m (run_length (r_class r) s) | None => run_length (r_class r) s end.

(** The captures and the rest behind the match; the whole text if [full]. *)
Fixpoint match_here (full : bool) (p : list rep) (s : text) : option (list text * text) :=
  match p with
  | [] => if full && negb (bool_decide (s = [])) then None else Some ([], s)
  | r :: p =>
    (fix back n :=
       if (n <? r_min r)%nat then None else
       match match_here full p (drop n s) with
       | Some (caps, rest) => Some (if r_capture r then take n s :: caps else caps, rest)
       | None => match n with O => None | S n => back n end
       end) (most r s)
  end.
Definition regex_match (p : list rep) (s : text) : option (list text) := fst <$> match_here true p s.
Fixpoint regex_search (p : list rep) (s : text) : option (list text * text) :=
  match match_here false p s with
  | Some r => Some r
  | None => match s with [] => None | _ :: s => regex_search p s end
  end.

Definition newline : Ascii.ascii := Ascii.ascii_of_nat 10.
Definition carriage_return : Ascii.ascii := Ascii.ascii_of_nat 13.
Definition is_not_space (c : Ascii.ascii) : bool := negb (is_space c).
Definition is_dot (c : Ascii.ascii) : bool := negb (Ascii.eqb c newline || Ascii.eqb c carriage_return).

(** The pattern of a command: a word, white space, and the rest of the line.
    The pattern of an argument: a word, [=] and a word, with white space around
    the [=]. *)
Definition cmd_pattern : list rep :=
  [Rep is_not_space 1 None true; Rep is_space 0 None false; Rep is_dot 0 None true].
Definition args_pattern : list rep :=
  [Rep is_not_space 1 None true; Rep is_space 0 None false; Rep (Ascii.eqb "="%char) 1 (Some 1%nat) false;
   Rep is_space 0 None false; Rep is_not_space 1 None true].

(** ** Arguments *)

(** [args_map] with [emplace], [arg] and [as<int>]: white space, a sign and
    digits up to the first other character, in the range of [int]. *)
Abbreviation args_map := (gmap string string).
Definition args_emplace (k v : string) (m : args_map) : args_map :=
  match m !! k with Some _ => m | None => <[k := v]> m end.
Definition arg (k : string) (m : args_map) : option string := m !! k.
Definition read_int (s : string) : option Z :=
  let s := skip_spaces s in
  let '(neg, s) := match s with
    | String.String c s' =>
      if Ascii.eqb c "-"%char then (true, s') else if Ascii.eqb c "+"%char then (false, s') else (false, s)
    | String.EmptyString => (false, s)
    end in
  if negb (starts_digit s) then None else
  let v := if (neg : bool) then - digits 0 s else digits 0 s in
  if (-2147483648 <=? v) && (v <=? 2147483647) then Some v else None.
Definition as_int (k : string) (m : args_map) : option Z :=
  match m !! k with None => None | Some v => read_int v end.

(** ** The command manager *)

Section manager.
Context {S : Type}.

Definition command : Type := args_map -> S -> res (S * string).
Definition command_manager : Type := gmap string command.
Definition cmd_add (cmd : string) (cb : command) (m : command_manager) : command_manager :=
  match m !! cmd with Some _ => m | None => <[cmd := cb]> m end.
Definition cmd_remove (cmd : string) (m : command_manager) : command_manager := delete cmd m.

(** The loop over the arguments: the map, or the reply that ends the command. *)
Fixpoint parse_args (fuel : nat) (args : text) (map : args_map) : res (args_map + string) :=
  match fuel with
  | O => NoFuel
  | Datatypes.S fuel =>
    match regex_search args_pattern args with
    | None => mret (inl map)
    | Some ([k; v], suffix) => parse_args fuel suffix (args_emplace (str k) (str v) map)
    | Some (_, suffix) =>
      mret (inr ("invalid argument:" +:+ str (take (length args - length suffix) args))%string)
    end
  end.

Definition quote : string := String.String (Ascii.ascii_of_nat 34) String.EmptyString.
Definition not_found (cmd : text) : string := ("command not found: " +:+ quote +:+ str cmd +:+ quote)%string.

Definition execute (cmds : command_manager) (p_cmd : text) (s : S) : res (S * string) :=
  let '(cmd, args) := match regex_match cmd_pattern p_cmd with
    | Some [cmd; args] => (cmd, args)
    | _ => ([], [])
    end in
  parsed ← parse_args (Datatypes.S (length args)) args ∅;
  match parsed with
  | inr reply => mret (s, reply)
  | inl map =>
    match cmds !! str cmd with
    | None => mret (s, not_found cmd)
    | Some cb => cb map s
    end
  end.
End manager.
Arguments command : clear implicits.
Arguments command_manager : clear implicits.

(** ** The commands of the application *)

(** What the console works on: the application, the bits of the logger and the
    buffer it receives into. *)
Record console_t := Console { cs_app : app_t; cs_logbits : list bool; cs_buff : list Z }.
#[export] Instance eta_console : Eta console_t := fun s => Console (cs_app s) (cs_logbits s) (cs_buff s).

Definition CONSOLE_BUFF : Z := 1024.

Definition on_cmd_init (args : args_map) (s : console_t) : res (console_t * string) :=
  match as_int "lcid" args with
  | None => Throw StdBadOptional
  | Some v =>
    let lcid := u8 v in
    mret (s <| cs_app := push_rrc_event (rrc_event_setup_t lcid true) (cs_app s) |>,
          ("pushing..." +:+ str [newline])%string)
  end.

Definition app_stop (a : app_t) : app_t := push_rrc_event rrc_event_stop_t a.
Definition on_cmd_stop (args : args_map) (s : console_t) : res (console_t * string) :=
  mret (s <| cs_app := app_stop (cs_app s) |>, ("stop:" +:+ str [newline])%string).

Definition on_cmd_log (args : args_map) (s : console_t) : res (console_t * string) :=
  let logbit_str := default ""%string (arg "bit" args) in
  bits ← (if negb (bool_decide (logbit_str = ""%string)) then set_logbits 0 (chars logbit_str) (cs_logbits s)
          else
            let idx := default 0 (as_int "index" args) in
            let value := default 0 (as_int "set" args) in
            set_logbit (bool_of_Z value) (u64 idx) (cs_logbits s));
  mret (s <| cs_logbits := bits |>, ("level set." +:+ str [newline])%string).

(** What [setup_console] adds. *)
Definition cmdman : command_manager console_t :=
  cmd_add "stop" on_cmd_stop (cmd_add "log" on_cmd_log (cmd_add "init" on_cmd_init ∅)).

Definition char_of (b : Z) : Ascii.ascii := Ascii.ascii_of_N (Z.to_N b).
Definition byte_of (c : Ascii.ascii) : Z := Z.of_N (Ascii.N_of_ascii c).

(** The reply and where it is sent. [recvfrom] gives at most the size of the
    buffer of a datagram. *)
Definition on_console_read (r : recv_result) (s : console_t) : res (console_t * option (list Z * sockaddr4)) :=
  match r with
  | RecvFails _ => mret (s, None)
  | RecvData data sender_addr =>
    let data := take (Z.to_nat CONSOLE_BUFF) data in
    let rv := zlen data in
    let s := s <| cs_buff := splice (cs_buff s) 0 data |> in
    if 0 <? rv then
      buff ← wr (cs_buff s) rv 0;
      let s := s <| cs_buff := buff |> in
      '(s, result) ← execute cmdman (map char_of (slice buff 0 rv)) s;
      (* a copy of the result without its last character is logged *)
      if bool_decide (result = ""%string) then Ub EmptyFront else
      mret (s, Some (map byte_of (chars result), sender_addr))
    else mret (s, None)
  end.

(** ** Matching *)

(** Nothing of the lengths tried matches; the longest length that matches is
    taken. *)
Lemma match_none full r p s :
  (forall n, (r_min r <= n <= most r s)%nat -> match_here full p (drop n s) = None) ->
  match_here full (r :: p) s = None.
Proof.
  cbn [match_here]. generalize (most r s). intros n. induction n as [|n IH]; intros H.
  - destruct (Nat.ltb_spec 0 (r_min r)); [done|]. by rewrite H by lia.
  - destruct (Nat.ltb_spec (S n) (r_min r)); [done|]. rewrite H by lia. apply IH. intros k Hk. apply H. lia.
Qed.

Lemma match_at full r p s n caps rest : (r_min r <= n <= most r s)%nat ->
  (forall k, (n < k <= most r s)%nat -> match_here full p (drop k s) = None) ->
  match_here full p (drop n s) = Some (caps, rest) ->
  match_here full (r :: p) s = Some (if r_capture r then take n s :: caps else caps, rest).
Proof.
  cbn [match_here]. generalize (most r s). intros m. induction m as [|m IH]; intros Hn Hk He.
  - replace n with O in * by lia. destruct (Nat.ltb_spec 0 (r_min r)); [lia|]. by rewrite He.
  - destruct (Nat.ltb_spec (S m) (r_min r)); [lia|]. destruct (decide (n = S m)) as [->|].
    + by rewrite He.
    + rewrite Hk by lia. apply IH; [lia| |done]. intros k Hk'. apply Hk. lia.
Qed.

(** A run of a class ends before the first character outside it. *)
Definition ends (cls : Ascii.ascii -> bool) (s : text) : Prop := match s with c :: _ => cls c = false | [] => True end.
Definition all_of (cls : Ascii.ascii -> bool) (s : text) : Prop := Forall (fun c => cls c = true) s.

Lemma run_ends cls s : ends cls s -> run_length cls s = O.
Proof. destruct s; simpl; [done|]. by intros ->. Qed.
Lemma run_app cls a s : all_of cls a -> run_length cls (a ++ s) = (length a + run_length cls s)%nat.
Proof. induction 1 as [|c a Hc _ IH]; [done|]. cbn. by rewrite Hc, IH. Qed.
Lemma run_all cls a s : all_of cls a -> ends cls s -> run_length cls (a ++ s) = length a.
Proof. intros Ha Hs. rewrite run_app, run_ends by done. lia. Qed.
Lemma run_le cls a x s : cls x = false -> (run_length cls (a ++ x :: s) <= length a)%nat.
Proof. intros Hx. induction a as [|c a IH]; cbn; [by rewrite Hx|]. destruct (cls c); lia. Qed.

(** One repetition that takes everything it may, in front of a match. *)
Lemma match_greedy full r p s : r_max r = None -> (r_min r <= run_length (r_class r) s)%nat ->
  forall caps rest, match_here full p (drop (run_length (r_class r) s) s) = Some (caps, rest) ->
  match_here full (r :: p) s = Some (if r_capture r then take (run_length (r_class r) s) s :: caps else caps, rest).
Proof.
  intros Hr Hm caps rest. assert (most r s = run_length (r_class r) s) as Hn by (unfold most; by rewrite Hr).
  apply match_at; rewrite Hn; [lia|]. intros k Hk. lia.
Qed.

(** ** The line of a command *)

Definition word (w : text) : Prop := w <> [] /\ all_of is_not_space w.

Lemma space_not c : is_space c = true <-> is_not_space c = false.
Proof. unfold is_not_space. by destruct (is_space c). Qed.
Lemma not_space c : is_not_space c = true <-> is_space c = false.
Proof. unfold is_not_space. by destruct (is_space c). Qed.

Lemma regex_cmd c ws r : word c -> all_of is_space ws -> ends is_space r -> all_of is_dot r ->
  (ws = [] -> r = []) -> regex_match cmd_pattern (c ++ ws ++ r) = Some [c; r].
Proof.
  intros (Hc & Hw) Hs He Hr Hn.
  assert (ends is_not_space (ws ++ r)) as He'.
  { destruct Hs as [|x ws Hx _]; [by rewrite Hn|]. by apply space_not. }
  unfold regex_match, cmd_pattern.
  rewrite match_greedy with (caps := [r]) (rest := []); cbn [r_max r_class r_min r_capture]; try done.
  - by rewrite (run_all _ c (ws ++ r)), take_app_length.
  - rewrite run_all by done. destruct c; [done|simpl; lia].
  - rewrite run_all, drop_app_length by done.
    rewrite match_greedy with (caps := [r]) (rest := []); cbn [r_max r_class r_min r_capture]; try done; [lia|].
    rewrite run_all, drop_app_length by done.
    rewrite match_greedy with (caps := []) (rest := []); cbn [r_max r_class r_min r_capture]; try done; [|lia|].
    + rewrite <- (app_nil_r r) at 1 3. rewrite run_all, take_ge by (done || (rewrite length_app; lia)). by rewrite app_nil_r.
    + rewrite <- (app_nil_r r). by rewrite run_all, app_nil_r, drop_all.
Qed.

Lemma all_drop cls n a : all_of cls a -> all_of cls (drop n a).
Proof. intros H. by apply Forall_drop. Qed.

(** The rest of the line has no end of line in it. *)
Lemma dots_none a b : match_here true [Rep is_dot 0 None true] (a ++ newline :: b) = None.
Proof.
  apply match_none. intros n Hn. unfold most in Hn. cbn in Hn.
  pose proof (run_le is_dot a newline b eq_refl). cbn [match_here]. rewrite drop_app_le by lia.
  by destruct (drop n a).
Qed.

Lemma regex_cmd_newline c ws x b b' : all_of is_not_space c -> all_of is_space ws -> ws <> [] -> is_space x = false ->
  regex_match cmd_pattern (c ++ ws ++ x :: b ++ newline :: b') = None.
Proof.
  intros Hc Hw Hn Hx. unfold regex_match, cmd_pattern. rewrite match_none; [done|].
  intros n Hl. unfold most in Hl. cbn [r_max r_class r_min] in Hl.
  destruct Hw as [|y ws Hy Hw]; [done|].
  pose proof (run_le is_not_space c y (ws ++ x :: b ++ newline :: b') (proj1 (space_not _) Hy)) as Hle.
  cbn [app] in Hl. rewrite drop_app_le by lia. apply match_none. intros m Hm. unfold most in Hm. cbn [r_max r_class r_min] in Hm.
  replace (drop n c ++ (y :: ws) ++ x :: b ++ newline :: b')
    with ((drop n c ++ y :: ws) ++ x :: b ++ newline :: b') in * by (by rewrite <- app_assoc).
  pose proof (run_le is_space (drop n c ++ y :: ws) x (b ++ newline :: b') Hx).
  rewrite drop_app_le by lia.
  replace (drop m (drop n c ++ y :: ws) ++ x :: b ++ newline :: b')
    with ((drop m (drop n c ++ y :: ws) ++ x :: b) ++ newline :: b') by (by rewrite <- app_assoc).
  apply dots_none.
Qed.

(** ** The arguments *)

Definition eq_sign : Ascii.ascii := "="%char.
Definition plain (w : text) : Prop := word w /\ eq_sign ∉ w.
#[export] Instance plain_dec w : Decision (plain w).
Proof. unfold plain, word, all_of. solve_decision. Defined.

(** What may stand behind an argument: the end, or white space and something
    that does not begin with [=]. *)
Definition tail_ok (s : text) : Prop :=
  exists sp r, s = sp ++ r /\ all_of is_space sp /\ ends is_space r /\ ends (Ascii.eqb eq_sign) r /\ (sp = [] -> r = []).

Lemma no_eq sp r : all_of is_space sp -> ends is_space r -> ends (Ascii.eqb eq_sign) r ->
  match_here false (tail args_pattern) (sp ++ r) = None.
Proof.
  intros Hs Hr He. apply match_none. intros n Hn. unfold most in Hn. cbn [r_max r_class r_min] in Hn.
  rewrite run_all in Hn by done. rewrite drop_app_le by lia. apply match_none. intros m Hm.
  unfold most in Hm. cbn [r_max r_class r_min] in Hm.
  rewrite run_ends in Hm; [cbn in Hm; lia|].
  pose proof (all_drop _ n sp Hs) as Hd. destruct Hd as [|x d Hx _]; [done|].
  cbn [app ends]. by destruct x as [[] [] [] [] [] [] [] []].
Qed.

Lemma word_ends w s : word w -> ends is_space (w ++ s).
Proof. intros (Hn & Hw). destruct Hw as [|x w Hx _]; [done|]. by apply not_space. Qed.
Lemma plain_ends w s : plain w -> ends (Ascii.eqb eq_sign) (w ++ s).
Proof.
  intros ((Hn & _) & He). destruct w as [|x w]; [done|]. apply Ascii.eqb_neq. intros <-. apply He. left.
Qed.

Lemma plain_drop n v : plain v -> drop n v <> [] -> plain (drop n v).
Proof.
  intros ((_ & Hw) & He) Hn. split; [split; [done|by apply all_drop]|].
  intros Hx. apply He. rewrite <- (take_drop n v). apply elem_of_app. by right.
Qed.

Lemma match_arg k v s : plain k -> plain v -> tail_ok s ->
  match_here false args_pattern (k ++ eq_sign :: v ++ s) = Some ([k; v], s).
Proof.
  intros Hk Hv (sp & r & -> & Hs & Hr & He & Hn).
  assert (all_of is_not_space (k ++ eq_sign :: v)) as Ha.
  { destruct Hk as ((_ & Hk) & _), Hv as ((_ & Hv) & _). apply Forall_app. split; [done|by constructor]. }
  assert (ends is_not_space (sp ++ r)) as Hse.
  { destruct Hs as [|x sp Hx _]; [by rewrite Hn|]. by apply space_not. }
  pose proof (run_all _ _ _ Ha Hse) as Hrun. rewrite <- app_assoc in Hrun. cbn [app] in Hrun.
  unfold args_pattern.
  rewrite match_at with (n := length k) (caps := [v]) (rest := sp ++ r); cbn [r_capture]; unfold most; cbn [r_max r_class r_min].
  - by rewrite take_app_length.
  - rewrite Hrun, length_app. destruct Hk as ((Hk & _) & _). destruct k; [done|]. cbn [length]. lia.
  - rewrite Hrun, length_app. cbn [length]. intros m Hm.
    rewrite drop_app_ge by lia. destruct (m - length k)%nat as [|j] eqn:E; [lia|]. cbn [drop].
    rewrite drop_app_le by lia. destruct (decide (drop j v = [])) as [->|Hd]; [by apply (no_eq sp r)|].
    pose proof (plain_drop j v Hv Hd) as Hp.
    apply (no_eq []); [constructor|by apply word_ends, Hp|by apply plain_ends].
  - rewrite drop_app_length.
    rewrite match_greedy with (caps := [v]) (rest := sp ++ r); cbn [r_max r_class r_min r_capture]; try (done || lia).
    rewrite run_ends by done. cbn [drop].
    rewrite match_at with (n := 1%nat) (caps := [v]) (rest := sp ++ r); cbn [r_capture]; unfold most; cbn [r_max r_class r_min]; try (cbn; lia); [done|].
    cbn [drop].
    rewrite match_greedy with (caps := [v]) (rest := sp ++ r); cbn [r_max r_class r_min r_capture]; try (done || lia).
    rewrite run_ends by (by apply word_ends, Hv). rewrite ?drop_0. destruct Hv as ((Hv & Hw) & _).
    rewrite match_greedy with (caps := []) (rest := sp ++ r); cbn [r_max r_class r_min r_capture]; rewrite ?run_all by done; try done.
    + by rewrite take_app_length.
    + destruct v; [done|simpl; lia].
    + by rewrite drop_app_length.
Qed.

Lemma match_arg_space x s : is_space x = true -> match_here false args_pattern (x :: s) = None.
Proof.
  intros Hx. apply match_none. unfold most. cbn [r_max r_class r_min run_length].
  apply space_not in Hx as ->. lia.
Qed.

Lemma search_gap g s : all_of is_space g -> regex_search args_pattern (g ++ s) = regex_search args_pattern s.
Proof. induction 1 as [|x g Hx _ IH]; [done|]. cbn [app regex_search]. by rewrite match_arg_space. Qed.

Lemma run_length_le cls s : (run_length cls s <= length s)%nat.
Proof. induction s as [|c s IH]; cbn; [lia|]. destruct (cls c); lia. Qed.

(** A match uses up what its repetitions need and captures what it has
    parentheses for. *)
Lemma match_here_size full p s caps rest : match_here full p s = Some (caps, rest) ->
  (length rest + sum_list_with r_min p <= length s)%nat /\
  length caps = length (filter (fun r => r_capture r = true) p).
Proof.
  revert s caps. induction p as [|r p IH]; intros s caps.
  { cbn. destruct (full && _); [done|]. intros [= <- <-]. cbn. lia. }
  cbn [match_here]. assert (most r s <= length s)%nat as Hn.
  { pose proof (run_length_le (r_class r) s). unfold most. destruct (r_max r); lia. }
  revert Hn. generalize (most r s). intros n. revert caps. induction n as [|n IHn]; intros caps Hn.
  all: match goal with |- context [Nat.ltb ?a ?b] => destruct (Nat.ltb_spec a b) end; [done|].
  all: destruct (match_here full p (drop _ s)) as [[caps' rest']|] eqn:E; [|done || apply IHn; lia].
  all: intros [= <- <-]; apply IH in E as (E1 & E2); rewrite length_drop in E1.
  all: rewrite filter_cons; cbn [sum_list_with]; destruct (r_capture r); rewrite ?decide_True, ?decide_False by done; cbn [length]; lia.
Qed.

Lemma search_size p s caps rest : regex_search p s = Some (caps, rest) ->
  (length rest + sum_list_with r_min p <= length s)%nat /\
  length caps = length (filter (fun r => r_capture r = true) p).
Proof.
  induction s as [|c s IH]; cbn [regex_search].
  - destruct (match_here false p []) as [[caps' rest']|] eqn:E; [|done]. intros [= <- <-]. by eapply match_here_size.
  - destruct (match_here false p (c :: s)) as [[caps' rest']|] eqn:E.
    + intros [= <- <-]. by eapply match_here_size.
    + intros H. apply IH in H as (? & ?). cbn [length]. lia.
Qed.

(** The loop over the arguments ends, and no argument is invalid. *)
Lemma parse_args_total fuel args m : (length args < fuel)%nat -> exists m', parse_args fuel args m = Ok (inl m').
Proof.
  revert args m. induction fuel as [|fuel IH]; intros args m Hf; [lia|]. cbn [parse_args].
  destruct (regex_search args_pattern args) as [[caps rest]|] eqn:E; [|by eexists].
  apply search_size in E as (Hr & Hc). cbn in Hr, Hc.
  destruct caps as [|k [|v [|? ?]]]; try done. apply IH. lia.
Qed.

(** ** A line as it is meant to be *)

(** An argument, with the white space before it. *)
Record arg_text := ArgText { a_gap : text; a_key : text; a_value : text }.
Definition is_blank (c : Ascii.ascii) : bool := is_space c && is_dot c.
Definition arg_ok (a : arg_text) : Prop :=
  a_gap a <> [] /\ all_of is_blank (a_gap a) /\ plain (a_key a) /\ plain (a_value a).
Definition show_arg (a : arg_text) : text := a_gap a ++ a_key a ++ eq_sign :: a_value a.
Definition show_args (l : list arg_text) : text := concat (map show_arg l).
Definition show_line (c : text) (l : list arg_text) (tl : text) : text := c ++ show_args l ++ tl.

(** The first of two arguments of a name counts. *)
Definition args_of (m : args_map) (l : list arg_text) : args_map :=
  foldl (fun m a => args_emplace (str (a_key a)) (str (a_value a)) m) m l.

Lemma blank_space s : all_of is_blank s -> all_of is_space s /\ all_of is_dot s.
Proof. intros H. split; (eapply list.Forall_impl; [exact H|]); intros c Hc; by apply andb_true_iff in Hc as (? & ?). Qed.
Lemma word_dot w : all_of is_not_space w -> all_of is_dot w.
Proof. intros H. eapply list.Forall_impl; [exact H|]. by intros [[] [] [] [] [] [] [] []]. Qed.

Lemma args_dot l : Forall arg_ok l -> all_of is_dot (show_args l).
Proof.
  induction 1 as [|a l (Hn & Hg & ((_ & Hk) & _) & ((_ & Hv) & _)) _ IH]; [constructor|].
  unfold show_args, show_arg. cbn [map concat]. unfold all_of. rewrite !Forall_app, Forall_cons_iff.
  apply blank_space in Hg as (_ & Hg). split_and!; try done; by apply word_dot.
Qed.

Lemma show_cons a l tl :
  show_args (a :: l) ++ tl = a_gap a ++ a_key a ++ eq_sign :: a_value a ++ show_args l ++ tl.
Proof. unfold show_args, show_arg. cbn [map concat]. repeat (rewrite <- !app_assoc; cbn [app]). done. Qed.

Lemma args_tail l tl : Forall arg_ok l -> all_of is_space tl -> tail_ok (show_args l ++ tl).
Proof.
  intros [|a l' (Hn & Hg & Hk & _)] Ht.
  - exists tl, []. rewrite app_nil_r. split_and!; done.
  - exists (a_gap a), (a_key a ++ eq_sign :: a_value a ++ show_args l' ++ tl).
    rewrite show_cons. split_and!; [done|by apply blank_space|by apply word_ends, Hk|by apply plain_ends|done].
Qed.

Lemma search_arg a l tl : arg_ok a -> Forall arg_ok l -> all_of is_space tl ->
  regex_search args_pattern (a_key a ++ eq_sign :: a_value a ++ show_args l ++ tl) =
  Some ([a_key a; a_value a], show_args l ++ tl).
Proof.
  intros (_ & _ & Hk & Hv) Hl Ht. pose proof (match_arg _ _ _ Hk Hv (args_tail l tl Hl Ht)) as Hm.
  destruct (a_key a ++ _) as [|x s] eqn:E; [by destruct (a_key a)|]. cbn [regex_search]. by rewrite Hm.
Qed.

Lemma parse_gap fuel g s m : all_of is_space g -> parse_args fuel (g ++ s) m = parse_args fuel s m.
Proof.
  intros Hg. destruct fuel as [|fuel]; [done|]. cbn [parse_args]. rewrite search_gap by done.
  destruct (regex_search args_pattern s) as [[caps rest]|] eqn:E; [|done].
  apply search_size in E as (_ & Hc). by destruct caps as [|k [|v [|? ?]]].
Qed.

Lemma parse_show fuel l tl m : Forall arg_ok l -> all_of is_space tl -> (length l < fuel)%nat ->
  parse_args fuel (show_args l ++ tl) m = Ok (inl (args_of m l)).
Proof.
  intros Hl Ht. revert fuel m. induction Hl as [|a l Ha Hl IH]; intros fuel m Hf.
  { cbn [show_args map concat app]. rewrite <- (app_nil_r tl), parse_gap by done. destruct fuel; [simpl in Hf; lia|done]. }
  rewrite show_cons, parse_gap by (apply blank_space, Ha). destruct fuel as [|fuel]; [lia|].
  cbn [parse_args length] in *. rewrite search_arg by done. apply IH. lia.
Qed.

Lemma args_length l : (length l <= length (show_args l))%nat.
Proof.
  induction l as [|a l IH]; [done|]. unfold show_args, show_arg in *. cbn [map concat length].
  rewrite !length_app. cbn [length]. lia.
Qed.

(** What is captured behind the word of a command has its arguments. *)
Lemma line_args c l tl : word c -> Forall arg_ok l -> all_of is_blank tl ->
  exists r, regex_match cmd_pattern (show_line c l tl) = Some [c; r] /\
    parse_args (S (length r)) r ∅ = Ok (inl (args_of ∅ l)).
Proof.
  intros Hc Hl (Hs & Hd)%blank_space. unfold show_line. destruct Hl as [|a l Ha Hl].
  - exists []. split; [|done]. cbn [show_args map concat app]. rewrite <- (app_nil_r tl).
    by apply regex_cmd; [..|constructor|].
  - set (r := a_key a ++ eq_sign :: a_value a ++ show_args l ++ tl). exists r.
    pose proof Ha as (Hn & Hg & Hk & Hv). apply blank_space in Hg as (Hg & _).
    rewrite show_cons. fold r. split.
    + apply regex_cmd; [done|done|by apply word_ends, Hk| |done].
      destruct Hk as ((_ & Hk) & _), Hv as ((_ & Hv) & _). unfold r, all_of.
      rewrite !Forall_app, Forall_cons_iff, !Forall_app. split_and!; try done; try by apply word_dot. by apply args_dot.
    + rewrite <- (parse_gap _ (a_gap a)) by done. unfold r at 2. rewrite <- show_cons.
      apply parse_show; [by constructor|done|]. pose proof (args_length l). unfold r.
      rewrite !length_app. cbn [length]. rewrite !length_app. lia.
Qed.

(** The command of a line is called with its arguments. *)
Lemma execute_line {S} (cmds : command_manager S) c l tl s :
  word c -> Forall arg_ok l -> all_of is_blank tl ->
  execute cmds (show_line c l tl) s =
  match cmds !! str c with Some cb => cb (args_of ∅ l) s | None => Ok (s, not_found c) end.
Proof.
  intros Hc Hl Ht. destruct (line_args c l tl Hc Hl Ht) as (r & Hr & Hp).
  unfold execute. by rewrite Hr, Hp.
Qed.

(** With an end of line behind its arguments no command is found. *)
Lemma execute_newline {S} (cmds : command_manager S) c l tl rest s :
  word c -> Forall arg_ok l -> l <> [] ->
  execute cmds (show_line c l tl ++ newline :: rest) s = 
  match cmds !! ""%string with Some cb => cb ∅ s | None => Ok (s, not_found []) end.
Proof.
  intros (_ & Hc) Hl Hn. destruct Hl as [|a l (Hg & Hb & ((Hk & Hw) & _) & _) _]; [done|].
  unfold execute, show_line. rewrite show_cons. destruct (a_key a) as [|x k]; [done|].
  replace ((c ++ a_gap a ++ (x :: k) ++ eq_sign :: a_value a ++ show_args l ++ tl) ++ newline :: rest)
    with (c ++ a_gap a ++ x :: (k ++ eq_sign :: a_value a ++ show_args l ++ tl) ++ newline :: rest)
    by (repeat (rewrite <- !app_assoc; cbn [app]); done).
  rewrite regex_cmd_newline; [done|done|by apply blank_space|done|]. apply Forall_cons_iff in Hw as (Hx & _). by apply not_space.
Qed.

(** ** Datagrams *)

Definition datagram (s : text) : list Z := map byte_of s.
Lemma char_of_byte c : char_of (byte_of c) = c.
Proof. unfold char_of, byte_of. by rewrite N2Z.id, Ascii.ascii_N_embedding. Qed.
Lemma chars_datagram s : map char_of (datagram s) = s.
Proof. unfold datagram. rewrite map_map. induction s as [|c s IH]; [done|]. cbn [map]. by rewrite char_of_byte, IH. Qed.
Lemma zlen_datagram s : zlen (datagram s) = zlen s.
Proof. unfold zlen, datagram. by rewrite length_map. Qed.

(** The state in which a command runs: the datagram, with a zero behind it, is
    in the buffer. *)
Definition received (data : list Z) (s : console_t) : console_t :=
  s <| cs_buff := splice (cs_buff s) 0 (data ++ [0]) |>.

Definition console_ok (s : console_t) : Prop := zlen (cs_buff s) = CONSOLE_BUFF /\ length (cs_logbits s) = LOGBITS.

Lemma console_read s data from : zlen (cs_buff s) = CONSOLE_BUFF -> data <> [] -> zlen data < CONSOLE_BUFF ->
  on_console_read (RecvData data from) s =
  ('(s, result) ← execute cmdman (map char_of data) (received data s);
   if bool_decide (result = ""%string) then Ub EmptyFront else
   mret (s, Some (map byte_of (chars result), from))).
Proof.
  destruct s as [a bits buf]. intros Hb Hn Hl.
  unfold on_console_read, received, CONSOLE_BUFF in *. cbn in Hb |- *. rewrite take_ge by zlia.
  destruct (Z.ltb_spec 0 (zlen data)) as [_|H]; [|destruct data; [done|zlia]].
  pose proof (zlen_nonneg data). rewrite wr_in by (rewrite zlen_splice; lia). cbn.
  assert (zlen [0 : Z] = 1) as H1 by done.
  pose proof (splice_app buf 0 data [0] ltac:(lia) ltac:(lia)) as Hs. rewrite Z.add_0_l in Hs. rewrite Hs.
  replace (slice (splice buf 0 (data ++ [0])) 0 (zlen data)) with data; [done|].
  rewrite <- Hs, slice_splice_before by (rewrite ?zlen_splice; lia). by rewrite slice_splice_same by lia.
Qed.

(** The command of a name, and the reply that is sent. *)
Definition run_command (name : string) (args : args_map) (s : console_t) : res (console_t * string) :=
  match cmdman !! name with Some cb => cb args s | None => Ok (s, not_found (chars name)) end.
Definition answer (from : sockaddr4) (r : res (console_t * string)) : res (console_t * option (list Z * sockaddr4)) :=
  '(s, reply) ← r; mret (s, Some (datagram (chars reply), from)).

Lemma cmdman_cases name cb : cmdman !! name = Some cb ->
  (name = "stop"%string /\ cb = on_cmd_stop) \/ (name = "log"%string /\ cb = on_cmd_log) \/
  (name = "init"%string /\ cb = on_cmd_init).
Proof.
  pose (m := <["stop"%string := on_cmd_stop]> (<["log"%string := on_cmd_log]> (<["init"%string := on_cmd_init]> ∅))
    : gmap string (command console_t)).
  change (m !! name = Some cb -> (name = "stop"%string /\ cb = on_cmd_stop) \/ (name = "log"%string /\ cb = on_cmd_log) \/
    (name = "init"%string /\ cb = on_cmd_init)).
  unfold m. rewrite !lookup_insert_Some, lookup_empty.
  intros [(<- & <-)|(_ & [(<- & <-)|(_ & [(<- & <-)|(_ & ?)])])]; [by left|by right; left|by right; right|done].
Qed.

Lemma not_found_reply c : bool_decide (not_found c = ""%string) = false.
Proof. by apply bool_decide_eq_false. Qed.

(** No command replies with an empty text. *)
Lemma answer_command from name args s :
  ('(s, result) ← run_command name args s;
   if bool_decide (result = ""%string) then Ub EmptyFront else mret (s, Some (map byte_of (chars result), from))) =
  answer from (run_command name args s).
Proof.
  unfold run_command, answer. destruct (cmdman !! name) as [cb|] eqn:E.
  - apply cmdman_cases in E as [(_ & ->)|[(_ & ->)|(_ & ->)]]; [done| |].
    + unfold on_cmd_log. destruct (if negb _ then _ else _) as [bits| | |]; done.
    + unfold on_cmd_init. by destruct (as_int _ _).
  - rewrite !bind_ret_l. by rewrite not_found_reply.
Qed.

Lemma show_line_word c l tl : word c -> show_line c l tl <> [].
Proof. intros (Hc & _). by destruct c. Qed.

(** A line runs the command of its word. *)
Lemma console_line s c l tl from : zlen (cs_buff s) = CONSOLE_BUFF ->
  word c -> Forall arg_ok l -> all_of is_blank tl -> zlen (show_line c l tl) < CONSOLE_BUFF ->
  on_console_read (RecvData (datagram (show_line c l tl)) from) s =
  answer from (run_command (str c) (args_of ∅ l) (received (datagram (show_line c l tl)) s)).
Proof.
  intros Hb Hc Hl Ht Hn. pose proof (show_line_word c l tl Hc) as Hne.
  rewrite console_read, chars_datagram by (rewrite ?zlen_datagram; (by destruct (show_line c l tl)) || lia).
  rewrite execute_line by done. rewrite <- answer_command. unfold run_command.
  destruct (cmdman !! str c); [done|]. by rewrite String.list_ascii_of_string_of_list_ascii.
Qed.

(** C17: a datagram with a word, arguments of the form [name=value] and white
    space between them runs the command of that word with exactly these
    arguments, the first of a name, and its reply goes back to the sender. With
    an end of line behind the arguments, as a terminal sends it, no command is
    found. *)
Theorem console_executes s c l tl from : zlen (cs_buff s) = CONSOLE_BUFF ->
  word c -> Forall arg_ok l -> all_of is_blank tl -> zlen (show_line c l tl) < CONSOLE_BUFF - 1 ->
  on_console_read (RecvData (datagram (show_line c l tl)) from) s =
    answer from (run_command (str c) (args_of ∅ l) (received (datagram (show_line c l tl)) s)) /\
  (l <> [] ->
   on_console_read (RecvData (datagram (show_line c l tl ++ [newline])) from) s =
   answer from (Ok (received (datagram (show_line c l tl ++ [newline])) s, not_found []))).
Proof.
  intros Hb Hc Hl Ht Hn. pose proof (show_line_word c l tl Hc) as Hne.
  split; [apply console_line; (done || lia)|].
  intros Hl'. rewrite console_read, chars_datagram; [|done|by destruct (show_line c l tl)|].
  2:{ rewrite zlen_datagram, zlen_app. change (zlen [newline]) with 1. lia. }
  rewrite execute_newline by done. change (cmdman !! ""%string) with (@None (command console_t)).
  unfold answer. rewrite !bind_ret_l. by rewrite not_found_reply.
Qed.

(** ** What the commands do *)

Lemma read_int_pretty (n : N) : Z.of_N n < 2147483648 -> read_int (pretty n) = Some (Z.of_N n).
Proof.
  intros Hn. destruct (pretty_digits n) as (Hv & Hd & Hne). unfold read_int.
  destruct (pretty n) as [|c s] eqn:E; [done|].
  destruct (Hd c) as [d Hc]; [left|].
  destruct (digit_plain c d Hc) as (Hs & Hm & Hp).
  cbn [skip_spaces]. rewrite Hs, Hm, Hp. cbn [starts_digit]. rewrite bool_decide_true by (rewrite Hc; by eexists).
  cbn [negb]. rewrite Hv. by rewrite (proj2 (andb_true_iff _ _)) by (split; apply Z.leb_le; lia).
Qed.

Lemma read_int_range s v : read_int s = Some v -> -2147483648 <= v < 2147483648.
Proof.
  unfold read_int. destruct (match skip_spaces s with String.EmptyString => _ | String.String _ _ => _ end) as [neg t].
  destruct (negb (starts_digit t)); [done|]. cbv zeta.
  match goal with |- context [if ?a && ?b then _ else _] => destruct a eqn:Ea; [|done]; destruct b eqn:Eb; [|done] end.
  intros [= <-]. apply Z.leb_le in Ea, Eb. lia.
Qed.

Lemma as_int_range k m v : as_int k m = Some v -> -2147483648 <= v < 2147483648.
Proof. unfold as_int. destruct (m !! k); [|done]. apply read_int_range. Qed.

(** What a command may do: reply, or throw: [init] without the number of a
    channel, and [log] with a bit that is not there. *)
Definition sound_run (name : string) (s : console_t) (r : res (console_t * string)) : Prop :=
  match r with
  | Ok (s', reply) => reply <> ""%string /\ cs_buff s' = cs_buff s /\ length (cs_logbits s') = length (cs_logbits s)
  | Throw e => name = "init"%string /\ e = StdBadOptional \/ name = "log"%string /\ e = StdOutOfRange
  | _ => False
  end.

Lemma run_command_sound name args s : zlen (cs_logbits s) < 18446744073709551616 ->
  sound_run name s (run_command name args s).
Proof.
  intros Hb. unfold run_command. destruct (cmdman !! name) as [cb|] eqn:E; [|done].
  apply cmdman_cases in E as [(_ & ->)|[(-> & ->)|(-> & ->)]]; [done| |].
  - unfold on_cmd_log. case_bool_decide; cbn [negb].
    + unfold set_logbit. case_Z; [|by right]. cbn. by rewrite length_insert.
    + rewrite set_logbits_spec by lia. case_bool_decide as Hc; [|by right]. cbn. split_and!; [done|done|].
      destruct Hc as [->|Hc]; [cbn [map]; by rewrite splice_nil|].
      apply Nat2Z.inj. apply zlen_splice; [lia|]. unfold zlen in *. rewrite length_map. lia.
  - unfold on_cmd_init. destruct (as_int _ _); [done|by left].
Qed.

(** Any line runs some command, with some arguments. *)
Lemma execute_some line s : exists name args, execute cmdman line s = run_command name args s.
Proof.
  unfold execute. destruct (match regex_match cmd_pattern line with Some _ => _ | None => _ end) as [cmd args].
  destruct (parse_args_total (S (length args)) args ∅) as (m & ->); [lia|]. rewrite bind_ret_l.
  exists (str cmd), m. unfold run_command. destruct (cmdman !! str cmd); [done|].
  by rewrite String.list_ascii_of_string_of_list_ascii.
Qed.

(** C38: what the console makes of a datagram. An empty one, and an error, are
    passed over: nothing changes and nothing is sent. Any other that is shorter
    than the buffer runs a command, and the reply of the command is sent, whole
    and not empty, to the sender of the datagram, or the command throws and ends
    the program, which only [init] without a channel and [log] with a bit out of
    range do; the buffer and the bits of the logger keep their sizes. A datagram
    of the size of the buffer, or a longer one, is undefined: the zero behind it
    is written out of bounds. *)
Theorem console_safe s data from : console_ok s ->
  (forall err, on_console_read (RecvFails err) s = Ok (s, None)) /\
  (data = [] -> on_console_read (RecvData data from) s = Ok (s, None)) /\
  (0 < zlen data < CONSOLE_BUFF -> exists name args,
     match run_command name args (received data s) with
     | Ok (s', reply) => reply <> ""%string /\ console_ok s' /\
         on_console_read (RecvData data from) s = Ok (s', Some (datagram (chars reply), from))
     | Throw e => (name = "init"%string /\ e = StdBadOptional \/ name = "log"%string /\ e = StdOutOfRange) /\
         on_console_read (RecvData data from) s = Throw e
     | _ => False
     end) /\
  (CONSOLE_BUFF <= zlen data -> on_console_read (RecvData data from) s = Ub OutOfBounds).
Proof.
  intros (Hb & Hl). split; [done|]. split; [|split].
  - intros ->. unfold on_console_read. cbn. by destruct s.
  - intros (H0 & Hd). rewrite console_read by (done || by intros ->).
    destruct (execute_some (map char_of data) (received data s)) as (name & args & ->). exists name, args.
    assert (sound_run name (received data s) (run_command name args (received data s))) as Hr
      by (apply run_command_sound; cbn; unfold zlen; by rewrite Hl).
    rewrite answer_command. destruct (run_command _ _ _) as [[s' reply]| | |]; cbn in Hr |- *; try done.
    destruct Hr as (Hr & Hbuf & Hbits). split; [done|]. split; [|done].
    split; [|by rewrite Hbits]. rewrite Hbuf. cbn. unfold CONSOLE_BUFF in *. rewrite zlen_splice; [done|lia|].
    rewrite zlen_app. change (zlen [0]) with 1. lia.
  - intros Hd. unfold on_console_read. destruct s as [a bits buf]. cbn in Hb |- *.
    assert (zlen (take (Z.to_nat CONSOLE_BUFF) data) = CONSOLE_BUFF) as ->
      by (unfold zlen, CONSOLE_BUFF in *; rewrite length_take; lia).
    cbn [Z.ltb CONSOLE_BUFF Z.compare]. unfold wr, wr_n.
    rewrite zlen_splice, Hb by (unfold zlen, CONSOLE_BUFF in *; rewrite ?length_take; lia). done.
Qed.

(** [init] with a decimal number sets up the channel of that number modulo 256,
    and [log] with an index in range sets that bit. *)
Definition decimal_arg (name : string) (n : N) : arg_text := ArgText [" "%char] (chars name) (chars (pretty n)).

Lemma decimal_value name n m : Z.of_N n < 2147483648 -> m !! name = None ->
  as_int name (args_of m [decimal_arg name n]) = Some (Z.of_N n).
Proof.
  intros Hn Hm. unfold as_int, args_of, decimal_arg, args_emplace. cbn [foldl a_key a_value].
  rewrite !String.string_of_list_ascii_of_string, Hm, lookup_insert_eq. by apply read_int_pretty.
Qed.

Lemma decimal_ok name n : plain (chars name) -> arg_ok (decimal_arg name n).
Proof.
  intros Hk. unfold arg_ok, decimal_arg. cbn [a_gap a_key a_value]. split_and!; [done|by repeat constructor|done|].
  destruct (pretty_digits n) as (_ & Hd & Hne). split; [split|].
  - intros E. apply Hne. rewrite <- (String.string_of_list_ascii_of_string (pretty n)). by rewrite E.
  - apply list.Forall_forall. intros c Hc. apply Hd in Hc as (d & Hc). apply not_space. by eapply digit_plain.
  - intros Hc%Hd. by apply is_Some_None in Hc.
Qed.

(** The command [init lcid=n] asks for the set-up of channel [n] modulo
    256, by force, and changes nothing else; [log index=i] clears the bit [i] of
    the logger, or ends the program if there is none; [init] without a number
    ends it too. *)
Theorem console_commands s n from : console_ok s -> Z.of_N n < 2147483648 ->
  let init := datagram (show_line (chars "init") [decimal_arg "lcid" n] []) in
  let log := datagram (show_line (chars "log") [decimal_arg "index" n] []) in
  zlen init < CONSOLE_BUFF - 1 -> zlen log < CONSOLE_BUFF - 1 ->
  on_console_read (RecvData init from) s =
    Ok (Console (push_rrc_event (rrc_event_setup_t (Z.of_N n mod 256) true) (cs_app s)) (cs_logbits s)
          (cs_buff (received init s)), Some (datagram (chars "pushing..." ++ [newline]), from)) /\
  on_console_read (RecvData log from) s =
    (if Z.of_N n <? 37
     then Ok (Console (cs_app s) (<[N.to_nat n := false]> (cs_logbits s)) (cs_buff (received log s)),
              Some (datagram (chars "level set." ++ [newline]), from))
     else Throw StdOutOfRange) /\
  on_console_read (RecvData (datagram (chars "init")) from) s = Throw StdBadOptional.
Proof.
  intros (Hb & Hl) Hn. assert (u64 (Z.of_N n) = Z.of_N n) as Hu by (apply u64_id; unfold is_u64; lia).
  intros init log Hi Hg. unfold init, log in *. rewrite zlen_datagram in Hi, Hg.
  assert (plain (chars "init") /\ plain (chars "log") /\ plain (chars "lcid") /\ plain (chars "index"))
    as ((Hw1 & _) & (Hw2 & _) & Hk1 & Hk2) by (split_and!; by apply (bool_decide_unpack _)).
  assert (all_of is_blank []) as Ht by constructor.
  split_and!.
  - rewrite console_line; [|done|done|repeat constructor; by apply decimal_ok|done|lia].
    change (str (chars "init")) with "init"%string. unfold run_command. cbn [answer].
    change (cmdman !! "init"%string) with (Some on_cmd_init). unfold on_cmd_init.
    by rewrite decimal_value.
  - rewrite console_line; [|done|done|repeat constructor; by apply decimal_ok|done|lia].
    change (str (chars "log")) with "log"%string. unfold run_command.
    change (cmdman !! "log"%string) with (Some on_cmd_log). unfold on_cmd_log.
    rewrite decimal_value by done.
    change (arg "bit" (args_of ∅ [decimal_arg "index" n])) with (@None string).
    change (as_int "set" (args_of ∅ [decimal_arg "index" n])) with (@None Z).
    rewrite bool_decide_true by done. cbn [negb].
    change (default 0 (Some (Z.of_N n))) with (Z.of_N n). change (bool_of_Z (default 0 None)) with false.
    unfold set_logbit. rewrite Hu. change (cs_logbits (received _ s)) with (cs_logbits s).
    replace (zlen (cs_logbits s)) with 37 by (unfold zlen; by rewrite Hl). case_Z; [|done].
    by replace (Z.to_nat (Z.of_N n)) with (N.to_nat n) by lia.
  - rewrite <- (app_nil_r (chars "init")). change (chars "init" ++ []) with (show_line (chars "init") [] []).
    rewrite console_line; [done|done|done|constructor|done|done].
Qed.

(** ** An application *)

Definition console_example : console_t :=
  Console (App ∅ [] 0 [] true true true true) (replicate LOGBITS true) (replicate (Z.to_nat CONSOLE_BUFF) 0).
Definition sender_example : sockaddr4 := SockAddr AF_INET 2130706433 4000.

Lemma console_example_ok : console_ok console_example.
Proof. split; by vm_compute. Qed.

Lemma console_executes_witness :
  on_console_read (RecvData (datagram (chars "log  bit=101 set=1 ")) sender_example) console_example =
  answer sender_example (run_command "log" (<["set" := "1"]> (<["bit" := "101"]> ∅))%string
    (received (datagram (chars "log  bit=101 set=1 ")) console_example)).
Proof.
  refine (proj1 (console_executes console_example (chars "log")
    [ArgText (chars "  ") (chars "bit") (chars "101"); ArgText (chars " ") (chars "set") (chars "1")]
    (chars " ") sender_example _ _ _ _ _)).
  - by vm_compute.
  - by apply (bool_decide_unpack (plain (chars "log"))).
  - repeat constructor; try done; by apply (bool_decide_unpack (plain _)).
  - by repeat constructor.
  - by vm_compute.
Defined.

Lemma console_safe_witness :
  on_console_read (RecvData [] sender_example) console_example = Ok (console_example, None) /\
  on_console_read (RecvData (replicate 1024 65) sender_example) console_example = Ub OutOfBounds /\
  exists name args s' reply, run_command name args (received (datagram (chars "stop")) console_example) = Ok (s', reply) /\
    on_console_read (RecvData (datagram (chars "stop")) sender_example) console_example =
      Ok (s', Some (datagram (chars reply), sender_example)) /\ datagram (chars reply) = [115; 116; 111; 112; 58; 10].
Proof.
  split; [exact (proj1 (proj2 (console_safe console_example [] sender_example console_example_ok)) eq_refl)|].
  split; [apply (console_safe console_example (replicate 1024 65) sender_example console_example_ok); by vm_compute|].
  destruct (proj1 (proj2 (proj2 (console_safe console_example (datagram (chars "stop")) sender_example console_example_ok))))
    as (name & args & H); [by vm_compute|].
  assert (exists s', on_console_read (RecvData (datagram (chars "stop")) sender_example) console_example =
    Ok (s', Some ([115; 116; 111; 112; 58; 10], sender_example))) as (s1 & E) by (eexists; vm_compute; reflexivity).
  destruct (run_command _ _ _) as [[s' reply]| | |] eqn:Er; [|done|by destruct H as (_ & ?); congruence|done].
  destruct H as (_ & _ & H). exists name, args, s', reply. split; [exact Er|]. split; [exact H|].
  rewrite E in H. by injection H as _ <-.
Defined.

Lemma console_commands_witness :
  on_console_read (RecvData (datagram (chars "init lcid=3")) sender_example) console_example =
  Ok (Console (push_rrc_event (rrc_event_setup_t 3 true) (cs_app console_example)) (cs_logbits console_example)
        (cs_buff (received (datagram (chars "init lcid=3")) console_example)),
      Some (datagram (chars "pushing..." ++ [newline]), sender_example)).
Proof.
  exact (proj1 (console_commands console_example 3 sender_example console_example_ok ltac:(lia)
    ltac:(by vm_compute) ltac:(by vm_compute))).
Defined.

Definition reply_of (line : text) : res string := '(_, reply) ← execute cmdman line console_example; mret reply.

(** The [=] may have white space around it; the last one of a word counts. *)
Example console_spaces :
  reply_of (chars "log index = 5  set= 1") = Ok ("level set." +:+ str [newline])%string /\
  parse_args 9 (chars "a=b=c") ∅ = Ok (inl {["a=b" := "c"]}%string) /\
  reply_of (chars "log index=5" ++ [newline]) = Ok (not_found []) /\
  reply_of (chars "stop" ++ [newline]) = Ok ("stop:" +:+ str [newline])%string.
Proof. by vm_compute. Qed.
