(* ===== verification/Reactor.v ===== *)
(** * The event loop ([bfc/epoll_reactor.hpp])

    [epoll_reactor] waits for descriptors with [epoll] and calls the callback
    of each that is ready, then the callbacks other threads have handed to
    [wake_up], then those of due timers. The kernel keeps, for each watched
    descriptor, a pointer to the context of its callback; the contexts live in
    a map of entries. Here a pointer is the number under which its entry was
    made, and following one whose entry is gone is an error.

    [epoll] is no code of the repository. Of it the model has its list of
    watched descriptors, which [epoll_ctl] changes unless it fails, and what
    [epoll_wait] answers, as an argument; whether a descriptor can be watched
    at all is an argument of the calls. Callbacks are a parameter: what they do
    to the loop is a sequence of calls of its methods. *)

From stdpp Require Import gmap relations.
From S2P Require Import Prelude Mem Timer.
#[local] Open Scope Z_scope.

(** ** The state *)

Definition EPOLLIN : Z := 1.
Definition EPOLLOUT : Z := 4.
Definition EPOLLRDHUP : Z := 8192.
Definition EPOLLONESHOT : Z := 1073741824.
Definition EINTR : Z := 4.

(** What [data.ptr] of an event points to. *)
Inductive pointer := EventCtx | ReadCtx (id : nat) | WriteCtx (id : nat).
#[export] Instance pointer_dec : EqDecision pointer. Proof. solve_decision. Defined.

Section Reactor.
Context {cb W : Type}.

(** A callback: one of the user, or a removal that [rem_read_rdy] or
    [rem_write_rdy] has left to the loop. *)
Inductive task := TUser (c : cb) | TRemRead (fd : Z) | TRemWrite (fd : Z).

Record fd_ctx_s := FdCtx { x_fd : Z; x_events : Z; x_cb : option task }.
Record fd_entry_s := FdEntry {
  e_id : nat; e_fd : Z; read_ctx : fd_ctx_s; write_ctx : fd_ctx_s; read_active : bool; write_active : bool }.
#[export] Instance eta_entry : Eta fd_entry_s := fun e =>
  FdEntry (e_id e) (e_fd e) (read_ctx e) (write_ctx e) (read_active e) (write_active e).
Definition ctx_none : fd_ctx_s := FdCtx (-1) 0 None.

Record reactor := Reactor {
  m_fd_entries : gmap Z fd_entry_s;
  next_id : nat;                   (* the next entry made gets this number *)
  m_pending_cleanup : list Z;
  m_wake_up_cb : list task;
  m_event : Z;                     (* the counter of m_event_fd *)
  m_writers : Z;                   (* the calls of wake_up that are to write to it *)
  m_running : bool;
  m_timer : @timer_t task;
  interest : gmap Z (Z * pointer); (* what the kernel watches *)
  closed : list Z }.               (* the descriptors the loop has closed *)
#[export] Instance eta_reactor : Eta reactor := fun r =>
  Reactor (m_fd_entries r) (next_id r) (m_pending_cleanup r) (m_wake_up_cb r) (m_event r) (m_writers r) (m_running r)
    (m_timer r) (interest r) (closed r).

Definition reactor_new : reactor := Reactor ∅ 0 [] [] 0 0 false timer_new ∅ [].

(** ** Registration *)

(** [m_fd_entries[fd]] *)
Definition entry_at (fd : Z) (r : reactor) : fd_entry_s * reactor :=
  match m_fd_entries r !! fd with
  | Some e => (e, r)
  | None =>
    let e := FdEntry (next_id r) (-1) ctx_none ctx_none false false in
    (e, (r <| m_fd_entries := <[fd := e]> (m_fd_entries r) |>) <| next_id := S (next_id r) |>)
  end.
Definition put_entry (fd : Z) (e : fd_entry_s) (r : reactor) : reactor :=
  r <| m_fd_entries := <[fd := e]> (m_fd_entries r) |>.

(** [epoll_ctl]: to add fails for what is no descriptor that can be watched,
    and for one that is watched; to change fails for one that is not. *)
Definition epoll_add (ok : bool) (fd events : Z) (p : pointer) (r : reactor) : option reactor :=
  if ok && (0 <=? fd) && negb (bool_decide (is_Some (interest r !! fd)))
  then Some (r <| interest := <[fd := (events, p)]> (interest r) |>) else None.
Definition epoll_mod (ok : bool) (fd events : Z) (p : pointer) (r : reactor) : option reactor :=
  if ok && bool_decide (is_Some (interest r !! fd))
  then Some (r <| interest := <[fd := (events, p)]> (interest r) |>) else None.
Definition epoll_del (fd : Z) (r : reactor) : reactor := r <| interest := delete fd (interest r) |>.

Definition name_entry (fd : Z) (e : fd_entry_s) : fd_entry_s :=
  e <| e_fd := if e_fd e =? -1 then fd else e_fd e |>.

Definition add_read (ok : bool) (fd events : Z) (c : option task) (r : reactor) : reactor * bool :=
  let '(e, r) := entry_at fd r in
  let e := name_entry fd e in
  let e := e <| read_ctx := FdCtx fd events c |> in
  let r := put_entry fd e r in
  match epoll_add ok fd events (ReadCtx (e_id e)) r with
  | None => (r, false)
  | Some r => (put_entry fd (e <| read_active := true |>) r, true)
  end.

Definition pend_idle (fd : Z) (e : fd_entry_s) (r : reactor) : reactor :=
  if negb (read_active e) && negb (write_active e)
  then r <| m_pending_cleanup := m_pending_cleanup r ++ [fd] |> else r.

Definition rem_read (fd : Z) (r : reactor) : reactor * bool :=
  match m_fd_entries r !! fd with
  | None => (r, false)
  | Some e =>
    let '(e, r) :=
      if read_active e && negb (x_fd (read_ctx e) =? -1) then
        let r := epoll_del (x_fd (read_ctx e)) r in
        let e := e <| read_active := false |> in
        let e := e <| read_ctx := FdCtx (-1) (x_events (read_ctx e)) None |> in
        (e, put_entry fd e r)
      else (e, r) in
    (pend_idle fd e r, true)
  end.

(** [dup] gives a descriptor or fails. *)
Definition add_write (dup : option Z) (ok : bool) (fd : Z) (c : option task) (r : reactor) : reactor * bool :=
  let '(e, r) := entry_at fd r in
  let e := name_entry fd e in
  let ctx := write_ctx e in
  let wfd := if x_fd ctx =? -1 then default (-1) dup else x_fd ctx in
  let e := e <| write_ctx := FdCtx wfd (x_events ctx) (x_cb ctx) |> in
  if wfd =? -1 then (put_entry fd e r, false) else
  let e := e <| write_ctx := FdCtx wfd 0 c |> in
  let r := put_entry fd e r in
  match epoll_add ok wfd 0 (WriteCtx (e_id e)) r with
  | None => (r, false)
  | Some r => (put_entry fd (e <| write_active := true |>) r, true)
  end.

Definition rem_write (fd : Z) (r : reactor) : reactor * bool :=
  match m_fd_entries r !! fd with
  | None => (r, false)
  | Some e =>
    let '(e, r) :=
      if write_active e && negb (x_fd (write_ctx e) =? -1) then
        let r := epoll_del (x_fd (write_ctx e)) r in
        let r := r <| closed := closed r ++ [x_fd (write_ctx e)] |> in
        let e := e <| write_ctx := FdCtx (-1) (x_events (write_ctx e)) None |> in
        let e := e <| write_active := false |> in
        (e, put_entry fd e r)
      else (e, r) in
    (pend_idle fd e r, true)
  end.

Definition req_write (ok : bool) (fd events : Z) (r : reactor) : reactor * bool :=
  match m_fd_entries r !! fd with
  | None => (r, false)
  | Some e =>
    let ctx := write_ctx e in
    if negb (write_active e) || (x_fd ctx =? -1) then (r, false) else
    let r := put_entry fd (e <| write_ctx := FdCtx (x_fd ctx) events (x_cb ctx) |>) r in
    match epoll_mod ok (x_fd ctx) events (WriteCtx (e_id e)) r with
    | None => (r, false)
    | Some r => (r, true)
    end
  end.

(** [wake_up] queues its callback under the lock, and then writes to the event
    descriptor. Between the two the loop, and other threads, may run. *)
Definition wake_push (c : option task) (r : reactor) : reactor :=
  let r := match c with Some t => r <| m_wake_up_cb := m_wake_up_cb r ++ [t] |> | None => r end in
  r <| m_writers := m_writers r + 1 |>.
Definition wake_write (r : reactor) : reactor :=
  (r <| m_event := m_event r + 1 |>) <| m_writers := m_writers r - 1 |>.
Definition wake_up (c : option task) (r : reactor) : reactor := wake_write (wake_push c r).
Definition halt (r : reactor) : reactor := wake_push None (r <| m_running := false |>).
Definition stop (r : reactor) : reactor := wake_write (halt r).

(** The methods of the class a user has. *)
Definition add_read_rdy (ok : bool) (fd : Z) (c : cb) : reactor -> reactor * bool :=
  add_read ok fd (EPOLLIN + EPOLLRDHUP) (Some (TUser c)).
Definition rem_read_rdy (fd : Z) : reactor -> reactor := wake_up (Some (TRemRead fd)).
Definition add_write_rdy (dup : option Z) (ok : bool) (fd : Z) (c : cb) : reactor -> reactor * bool :=
  add_write dup ok fd (Some (TUser c)).
Definition rem_write_rdy (fd : Z) : reactor -> reactor := wake_up (Some (TRemWrite fd)).
Definition req_write_rdy (ok : bool) (fd : Z) : reactor -> reactor * bool :=
  req_write ok fd (EPOLLOUT + EPOLLONESHOT).

(** ** The loop *)

(** The timeout of [epoll_wait]: until the next timer is due, in whole
    milliseconds, as an [int]. *)
Definition INT_MAX : Z := 2147483647.
Definition epoll_timeout (now_us : Z) (r : reactor) : Z :=
  match get_next_deadline_us (m_timer r) with
  | None => -1
  | Some next_deadline_us =>
    let diff := next_deadline_us - now_us in
    if diff <=? 0 then 0 else
    let diff_ms := Z.quot diff 1000 in
    if INT_MAX <? diff_ms then INT_MAX else diff_ms
  end.

(** The answer of [epoll_wait]: an error, or the pointers of the ready ones. *)
Inductive epoll_answer := EpollFails (err : Z) | EpollReady (evs : list pointer).

Definition find_entry (id : nat) (r : reactor) : option fd_entry_s :=
  snd <$> List.find (fun p => bool_decide (e_id p.2 = id)) (map_to_list (m_fd_entries r)).

(** What a callback of the user does, to the loop and to the world. *)
Context (call : cb -> reactor * W -> res (reactor * W)).

Definition run_task (t : task) (s : reactor * W) : res (reactor * W) :=
  match t with
  | TUser c => call c s
  | TRemRead fd => mret ((rem_read fd s.1).1, s.2)
  | TRemWrite fd => mret ((rem_write fd s.1).1, s.2)
  end.
Fixpoint run_tasks (ts : list task) (s : reactor * W) : res (reactor * W) :=
  match ts with [] => mret s | t :: ts => s ← run_task t s; run_tasks ts s end.

Definition run_ctx (ctx : fd_ctx_s) (s : reactor * W) : res (reactor * W) :=
  match x_cb ctx with Some t => run_task t s | None => mret s end.
Definition dispatch (p : pointer) (s : reactor * W) : res (reactor * W) :=
  match p with
  | EventCtx => mret (s.1 <| m_event := m_event s.1 - 1 |>, s.2)
  | ReadCtx id => match find_entry id s.1 with None => Ub UseAfterErase | Some e => run_ctx (read_ctx e) s end
  | WriteCtx id => match find_entry id s.1 with None => Ub UseAfterErase | Some e => run_ctx (write_ctx e) s end
  end.
Fixpoint dispatch_all (ps : list pointer) (s : reactor * W) : res (reactor * W) :=
  match ps with [] => mret s | p :: ps => s ← dispatch p s; dispatch_all ps s end.

Definition cleanup_one (r : reactor) (fd : Z) : reactor :=
  match m_fd_entries r !! fd with
  | None => r
  | Some e =>
    let r := if negb (x_fd (write_ctx e) =? -1) then r <| closed := closed r ++ [x_fd (write_ctx e)] |> else r in
    r <| m_fd_entries := delete fd (m_fd_entries r) |>
  end.
Definition cleanup (r : reactor) : reactor :=
  (foldl cleanup_one r (m_pending_cleanup r)) <| m_pending_cleanup := [] |>.

(** A step of another thread: it queues a callback or none, or ends the loop,
    and later writes to the event descriptor. *)
Inductive outside := OPush (c : option cb) | OHalt | OWrite.
Definition apply_outside (r : reactor) (o : outside) : reactor :=
  match o with
  | OPush c => wake_push (TUser <$> c) r
  | OHalt => halt r
  | OWrite => if 0 <? m_writers r then wake_write r else r
  end.

(** One pass of the loop, after [epoll_wait] has answered; [mid] is what other
    threads do before the callbacks are taken over, and [now_us] the clock at
    the end. *)
Definition run_pass (a : epoll_answer) (mid : list outside) (now_us : Z) (s : reactor * W) : res (reactor * W) :=
  match a with
  | EpollFails err => if negb (EINTR =? err) then Throw StdRuntimeError else mret s
  | EpollReady evs =>
    s ← dispatch_all evs s;
    let r := foldl apply_outside s.1 mid in
    let cbl := m_wake_up_cb r in
    s ← run_tasks cbl (r <| m_wake_up_cb := [] |>, s.2);
    let r := cleanup s.1 in
    let '(t, due) := schedule now_us (m_timer r) in
    run_tasks due (r <| m_timer := t |>, s.2)
  end.

(** What other threads do in a turn: before the condition of the loop is
    tested, while the loop waits, and before it takes the callbacks over. What
    comes later in the pass is as if it came before the next test. *)
Record turn := Turn {
  t_before : list outside; t_outside : list outside; t_answer : epoll_answer; t_mid : list outside; t_now : Z }.

(** [run]: what happened by the time the turns are used up, or the loop ended. *)
Fixpoint run_loop (ts : list turn) (s : reactor * W) : res (reactor * W) :=
  match ts with
  | [] => mret s
  | t :: ts =>
    let r := foldl apply_outside s.1 (t_before t) in
    if m_running r then
      s ← run_pass (t_answer t) (t_mid t) (t_now t) (foldl apply_outside r (t_outside t), s.2);
      run_loop ts s
    else mret (r, s.2)
  end.
Definition run (ts : list turn) (s : reactor * W) : res (reactor * W) :=
  run_loop ts (s.1 <| m_running := true |>, s.2).

(** ** The invariant *)

(** The pointers the kernel has are to contexts in use, an entry has the number
    of no other, and what is to be cleaned up is not in use. *)
Record reactor_ok (r : reactor) : Prop := ReactorOk {
  ok_read fd ev id : interest r !! fd = Some (ev, ReadCtx id) -> exists e, m_fd_entries r !! fd = Some e /\ e_id e = id /\
    read_active e = true;
  ok_write wfd ev id : interest r !! wfd = Some (ev, WriteCtx id) -> exists fd e, m_fd_entries r !! fd = Some e /\ e_id e = id /\
    write_active e = true /\ x_fd (write_ctx e) = wfd;
  ok_event wfd ev : interest r !! wfd <> Some (ev, EventCtx);
  ok_active fd e : m_fd_entries r !! fd = Some e -> read_active e = true -> x_fd (read_ctx e) = fd /\ 0 <= fd;
  ok_wactive fd e : m_fd_entries r !! fd = Some e -> write_active e = true -> 0 <= x_fd (write_ctx e);
  ok_ids fd e : m_fd_entries r !! fd = Some e -> (e_id e < next_id r)%nat;
  ok_unique fd fd' e e' : m_fd_entries r !! fd = Some e -> m_fd_entries r !! fd' = Some e' -> e_id e = e_id e' -> fd = fd';
  ok_idle fd e : fd ∈ m_pending_cleanup r -> m_fd_entries r !! fd = Some e -> read_active e = false /\ write_active e = false }.

(** What others do to the loop: the public methods, also those that are called
    meanwhile by other threads, a stop, and the kernel, which forgets a
    descriptor when it is closed. A descriptor that is to be cleaned up is not
    added again. *)
Inductive public : reactor -> reactor -> Prop :=
  | p_add_read ok fd c r : fd ∉ m_pending_cleanup r -> public r (add_read_rdy ok fd c r).1
  | p_rem_read fd r : public r (rem_read_rdy fd r)
  | p_add_write d ok fd c r : fd ∉ m_pending_cleanup r -> public r (add_write_rdy d ok fd c r).1
  | p_rem_write fd r : public r (rem_write_rdy fd r)
  | p_req_write ok fd r : public r (req_write_rdy ok fd r).1
  | p_wake_up c r : public r (wake_up (TUser <$> c) r)
  | p_push c r : public r (wake_push (TUser <$> c) r)
  | p_halt r : public r (halt r)
  | p_write r : 0 < m_writers r -> public r (wake_write r)
  | p_stop r : public r (stop r)
  | p_timer t r : public r (r <| m_timer := t |>)
  | p_closed fd r : public r (epoll_del fd r).

(** The entries that are there stay. *)
Definition live (id : nat) (r : reactor) : Prop := exists fd e, m_fd_entries r !! fd = Some e /\ e_id e = id.
Definition keeps (r r' : reactor) : Prop := forall id, live id r -> live id r'.
#[local] Instance keeps_pre : PreOrder keeps.
Proof. split; [by intros r id|]. intros r1 r2 r3 H1 H2 id Hl. by apply H2, H1. Qed.

Lemma reactor_ok_new : reactor_ok reactor_new.
Proof. split; cbn; intros; try done; exfalso; by eapply lookup_empty_Some. Qed.

(** *** The entry of a descriptor *)

Lemma entry_at_spec fd r e r' : entry_at fd r = (e, r') -> reactor_ok r ->
  reactor_ok r' /\ m_fd_entries r' !! fd = Some e /\ interest r' = interest r /\
  m_pending_cleanup r' = m_pending_cleanup r /\ keeps r r'.
Proof.
  unfold entry_at. destruct (m_fd_entries r !! fd) as [e0|] eqn:E; intros [= <- <-] Hr.
  { split_and!; done. }
  cbn. destruct Hr. split_and!; try done; [split; cbn|by rewrite lookup_insert_eq|].
  - intros x ev id H. destruct (ok_read0 _ _ _ H) as (e & He & ?). exists e. rewrite lookup_insert_ne; [done|congruence].
  - intros x ev id H. destruct (ok_write0 _ _ _ H) as (fd' & e & He & ?). exists fd', e. rewrite lookup_insert_ne; [done|congruence].
  - done.
  - intros x e. rewrite lookup_insert_Some. intros [(<- & <-)|(_ & H)]; [done|eauto].
  - intros x e. rewrite lookup_insert_Some. intros [(<- & <-)|(_ & H)]; [done|eauto].
  - intros x e. rewrite lookup_insert_Some. intros [(<- & <-)|(_ & H)]; [cbn; lia|]. apply ok_ids0 in H. lia.
  - intros x y e e'. rewrite !lookup_insert_Some.
    intros [(<- & <-)|(_ & H)] [(<- & <-)|(_ & H')] Hi; [done| | |eauto]; cbn in Hi;
      [apply ok_ids0 in H'|apply ok_ids0 in H]; lia.
  - intros x e Hx. rewrite lookup_insert_Some. intros [(<- & <-)|(_ & H)]; [done|eauto].
  - intros id (fd' & e & He & Hi). exists fd', e. cbn. rewrite lookup_insert_ne; [done|congruence].
Qed.

(** *** One entry, or one watched descriptor, at a time *)

Lemma put_ok fd e e' r : reactor_ok r -> m_fd_entries r !! fd = Some e -> e_id e' = e_id e ->
  (forall ev, interest r !! fd = Some (ev, ReadCtx (e_id e)) -> read_active e' = true) ->
  (forall wfd ev, interest r !! wfd = Some (ev, WriteCtx (e_id e)) -> write_active e' = true /\ x_fd (write_ctx e') = wfd) ->
  (read_active e' = true -> x_fd (read_ctx e') = fd /\ 0 <= fd) ->
  (write_active e' = true -> 0 <= x_fd (write_ctx e')) ->
  (fd ∈ m_pending_cleanup r -> read_active e' = false /\ write_active e' = false) ->
  reactor_ok (put_entry fd e' r) /\ keeps r (put_entry fd e' r).
Proof.
  intros Hr He Hid Hrd Hwr Hra Hwa Hp. destruct Hr. split; [split; cbn|].
  - intros x ev id H. destruct (ok_read0 _ _ _ H) as (e0 & H0 & <- & Ha). destruct (decide (fd = x)) as [<-|Hx].
    + rewrite He in H0. injection H0 as <-. exists e'. rewrite lookup_insert_eq. eauto.
    + exists e0. by rewrite lookup_insert_ne.
  - intros x ev id H. destruct (ok_write0 _ _ _ H) as (fd' & e0 & H0 & <- & Ha & Hf). destruct (decide (fd = fd')) as [<-|Hx].
    + rewrite He in H0. injection H0 as <-. exists fd, e'. rewrite lookup_insert_eq. destruct (Hwr _ _ H). eauto.
    + exists fd', e0. by rewrite lookup_insert_ne.
  - done.
  - intros x e0. rewrite lookup_insert_Some. intros [(<- & <-)|(_ & H)]; eauto.
  - intros x e0. rewrite lookup_insert_Some. intros [(<- & <-)|(_ & H)]; eauto.
  - intros x e0. rewrite lookup_insert_Some. intros [(<- & <-)|(_ & H)]; [rewrite Hid|]; eauto.
  - intros x y e0 e1. rewrite !lookup_insert_Some.
    intros [(<- & <-)|(_ & H)] [(<- & <-)|(_ & H')] Hi; eauto; rewrite Hid in Hi; eauto.
  - intros x e0 Hx. rewrite lookup_insert_Some. intros [(<- & <-)|(_ & H)]; eauto.
  - intros id (fd' & e0 & H0 & Hi). destruct (decide (fd = fd')) as [<-|Hx].
    + exists fd, e'. cbn. rewrite lookup_insert_eq. split; [done|congruence].
    + exists fd', e0. cbn. by rewrite lookup_insert_ne.
Qed.

Lemma watch_ok fd ev p r : reactor_ok r ->
  match p with
  | EventCtx => False
  | ReadCtx id => exists e, m_fd_entries r !! fd = Some e /\ e_id e = id /\ read_active e = true
  | WriteCtx id => exists fd' e, m_fd_entries r !! fd' = Some e /\ e_id e = id /\ write_active e = true /\ x_fd (write_ctx e) = fd
  end -> reactor_ok (r <| interest := <[fd := (ev, p)]> (interest r) |>).
Proof.
  intros [] Hp. split; cbn; try done.
  - intros x ev' id. rewrite lookup_insert_Some. intros [(<- & [= <- ->])|(_ & H)]; eauto.
  - intros x ev' id. rewrite lookup_insert_Some. intros [(<- & [= <- ->])|(_ & H)]; eauto.
  - intros x ev'. rewrite lookup_insert_Some. intros [(<- & [= <- ->])|(_ & H)]; [done|by eapply ok_event0].
Qed.

Lemma epoll_del_ok fd r : reactor_ok r -> reactor_ok (epoll_del fd r).
Proof.
  intros []. split; cbn; try done.
  - intros x ev id. rewrite lookup_delete_Some. intros (_ & H). eauto.
  - intros x ev id. rewrite lookup_delete_Some. intros (_ & H). eauto.
  - intros x ev. rewrite lookup_delete_Some. intros (_ & H). by eapply ok_event0.
Qed.

(** The other fields are free. *)
Lemma ok_ext r r' : m_fd_entries r' = m_fd_entries r -> interest r' = interest r -> next_id r' = next_id r ->
  (forall fd, fd ∈ m_pending_cleanup r' -> fd ∈ m_pending_cleanup r) -> reactor_ok r -> reactor_ok r' /\ keeps r r'.
Proof.
  intros He Hi Hn Hp []. split; [|unfold keeps, live; by rewrite He].
  split; rewrite ?He, ?Hi, ?Hn; eauto.
Qed.

Lemma epoll_add_Some ok fd ev p r r' : epoll_add ok fd ev p r = Some r' ->
  0 <= fd /\ r' = r <| interest := <[fd := (ev, p)]> (interest r) |>.
Proof.
  unfold epoll_add. destruct (ok && (0 <=? fd) && _) eqn:E; [|done]. intros [= <-].
  apply andb_true_iff in E as (E & _). apply andb_true_iff in E as (_ & E). apply Z.leb_le in E. done.
Qed.

(** What the kernel has of an entry. *)
Lemma read_of r fd e ev : reactor_ok r -> m_fd_entries r !! fd = Some e ->
  interest r !! fd = Some (ev, ReadCtx (e_id e)) -> read_active e = true.
Proof. intros [] He H. destruct (ok_read0 _ _ _ H) as (e0 & H0 & _ & Ha). by simplify_eq. Qed.
Lemma write_of r fd e wfd ev : reactor_ok r -> m_fd_entries r !! fd = Some e ->
  interest r !! wfd = Some (ev, WriteCtx (e_id e)) -> write_active e = true /\ x_fd (write_ctx e) = wfd.
Proof.
  intros [] He H. destruct (ok_write0 _ _ _ H) as (fd' & e0 & H0 & Hid & Ha).
  assert (fd' = fd) as -> by (by eapply ok_unique0). by simplify_eq.
Qed.

(** *** The operations *)

(** What every operation does: it keeps the invariant and the entries. *)
Definition good (r r' : reactor) : Prop := reactor_ok r -> reactor_ok r' /\ keeps r r'.
#[local] Instance good_pre : PreOrder good.
Proof.
  split; [by intros r Hr|]. intros r1 r2 r3 H1 H2 Hr. destruct (H1 Hr) as (Hr2 & K2). destruct (H2 Hr2) as (Hr3 & K3).
  split; [done|by etrans].
Qed.

Lemma add_read_good ok fd ev c r : fd ∉ m_pending_cleanup r -> good r (add_read ok fd ev c r).1.
Proof.
  intros Hp Hr. unfold add_read. destruct (entry_at fd r) as [e r1] eqn:E.
  destruct (entry_at_spec _ _ _ _ E Hr) as (Hr1 & He & Hi & Hc & Hk).
  set (e1 := (name_entry fd e) <| read_ctx := FdCtx fd ev c |>).
  assert (reactor_ok (put_entry fd e1 r1) /\ keeps r1 (put_entry fd e1 r1)) as (Hr2 & Hk2).
  { apply (put_ok fd e); try done.
    - intros ev'. exact (read_of _ _ e _ Hr1 He).
    - intros wfd ev'. exact (write_of _ _ e _ _ Hr1 He).
    - intros Ha. split; [done|]. by eapply (ok_active _ Hr1).
    - exact (ok_wactive _ Hr1 _ _ He).
    - intros H. rewrite Hc in H. by destruct Hp. }
  destruct (epoll_add _ _ _ _ _) as [r3|] eqn:E3; [|split; [done|by etrans]].
  apply epoll_add_Some in E3 as (Hfd & ->). cbn [fst].
  set (e2 := e1 <| read_active := true |>).
  assert (m_fd_entries (put_entry fd e1 r1) !! fd = Some e1) as He1 by apply lookup_insert_eq.
  destruct (put_ok fd e1 e2 _ Hr2 He1) as (Hr3 & Hk3); try done.
  - intros wfd ev'. exact (write_of _ _ e1 _ _ Hr2 He1).
  - exact (ok_wactive _ Hr2 _ _ He1).
  - intros H. change (fd ∈ m_pending_cleanup r1) in H. rewrite Hc in H. by destruct Hp.
  - split; [|by etrans; [|etrans]].
    apply (watch_ok fd ev (ReadCtx (e_id e1)) (put_entry fd e2 (put_entry fd e1 r1))); [done|].
    exists e2. split; [apply lookup_insert_eq|done].
Qed.

Lemma pend_idle_good fd e r : m_fd_entries r !! fd = Some e -> good r (pend_idle fd e r).
Proof.
  intros He Hr. unfold pend_idle. destruct (negb (read_active e) && negb (write_active e)) eqn:E; [|done].
  apply andb_true_iff in E as (E1%negb_true_iff & E2%negb_true_iff). destruct Hr.
  split; [|by intros id]. split; cbn; try done. intros x e0 [Hx|Hx%list_elem_of_singleton]%elem_of_app H0; [eauto|].
  subst x. by simplify_eq.
Qed.

Lemma rem_read_good fd r : good r (rem_read fd r).1.
Proof.
  intros Hr. unfold rem_read. destruct (m_fd_entries r !! fd) as [e|] eqn:He; [|done].
  destruct (read_active e && negb (x_fd (read_ctx e) =? -1)) eqn:E; [|by apply pend_idle_good].
  apply andb_true_iff in E as (E & _). destruct (ok_active _ Hr _ _ He E) as (Hx & _). rewrite Hx. cbn [fst].
  set (e1 := (e <| read_active := false |>) <| read_ctx := _ |>).
  destruct (put_ok fd e e1 (epoll_del fd r)) as (Hr1 & Hk); try done.
  - by apply epoll_del_ok.
  - intros ev H. cbn in H. by rewrite lookup_delete_eq in H.
  - intros wfd ev H. cbn in H. apply lookup_delete_Some in H as (_ & H). exact (write_of _ _ e _ _ Hr He H).
  - exact (ok_wactive _ Hr _ _ He).
  - intros Hp. split; [done|]. exact (proj2 (ok_idle _ Hr _ _ Hp He)).
  - destruct (pend_idle_good fd e1 (put_entry fd e1 (epoll_del fd r))) as (Hr2 & Hk2); [apply lookup_insert_eq|done|].
    split; [done|]. by etrans; [|exact Hk2].
Qed.

Lemma rem_write_good fd r : good r (rem_write fd r).1.
Proof.
  intros Hr. unfold rem_write. destruct (m_fd_entries r !! fd) as [e|] eqn:He; [|done].
  destruct (write_active e && negb (x_fd (write_ctx e) =? -1)) eqn:E; [|by apply pend_idle_good].
  cbn [fst]. set (wfd := x_fd (write_ctx e)).
  set (e1 := (e <| write_ctx := _ |>) <| write_active := false |>).
  set (r1 := (epoll_del wfd r) <| closed := closed r ++ [wfd] |>).
  assert (reactor_ok r1) as Hr1 by (by apply (ok_ext (epoll_del wfd r)); [..|apply epoll_del_ok]).
  destruct (put_ok fd e e1 r1) as (Hr2 & Hk); try done.
  - intros ev H. cbn in H. apply lookup_delete_Some in H as (_ & H). exact (read_of _ _ e _ Hr He H).
  - intros x ev H. cbn in H. apply lookup_delete_Some in H as (Hx & H). by destruct (write_of _ _ e _ _ Hr He H).
  - exact (ok_active _ Hr _ _ He).
  - intros Hp. split; [|done]. exact (proj1 (ok_idle _ Hr _ _ Hp He)).
  - destruct (pend_idle_good fd e1 (put_entry fd e1 r1)) as (Hr3 & Hk3); [apply lookup_insert_eq|done|].
    split; [done|]. by etrans; [|exact Hk3].
Qed.

Lemma add_write_good d ok fd c r : fd ∉ m_pending_cleanup r -> good r (add_write d ok fd c r).1.
Proof.
  intros Hp Hr. unfold add_write. destruct (entry_at fd r) as [e r1] eqn:E.
  destruct (entry_at_spec _ _ _ _ E Hr) as (Hr1 & He & Hi & Hc & Hk).
  change (write_ctx (name_entry fd e)) with (write_ctx e).
  set (wfd := if x_fd (write_ctx e) =? -1 then default (-1) d else x_fd (write_ctx e)).
  assert (forall x, e_id x = e_id e -> read_active x = read_active e -> write_active x = write_active e ->
    read_ctx x = read_ctx e -> x_fd (write_ctx x) = wfd -> reactor_ok (put_entry fd x r1) /\ keeps r1 (put_entry fd x r1)) as Hput.
  { intros x Hid Hra Hwa Hrc Hx. assert (write_active e = true -> wfd = x_fd (write_ctx e)) as Hw.
    { intros Ha. pose proof (ok_wactive _ Hr1 _ _ He Ha). unfold wfd. case_Z; [lia|done]. }
    apply (put_ok fd e); rewrite ?Hra, ?Hwa, ?Hrc, ?Hx; try done.
    - intros ev'. exact (read_of _ _ e _ Hr1 He).
    - intros x' ev' H. destruct (write_of _ _ e _ _ Hr1 He H) as (Ha & <-). auto.
    - exact (ok_active _ Hr1 _ _ He).
    - intros Ha. rewrite Hw by done. exact (ok_wactive _ Hr1 _ _ He Ha).
    - intros H. rewrite Hc in H. by destruct Hp. }
  case_Z.
  { destruct (Hput ((name_entry fd e) <| write_ctx := FdCtx wfd (x_events (write_ctx e)) (x_cb (write_ctx e)) |>))
      as (Hr2 & Hk2); try done. split; [done|by etrans]. }
  set (e0 := (name_entry fd e) <| write_ctx := FdCtx wfd (x_events (write_ctx e)) (x_cb (write_ctx e)) |>).
  set (e1 := e0 <| write_ctx := FdCtx wfd 0 c |>).
  destruct (Hput e1) as (Hr2 & Hk2); try done.
  destruct (epoll_add _ _ _ _ _) as [r3|] eqn:E3; [|split; [done|by etrans]].
  apply epoll_add_Some in E3 as (Hfd & ->). cbn [fst].
  set (e2 := e1 <| write_active := true |>).
  assert (m_fd_entries (put_entry fd e1 r1) !! fd = Some e1) as He1 by apply lookup_insert_eq.
  destruct (put_ok fd e1 e2 _ Hr2 He1) as (Hr3 & Hk3); try done.
  - intros ev'. exact (read_of _ _ e1 _ Hr2 He1).
  - intros x ev' H. by destruct (write_of _ _ e1 _ _ Hr2 He1 H).
  - exact (ok_active _ Hr2 _ _ He1).
  - intros H. change (fd ∈ m_pending_cleanup r1) in H. rewrite Hc in H. by destruct Hp.
  - split; [|by etrans; [|etrans]].
    apply (watch_ok wfd 0 (WriteCtx (e_id e1)) (put_entry fd e2 (put_entry fd e1 r1))); [done|].
    exists fd, e2. split; [apply lookup_insert_eq|done].
Qed.

Lemma req_write_good ok fd ev r : good r (req_write ok fd ev r).1.
Proof.
  intros Hr. unfold req_write. destruct (m_fd_entries r !! fd) as [e|] eqn:He; [|done].
  destruct (negb (write_active e) || (x_fd (write_ctx e) =? -1)) eqn:E; [done|].
  apply orb_false_iff in E as (Ha%negb_false_iff & _).
  set (e1 := e <| write_ctx := FdCtx (x_fd (write_ctx e)) ev (x_cb (write_ctx e)) |>).
  destruct (put_ok fd e e1 r) as (Hr1 & Hk); try done.
  - intros ev'. exact (read_of _ _ e _ Hr He).
  - intros wfd ev'. exact (write_of _ _ e _ _ Hr He).
  - exact (ok_active _ Hr _ _ He).
  - exact (ok_wactive _ Hr _ _ He).
  - intros Hp. exact (ok_idle _ Hr _ _ Hp He).
  - unfold epoll_mod. destruct (ok && _); [|done]. cbn [fst]. split; [|done].
    apply (watch_ok (x_fd (write_ctx e)) ev (WriteCtx (e_id e)) (put_entry fd e1 r)); [done|].
    exists fd, e1. split; [apply lookup_insert_eq|done].
Qed.

(** Callbacks that wait to be called never outnumber the counter of the event
    descriptor and the writes that are to come: what is handed over does not
    add to the difference. *)
Definition slack (r : reactor) : Z := zlen (m_wake_up_cb r) - m_event r - m_writers r.
Definition fed (r r' : reactor) : Prop :=
  slack r' <= slack r /\ m_event r <= m_event r' /\ (0 <= m_writers r -> 0 <= m_writers r').
#[local] Instance fed_pre : PreOrder fed.
Proof. split; [by intros r; unfold fed; split_and!; lia|]. intros r1 r2 r3. unfold fed. intros (? & ? & ?) (? & ? & ?). split_and!; auto; lia. Qed.

Lemma fed_same r r' : m_wake_up_cb r' = m_wake_up_cb r -> m_event r' = m_event r -> m_writers r' = m_writers r -> fed r r'.
Proof. unfold fed, slack. intros -> -> ->. split_and!; lia. Qed.
Lemma wake_push_fed c r : fed r (wake_push c r).
Proof. unfold fed, slack, wake_push. destruct c; cbn -[zlen]; rewrite ?zlen_app, ?zlen_cons, ?zlen_nil; split_and!; lia. Qed.
Lemma wake_write_fed r : 0 < m_writers r -> fed r (wake_write r).
Proof. intros Hw. unfold fed, slack, wake_write. cbn -[zlen]. split_and!; lia. Qed.
Lemma wake_up_fed c r : fed r (wake_up c r).
Proof. unfold fed, slack, wake_up, wake_write, wake_push. destruct c; cbn -[zlen]; rewrite ?zlen_app, ?zlen_cons, ?zlen_nil; split_and!; lia. Qed.

(** An operation that leaves the callbacks and the counter alone. *)
Ltac leaves := intros; unfold add_read, add_write, req_write, rem_read, rem_write, pend_idle, entry_at, epoll_add, epoll_mod;
  repeat case_match; simplify_eq; apply fed_same; reflexivity.

Lemma add_read_fed ok fd ev c r : fed r (add_read ok fd ev c r).1. Proof. leaves. Qed.
Lemma add_write_fed d ok fd c r : fed r (add_write d ok fd c r).1. Proof. leaves. Qed.
Lemma req_write_fed ok fd ev r : fed r (req_write ok fd ev r).1. Proof. leaves. Qed.
Lemma rem_read_fed fd r : fed r (rem_read fd r).1. Proof. leaves. Qed.
Lemma rem_write_fed fd r : fed r (rem_write fd r).1. Proof. leaves. Qed.

Lemma wake_push_good c r : good r (wake_push c r).
Proof. intros Hr. apply (ok_ext r); unfold wake_push; by destruct c. Qed.
Lemma wake_write_good r : good r (wake_write r).
Proof. intros Hr. by apply (ok_ext r). Qed.
Lemma wake_up_good c r : good r (wake_up c r).
Proof. etrans; [apply wake_push_good|apply wake_write_good]. Qed.
Lemma halt_step r : good r (halt r) /\ fed r (halt r).
Proof.
  unfold halt. split; [|etrans; [|apply wake_push_fed]; by apply fed_same].
  etrans; [|apply wake_push_good]. intros Hr. by apply (ok_ext r).
Qed.

Lemma public_step r r' : public r r' -> good r r' /\ fed r r'.
Proof.
  destruct 1; try apply halt_step; split; try apply wake_up_good; try apply wake_up_fed.
  - by apply add_read_good.
  - apply add_read_fed.
  - by apply add_write_good.
  - apply add_write_fed.
  - apply req_write_good.
  - apply req_write_fed.
  - apply wake_push_good.
  - apply wake_push_fed.
  - apply wake_write_good.
  - by apply wake_write_fed.
  - etrans; [apply halt_step|apply wake_write_good].
  - unfold stop, halt. etrans; [|apply wake_up_fed]. by apply fed_same.
  - intros Hr. by apply (ok_ext r).
  - by apply fed_same.
  - intros Hr. split; [by apply epoll_del_ok|by intros id].
  - by apply fed_same.
Qed.
Lemma public_steps r r' : rtc public r r' -> good r r' /\ fed r r'.
Proof.
  induction 1 as [r|r1 r2 r3 H _ IH]; [done|]. apply public_step in H as (H1 & H2).
  destruct IH as (H3 & H4). split; by etrans.
Qed.

Lemma outside_step r o : good r (apply_outside r o) /\ fed r (apply_outside r o).
Proof.
  destruct o; cbn [apply_outside]; [by apply public_step; constructor..|]. case_Z; [|by split].
  by apply public_step; constructor.
Qed.
Lemma outside_steps os r : good r (foldl apply_outside r os) /\ fed r (foldl apply_outside r os).
Proof.
  revert r. induction os as [|o os IH]; intros r; [done|]. cbn [foldl].
  destruct (outside_step r o) as (H1 & H2), (IH (apply_outside r o)) as (H3 & H4). split; by etrans.
Qed.

(** ** Safety *)

(** The callbacks of the user call public methods, return or throw. *)
Definition call_ok : Prop := forall c r w,
  match call c (r, w) with Ok (r', _) => rtc public r r' | Throw _ => True | _ => False end.

(** A computation that does what the public methods do, or throws. *)
Definition fine (r : reactor) (x : res (reactor * W)) : Prop :=
  match x with Ok (r', _) => good r r' /\ fed r r' | Throw _ => True | _ => False end.

Lemma fine_bind r x f : fine r x -> (forall r' w', x = Ok (r', w') -> good r r' -> fed r r' -> fine r' (f (r', w'))) ->
  fine r (x ≫= f).
Proof.
  destruct x as [[r' w']| | |]; cbn; try done. intros (H1 & H2) Hf. specialize (Hf _ _ eq_refl H1 H2).
  destruct (f (r', w')) as [[r2 w2]| | |]; cbn in *; try done. destruct Hf. split; by etrans.
Qed.

Hypothesis Hcall : call_ok.

Lemma run_task_fine t r w : fine r (run_task t (r, w)).
Proof.
  destruct t as [c|fd|fd]; cbn.
  - specialize (Hcall c r w). destruct (call c (r, w)) as [[r' w']| | |]; cbn; try done. by apply public_steps.
  - split; [apply rem_read_good|apply rem_read_fed].
  - split; [apply rem_write_good|apply rem_write_fed].
Qed.
Lemma run_tasks_fine ts r w : fine r (run_tasks ts (r, w)).
Proof.
  revert r w. induction ts as [|t ts IH]; intros r w; [by cbn|]. apply fine_bind; [apply run_task_fine|]. auto.
Qed.

(** *** Dispatch *)

Definition pointed (r : reactor) (p : pointer) : Prop :=
  match p with EventCtx => True | ReadCtx id | WriteCtx id => live id r end.

Lemma find_entry_is id r e : find_entry id r = Some e -> exists fd, m_fd_entries r !! fd = Some e /\ e_id e = id.
Proof.
  unfold find_entry. destruct (List.find _ _) as [[fd e0]|] eqn:E; [|done]. intros [= <-].
  apply List.find_some in E as (Hin & Hb). apply bool_decide_eq_true in Hb. exists fd. split; [|done].
  by apply elem_of_map_to_list, list_elem_of_In.
Qed.
Lemma find_entry_live id r : live id r -> exists e, find_entry id r = Some e.
Proof.
  intros (fd & e & He & Hid). unfold find_entry. destruct (List.find _ _) as [[fd0 e0]|] eqn:E; [by eexists|].
  exfalso. apply elem_of_map_to_list, list_elem_of_In in He. apply (List.find_none _ _ E) in He.
  by apply bool_decide_eq_false in He.
Qed.
Lemma find_entry_at r fd e : reactor_ok r -> m_fd_entries r !! fd = Some e -> find_entry (e_id e) r = Some e.
Proof.
  intros Hr He. destruct (find_entry_live (e_id e) r) as (e' & Hf); [by exists fd, e|]. rewrite Hf.
  apply find_entry_is in Hf as (fd' & He' & Hid). assert (fd' = fd) as -> by (by eapply (ok_unique _ Hr)). by simplify_eq.
Qed.

(** How often the event descriptor is among the ready ones. *)
Definition event_count (ps : list pointer) : Z := zlen (filter (fun p => p = EventCtx) ps).

Lemma run_ctx_fine ctx r w : fine r (run_ctx ctx (r, w)).
Proof. unfold run_ctx. destruct (x_cb ctx); [apply run_task_fine|by cbn]. Qed.

Definition dispatched (n : Z) (r r' : reactor) : Prop :=
  slack r' <= slack r + n /\ m_event r - n <= m_event r' /\ (0 <= m_writers r -> 0 <= m_writers r').

Lemma dispatch_all_ok ps r w : reactor_ok r -> Forall (pointed r) ps ->
  match dispatch_all ps (r, w) with
  | Ok (r', _) => reactor_ok r' /\ dispatched (event_count ps) r r'
  | Throw _ => True
  | _ => False
  end.
Proof.
  revert r w. induction ps as [|p ps IH]; intros r w Hr Hp; [change (event_count []) with 0; cbn; unfold dispatched; split_and!; [done|lia|lia|done]|].
  apply Forall_cons_iff in Hp as (Hp & Hps). cbn [dispatch_all].
  assert (forall x, fine r x -> p <> EventCtx ->
    match x ≫= dispatch_all ps with
    | Ok (r', _) => reactor_ok r' /\ dispatched (event_count (p :: ps)) r r'
    | Throw _ => True
    | _ => False
    end) as Hx.
  { intros [[r1 w1]| | |] Hf Hne; cbn in Hf |- *; try done. destruct Hf as (Hg & (Hf1 & Hf2 & Hf3)). destruct (Hg Hr) as (Hr1 & Hk).
    unfold event_count. rewrite filter_cons_False by done. fold (event_count ps).
    assert (Forall (pointed r1) ps) as Hp1.
    { eapply list.Forall_impl; [exact Hps|]. intros [|id|id]; cbn; [done|apply Hk|apply Hk]. }
    specialize (IH r1 w1 Hr1 Hp1). destruct (dispatch_all ps (r1, w1)) as [[r2 w2]| | |]; try done.
    destruct IH as (? & ? & ? & ?). unfold dispatched. split_and!; [done|lia|lia|auto]. }
  destruct p as [|id|id]; cbn in Hp |- *.
  - set (r1 := r <| m_event := m_event r - 1 |>). assert (reactor_ok r1) as Hr1 by (by apply (ok_ext r)).
    specialize (IH r1 w Hr1 Hps). unfold event_count in *. rewrite filter_cons_True, zlen_cons by done.
    destruct (dispatch_all ps (r1, w)) as [[r2 w2]| | |]; try done. destruct IH as (? & ? & ? & ?).
    change (m_event r1) with (m_event r - 1) in *. change (slack r1) with (zlen (m_wake_up_cb r) - (m_event r - 1) - m_writers r) in *.
    unfold dispatched, slack in *. split_and!; [done|lia|lia|done].
  - destruct (find_entry_live _ _ Hp) as (e & ->). apply Hx; [apply run_ctx_fine|done].
  - destruct (find_entry_live _ _ Hp) as (e & ->). apply Hx; [apply run_ctx_fine|done].
Qed.

(** *** Cleaning up *)

Lemma cleanup_one_ok r fd : reactor_ok r -> fd ∈ m_pending_cleanup r ->
  reactor_ok (cleanup_one r fd) /\ m_pending_cleanup (cleanup_one r fd) = m_pending_cleanup r.
Proof.
  intros Hr Hp. unfold cleanup_one. destruct (m_fd_entries r !! fd) as [e|] eqn:He; [|done].
  destruct (ok_idle _ Hr _ _ Hp He) as (Ha & Hw).
  assert (forall r', m_fd_entries r' = m_fd_entries r -> interest r' = interest r -> next_id r' = next_id r ->
    m_pending_cleanup r' = m_pending_cleanup r -> reactor_ok (r' <| m_fd_entries := delete fd (m_fd_entries r') |>)) as H.
  2:{ split; [|by destruct (negb _)]. destruct (negb _); by apply H. }
  intros r' E1 E2 E3 E4. destruct Hr. split; cbn; rewrite ?E1, ?E2, ?E3, ?E4; try done.
  - intros x ev id H. destruct (ok_read0 _ _ _ H) as (e0 & H0 & Hid & Hra). exists e0.
    split; [|done]. apply lookup_delete_Some. split; [intros <-|done]. simplify_eq. congruence.
  - intros x ev id H. destruct (ok_write0 _ _ _ H) as (fd' & e0 & H0 & Hid & Hwa & Hx). exists fd', e0.
    split; [|done]. apply lookup_delete_Some. split; [intros <-|done]. simplify_eq. congruence.
  - intros x e0 (_ & H)%lookup_delete_Some. eauto.
  - intros x e0 (_ & H)%lookup_delete_Some. eauto.
  - intros x e0 (_ & H)%lookup_delete_Some. eauto.
  - intros x y e0 e1 (_ & H)%lookup_delete_Some (_ & H')%lookup_delete_Some. eauto.
  - intros x e0 Hx (_ & H)%lookup_delete_Some. eauto.
Qed.

Lemma cleanup_ok r : reactor_ok r -> reactor_ok (cleanup r) /\ fed r (cleanup r).
Proof.
  intros Hr. unfold cleanup.
  assert (forall l r0, reactor_ok r0 -> (forall fd, fd ∈ l -> fd ∈ m_pending_cleanup r0) ->
    reactor_ok (foldl cleanup_one r0 l) /\ fed r0 (foldl cleanup_one r0 l)) as H.
  { induction l as [|fd l IH]; intros r0 H0 Hl; [done|]. cbn [foldl].
    destruct (cleanup_one_ok r0 fd H0) as (H1 & Hp); [apply Hl; left|].
    destruct (IH _ H1) as (H2 & Hf); [intros x Hx; rewrite Hp; apply Hl; by right|]. split; [done|].
    etrans; [|exact Hf]. apply fed_same; unfold cleanup_one; destruct (_ !! fd); try done; by destruct (negb _). }
  destruct (H (m_pending_cleanup r) r Hr) as (H1 & H2); [done|]. split.
  - apply (ok_ext (foldl cleanup_one r (m_pending_cleanup r))); try done. intros fd Hfd. by apply elem_of_nil in Hfd.
  - etrans; [exact H2|]. by apply fed_same.
Qed.

(** *** A pass, and the loop *)

(** What [epoll_wait] may answer: descriptors it watches, and its own event
    descriptor, if the counter is not zero; each once. *)
Definition ready_ok (r : reactor) (evs : list pointer) : Prop :=
  NoDup evs /\
  Forall (fun p => match p with EventCtx => 0 < m_event r | _ => exists fd ev, interest r !! fd = Some (ev, p) end) evs.
Definition answer_ok (r : reactor) (a : epoll_answer) : Prop :=
  match a with EpollReady evs => ready_ok r evs | EpollFails _ => True end.

(** No callback waits unless the event descriptor is ready, or the thread
    that handed it over is still to write to it. *)
Definition wake_ok (r : reactor) : Prop :=
  zlen (m_wake_up_cb r) <= m_event r + m_writers r /\ 0 <= m_event r /\ 0 <= m_writers r.

Lemma wake_fed r r' : wake_ok r -> fed r r' -> wake_ok r'.
Proof. unfold wake_ok, fed, slack. intros (? & ? & ?) (? & ? & ?). split_and!; [lia|lia|auto]. Qed.

Lemma ready_pointed r evs : reactor_ok r -> ready_ok r evs -> Forall (pointed r) evs.
Proof.
  intros Hr (_ & H). eapply list.Forall_impl; [exact H|]. intros [|id|id]; cbn; [done| |].
  - intros (fd & ev & Hi). destruct (ok_read _ Hr _ _ _ Hi) as (e & He & Hid & _). by exists fd, e.
  - intros (fd & ev & Hi). destruct (ok_write _ Hr _ _ _ Hi) as (fd' & e & He & Hid & _). by exists fd', e.
Qed.

Lemma ready_count r evs : wake_ok r -> ready_ok r evs -> event_count evs <= m_event r.
Proof.
  intros (_ & Hw & _) (Hn & H).
  assert (event_count evs <= 1 /\ (event_count evs = 0 \/ EventCtx ∈ evs)) as (Hc & Hin).
  { clear H. induction Hn as [|p evs Hp Hn IH]; [change (event_count []) with 0; lia|].
    unfold event_count in *. destruct (decide (p = EventCtx)) as [->|Hne].
    - rewrite filter_cons_True, zlen_cons by done. destruct IH as (_ & [->|IH]); [|done].
      split; [lia|]. right. left.
    - rewrite filter_cons_False by done. destruct IH as (? & [?|?]); [by auto|]. split; [done|]. right. by right. }
  destruct Hin as [->|Hin]; [lia|]. rewrite list.Forall_forall in H. specialize (H _ Hin). cbn in H. lia.
Qed.

Lemma run_pass_ok a mid now r w : reactor_ok r -> wake_ok r -> answer_ok r a ->
  match run_pass a mid now (r, w) with
  | Ok (r', _) => reactor_ok r' /\ wake_ok r'
  | Throw _ => True
  | _ => False
  end.
Proof.
  intros Hr Hw Ha. destruct a as [err|evs]; cbn [run_pass]; [by destruct (negb _)|].
  pose proof (ready_count _ _ Hw Ha) as Hc.
  pose proof (dispatch_all_ok evs r w Hr (ready_pointed _ _ Hr Ha)) as Hd.
  destruct (dispatch_all evs (r, w)) as [[r0 w1]| | |]; try done. destruct Hd as (Hr0 & (Hd1 & Hd2 & Hd3)).
  rewrite bind_ret_l. cbn [fst snd]. destruct (outside_steps mid r0) as (Hg0 & (_ & Hf0 & Hf0')).
  set (r1 := foldl apply_outside r0 mid) in *. destruct (Hg0 Hr0) as (Hr1 & _).
  set (r2 := r1 <| m_wake_up_cb := [] |>).
  assert (reactor_ok r2) as Hr2 by (by apply (ok_ext r1)). destruct Hw as (_ & Hw1 & Hw2).
  assert (wake_ok r2) as Hwk2.
  { unfold wake_ok. change (m_event r2) with (m_event r1). change (m_writers r2) with (m_writers r1). cbn -[zlen].
    rewrite zlen_nil. specialize (Hf0' (Hd3 Hw2)). lia. }
  pose proof (run_tasks_fine (m_wake_up_cb r1) r2 w1) as Ht.
  destruct (run_tasks _ (r2, w1)) as [[r3 w3]| | |]; try done. destruct Ht as (Hg & Hf).
  destruct (Hg Hr2) as (Hr3 & _). rewrite bind_ret_l. cbn [fst snd].
  destruct (cleanup_ok r3 Hr3) as (Hr4 & Hf3).
  destruct (schedule now (m_timer (cleanup r3))) as [t due].
  set (r5 := (cleanup r3) <| m_timer := t |>).
  assert (reactor_ok r5) as Hr5 by (by apply (ok_ext (cleanup r3))).
  pose proof (run_tasks_fine due r5 w3) as Hu.
  destruct (run_tasks due (r5, w3)) as [[r6 w6]| | |]; try done. destruct Hu as (Hg6 & Hf5).
  destruct (Hg6 Hr5) as (Hr6 & _). split; [done|]. apply (wake_fed r5); [|done]. apply (wake_fed (cleanup r3)); [|by apply fed_same].
  apply (wake_fed r3); [|done]. by apply (wake_fed r2).
Qed.

(** The turns of a run in which each answer fits the state it is given in. *)
Fixpoint turns_ok (ts : list turn) (s : reactor * W) : Prop :=
  match ts with
  | [] => True
  | t :: ts =>
    let r := foldl apply_outside s.1 (t_before t) in m_running r = true ->
    answer_ok (foldl apply_outside r (t_outside t)) (t_answer t) /\
    match run_pass (t_answer t) (t_mid t) (t_now t) (foldl apply_outside r (t_outside t), s.2) with
    | Ok s => turns_ok ts s
    | _ => True
    end
  end.
End Reactor.

(** C16: the loop follows no pointer to a context that is gone. Whatever the
    kernel answers, other threads hand over, and callbacks register or remove, a
    run keeps the invariant or ends by an exception, provided that no callback
    registers a descriptor again that has been removed in the same pass; and no
    callback that was handed over waits while the event descriptor is not
    ready, unless the thread that has handed it over is yet to write to it. The
    threads queue and write at any time. *)
Theorem reactor_safe {cb W} (call : cb -> reactor * W -> res (reactor * W)) ts r w :
  call_ok call -> reactor_ok r -> wake_ok r -> turns_ok call ts (r <| m_running := true |>, w) ->
  match run call ts (r, w) with
  | Ok (r', _) => reactor_ok r' /\ wake_ok r'
  | Throw _ => True
  | _ => False
  end.
Proof.
  intros Hcall Hr Hw. unfold run. cbn [fst snd].
  assert (reactor_ok (r <| m_running := true |>) /\ wake_ok (r <| m_running := true |>)) as (Hr1 & Hw1).
  { split; [by apply (ok_ext r)|done]. }
  clear Hr Hw. revert Hr1 Hw1. generalize (r <| m_running := true |>). clear r. intros r.
  revert r w. induction ts as [|t ts IH]; intros r w Hr Hw Ht; [done|].
  cbn [run_loop turns_ok fst snd] in *. destruct (outside_steps (t_before t) r) as (Hg0 & Hf0). destruct (Hg0 Hr) as (Hr0 & _).
  pose proof (wake_fed _ _ Hw Hf0) as Hw0. set (r0 := foldl apply_outside r (t_before t)) in *.
  destruct (m_running r0); [|done]. destruct (Ht eq_refl) as (Ha & Hrest).
  destruct (outside_steps (t_outside t) r0) as (Hg & Hf). destruct (Hg Hr0) as (Hr1 & _).
  set (r1 := foldl apply_outside r0 (t_outside t)) in *.
  pose proof (run_pass_ok call Hcall (t_answer t) (t_mid t) (t_now t) r1 w Hr1 (wake_fed _ _ Hw0 Hf) Ha) as Hp.
  destruct (run_pass call _ _ _ (r1, w)) as [[r2 w2]| | |]; try done. destruct Hp. by apply IH.
Qed.

(** ** What a pass calls *)

Section Passive.
Context {cb W : Type} (f : cb -> W -> W).

(** Callbacks that do not touch the loop. *)
Definition passive (c : cb) (s : @reactor cb * W) : res (@reactor cb * W) := Ok (s.1, f c s.2).
Definition user_of (t : @task cb) : option cb := match t with TUser c => Some c | _ => None end.
Definition calls (w : W) (cs : list cb) : W := foldl (fun w c => f c w) w cs.

(** The callbacks of the ready descriptors, in the order of the answer. *)
Inductive readies (r : reactor) : list pointer -> list cb -> Prop :=
  | rd_nil : readies r [] []
  | rd_event ps cs : readies r ps cs -> readies r (EventCtx :: ps) cs
  | rd_read fd e c ps cs : m_fd_entries r !! fd = Some e -> x_cb (read_ctx e) = Some (TUser c) ->
      readies r ps cs -> readies r (ReadCtx (e_id e) :: ps) (c :: cs)
  | rd_write fd e c ps cs : m_fd_entries r !! fd = Some e -> x_cb (write_ctx e) = Some (TUser c) ->
      readies r ps cs -> readies r (WriteCtx (e_id e) :: ps) (c :: cs).

Lemma dispatch_calls r ps cs n w : reactor_ok r -> readies r ps cs ->
  exists n', dispatch_all passive ps (r <| m_event := n |>, w) = Ok (r <| m_event := n' |>, calls w cs).
Proof.
  intros Hr Hp. revert n w. induction Hp as [|ps cs _ IH|fd e c ps cs He Hc _ IH|fd e c ps cs He Hc _ IH]; intros n w.
  - by eexists.
  - apply IH.
  - cbn [dispatch_all dispatch]. change (find_entry (e_id e) (r <| m_event := n |>, w).1) with (find_entry (e_id e) r).
    rewrite (find_entry_at r fd e) by done. unfold run_ctx. rewrite Hc. apply IH.
  - cbn [dispatch_all dispatch]. change (find_entry (e_id e) (r <| m_event := n |>, w).1) with (find_entry (e_id e) r).
    rewrite (find_entry_at r fd e) by done. unfold run_ctx. rewrite Hc. apply IH.
Qed.

Lemma tasks_calls ts r w : exists r', run_tasks passive ts (r, w) = Ok (r', calls w (omap user_of ts)) /\
  m_timer r' = m_timer r.
Proof.
  revert r w. induction ts as [|t ts IH]; intros r w; [by exists r|].
  destruct t as [c|fd|fd]; cbn [run_tasks run_task passive fst snd omap list_omap user_of].
  - apply IH.
  - destruct (IH (rem_read fd r).1 w) as (r' & Hr' & Ht). exists r'. split; [done|]. rewrite Ht.
    unfold rem_read, pend_idle. by repeat case_match; simplify_eq.
  - destruct (IH (rem_write fd r).1 w) as (r' & Hr' & Ht). exists r'. split; [done|]. rewrite Ht.
    unfold rem_write, pend_idle. by repeat case_match; simplify_eq.
Qed.

Lemma cleanup_timer (r : @reactor cb) : m_timer (cleanup r) = m_timer r.
Proof.
  unfold cleanup. change (m_timer (foldl cleanup_one r (m_pending_cleanup r)) = m_timer r).
  generalize (m_pending_cleanup r). intros l. revert r. induction l as [|fd l IH]; intros r; [done|].
  cbn [foldl]. rewrite IH. unfold cleanup_one. destruct (_ !! fd); [|done]. by destruct (negb _).
Qed.

(** A pass calls the callback of each descriptor that is ready, in the
    order the kernel reports them, then those that were handed over, in the
    order in which they were, then those of the timers that are due, and no
    other, each once. *)
Theorem reactor_pass r ps cs now w : reactor_ok r -> readies r ps cs ->
  exists r', run_pass passive (EpollReady ps) [] now (r, w) =
    Ok (r', calls w (cs ++ omap user_of (m_wake_up_cb r) ++ omap user_of (schedule now (m_timer r)).2)).
Proof.
  intros Hr Hp. cbn [run_pass]. destruct (dispatch_calls r ps cs (m_event r) w Hr Hp) as (n & Hd).
  replace (r <| m_event := m_event r |>) with r in Hd by (by destruct r). rewrite Hd, bind_ret_l. cbn [fst snd foldl].
  set (r1 := (r <| m_event := n |>) <| m_wake_up_cb := [] |>).
  change (m_wake_up_cb (r <| m_event := n |>)) with (m_wake_up_cb r).
  destruct (tasks_calls (m_wake_up_cb r) r1 (calls w cs)) as (r2 & Ht & Htm). rewrite Ht, bind_ret_l. cbn [fst snd].
  rewrite cleanup_timer, Htm. change (m_timer r1) with (m_timer r).
  destruct (schedule now (m_timer r)) as [t due]. cbn [snd].
  destruct (tasks_calls due ((cleanup r2) <| m_timer := t |>) (calls (calls w cs) (omap user_of (m_wake_up_cb r))))
    as (r3 & Hu & _). exists r3. rewrite Hu. unfold calls. by rewrite !foldl_app.
Qed.
End Passive.

(** The timeout: for ever without timers, none if one is due, else whole
    milliseconds that do not go beyond the next deadline. *)
Lemma epoll_timeout_spec {cb} now (r : @reactor cb) :
  match get_next_deadline_us (m_timer r) with
  | None => epoll_timeout now r = -1
  | Some d => 0 <= epoll_timeout now r <= INT_MAX /\ now + 1000 * epoll_timeout now r <= Z.max now d /\
      (d - now < 1000 * INT_MAX -> d - now < 1000 * epoll_timeout now r + 1000)
  end.
Proof.
  unfold epoll_timeout, INT_MAX. destruct (get_next_deadline_us _) as [d|]; [|done]. cbv zeta.
  repeat case_Z; rewrite ?Z.quot_div_nonneg in * by lia; lia.
Qed.

(** ** A loop *)

(** The callbacks of the example: one that does nothing, one that removes
    descriptor 5 and hands over a callback that registers it again. *)
Inductive example_cb := CNothing | CRemove | CAgain.
Definition example_call (c : example_cb) (s : @reactor example_cb * list example_cb) :
    res (@reactor example_cb * list example_cb) :=
  let '(r, w) := s in
  match c with
  | CNothing => Ok (r, w ++ [c])
  | CRemove => Ok (wake_up (Some (TUser CAgain)) (rem_read_rdy 5 r), w ++ [c])
  | CAgain => Ok ((add_read_rdy true 5 CNothing r).1, w ++ [c])
  end.

Definition reactor_example : @reactor example_cb := (add_read_rdy true 5 CNothing reactor_new).1.
Definition turns_example : list (@turn example_cb) :=
  [Turn [] [OPush (Some CNothing); OWrite] (EpollReady [ReadCtx 0; EventCtx]) [] 0;
   Turn [] [OPush (Some CNothing)] (EpollReady [ReadCtx 0]) [] 0;
   Turn [] [OHalt; OWrite; OWrite] (EpollReady [EventCtx]) [] 0].

Definition quiet_call (c : example_cb) (s : @reactor example_cb * list example_cb) :
    res (@reactor example_cb * list example_cb) := Ok (s.1, s.2 ++ [c]).
Lemma quiet_ok : call_ok quiet_call. Proof. intros c r w. apply rtc_refl. Qed.

Lemma reactor_example_ok : reactor_ok reactor_example /\ wake_ok reactor_example.
Proof.
  split; [|by vm_compute]. apply add_read_good; [apply not_elem_of_nil|apply reactor_ok_new].
Qed.

Lemma reactor_safe_witness :
  match run quiet_call turns_example (reactor_example, []) with
  | Ok (r', _) => reactor_ok r' /\ wake_ok r'
  | Throw _ => True
  | _ => False
  end /\
  (exists r', run quiet_call turns_example (reactor_example, []) = Ok (r', [CNothing; CNothing; CNothing; CNothing]) /\ m_running r' = false).
Proof.
  split; [|by eexists; vm_compute; split].
  apply (reactor_safe quiet_call turns_example reactor_example [] quiet_ok (proj1 reactor_example_ok) (proj2 reactor_example_ok)).
  unfold turns_example. cbn [turns_ok]. intros _. split.
  - split; [exact (bool_decide_unpack (NoDup [ReadCtx 0; EventCtx]) I)|]. constructor; [exists 5, (EPOLLIN + EPOLLRDHUP); by vm_compute|].
    constructor; [by vm_compute|constructor].
  - vm_compute run_pass. intros _. split.
    { split; [exact (bool_decide_unpack (NoDup [ReadCtx 0]) I)|]. constructor; [exists 5, (EPOLLIN + EPOLLRDHUP); by vm_compute|constructor]. }
    vm_compute run_pass. intros _. split; [|done]. split; [exact (bool_decide_unpack (NoDup [EventCtx]) I)|]. constructor; [by vm_compute|constructor].
Defined.

Lemma reactor_pass_witness : exists r',
  run_pass (passive (fun c w => w ++ [c])) (EpollReady [ReadCtx 0; EventCtx]) [] 0
    (wake_up (Some (TUser CAgain)) reactor_example, []) = Ok (r', [CNothing; CAgain]).
Proof.
  destruct (reactor_pass (fun c w => w ++ [c]) (wake_up (Some (TUser CAgain)) reactor_example)
    [ReadCtx 0; EventCtx] [CNothing] 0 []) as (r' & H).
  - apply wake_up_good, reactor_example_ok.
  - eapply (rd_read _ 5 (FdEntry 0 5 (FdCtx 5 8193 (Some (TUser CNothing))) ctx_none true false)); [by vm_compute|done|].
    constructor. constructor.
  - exists r'. rewrite H. by vm_compute.
Defined.

(** A descriptor that is registered again in the pass it is removed in loses
    its entry at the end of the pass: the next event for it is followed to a
    context that is gone. *)
Example reactor_readd_dangles :
  let r := (add_read_rdy true 5 CRemove reactor_new).1 in
  run example_call [Turn [] [] (EpollReady [ReadCtx 0]) [] 0; Turn [] [] (EpollReady [ReadCtx 0]) [] 0] (r, []) = Ub UseAfterErase.
Proof. by vm_compute. Qed.

(** A removal is left to the loop, a registration is not: to remove and register
    again from outside fails, and takes effect as a removal. *)
Example reactor_remove_add :
  let r := rem_read_rdy 5 reactor_example in
  (add_read_rdy true 5 CAgain r).2 = false /\
  exists r', run example_call [Turn [] [] (EpollReady [EventCtx]) [] 0] ((add_read_rdy true 5 CAgain r).1, []) = Ok (r', []) /\
    interest r' !! 5 = None.
Proof. split; [by vm_compute|]. eexists. split; [vm_compute; reflexivity|]. by vm_compute. Qed.
