(* ===== verification/RrcEvents.v ===== *)
(** * The queue of RRC events ([AppRRC.cpp])

    Any thread asks the application for something by [push_rrc_event]: under a
    mutex it puts an event into a queue and adds one to the counter of an
    [eventfd]. The event loop watches that descriptor; its callback reads the
    counter, which sets it to zero, takes the queue over under the mutex, and
    handles the events one by one.

    The threads are a step relation: of those that push one at a time is
    between lock and unlock. What handling an event does is [on_rrc_event] of
    [AppRrc]. The counter is far from the end of 64 bits. *)

From stdpp Require Import gmap relations.
From S2P Require Import Prelude Mem SafeInt RrcMsg Timer Info LcRrc AppRrc.
#[local] Open Scope Z_scope.

(** ** The threads *)

(** The loop: waiting; in the callback, before [read]; before the lock; with
    it; handling what it has taken. *)
Inductive loop_pc := LWait | LRead | LLock | LTake | LHandle (es : list rrc_event_t).

(** A thread that pushes: none; with the lock; after the queue has the event. *)
Inductive push_pc := PIdle | PEmplace (e : rrc_event_t) | PWrite.

Record events_t := Events {
  ev_app : app_t;                 (* with the queue and the flag of the loop *)
  rrc_event_fd : Z;               (* the counter *)
  rrc_event_mutex : bool;         (* held *)
  ev_loop : loop_pc;
  ev_push : push_pc;
  ev_handled : list rrc_event_t;  (* so far, in order *)
  ev_pushed : list rrc_event_t }.

Section Events.
Variable host : byte_order.

(** Pushing starts: the lock is taken. *)
Inductive start_push : events_t -> events_t -> Prop :=
  | push_lock e a n l h p :
      start_push (Events a n false l PIdle h p) (Events a n true l (PEmplace e) h p).

(** Everything else. A callback begins when the loop runs and the counter is
    not zero; events are handled at any time of the clock. *)
Inductive work : events_t -> events_t -> Prop :=
  | push_emplace e a n l h p :
      work (Events a n true l (PEmplace e) h p) (Events (push_rrc_event e a) n true l PWrite h (p ++ [e]))
  | push_write a n l h p : work (Events a n true l PWrite h p) (Events a (n + 1) false l PIdle h p)
  | loop_ready a n b q h p : reactor_running a = true -> 0 < n ->
      work (Events a n b LWait q h p) (Events a n b LRead q h p)
  | loop_read a n b q h p : 0 < n -> work (Events a n b LRead q h p) (Events a 0 b LLock q h p)
  | loop_lock a n q h p : work (Events a n false LLock q h p) (Events a n true LTake q h p)
  | loop_take a n b q h p :
      work (Events a n b LTake q h p) (Events (a <| rrc_events := [] |>) n false (LHandle (rrc_events a)) q h p)
  | loop_handle now e es a a' n b q h p : on_rrc_event host now e a = Ok a' ->
      work (Events a n b (LHandle (e :: es)) q h p) (Events a' n b (LHandle es) q (h ++ [e]) p)
  | loop_done a n b q h p : work (Events a n b (LHandle []) q h p) (Events a n b LWait q h p).

Definition events_step (s s' : events_t) : Prop := start_push s s' \/ work s s'.
Definition events_init (a : app_t) : events_t := Events a 0 false LWait PIdle [] [].

(** Reachable from an application that is set up: its queue is empty. *)
Definition events_reachable (s : events_t) : Prop :=
  exists a, rrc_events a = [] /\ rtc events_step (events_init a) s.

(** ** Lemmas *)

Definition in_hand (l : loop_pc) : list rrc_event_t := match l with LHandle es => es | _ => [] end.

(** Handling an event never fails and leaves the queue alone. *)
Lemma on_channel_queue lcid f a : exists a', on_channel host lcid f a = Ok a' /\ rrc_events a' = rrc_events a.
Proof. rewrite on_channel_ok. eexists. split; [done|]. by destruct (channel_rrc_contexts a !! lcid). Qed.
Lemma on_event_queue now e a : exists a', on_rrc_event host now e a = Ok a' /\ rrc_events a' = rrc_events a.
Proof. destruct e; cbn [on_rrc_event]; [by eexists|apply on_channel_queue..]. Qed.

(** Who is where the mutex is held. *)
Definition held (l : loop_pc) (p : push_pc) : bool :=
  match l, p with LTake, _ => true | _, PIdle => false | _, _ => true end.

(** The mutex is held by one, and no event waits unnoticed. *)
Record events_inv (s : events_t) : Prop := EventsInv {
  ei_mutex : rrc_event_mutex s = held (ev_loop s) (ev_push s);
  ei_apart : ev_loop s = LTake -> ev_push s = PIdle;
  ei_count : 0 <= rrc_event_fd s;
  ei_read : ev_loop s = LRead -> 0 < rrc_event_fd s;
  ei_queue : rrc_events (ev_app s) <> [] ->
    0 < rrc_event_fd s \/ ev_loop s = LLock \/ ev_loop s = LTake \/ ev_push s = PWrite;
  ei_order : ev_pushed s = ev_handled s ++ in_hand (ev_loop s) ++ rrc_events (ev_app s) }.

Ltac by_place := solve [done | lia | congruence | intuition (congruence || lia)].

Lemma events_step_inv s s' : events_step s s' -> events_inv s -> events_inv s'.
Proof.
  intros [Hs|Hs].
  - destruct Hs as [e a n l h p]. intros [Hm Ha Hc Hr Hq Ho]. cbn in *.
    constructor; cbn; try by_place; destruct l; by_place.
  - destruct Hs as [e a n l h p|a n l h p|a n b q h p Hrun Hn|a n b q h p Hn|a n q h p|a n b q h p
      |now e es a a' n b q h p He|a n b q h p]; intros [Hm Ha Hc Hr Hq Ho]; cbn in *; constructor; cbn;
      try by_place.
    + by rewrite Ho, <- !app_assoc.
    + destruct l; try done. by specialize (Ha eq_refl).
    + by destruct q.
    + by specialize (Ha eq_refl) as ->.
    + by rewrite app_nil_r.
    + destruct (on_event_queue now e a) as (a0 & E & Hqe). rewrite He in E. injection E as <-. rewrite Hqe. by_place.
    + destruct (on_event_queue now e a) as (a0 & E & Hqe). rewrite He in E. injection E as <-.
      by rewrite Hqe, Ho, <- app_assoc.
Qed.

Lemma events_reachable_inv s : events_reachable s -> events_inv s.
Proof.
  intros (a & Ha & Hr).
  assert (events_inv (events_init a)) as Hi by (constructor; cbn; try by_place; by rewrite Ha).
  induction Hr as [s|s1 s2 s3 Hs _ IH]; [done|]. by apply IH, (events_step_inv s1).
Qed.

(** ** Delivery *)

(** How far the threads are from being idle, without a new push. *)
Definition loop_rank (l : loop_pc) : Z :=
  match l with LWait => 1 | LRead => 0 | LLock => 4 | LTake => 3 | LHandle es => 2 + zlen es end.
Definition push_rank (p : push_pc) : Z := match p with PIdle => 0 | PEmplace _ => 8 | PWrite => 6 end.
Definition work_left (s : events_t) : Z :=
  push_rank (ev_push s) + loop_rank (ev_loop s) + zlen (rrc_events (ev_app s)) + (if 0 <? rrc_event_fd s then 5 else 0).

Lemma work_less s s' : events_inv s -> work s s' -> 0 <= work_left s' < work_left s.
Proof.
  intros [Hm Ha Hc Hr Hq Ho] Hw.
  destruct Hw as [e a n l h p|a n l h p|a n b q h p Hrun Hn|a n b q h p Hn|a n q h p|a n b q h p
    |now e es a a' n b q h p He|a n b q h p]; unfold work_left; cbn -[zlen Z.ltb Z.add]; cbn in Hc.
  all: pose proof (zlen_nonneg (rrc_events a)).
  all: rewrite ?zlen_app, ?zlen_cons, ?zlen_nil.
  all: try (destruct (on_event_queue now e a) as (a0 & E & Hqe); rewrite He in E; injection E as <-; rewrite Hqe; pose proof (zlen_nonneg es)).
  all: try (destruct l as [| | | |es]; cbn -[zlen Z.ltb Z.add]; try pose proof (zlen_nonneg es)).
  all: try (destruct q; cbn [push_rank]).
  all: change (zlen (@nil rrc_event_t)) with 0; repeat case_Z; lia.
Qed.

(** Unless everything is handled, some thread can go on. *)
Lemma work_goes_on s : events_inv s -> reactor_running (ev_app s) = true ->
  ev_handled s <> ev_pushed s -> exists s', work s s'.
Proof.
  destruct s as [a n b l q h p]. intros [Hm Ha Hc Hr Hq Ho] Hrun Hne. cbn in *.
  destruct q as [|e|]; [|destruct l; cbn in Hm; subst b; eexists; constructor..].
  destruct l as [| | | |[|e es]]; cbn in Hm; subst b.
  - assert (rrc_events a <> []) as Hqa by (intros E; apply Hne; by rewrite Ho, E, !app_nil_r).
    eexists. apply loop_ready; [done|]. destruct (Hq Hqa) as [?|[?|[?|?]]]; done.
  - eexists. apply loop_read. auto.
  - eexists. constructor.
  - eexists. constructor.
  - eexists. constructor.
  - destruct (on_event_queue 0 e a) as (a' & E & _). eexists. by apply (loop_handle 0 e es a a').
Qed.
End Events.

(** C15: every event that is pushed is handled once, in the order of the pushes,
    by whatever threads and however they interleave with the loop. While the
    loop runs some thread can go on until all that were pushed are handled, and
    without new pushes this takes no more steps than [work_left] says: no wake-up
    is lost between reading the counter and taking the queue. *)
Theorem rrc_events_delivered host s : events_reachable host s ->
  ev_pushed s = ev_handled s ++ in_hand (ev_loop s) ++ rrc_events (ev_app s) /\
  (reactor_running (ev_app s) = true -> ev_handled s <> ev_pushed s -> exists s', work host s s') /\
  (forall s', work host s s' -> 0 <= work_left s' < work_left s).
Proof.
  intros Hr%events_reachable_inv. split_and!; [apply Hr|by apply work_goes_on|intros s'; by apply work_less].
Qed.

(** ** A run *)

Definition events_app : app_t := App ∅ [] 0 [] true true true true.

(** A push while the loop is between reading the counter and taking the queue:
    the event is taken at once, and the counter wakes the loop once more for an
    empty queue. *)
Definition events_example : events_t :=
  Events (push_rrc_event (rrc_event_rlf_t 2) (push_rrc_event (rrc_event_setup_t 1 true) events_app))
    1 false LLock PIdle [] [rrc_event_setup_t 1 true; rrc_event_rlf_t 2].

Lemma events_example_reachable host : events_reachable host events_example.
Proof.
  exists events_app. split; [done|].
  eapply rtc_l; [left; apply (push_lock (rrc_event_setup_t 1 true))|].
  eapply rtc_l; [right; apply push_emplace|]. eapply rtc_l; [right; apply push_write|].
  eapply rtc_l; [right; by apply loop_ready|]. eapply rtc_l; [right; by apply loop_read|].
  eapply rtc_l; [left; apply (push_lock (rrc_event_rlf_t 2))|].
  eapply rtc_l; [right; apply push_emplace|]. eapply rtc_l; [right; apply push_write|]. apply rtc_refl.
Qed.

Lemma rrc_events_delivered_witness :
  (exists s', work Big events_example s') /\ work_left events_example = 11.
Proof.
  split; [|by vm_compute].
  by apply (proj1 (proj2 (rrc_events_delivered Big events_example (events_example_reachable Big)))).
Defined.

(** After a stop what was taken with it is still handled, what is pushed later
    is not: the loop does not begin its callback again. *)
Lemma events_after_stop host a n h p x : reactor_running a = false ->
  ~ work host (Events a n false LWait PIdle h p) x.
Proof. intros Hr Hx. inversion Hx; congruence. Qed.
