(* ===== verification/Store.v ===== *)
(** * Variables that own things

    A store maps variables to values, each of which owns some things (objects,
    memory), named by numbers. [held] is all that is owned, with repetitions:
    that nothing is owned twice is a matter of the accounts kept with it. *)

From stdpp Require Import gmap gmultiset.
From S2P Require Import Prelude.
#[local] Open Scope nat_scope.

Section Store.
Context {V : Type} (ids : V -> list nat).
Implicit Types (m : gmap nat V) (f g : V).

Definition held m : gmultiset nat := list_to_set_disj (map_to_list m ≫= fun p => ids p.2).
Definition of_ids f : gmultiset nat := list_to_set_disj (ids f).

Lemma held_insert_new m x f : m !! x = None -> held (<[x := f]> m) = of_ids f ⊎ held m.
Proof.
  intros Hx. unfold held, of_ids. rewrite <- list_to_set_disj_app. apply list_to_set_disj_perm.
  by rewrite map_to_list_insert.
Qed.
Lemma held_delete m x f : m !! x = Some f -> held m = of_ids f ⊎ held (delete x m).
Proof. intros Hx. rewrite <- (insert_delete_id m x f) at 1 by done. apply held_insert_new, lookup_delete_eq. Qed.
Lemma held_insert m x f g : m !! x = Some g -> held (<[x := f]> m) ⊎ of_ids g = of_ids f ⊎ held m.
Proof.
  intros Hx. rewrite (held_delete m x g Hx), <- insert_delete_eq, held_insert_new by apply lookup_delete_eq. multiset_solver.
Qed.

Lemma dom_put m x f g : m !! x = Some g -> dom (<[x := f]> m) = dom m.
Proof.
  intros Hx. rewrite dom_insert_L, subseteq_union_1_L; [done|]. apply singleton_subseteq_l. by eapply elem_of_dom_2.
Qed.
End Store.

(** Lists are told apart by what they have, up to order. *)
Lemma elements_list (l : list nat) : elements (list_to_set_disj l : gmultiset nat) ≡ₚ l.
Proof.
  induction l as [|x l IH]; [done|].
  rewrite list_to_set_disj_cons, gmultiset_elements_disj_union, gmultiset_elements_singleton. by rewrite IH.
Qed.
Lemma multiset_perm (l k : list nat) :
  (list_to_set_disj l : gmultiset nat) = list_to_set_disj k -> l ≡ₚ k.
Proof. intros H. rewrite <- (elements_list l), H. apply elements_list. Qed.

(** What has been made so far: the first numbers. *)
Definition numbered (n : nat) : gmultiset nat := list_to_set_disj (seq 0 n).
Lemma numbered_S n : numbered (S n) = numbered n ⊎ {[+ n +]}.
Proof.
  unfold numbered. rewrite seq_S, list_to_set_disj_app. cbn [list_to_set_disj Nat.add].
  by rewrite (right_id_L ∅ disj_union).
Qed.
