(* ===== verification/Function.v ===== *)
(** * Callables ([bfc/function.hpp])

    [bfc::function] keeps a callable in storage of its own and four pointers to
    functions that know its type: to call, to destroy, to copy and to move it.
    The pointer to call tells whether there is a callable. Every copy and every
    move makes an object, and [function] has to destroy each once.

    A callable is a value of the parameter [C]; an object is a number, given
    when it is made, the callable it has, and the place where it was made: the
    storage of a variable, or of the temporary of an assignment. [world] counts
    the objects made and lists those destroyed. The four pointers are set
    together, so one flag stands for them.

    [swap], and with it the assignment of a copy, exchanges the bytes of two
    storages. Whether an object may be used where its bytes were moved depends
    on its type ([Relocatable]): a string with short text, for one, points into
    itself. To use an object that may not is undefined ([UseElsewhere]). *)

From stdpp Require Import gmap gmultiset.
From S2P Require Import Prelude Store.
#[local] Open Scope nat_scope.

(** Whether the bytes of a callable may be moved. *)
Class Relocatable (C : Type) := relocatable : C -> bool.

(** The storage of a variable, or that of a temporary *)
Definition place : Type := option nat.

Section Function.
Context {C : Type} `{Relocatable C}.

Record obj := Obj { o_id : nat; o_call : C; o_home : place }.
Record world := World { next_obj : nat; destroyed : list nat }.

(** [m_fn] is the pointer to call; [m_object] is what the storage has, an
    object that is there no more included. *)
Record function := Fn { m_fn : bool; m_object : option obj }.
#[export] Instance eta_function : Eta function := fun f => Fn (m_fn f) (m_object f).
Definition fn_default : function := Fn false None.

(** The object in the storage at a place, for use through the pointers *)
Definition usable (here : place) (o : obj) : bool := relocatable (o_call o) || bool_decide (o_home o = here).
Definition object_at (here : place) (f : function) : res obj :=
  match m_object f with
  | Some o => if usable here o then mret o else Ub UseElsewhere
  | None => Ub NullDeref
  end.

(** Making and destroying an object, through the pointers *)
Definition construct (here : place) (c : C) (w : world) : obj * world :=
  (Obj (next_obj w) c here, World (S (next_obj w)) (destroyed w)).
Definition destroy (here : place) (f : function) (w : world) : res world :=
  o ← object_at here f; mret (World (next_obj w) (destroyed w ++ [o_id o])).

(** ** Members

    [here] is the place of the variable, [there] that of the other one. *)

Definition fn_clear (f : function) : function := f <| m_fn := false |>.
Definition fn_dtor (here : place) (f : function) (w : world) : res world := if m_fn f then destroy here f w else mret w.
Definition fn_reset (here : place) (f : function) (w : world) : res (function * world) :=
  w ← (if m_fn f then destroy here f w else mret w);
  mret (fn_clear f, w).
Definition fn_set (here : place) (c : C) (f : function) (w : world) : function * world :=
  let '(o, w) := construct here c w in (Fn true (Some o), w).

(** The storage [here] gets an object made from that of [other]. *)
Definition fn_from (here there : place) (other : function) (w : world) : res (function * world) :=
  o ← object_at there other;
  let '(o', w) := construct here (o_call o) w in mret (Fn true (Some o'), w).

Definition fn_copy_ctor (here there : place) (p_other : function) (w : world) : res (function * world) :=
  if m_fn p_other then fn_from here there p_other w else mret (fn_clear fn_default, w).
Definition fn_move_ctor (here there : place) (p_other : function) (w : world) : res (function * function * world) :=
  if m_fn p_other then
    '(self, w) ← fn_from here there p_other w;
    '(p_other, w) ← fn_reset there p_other w;
    mret (self, p_other, w)
  else mret (fn_clear fn_default, p_other, w).

(** The pointers and the bytes of two storages change places. *)
Definition fn_swap (self p_other : function) : function * function := (p_other, self).

(** Assignments, for two different objects: the code does nothing for one *)
Definition fn_copy_assign (here there : place) (self p_other : function) (w : world) : res (function * world) :=
  '(tmp, w) ← fn_copy_ctor None there p_other w;
  let '(self, tmp) := fn_swap self tmp in
  w ← fn_dtor None tmp w;
  mret (self, w).
Definition fn_move_assign (here there : place) (self p_other : function) (w : world) : res (function * function * world) :=
  '(self, w) ← fn_reset here self w;
  if m_fn p_other then
    '(self, w) ← fn_from here there p_other w;
    '(p_other, w) ← fn_reset there p_other w;
    mret (self, p_other, w)
  else mret (fn_clear self, p_other, w).
Definition fn_set_assign (here : place) (self : function) (c : C) (w : world) : res (function * world) :=
  '(self, w) ← fn_reset here self w; mret (fn_set here c self w).

(** [operator()] *)
Definition fn_call {A} (run : C -> res A) (here : place) (f : function) : res A :=
  if m_fn f then o ← object_at here f; run (o_call o) else Throw StdBadFunction.

(** ** Programs *)

(** A program that makes, assigns and destroys variables of the type. *)
Inductive op :=
  | ODefault (x : nat) | OSet (x : nat) (c : C) | OCopyOf (x y : nat) | OMoveOf (x y : nat)
  | OCopy (x y : nat) | OMove (x y : nat) | OAssign (x : nat) (c : C) | OReset (x : nat) | OSwap (x y : nat)
  | ODestroy (x : nat).

Abbreviation store := (gmap nat function).
Definition var (m : store) (x : nat) : res function := match m !! x with Some f => mret f | None => Ub UseAfterErase end.

Definition apply_op (o : op) (s : store * world) : res (store * world) :=
  let '(m, w) := s in
  match o with
  | ODefault x => mret (<[x := fn_default]> m, w)
  | OSet x c => let '(f, w) := fn_set (Some x) c fn_default w in mret (<[x := f]> m, w)
  | OCopyOf x y => g ← var m y; '(f, w) ← fn_copy_ctor (Some x) (Some y) g w; mret (<[x := f]> m, w)
  | OMoveOf x y => g ← var m y; '(f, g, w) ← fn_move_ctor (Some x) (Some y) g w; mret (<[x := f]> (<[y := g]> m), w)
  | OCopy x y =>
    f ← var m x; g ← var m y;
    if bool_decide (x = y) then mret (m, w)
    else '(f, w) ← fn_copy_assign (Some x) (Some y) f g w; mret (<[x := f]> m, w)
  | OMove x y =>
    f ← var m x; g ← var m y;
    if bool_decide (x = y) then mret (m, w)
    else '(f, g, w) ← fn_move_assign (Some x) (Some y) f g w; mret (<[x := f]> (<[y := g]> m), w)
  | OAssign x c => f ← var m x; '(f, w) ← fn_set_assign (Some x) f c w; mret (<[x := f]> m, w)
  | OReset x => f ← var m x; '(f, w) ← fn_reset (Some x) f w; mret (<[x := f]> m, w)
  | OSwap x y =>
    f ← var m x; g ← var m y;
    if bool_decide (x = y) then mret (m, w)
    else let '(f, g) := fn_swap f g in mret (<[x := f]> (<[y := g]> m), w)
  | ODestroy x => f ← var m x; w ← fn_dtor (Some x) f w; mret (delete x m, w)
  end.
Fixpoint apply_ops (os : list op) (s : store * world) : res (store * world) :=
  match os with [] => mret s | o :: os => s ← apply_op o s; apply_ops os s end.

(** A variable is made before it is used and not made twice. *)
Definition op_ok (o : op) (d : gset nat) : Prop :=
  match o with
  | ODefault x | OSet x _ => x ∉ d
  | OCopyOf x y | OMoveOf x y => (x ∉ d) /\ y ∈ d
  | OCopy x y | OMove x y | OSwap x y => x ∈ d /\ y ∈ d
  | OAssign x _ | OReset x | ODestroy x => x ∈ d
  end.
Definition op_vars (o : op) (d : gset nat) : gset nat :=
  match o with
  | ODefault x | OSet x _ | OCopyOf x _ | OMoveOf x _ => {[x]} ∪ d
  | ODestroy x => d ∖ {[x]}
  | _ => d
  end.
Fixpoint ops_ok (os : list op) (d : gset nat) : Prop :=
  match os with [] => True | o :: os => op_ok o d /\ ops_ok os (op_vars o d) end.

(** What is safe for the bytes of callables: with [reloc], all callables may be
    moved; without, nothing exchanges bytes. *)
Definition op_safe (reloc : bool) (o : op) : bool :=
  match o with
  | OSet _ c | OAssign _ c => implb reloc (relocatable c)
  | OCopy _ _ | OSwap _ _ => reloc
  | _ => true
  end.
#[export] Instance op_ok_dec o d : Decision (op_ok o d).
Proof. destruct o; cbn; apply _. Defined.

(** ** The specification *)

(** A variable has a callable or none. *)
Definition spec_op (o : op) (m : gmap nat (option C)) : gmap nat (option C) :=
  match o with
  | ODefault x => <[x := None]> m
  | OSet x c | OAssign x c => <[x := Some c]> m
  | OCopyOf x y | OCopy x y => <[x := default None (m !! y)]> m
  | OMoveOf x y | OMove x y => if decide (x = y) then m else <[x := default None (m !! y)]> (<[y := None]> m)
  | OReset x => <[x := None]> m
  | OSwap x y => <[x := default None (m !! y)]> (<[y := default None (m !! x)]> m)
  | ODestroy x => delete x m
  end.
Definition spec_ops (os : list op) (m : gmap nat (option C)) : gmap nat (option C) :=
  foldl (fun m o => spec_op o m) m os.

Definition content (f : function) : option C := if m_fn f then o_call <$> m_object f else None.
Definition contents (m : store) : gmap nat (option C) := content <$> m.

(** The objects that are there: those in the storage of a variable. *)
Definition ids (f : function) : list nat := if m_fn f then match m_object f with Some o => [o_id o] | None => [] end else [].
End Function.
Arguments obj : clear implicits.
Arguments function : clear implicits.
Arguments op : clear implicits.

Section Proofs.
Context {C : Type} `{Relocatable C}.
Variable reloc : bool.
Implicit Types (f g : function C) (m : gmap nat (function C)) (w : world).

(** A variable with a pointer to call has an object that may be used there. *)
Definition fn_ok (here : place) f : Prop := m_fn f = true -> exists o,
  m_object f = Some o /\ usable here o = true /\ implb reloc (relocatable (o_call o)) = true.

(** What each member does, in closed form. *)
Definition dies (w : world) (l : list nat) : world := World (next_obj w) (destroyed w ++ l).

Lemma object_of here f : fn_ok here f -> m_fn f = true -> exists o, object_at here f = Ok o /\ m_object f = Some o.
Proof. intros Hf E. destruct (Hf E) as (o & Eo & Hu & _). exists o. unfold object_at. by rewrite Eo, Hu. Qed.

Lemma dtor_spec here f w : fn_ok here f -> fn_dtor here f w = Ok (dies w (ids f)).
Proof.
  unfold fn_dtor, destroy, ids, dies. intros Hf. destruct (m_fn f) eqn:E.
  - destruct (object_of here f Hf E) as (o & -> & ->). done.
  - rewrite app_nil_r. by destruct w.
Qed.
Lemma reset_spec here f w : fn_ok here f -> fn_reset here f w = Ok (fn_clear f, dies w (ids f)).
Proof. intros Hf. unfold fn_reset. change (if m_fn f then _ else _) with (fn_dtor here f w). by rewrite dtor_spec. Qed.

(** An object made for a content: none for none. *)
Definition fresh (here : place) (c : option C) (w : world) : function C * world :=
  match c with Some c => fn_set here c fn_default w | None => (fn_default, w) end.
Lemma from_spec here there g w : fn_ok there g -> m_fn g = true ->
  fn_from here there g w = Ok (fresh here (content g) w).
Proof. intros Hg E. unfold fn_from, content. destruct (object_of there g Hg E) as (o & -> & ->). by rewrite E. Qed.
Lemma copy_ctor_spec here there g w : fn_ok there g -> fn_copy_ctor here there g w = Ok (fresh here (content g) w).
Proof.
  intros Hg. unfold fn_copy_ctor. destruct (m_fn g) eqn:E; [by apply from_spec|]. unfold content. by rewrite E.
Qed.
Lemma move_ctor_spec here there g w : fn_ok there g ->
  fn_move_ctor here there g w = Ok ((fresh here (content g) w).1, fn_clear g, dies (fresh here (content g) w).2 (ids g)).
Proof.
  intros Hg. unfold fn_move_ctor. destruct (m_fn g) eqn:E.
  - rewrite from_spec, bind_ret_l by done. destruct (fresh here (content g) w) as [t w']. by rewrite reset_spec.
  - unfold content, ids, dies. rewrite E. cbn. rewrite app_nil_r. destruct w, g; cbn in *. by subst.
Qed.
Lemma copy_assign_spec here there f g w : fn_ok None f -> fn_ok there g ->
  fn_copy_assign here there f g w = Ok ((fresh None (content g) w).1, dies (fresh None (content g) w).2 (ids f)).
Proof.
  intros Hf Hg. unfold fn_copy_assign. rewrite copy_ctor_spec by done. rewrite bind_ret_l.
  destruct (fresh None (content g) w) as [t w']. cbn [fn_swap]. by rewrite dtor_spec.
Qed.
Lemma move_assign_spec here there f g w : fn_ok here f -> fn_ok there g -> exists f',
  fn_move_assign here there f g w = Ok (f', fn_clear g, dies (fresh here (content g) (dies w (ids f))).2 (ids g)) /\
  fn_ok here f' /\ content f' = content g /\
  ids f' = ids (fresh here (content g) (dies w (ids f))).1.
Proof.
  intros Hf Hg. unfold fn_move_assign. rewrite reset_spec by done. rewrite bind_ret_l. destruct (m_fn g) eqn:E.
  - rewrite from_spec, bind_ret_l by done. destruct (Hg E) as (o & Eo & _ & Ho). unfold content. rewrite E, Eo.
    cbn [fmap option_fmap option_map fresh fn_set construct]. rewrite reset_spec, bind_ret_l by done.
    eexists. split_and!; [done| |done|done]. intros _. eexists. split_and!; [done| |done]. unfold usable. cbn.
    by rewrite bool_decide_true, orb_true_r.
  - exists (fn_clear (fn_clear f)). unfold content, ids. rewrite E. cbn. split_and!; [|done|done|done].
    unfold dies. cbn. rewrite app_nil_r. destruct g; cbn in *. by subst.
Qed.
Lemma set_assign_spec here f c w : fn_ok here f -> fn_set_assign here f c w = Ok (fresh here (Some c) (dies w (ids f))).
Proof. intros Hf. unfold fn_set_assign. rewrite reset_spec by done. done. Qed.

(** A callable that may be moved, if any may. *)
Definition fits (c : option C) : Prop := match c with Some c => implb reloc (relocatable c) = true | None => True end.
Lemma content_fits here f : fn_ok here f -> fits (content f).
Proof. intros Hf. unfold content. destruct (m_fn f) eqn:E; [|done]. by destruct (Hf E) as (o & -> & _ & ?). Qed.

Lemma fresh_ok here c w : fits c -> fn_ok here (fresh here c w).1.
Proof.
  destruct c as [c|]; [|done]. intros Hc _. eexists. split_and!; [done| |done]. unfold usable. cbn.
  by rewrite bool_decide_true, orb_true_r.
Qed.
Lemma fresh_content here c w : content (fresh here c w).1 = c.
Proof. by destruct c. Qed.
(** With callables that may be moved, the place does not matter. *)
Lemma fn_ok_moved here there f : reloc = true -> fn_ok here f -> fn_ok there f.
Proof.
  intros Hr Hf E. destruct (Hf E) as (o & Eo & _ & Ho). exists o. split_and!; [done| |done].
  rewrite Hr in Ho. cbn in Ho. unfold usable. by rewrite Ho.
Qed.

Lemma insert_ok m x f : fn_ok (Some x) f -> map_Forall (fun x => fn_ok (Some x)) m -> map_Forall (fun x => fn_ok (Some x)) (<[x := f]> m).
Proof. intros Hf Hm. by apply map_Forall_insert_2. Qed.

(** *** One operation *)

(** Every object that was made is in a variable, or was destroyed once. *)
Definition made (w : world) : gmultiset nat := numbered (next_obj w).
Definition gone (w : world) : gmultiset nat := list_to_set_disj (destroyed w).
Definition balanced (s : gmap nat (function C) * world) : Prop :=
  map_Forall (fun x => fn_ok (Some x)) s.1 /\ made s.2 = gone s.2 ⊎ held ids s.1.

Lemma fresh_made here c w : made (fresh here c w).2 = made w ⊎ of_ids ids (fresh here c w).1 /\ gone (fresh here c w).2 = gone w.
Proof.
  destruct c as [c|]; (split; [|done]).
  - change (numbered (S (next_obj w)) = numbered (next_obj w) ⊎ ({[+ next_obj w +]} ⊎ ∅)).
    by rewrite numbered_S, (right_id_L ∅ disj_union).
  - change (made w = made w ⊎ ∅). by rewrite (right_id_L ∅ disj_union).
Qed.
Lemma dies_gone w l : gone (dies w l) = gone w ⊎ list_to_set_disj l /\ made (dies w l) = made w.
Proof. unfold gone. cbn. by rewrite list_to_set_disj_app. Qed.

Lemma contents_insert m x f : contents (<[x := f]> m) = <[x := content f]> (contents m).
Proof. apply fmap_insert. Qed.
Lemma contents_at m x f : m !! x = Some f -> default None (contents m !! x) = content f.
Proof. intros Hx. unfold contents. by rewrite lookup_fmap, Hx. Qed.

(** A variable that is there changes from [f] to [f'], with the objects made
    and destroyed for it. *)
Lemma balanced_put m x f f' w w' : balanced (m, w) -> m !! x = Some f -> fn_ok (Some x) f' ->
  made w' ⊎ gone w ⊎ of_ids ids f = made w ⊎ gone w' ⊎ of_ids ids f' -> balanced (<[x := f']> m, w').
Proof.
  intros (Hok & Hb) Hx Hf Hw. split; cbn in *; [by apply insert_ok|].
  pose proof (held_insert ids m x f' f Hx). unfold of_ids in *. multiset_solver.
Qed.
Lemma balanced_new m x f' w w' : balanced (m, w) -> m !! x = None -> fn_ok (Some x) f' ->
  made w' ⊎ gone w = made w ⊎ gone w' ⊎ of_ids ids f' -> balanced (<[x := f']> m, w').
Proof.
  intros (Hok & Hb) Hx Hf Hw. split; cbn in *; [by apply insert_ok|].
  pose proof (held_insert_new ids m x f' Hx). unfold of_ids in *. multiset_solver.
Qed.

(** The accounts of the worlds in the context. *)
Ltac accounts := repeat match goal with
  | |- context [dies ?w ?l] => lazymatch goal with H : gone (dies w l) = _ |- _ => fail | _ => destruct (dies_gone w l) as (? & ?) end
  | |- context [fresh ?p ?c ?w] => lazymatch goal with H : gone (fresh p c w).2 = _ |- _ => fail | _ => destruct (fresh_made p c w) as (? & ?) end
  end; unfold of_ids in *; multiset_solver.

Definition steps (o : op C) (s : gmap nat (function C) * world) : Prop :=
  exists s', apply_op o s = Ok s' /\ balanced s' /\ dom s'.1 = op_vars o (dom s.1) /\
    contents s'.1 = spec_op o (contents s.1).

Lemma var_at m x : x ∈ dom m -> exists f, m !! x = Some f /\ var m x = Ok f.
Proof. intros (f & Hx)%elem_of_dom. exists f. unfold var. by rewrite Hx. Qed.
Lemma balanced_fn m w x f : balanced (m, w) -> m !! x = Some f -> fn_ok (Some x) f.
Proof. intros (Hm & _) Hx. exact (Hm x f Hx). Qed.

(** A variable that is made *)
Lemma steps_new m w x f w' o : balanced (m, w) -> x ∉ dom m -> apply_op o (m, w) = Ok (<[x := f]> m, w') -> fn_ok (Some x) f ->
  made w' ⊎ gone w = made w ⊎ gone w' ⊎ of_ids ids f -> op_vars o (dom m) = {[x]} ∪ dom m ->
  spec_op o (contents m) = <[x := content f]> (contents m) -> steps o (m, w).
Proof.
  intros Hb Hx Ho Hf Hw Hd Hs. exists (<[x := f]> m, w'). split_and!; [done| | |].
  - apply not_elem_of_dom in Hx. by apply (balanced_new m x f w).
  - cbn [fst snd]. by rewrite dom_insert_L, Hd.
  - cbn [fst snd]. by rewrite contents_insert, Hs.
Qed.
(** and one that is there *)
Lemma steps_put m w x f f' w' o : balanced (m, w) -> m !! x = Some f -> apply_op o (m, w) = Ok (<[x := f']> m, w') ->
  fn_ok (Some x) f' -> made w' ⊎ gone w ⊎ of_ids ids f = made w ⊎ gone w' ⊎ of_ids ids f' -> op_vars o (dom m) = dom m ->
  spec_op o (contents m) = <[x := content f']> (contents m) -> steps o (m, w).
Proof.
  intros Hb Hx Ho Hf Hw Hd Hs. exists (<[x := f']> m, w'). split_and!; [done| | |].
  - by apply (balanced_put m x f f' w).
  - cbn [fst snd]. by rewrite (dom_put m x f' f), Hd.
  - cbn [fst snd]. by rewrite contents_insert, Hs.
Qed.

Lemma step_copy m w x y : reloc = true -> balanced (m, w) -> x ∈ dom m -> y ∈ dom m -> steps (OCopy x y) (m, w).
Proof.
  intros Hrl Hb (f & Hx & Vx)%var_at (g & Hy & Vy)%var_at.
  pose proof (balanced_fn _ _ _ _ Hb Hx) as Hf. pose proof (balanced_fn _ _ _ _ Hb Hy) as Hg.
  destruct (decide (x = y)) as [<-|Hne].
  - exists (m, w). cbn [apply_op]. rewrite Vx, bind_ret_l, bind_ret_l, bool_decide_true by done. split_and!; try done.
    cbn [fst spec_op]. rewrite (contents_at m x f) by done. symmetry. apply insert_id. unfold contents. by rewrite lookup_fmap, Hx.
  - apply (steps_put m w x f (fresh None (content g) w).1 (dies (fresh None (content g) w).2 (ids f))); try done.
    + cbn [apply_op]. rewrite Vx, Vy, !bind_ret_l, bool_decide_false by done.
      rewrite copy_assign_spec by (done || by apply (fn_ok_moved (Some x))). done.
    + apply (fn_ok_moved None); [done|]. by eapply fresh_ok, content_fits.
    + accounts.
    + cbn [fst spec_op]. by rewrite (contents_at m y g), fresh_content.
Qed.

Lemma step_move m w x y : balanced (m, w) -> x ∈ dom m -> y ∈ dom m -> steps (OMove x y) (m, w).
Proof.
  intros Hb (f & Hx & Vx)%var_at (g & Hy & Vy)%var_at. pose proof (balanced_fn _ _ _ _ Hb Hx) as Hf. pose proof (balanced_fn _ _ _ _ Hb Hy) as Hg.
  destruct (decide (x = y)) as [<-|Hne].
  - exists (m, w). cbn [apply_op]. rewrite Vx, bind_ret_l, bind_ret_l, bool_decide_true by done. split_and!; try done.
    cbn [fst spec_op]. by rewrite decide_True.
  - destruct (move_assign_spec (Some x) (Some y) f g w Hf Hg) as (f' & He & Hf' & Hc & Hi).
    set (w' := dies (fresh (Some x) (content g) (dies w (ids f))).2 (ids g)) in *.
    assert (balanced (<[y := fn_clear g]> m, dies w (ids g))) as Hb1 by (apply (balanced_put m y g _ w); [done..|accounts]).
    exists (<[x := f']> (<[y := fn_clear g]> m), w'). split_and!.
    + cbn [apply_op]. rewrite Vx, Vy, !bind_ret_l, bool_decide_false by done. by rewrite He.
    + apply (balanced_put _ x f f' (dies w (ids g))); [done|by rewrite lookup_insert_ne|done|].
      unfold of_ids. rewrite Hi. unfold w'. accounts.
    + cbn [fst op_vars]. rewrite (dom_put _ x f' f) by (by rewrite lookup_insert_ne). by rewrite (dom_put m y _ g).
    + cbn [fst spec_op]. rewrite decide_False by done. by rewrite !contents_insert, Hc, (contents_at m y g).
Qed.

Lemma step_move_of m w x y : balanced (m, w) -> x ∉ dom m -> y ∈ dom m -> steps (OMoveOf x y) (m, w).
Proof.
  intros Hb Hx (g & Hy & Vy)%var_at. pose proof (balanced_fn _ _ _ _ Hb Hy) as Hg.
  assert (x <> y) as Hne by (intros ->; apply Hx; by eapply elem_of_dom_2).
  set (w' := dies (fresh (Some x) (content g) w).2 (ids g)).
  assert (balanced (<[y := fn_clear g]> m, dies w (ids g))) as Hb1 by (apply (balanced_put m y g _ w); [done..|accounts]).
  exists (<[x := (fresh (Some x) (content g) w).1]> (<[y := fn_clear g]> m), w'). split_and!.
  - cbn [apply_op]. rewrite Vy, bind_ret_l. by rewrite move_ctor_spec.
  - apply (balanced_new _ x _ (dies w (ids g))); [done| |by eapply fresh_ok, content_fits|unfold w'; accounts].
    rewrite lookup_insert_ne by done. by apply not_elem_of_dom.
  - cbn [fst snd]. by rewrite dom_insert_L, (dom_put m y _ g).
  - cbn [fst spec_op]. rewrite decide_False by done. rewrite !contents_insert, (contents_at m y g) by done. by rewrite fresh_content.
Qed.

Lemma step_swap m w x y : reloc = true -> balanced (m, w) -> x ∈ dom m -> y ∈ dom m -> steps (OSwap x y) (m, w).
Proof.
  intros Hrl Hb (f & Hx & Vx)%var_at (g & Hy & Vy)%var_at.
  pose proof (balanced_fn _ _ _ _ Hb Hx) as Hf. pose proof (balanced_fn _ _ _ _ Hb Hy) as Hg.
  destruct (decide (x = y)) as [<-|Hne].
  - assert (g = f) as -> by congruence. exists (m, w). cbn [apply_op]. rewrite Vx, bind_ret_l, bind_ret_l, bool_decide_true by done.
    split_and!; try done. cbn [fst spec_op]. rewrite (contents_at m x f), insert_insert_eq by done.
    symmetry. apply insert_id. unfold contents. by rewrite lookup_fmap, Hx.
  - assert ((<[y := f]> m) !! x = Some f) as Hk by (by rewrite lookup_insert_ne).
    exists (<[x := g]> (<[y := f]> m), w). split_and!.
    + cbn [apply_op]. by rewrite Vx, Vy, !bind_ret_l, bool_decide_false.
    + destruct Hb as (Hok & Hb). split; cbn [fst snd] in *.
      * apply insert_ok; [by apply (fn_ok_moved (Some y))|]. apply insert_ok; [by apply (fn_ok_moved (Some x))|done].
      * pose proof (held_insert ids m y f g Hy). pose proof (held_insert ids (<[y := f]> m) x g f Hk). multiset_solver.
    + cbn [fst op_vars]. rewrite (dom_put _ x g f Hk). by apply (dom_put m y f g).
    + cbn [fst spec_op]. by rewrite !contents_insert, (contents_at m x f), (contents_at m y g).
Qed.

Lemma step_ok o s : balanced s -> op_ok o (dom s.1) -> op_safe reloc o = true -> steps o s.
Proof.
  destruct s as [m w]. intros Hb Ho Hsafe.
  destruct o as [x|x c|x y|x y|x y|x y|x c|x|x y|x]; cbn [op_ok op_safe fst] in Ho, Hsafe.
  - apply (steps_new m w x fn_default w); try done. change (of_ids ids fn_default) with (∅ : gmultiset nat). multiset_solver.
  - apply (steps_new m w x (fresh (Some x) (Some c) w).1 (fresh (Some x) (Some c) w).2); try done; [by apply fresh_ok|accounts].
  - destruct Ho as (Hx & (g & Hy & Vy)%var_at). pose proof (balanced_fn _ _ _ _ Hb Hy).
    apply (steps_new m w x (fresh (Some x) (content g) w).1 (fresh (Some x) (content g) w).2); try done; [|by eapply fresh_ok, content_fits|accounts|].
    + cbn [apply_op]. rewrite Vy, bind_ret_l, copy_ctor_spec by done. by destruct (fresh _ _ _).
    + cbn [fst spec_op]. by rewrite (contents_at m y g), fresh_content.
  - by apply step_move_of; destruct Ho.
  - by apply step_copy; destruct Ho.
  - by apply step_move; destruct Ho.
  - apply var_at in Ho as (f & Hx & Vx). pose proof (balanced_fn _ _ _ _ Hb Hx).
    apply (steps_put m w x f (fresh (Some x) (Some c) (dies w (ids f))).1 (fresh (Some x) (Some c) (dies w (ids f))).2); try done;
      [|by apply fresh_ok|accounts].
    cbn [apply_op]. rewrite Vx, bind_ret_l, set_assign_spec by done. done.
  - apply var_at in Ho as (f & Hx & Vx). pose proof (balanced_fn _ _ _ _ Hb Hx).
    apply (steps_put m w x f (fn_clear f) (dies w (ids f))); try done; [|accounts].
    cbn [apply_op]. by rewrite Vx, bind_ret_l, reset_spec.
  - by apply step_swap; destruct Ho.
  - apply var_at in Ho as (f & Hx & Vx). pose proof (balanced_fn _ _ _ _ Hb Hx).
    exists (delete x m, dies w (ids f)). split_and!.
    + cbn [apply_op]. by rewrite Vx, bind_ret_l, dtor_spec.
    + destruct Hb as (Hok & Hb). split; cbn [fst snd] in *; [by apply map_Forall_delete|].
      rewrite (held_delete ids m x f Hx) in Hb. accounts.
    + cbn [fst op_vars]. by rewrite dom_delete_L.
    + cbn [fst spec_op]. unfold contents. by rewrite fmap_delete.
Qed.

Lemma steps_all os s : balanced s -> ops_ok os (dom s.1) -> Forall (fun o => op_safe reloc o = true) os ->
  exists s', apply_ops os s = Ok s' /\ balanced s' /\ contents s'.1 = spec_ops os (contents s.1).
Proof.
  revert s. induction os as [|o os IH]; intros s Hb Ho Hsf; [by exists s|]. destruct Ho as (Ho & Hos). apply list.Forall_cons in Hsf as (Hsf & Hsfs).
  destruct (step_ok o s Hb Ho Hsf) as (s1 & Hs & Hb1 & Hd & Hc). rewrite <- Hd in Hos.
  destruct (IH s1 Hb1 Hos Hsfs) as (s2 & Hs2 & Hb2 & Hc2). exists s2. cbn [apply_ops]. rewrite Hs, bind_ret_l.
  split_and!; [done|done|]. rewrite Hc2, Hc. done.
Qed.

(** C40: in every program that makes, copies, moves, swaps, assigns and destroys
    callables, if the bytes of all its callables may be moved, or it neither
    swaps nor assigns copies: each variable has the callable that was last put
    into it, or none if it was moved out; of the objects made behind it each is
    in one variable or was destroyed, once; and when all variables are gone all
    objects are. *)
Theorem function_refines os : ops_ok os ∅ -> Forall (fun o => op_safe reloc o = true) os ->
  exists m w, apply_ops os (∅, World 0 []) = Ok (m, w) /\ contents m = spec_ops os ∅ /\
    seq 0 (next_obj w) ≡ₚ destroyed w ++ (map_to_list m ≫= fun p => ids p.2) /\
    (m = ∅ -> seq 0 (next_obj w) ≡ₚ destroyed w).
Proof.
  intros Ho Hsf. destruct (steps_all os (∅, World 0 [])) as ([m w] & Ha & (Hok & Hb) & Hc); [|cbn [fst]; by rewrite dom_empty_L|done|].
  - split; [apply map_Forall_empty|]. done.
  - exists m, w. cbn [fst snd] in *.
    assert (seq 0 (next_obj w) ≡ₚ destroyed w ++ (map_to_list m ≫= fun p => ids p.2)) as Hp
      by (apply multiset_perm; by rewrite list_to_set_disj_app).
    split_and!; [done| |done|].
    + rewrite Hc. unfold contents. by rewrite fmap_empty.
    + intros ->. rewrite map_to_list_empty in Hp. by rewrite app_nil_r in Hp.
Qed.
End Proofs.

(** A call runs the callable a variable has, and throws if it has none. *)
Lemma fn_call_content {C A} `{Relocatable C} (run : C -> res A) reloc here (f : function C) : fn_ok reloc here f ->
  fn_call run here f = match content f with Some c => run c | None => Throw StdBadFunction end.
Proof.
  unfold fn_call, content. intros Hf. destruct (m_fn f) eqn:E; [|done]. by destruct (object_of reloc here f Hf E) as (o & -> & ->).
Qed.

(** The bytes of other callables are exchanged all the same. After a swap, and
    after the assignment of a copy, such a callable is called and destroyed
    where it was not made. *)
Theorem swap_moves_bytes {C} `{Relocatable C} (c d : C) : relocatable c = false ->
  apply_ops [OSet 0 c; ODefault 1; OSwap 0 1; ODestroy 1] (∅, World 0 []) = Ub UseElsewhere /\
  apply_ops [OSet 0 c; OSet 1 d; OCopy 0 1] (∅, World 0 []) = Ub UseElsewhere /\
  forall A (run : C -> res A), exists f w,
    apply_ops [OSet 0 c; ODefault 1; OCopy 1 0] (∅, World 0 []) = Ok (f, w) /\
    (g ← var f 1; fn_call run (Some 1) g) = Ub UseElsewhere.
Proof.
  intros Hc. assert (forall n x, usable (Some x) (Obj n c (Some 0)) = bool_decide (x = 0)) as Hu.
  { intros n x. unfold usable. cbn [o_call o_home]. rewrite Hc. apply bool_decide_ext. split; [by intros [= ->]|by intros ->]. }
  assert (forall n, usable None (Obj n c (Some 0)) = false) as Hn by (intros n; unfold usable; cbn [o_call o_home]; by rewrite Hc).
  assert (forall n x, usable x (Obj n d x) = true) as Hd
    by (intros n x; unfold usable; cbn [o_call o_home]; by rewrite bool_decide_true, orb_true_r).
  unfold apply_ops, apply_op, var. cbn [fn_set construct next_obj destroyed]. split_and!.
  - repeat (rewrite ?bind_ret_l; simplify_map_eq). unfold fn_dtor, destroy, object_at. cbn -[usable]. by rewrite Hu.
  - repeat (rewrite ?bind_ret_l; simplify_map_eq). unfold fn_copy_assign, fn_copy_ctor, fn_from, object_at. cbn -[usable]. rewrite Hd. cbn -[usable].
    unfold fn_dtor, destroy, object_at. cbn -[usable]. by rewrite Hn.
  - intros A run. repeat (rewrite ?bind_ret_l; simplify_map_eq). unfold fn_copy_assign, fn_copy_ctor, fn_from, object_at.
    cbn -[usable]. rewrite Hu. cbn -[usable lookup insert]. do 2 eexists. split; [reflexivity|]. rewrite lookup_insert_eq.
    cbn -[usable]. unfold fn_call, object_at. cbn -[usable]. unfold usable. cbn [o_call o_home]. by rewrite Hc.
Qed.


#[export] Instance ops_ok_dec {C} (os : list (op C)) d : Decision (ops_ok os d).
Proof. revert d. induction os as [|o os IH]; intros d; cbn; apply _. Defined.

(** Numbers as callables, of which the negative ones point into themselves. *)
#[export] Instance number_reloc : Relocatable Z := fun z => (0 <=? z)%Z.

Definition program_example : list (op Z) :=
  [OSet 0 7%Z; OCopyOf 1 0; ODefault 2; OMove 2 0; OCopy 0 1; OCopy 0 0; OSwap 0 2; OAssign 1 9%Z; OMoveOf 3 1;
   ODestroy 0; OReset 3; ODestroy 1; ODestroy 2; ODestroy 3].
Definition fixed_example : list (op Z) :=
  [OSet 0 (-7)%Z; OCopyOf 1 0; ODefault 2; OMove 2 0; OAssign 1 (-9)%Z; OMoveOf 3 1; ODestroy 0; ODestroy 1; OMove 2 3;
   OReset 3; ODestroy 3].

Lemma function_refines_witness :
  (exists w, apply_ops program_example (∅, World 0 []) = Ok (∅, w) /\ next_obj w = 6 /\ seq 0 (next_obj w) ≡ₚ destroyed w) /\
  (exists m w, apply_ops fixed_example (∅, World 0 []) = Ok (m, w) /\ contents m = {[2 := Some (-9)%Z]} /\
     seq 0 (next_obj w) ≡ₚ destroyed w ++ (map_to_list m ≫= fun p => ids p.2)).
Proof.
  split.
  - destruct (function_refines true program_example) as (m & w & Ha & _ & _ & Hp).
    + exact (bool_decide_unpack (ops_ok program_example ∅) I).
    + repeat constructor.
    + assert (apply_ops program_example (∅, World 0 []) = Ok (∅, World 6 [0; 1; 4; 2; 5; 3])) as He by (by vm_compute).
      rewrite He in Ha. injection Ha as <- <-. exists (World 6 [0; 1; 4; 2; 5; 3]). split_and!; [done|done|by apply Hp].
  - destruct (function_refines false fixed_example) as (m & w & Ha & Hc & Hp & _).
    + exact (bool_decide_unpack (ops_ok fixed_example ∅) I).
    + repeat constructor.
    + exists m, w. split; [exact Ha|]. split; [|exact Hp]. rewrite Hc. by vm_compute.
Defined.
