(* ===== verification/Buffer.v ===== *)
(** * Owned memory ([bfc/buffer.hpp], [bfc/sized_buffer.hpp])

    A [simple_buffer] owns a block of memory with its size and the callable that
    frees it, or nothing; it can be moved and not copied. Blocks are numbers,
    given in the order in which they are allocated; [heap_t] has the callable
    each was allocated with and the calls that were made to free.

    [sized_buffer] keeps a size apart from that of its storage. Its other
    operations are in [PdcpDl]; here is the conversion to a buffer. *)

From stdpp Require Import gmap gmultiset.
From S2P Require Import Prelude Mem Store PdcpDl.
#[local] Open Scope nat_scope.

Section Buffer.
Context {D : Type}.

Record simple_buffer := Buf { bf_size : Z; bf_data : option nat; bf_deleter : option D }.
Record heap_t := Heap { allocated : list D; freed : list (nat * D) }.
Definition buf_default : simple_buffer := Buf 0 None None.

(** ** Members *)

Definition buf_clear (b : simple_buffer) : simple_buffer := Buf 0 None None.
(** Freeing by an empty callable throws in a function that must not throw. *)
Definition buf_reset (b : simple_buffer) (h : heap_t) : res (simple_buffer * heap_t) :=
  h ← match bf_data b with
      | Some p => match bf_deleter b with
                  | Some d => mret (Heap (allocated h) (freed h ++ [(p, d)]))
                  | None => Throw StdBadFunction
                  end
      | None => mret h
      end;
  mret (buf_clear b, h).
Definition buf_transfer (self p_other : simple_buffer) : simple_buffer * simple_buffer :=
  (Buf (bf_size p_other) (bf_data p_other) (bf_deleter p_other), buf_clear p_other).
Definition buf_move_ctor (p_other : simple_buffer) : simple_buffer * simple_buffer :=
  (Buf (bf_size p_other) (bf_data p_other) (bf_deleter p_other), buf_clear p_other).
(** for two different objects; the code does nothing for one *)
Definition buf_move_assign (self p_other : simple_buffer) (h : heap_t) : res (simple_buffer * simple_buffer * heap_t) :=
  '(self, h) ← buf_reset self h;
  mret (buf_transfer self p_other, h).

(** ** Programs *)

Inductive buf_op :=
  | BDefault (x : nat) | BMake (x : nat) (size : Z) (d : D) | BMoveOf (x y : nat) | BMove (x y : nat)
  | BReset (x : nat) | BDestroy (x : nat).

Abbreviation buffers := (gmap nat simple_buffer).
Definition buf_var (m : buffers) (x : nat) : res simple_buffer :=
  match m !! x with Some b => mret b | None => Ub UseAfterErase end.

Definition apply_buf (o : buf_op) (s : buffers * heap_t) : res (buffers * heap_t) :=
  let '(m, h) := s in
  match o with
  | BDefault x => mret (<[x := buf_default]> m, h)
  | BMake x size d =>
    mret (<[x := Buf size (Some (length (allocated h))) (Some d)]> m, Heap (allocated h ++ [d]) (freed h))
  | BMoveOf x y => c ← buf_var m y; let '(b, c) := buf_move_ctor c in mret (<[x := b]> (<[y := c]> m), h)
  | BMove x y =>
    b ← buf_var m x; c ← buf_var m y;
    if bool_decide (x = y) then mret (m, h)
    else '(b, c, h) ← buf_move_assign b c h; mret (<[x := b]> (<[y := c]> m), h)
  | BReset x => b ← buf_var m x; '(b, h) ← buf_reset b h; mret (<[x := b]> m, h)
  | BDestroy x => b ← buf_var m x; '(_, h) ← buf_reset b h; mret (delete x m, h)
  end.
Fixpoint apply_bufs (os : list buf_op) (s : buffers * heap_t) : res (buffers * heap_t) :=
  match os with [] => mret s | o :: os => s ← apply_buf o s; apply_bufs os s end.

(** A variable is made before it is used and not made twice. *)
Definition buf_ok (o : buf_op) (d : gset nat) : Prop :=
  match o with
  | BDefault x | BMake x _ _ => x ∉ d
  | BMoveOf x y => (x ∉ d) /\ y ∈ d
  | BMove x y => x ∈ d /\ y ∈ d
  | BReset x | BDestroy x => x ∈ d
  end.
Definition buf_vars (o : buf_op) (d : gset nat) : gset nat :=
  match o with
  | BDefault x | BMake x _ _ | BMoveOf x _ => {[x]} ∪ d
  | BDestroy x => d ∖ {[x]}
  | _ => d
  end.
Fixpoint bufs_ok (os : list buf_op) (d : gset nat) : Prop :=
  match os with [] => True | o :: os => buf_ok o d /\ bufs_ok os (buf_vars o d) end.

(** ** The accounts *)

Definition block (b : simple_buffer) : list nat := match bf_data b with Some p => [p] | None => [] end.

(** A buffer frees its block as the block was allocated. *)
Definition buffer_ok (h : heap_t) (b : simple_buffer) : Prop :=
  forall p, bf_data b = Some p -> exists d, bf_deleter b = Some d /\ allocated h !! p = Some d.
Definition gone_blocks (h : heap_t) : gmultiset nat := list_to_set_disj (map fst (freed h)).
Record owned (s : buffers * heap_t) : Prop := Owned {
  ow_buffers : map_Forall (fun _ => buffer_ok s.2) s.1;
  ow_freed : Forall (fun f => allocated s.2 !! f.1 = Some f.2) (freed s.2);
  ow_balance : numbered (length (allocated s.2)) = gone_blocks s.2 ⊎ held block s.1 }.

Lemma reset_free b h : buffer_ok h b -> exists h', buf_reset b h = Ok (buf_clear b, h') /\
  allocated h' = allocated h /\ gone_blocks h' = gone_blocks h ⊎ of_ids block b /\
  (Forall (fun f => allocated h !! f.1 = Some f.2) (freed h) -> Forall (fun f => allocated h !! f.1 = Some f.2) (freed h')).
Proof.
  unfold buffer_ok, buf_reset, of_ids, block. intros Hb. destruct (bf_data b) as [p|].
  - destruct (Hb p eq_refl) as (d & -> & Hd). eexists. split; [done|]. cbn [allocated freed]. split_and!; [done| |].
    + unfold gone_blocks. cbn [freed]. by rewrite map_app, list_to_set_disj_app.
    + intros Hf. apply Forall_app. by split; [|constructor].
  - exists h. split_and!; [done|done| |done]. cbn. by rewrite (right_id_L ∅ disj_union).
Qed.

Lemma buf_var_at (m : buffers) x : x ∈ dom m -> exists b, m !! x = Some b /\ buf_var m x = Ok b.
Proof. intros (b & Hx)%elem_of_dom. exists b. unfold buf_var. by rewrite Hx. Qed.

Lemma clear_buffer h b : buffer_ok h (buf_clear b). Proof. by intros p. Qed.
Lemma same_allocated h h' b : allocated h' = allocated h -> buffer_ok h b -> buffer_ok h' b.
Proof. unfold buffer_ok. by intros ->. Qed.

Lemma put_buffers (m : buffers) h x b : buffer_ok h b -> map_Forall (fun _ => buffer_ok h) m -> map_Forall (fun _ => buffer_ok h) (<[x := b]> m).
Proof. intros Hb Hm. by apply map_Forall_insert_2. Qed.
Lemma heap_buffers (m : buffers) h h' : allocated h' = allocated h -> map_Forall (fun _ => buffer_ok h) m -> map_Forall (fun _ => buffer_ok h') m.
Proof. intros Ha Hm x b Hx. eapply same_allocated; [done|]. by eapply Hm. Qed.

Definition buf_steps (o : buf_op) (s : buffers * heap_t) : Prop :=
  exists s', apply_buf o s = Ok s' /\ owned s' /\ dom s'.1 = buf_vars o (dom s.1).

Lemma step_make m h x size d : owned (m, h) -> x ∉ dom m -> buf_steps (BMake x size d) (m, h).
Proof.
  intros [Hb Hf Hc] Hx%not_elem_of_dom. eexists. split; [done|]. split; [|cbn [fst buf_vars]; by rewrite dom_insert_L]. cbn [fst snd] in *.
  set (h' := Heap (allocated h ++ [d]) (freed h)).
  assert (forall p e, allocated h !! p = Some e -> allocated h' !! p = Some e) as Hm.
  { intros p e Hp. cbn. by apply lookup_app_l_Some. }
  split; cbn [fst snd].
  - apply put_buffers.
    + intros p [= <-]. exists d. split; [done|]. cbn. by rewrite list_lookup_middle.
    + intros y b Hy p Hp. destruct (Hb y b Hy p Hp) as (e & He & Ha). exists e. auto.
  - eapply list.Forall_impl; [exact Hf|]. intros [p e] He. cbn in He |- *. by apply Hm.
  - rewrite held_insert_new by done. change (gone_blocks h') with (gone_blocks h).
    change (allocated h') with (allocated h ++ [d]). rewrite length_app. cbn [length]. rewrite Nat.add_1_r, numbered_S, Hc.
    change (of_ids block (Buf size (Some (length (allocated h))) (Some d)))
      with ({[+ length (allocated h) +]} ⊎ ∅ : gmultiset nat). multiset_solver.
Qed.

Lemma step_reset m h x : owned (m, h) -> x ∈ dom m -> buf_steps (BReset x) (m, h).
Proof.
  intros [Hb Hf Hc] (b & Hx & Vx)%buf_var_at. cbn [fst snd] in *.
  destruct (reset_free b h (Hb x b Hx)) as (h' & Hr & Ha & Hg & Hfr).
  eexists. cbn [apply_buf]. rewrite Vx, bind_ret_l, Hr, bind_ret_l. split; [done|]. cbn [fst snd buf_vars].
  split; [|by rewrite (dom_put m x _ b)]. split; cbn [fst snd].
  - apply put_buffers; [apply clear_buffer|by apply (heap_buffers m h)].
  - rewrite Ha. by apply Hfr.
  - rewrite Ha, Hg, Hc. pose proof (held_insert block m x (buf_clear b) b Hx).
    change (of_ids block (buf_clear b)) with (∅ : gmultiset nat) in *. multiset_solver.
Qed.

Lemma step_destroy m h x : owned (m, h) -> x ∈ dom m -> buf_steps (BDestroy x) (m, h).
Proof.
  intros [Hb Hf Hc] (b & Hx & Vx)%buf_var_at. cbn [fst snd] in *.
  destruct (reset_free b h (Hb x b Hx)) as (h' & Hr & Ha & Hg & Hfr).
  eexists. cbn [apply_buf]. rewrite Vx, bind_ret_l, Hr, bind_ret_l. split; [done|]. cbn [fst snd buf_vars].
  split; [|by rewrite dom_delete_L]. split; cbn [fst snd].
  - by apply map_Forall_delete, (heap_buffers m h).
  - rewrite Ha. by apply Hfr.
  - rewrite Ha, Hg, Hc. rewrite (held_delete block m x b Hx). multiset_solver.
Qed.

(** The block of [y] goes to a variable without one. *)
Lemma held_move m x y b c k : m !! y = Some c -> (<[y := buf_clear c]> m) !! x = Some k -> block k = [] ->
  block b = block c -> held block (<[x := b]> (<[y := buf_clear c]> m)) = held block m.
Proof.
  intros Hy Hx Hk Hb. pose proof (held_insert block m y (buf_clear c) c Hy).
  pose proof (held_insert block (<[y := buf_clear c]> m) x b k Hx). unfold of_ids in *. rewrite Hk, Hb in *.
  change (block (buf_clear c)) with (@nil nat) in *. cbn [list_to_set_disj] in *. multiset_solver.
Qed.

Lemma step_move_of_buf m h x y : owned (m, h) -> x ∉ dom m -> y ∈ dom m -> buf_steps (BMoveOf x y) (m, h).
Proof.
  intros [Hb Hf Hc] Hx (c & Hy & Vy)%buf_var_at. cbn [fst snd] in *.
  assert (x <> y) as Hne by (intros ->; apply Hx; by eapply elem_of_dom_2). apply not_elem_of_dom in Hx.
  eexists. cbn [apply_buf]. rewrite Vy, bind_ret_l. split; [done|]. cbn [fst snd buf_vars].
  split; [|by rewrite dom_insert_L, (dom_put m y _ c)]. split; cbn [fst snd].
  - apply put_buffers; [|apply put_buffers; [apply clear_buffer|done]]. intros p Hp. by apply (Hb y c Hy).
  - done.
  - rewrite held_insert_new by (by rewrite lookup_insert_ne). pose proof (held_insert block m y (buf_clear c) c Hy).
    unfold of_ids in *. change (block (Buf _ _ _)) with (block c). change (block (buf_clear c)) with (@nil nat) in *.
    cbn [list_to_set_disj] in *. multiset_solver.
Qed.

Lemma step_move_buf m h x y : owned (m, h) -> x ∈ dom m -> y ∈ dom m -> buf_steps (BMove x y) (m, h).
Proof.
  intros Ho (b & Hx & Vx)%buf_var_at (c & Hy & Vy)%buf_var_at. destruct (decide (x = y)) as [<-|Hne].
  { eexists. cbn [apply_buf]. rewrite Vx, bind_ret_l, bind_ret_l, bool_decide_true by done. split_and!; done. }
  destruct Ho as [Hb Hf Hc]. cbn [fst snd] in *.
  destruct (reset_free b h (Hb x b Hx)) as (h' & Hr & Ha & Hg & Hfr).
  eexists. cbn [apply_buf]. rewrite Vx, Vy, !bind_ret_l, bool_decide_false by done. unfold buf_move_assign.
  rewrite Hr, bind_ret_l. split; [done|]. cbn [fst snd buf_vars].
  assert ((<[y := buf_clear c]> m) !! x = Some b) as Hx' by (by rewrite lookup_insert_ne).
  split; [|by rewrite (dom_put _ x _ b), (dom_put m y _ c)]. split; cbn [fst snd].
  - apply put_buffers; [|apply put_buffers; [apply clear_buffer|by apply (heap_buffers m h)]].
    intros p Hp. eapply same_allocated; [done|by apply (Hb y c Hy)|done].
  - rewrite Ha. by apply Hfr.
  - rewrite Ha, Hg, Hc. pose proof (held_insert block m y (buf_clear c) c Hy).
    pose proof (held_insert block _ x (Buf (bf_size c) (bf_data c) (bf_deleter c)) b Hx').
    unfold of_ids in *. change (block (Buf _ _ _)) with (block c) in *. change (block (buf_clear c)) with (@nil nat) in *.
    cbn [list_to_set_disj] in *. multiset_solver.
Qed.

Lemma buf_step_ok o s : owned s -> buf_ok o (dom s.1) -> buf_steps o s.
Proof.
  destruct s as [m h]. intros Ho Hk. destruct o as [x|x n d|x y|x y|x|x]; cbn [buf_ok fst] in Hk.
  - eexists. split; [done|]. split; [|cbn [fst buf_vars]; by rewrite dom_insert_L]. destruct Ho as [Hb Hf Hc]. cbn [fst snd] in *.
    apply not_elem_of_dom in Hk. split; cbn [fst snd]; [by apply put_buffers|done|].
    rewrite held_insert_new by done. change (of_ids block buf_default) with (∅ : gmultiset nat). multiset_solver.
  - by apply step_make.
  - by apply step_move_of_buf; destruct Hk.
  - by apply step_move_buf; destruct Hk.
  - by apply step_reset.
  - by apply step_destroy.
Qed.

(** In every program that allocates, moves, resets and destroys buffers each
    block is owned by one variable or was freed, once and by the callable it
    was allocated with; when all variables are gone all blocks are freed. *)
Theorem buffer_balance os : bufs_ok os ∅ ->
  exists m h, apply_bufs os (∅, Heap [] []) = Ok (m, h) /\
    seq 0 (length (allocated h)) ≡ₚ map fst (freed h) ++ (map_to_list m ≫= fun p => block p.2) /\
    Forall (fun f => allocated h !! f.1 = Some f.2) (freed h) /\
    (m = ∅ -> seq 0 (length (allocated h)) ≡ₚ map fst (freed h)).
Proof.
  intros Hos. assert (forall os s, owned s -> bufs_ok os (dom s.1) -> exists s', apply_bufs os s = Ok s' /\ owned s') as Hall.
  { clear. induction os as [|o os IH]; intros s Ho Hk; [by exists s|]. destruct Hk as (Hk & Hks).
    destruct (buf_step_ok o s Ho Hk) as (s1 & Hs & Ho1 & Hd). rewrite <- Hd in Hks.
    destruct (IH s1 Ho1 Hks) as (s2 & Hs2 & Ho2). exists s2. cbn [apply_bufs]. by rewrite Hs, bind_ret_l. }
  destruct (Hall os (∅, Heap [] [])) as ([m h] & Ha & [_ Hf Hc]).
  - split; [apply map_Forall_empty|constructor|done].
  - cbn [fst]. by rewrite dom_empty_L.
  - exists m, h. cbn [fst snd] in *.
    assert (seq 0 (length (allocated h)) ≡ₚ map fst (freed h) ++ (map_to_list m ≫= fun p => block p.2)) as Hp
      by (apply multiset_perm; by rewrite list_to_set_disj_app).
    split_and!; [done|done|done|]. intros ->. rewrite map_to_list_empty in Hp. by rewrite app_nil_r in Hp.
Qed.
End Buffer.

(** ** [sized_buffer::to_buffer] *)

#[local] Open Scope Z_scope.

Definition sb_clear (b : sized_buffer) : sized_buffer := SizedBuffer 0 [].

(** The bytes of the buffer that is returned, and what is left. *)
Definition sb_to_buffer (b : sized_buffer) : res (list (option Z) * sized_buffer) :=
  if sb_size b =? 0 then mret ([], sb_clear b) else
  if sb_size b =? sb_capacity b then mret (sb_storage b, SizedBuffer 0 []) else
  data ← (if negb (sb_capacity b =? 0)
          then if sb_capacity b <? sb_size b then Ub OutOfBounds else mret (slice (sb_storage b) 0 (sb_size b))
          else mret (replicate (Z.to_nat (sb_size b)) None));
  let b := sb_clear b in
  mret (slice data 0 (sb_size b), b).

(** A buffer that fills its storage is handed over whole. One that does not
    gives an empty buffer: its size is read after it has been cleared. *)
Theorem sb_to_buffer_loses b : 0 < sb_size b <= sb_capacity b ->
  sb_to_buffer b = Ok (if sb_size b =? sb_capacity b then sb_storage b else [], SizedBuffer 0 []).
Proof.
  intros Hb. unfold sb_to_buffer. repeat case_Z; try lia; try done.
Qed.
