(* ===== verification/Metric.v ===== *)
(** * Metrics and the pace of the slots ([bfc/metric.hpp], [TxScheduler.hpp])

    A [metric] is an atomic number that threads add to. [TxScheduler::tick_wait]
    waits, after a slot, until the next is due, by reading the clock again and
    again, and adds the time between slots, and by how much it missed the
    interval, to two metrics.

    The program counts with metrics: the values are whole numbers, which a
    [double] has exactly up to 2^53. *)

From Stdlib Require Import Sorted.
From S2P Require Import Prelude Mem.
#[local] Open Scope Z_scope.

(** ** [bfc::metric] *)

(** [compare_exchange_strong(old, desired)]: whether it exchanged, the value and
    [old] after it. *)
Definition compare_exchange (value old desired : Z) : bool * Z * Z :=
  if value =? old then (true, desired, old) else (false, value, value).

(** The loop of [fetch_add]. What other threads do to the value before each
    exchange is the list [others]; when it is used up they do nothing. *)
Definition meddle (others : list (Z -> Z)) (value : Z) : Z := match others with f :: _ => f value | [] => value end.
Fixpoint fetch_loop (fuel : nat) (others : list (Z -> Z)) (val value old : Z) : res (Z * Z) :=
  match fuel with
  | O => NoFuel
  | S fuel =>
    let '(exchanged, value, old) := compare_exchange (meddle others value) old (old + val) in
    if (exchanged : bool) then fetch_loop fuel (tail others) val value old else mret (value, old)
  end.
(** The value after it, and what it returns. *)
Definition fetch_add (fuel : nat) (others : list (Z -> Z)) (val value : Z) : res (Z * Z) :=
  let old := value in
  if old =? old + val then mret (value, old) else fetch_loop fuel others val value old.
Definition fetch_sub (fuel : nat) (others : list (Z -> Z)) (val value : Z) : res (Z * Z) :=
  let old := value in
  if old =? old - val then mret (value, old) else fetch_loop fuel others (- val) value old.

(** Alone a thread adds what it should. What is returned is not the value
    before. *)
Lemma fetch_add_alone fuel val value : fetch_add (S (S fuel)) [] val value = Ok (value + val, value + val).
Proof.
  unfold fetch_add. case_Z; [do 2 f_equal; lia|]. cbn [fetch_loop meddle]. unfold compare_exchange at 1.
  rewrite Z.eqb_refl. cbn [tail fetch_loop meddle]. unfold compare_exchange. case_Z; [lia|done].
Qed.

(** If another thread changes the value between the load and the exchange, the
    exchange fails, the loop ends, and nothing is added. *)
Theorem fetch_add_contended fuel f others val value : val <> 0 -> f value <> value ->
  fetch_add (S fuel) (f :: others) val value = Ok (f value, f value).
Proof.
  intros Hv Hf. unfold fetch_add. case_Z; [lia|]. cbn [fetch_loop meddle]. unfold compare_exchange. by case_Z.
Qed.

(** ** [tick_wait] *)

Record pace := Pace { last_tick : Z; st_tick : Z; st_tick_error : Z }.
#[export] Instance eta_pace : Eta pace := fun s => Pace (last_tick s) (st_tick s) (st_tick_error s).

(** The metrics have one thread that writes. *)
Definition add_metric (val value : Z) : Z := match fetch_add 2 [] val value with Ok (v, _) => v | _ => value end.

(** An unsigned number kept in an [int64_t]. *)
Definition to_int64 (x : Z) : Z := if u64 x <? 9223372036854775808 then u64 x else u64 x - 18446744073709551616.

Section Pace.
Variable slot_interval_us : Z.

(** Reading the clock until it is not before [until]; the readings to come are
    a list. The comparison is one of unsigned numbers. *)
Fixpoint wait_until (until now : Z) (clock : list Z) : res (Z * list Z) :=
  if u64 now <? until then
    match clock with [] => NoFuel | now :: clock => wait_until until now clock end
  else mret (now, clock).

Definition tick_wait (now : Z) (clock : list Z) (s : pace) : res (pace * list Z) :=
  match clock with
  | [] => NoFuel
  | now2 :: clock =>                       (* only logged *)
    let diff_time := now - last_tick s in
    let error := to_int64 (slot_interval_us - diff_time) in
    let aerror := if negb (last_tick s =? 0) then Z.abs error else 0 in
    let s := s <| st_tick := add_metric (if negb (last_tick s =? 0) then diff_time else 0) (st_tick s) |> in
    let s := s <| st_tick_error := add_metric aerror (st_tick_error s) |> in
    let s := s <| last_tick := now |> in
    let until := u64 (now + slot_interval_us) in
    '(_, clock) ← wait_until until now clock;
    mret (s, clock)
  end.

(** Some slots: the reading at the start of each. *)
Fixpoint ticks (n : nat) (clock : list Z) (s : pace) : res (list Z * pace) :=
  match n with
  | O => mret ([], s)
  | S n =>
    match clock with
    | [] => NoFuel
    | now :: clock =>
      '(s, clock) ← tick_wait now clock s;
      '(nows, s) ← ticks n clock s;
      mret (now :: nows, s)
    end
  end.

(** ** The pace *)

(** Readings of the clock: they never decrease, and there is room for the
    interval above them. *)
Definition clock_ok (clock : list Z) : Prop :=
  StronglySorted Z.le clock /\ Forall (fun t => 0 < t < 4611686018427387904) clock.
Hypothesis Hinterval : 0 <= slot_interval_us < 4611686018427387904.

Lemma clock_tail t clock : clock_ok (t :: clock) -> clock_ok clock /\ 0 < t < 4611686018427387904 /\ Forall (Z.le t) clock.
Proof.
  intros (Hs & Hf). apply StronglySorted_inv in Hs as (Hs & Ht). apply Forall_cons_iff in Hf as (H1 & H2). done.
Qed.
Lemma add_metric_sum val value : add_metric val value = value + val.
Proof. unfold add_metric. by rewrite fetch_add_alone. Qed.

(** The wait ends when a reading that is due comes, and leaves later ones. *)
Lemma wait_reaches until now clock : clock_ok (now :: clock) -> Exists (Z.le until) (now :: clock) ->
  exists t rest, wait_until until now clock = Ok (t, rest) /\ until <= t /\ clock_ok (t :: rest) /\ rest `suffix_of` clock.
Proof.
  revert now. induction clock as [|c clock IH]; intros now Hc He; cbn [wait_until];
    destruct (clock_tail _ _ Hc) as (Hc' & Hn & Hle); rewrite u64_id by ulia; case_Z.
  - apply Exists_cons in He as [He|He%Exists_nil]; [lia|done].
  - exists now, []. split_and!; [done|lia|done|done].
  - apply Exists_cons in He as [He|He]; [lia|]. destruct (IH c Hc' He) as (t & rest & Hw & H1 & H2 & H3).
    exists t, rest. split_and!; [done|done|done|]. by apply suffix_cons_r.
  - exists now, (c :: clock). split_and!; [done|lia|done|done].
Qed.
Lemma wait_due until now clock t rest : clock_ok (now :: clock) -> wait_until until now clock = Ok (t, rest) ->
  Exists (Z.le until) (now :: clock).
Proof.
  revert now. induction clock as [|c clock IH]; intros now Hc; cbn [wait_until];
    destruct (clock_tail _ _ Hc) as (Hc' & Hn & _); rewrite u64_id by ulia; case_Z; try done; intros Hw.
  - constructor. lia.
  - apply Exists_cons_tl. by apply (IH c).
  - constructor. lia.
Qed.

(** A slot starts when the one before is due, [l], or is the first. *)
Fixpoint gaps (l : Z) (nows : list Z) : Prop :=
  match nows with [] => True | now :: nows => (l = 0 \/ l + slot_interval_us <= now) /\ gaps now nows end.

Lemma tick_wait_spec now clock s s' rest : clock_ok (now :: clock) -> tick_wait now clock s = Ok (s', rest) ->
  last_tick s' = now /\ st_tick s' = st_tick s + (if last_tick s =? 0 then 0 else now - last_tick s) /\
  exists t, now + slot_interval_us <= t /\ clock_ok (t :: rest).
Proof.
  intros Hc Ht. unfold tick_wait in Ht. destruct clock as [|now2 clock]; [done|]. cbn zeta in Ht.
  rewrite !add_metric_sum in Ht. apply bind_Ok in Ht as ([t r] & Hw & Ht). injection Ht as <- <-.
  destruct (clock_tail _ _ Hc) as (Hc2 & Hn & Hle). rewrite u64_id in Hw by ulia.
  apply Forall_cons_iff in Hle as (_ & Hle). destruct (clock_tail _ _ Hc2) as ([Hs Hf] & _).
  assert (clock_ok (now :: clock)) as Hc3 by (split; by constructor).
  destruct (wait_reaches _ _ _ Hc3 (wait_due _ _ _ _ _ Hc3 Hw)) as (t' & r' & Hw' & Hu & Hr & _).
  rewrite Hw in Hw'. injection Hw' as <- <-. split_and!; [done| |by exists t]. cbn. destruct (last_tick s =? 0); cbn; lia.
Qed.

(** For every clock that never goes back: slots start at least the interval
    apart, and [st_tick] is the time from the first to the last. *)
Theorem ticks_paced n clock s nows s' : clock_ok clock -> 0 <= last_tick s ->
  Forall (fun t => last_tick s = 0 \/ last_tick s + slot_interval_us <= t) clock ->
  ticks n clock s = Ok (nows, s') ->
  length nows = n /\ gaps (last_tick s) nows /\
  st_tick s' = st_tick s + (last_tick s' - (if last_tick s =? 0 then hd 0 nows else last_tick s)).
Proof.
  revert clock s nows s'. induction n as [|n IH]; intros clock s nows s' Hc Hl Hd Ht; cbn [ticks] in Ht.
  { injection Ht as <- <-. cbn. split_and!; [done|done|]. case_Z; lia. }
  destruct clock as [|now clock]; [done|]. apply bind_Ok in Ht as ([s1 r1] & Hw & Ht).
  apply bind_Ok in Ht as ([nows1 s2] & Hr & Ht). injection Ht as <- <-.
  destruct (tick_wait_spec _ _ _ _ _ Hc Hw) as (H1 & H2 & t & H3 & H4).
  destruct (clock_tail _ _ Hc) as (_ & Hn & _). destruct (clock_tail _ _ H4) as (H5 & _ & H6).
  destruct (IH r1 s1 nows1 s2 H5) as (I1 & I2 & I3); [lia| |done|].
  { eapply list.Forall_impl; [exact H6|]. intros x Hx. cbn in Hx. lia. }
  apply Forall_cons_iff in Hd as (Hd & _). cbn [length gaps hd]. rewrite H1 in *. split_and!; [lia|done|done|].
  rewrite I3, H2. repeat case_Z; lia.
Qed.
End Pace.

Example ticks_run :
  ticks 100 3 (map Z.of_nat (seq 1000 400)) (Pace 0 0 0) = Ok ([1000; 1101; 1202], Pace 1202 202 2).
Proof. vm_compute. reflexivity. Qed.
